(* ===== verification/_CoqProject ===== *)
-Q . S2P
Prelude.v
Sha256.v
CanonicalJson.v
Grammar.v
Dag.v
PolicyModels.v
PolicyAuthority.v
RunModels.v
AuditLog.v
Capacity.v
Observations.v
Admission.v
WorkflowDomain.v
WorkflowCatalog.v
MigrationModels.v
MigrationAuthority.v
MigrationProtocol.v
MigrationSafety.v
MigrationReplay.v
MigrationShadow.v
MigrationExample.v
EconomicsTime.v
EconomicsModels.v
EconomicsService.v
EconomicsLedger.v
EconomicsIdentity.v
EconomicsAccounts.v
EconomicsDecisions.v
EconomicsSafety.v
EconomicsPages.v
EconomicsExample.v
Interaction.v
ProjectionModels.v
ProjectionPorts.v
ProjectionService.v
ProjectionSafety.v
ProjectionProgress.v
ProjectionPromotion.v
ProjectionExample.v
FoundationModels.v
FoundationRepository.v
FoundationService.v
FoundationSafety.v
FoundationRelease.v
FoundationIsolation.v
FoundationExample.v
RetrievalModels.v
RetrievalRepository.v
RetrievalService.v
RetrievalRanking.v
RetrievalSafety.v
RetrievalLifecycle.v
RetrievalRuns.v
RetrievalExample.v
