(* ===== verification/Prelude.v ===== *)
(** Arbora control plane: a verification development.

    The control plane ([src/arbora/control_plane/]) decides what an agent
    platform may run: policies and their approvals, the admission of runs,
    released workflows, staged data migrations, what usage costs and whether
    service objectives are met, how authoritative changes reach the graph, which
    tenant owns which identity, gateway version and release, and which chunks of
    which index generation a retrieval may return. It is written as frozen
    Pydantic models ([models.py], [domain.py]) and in-memory authorities over
    them ([repository.py], [admission.py], [authority.py]). Models are validated
    when they are built, carry content digests of their canonical JSON, and are
    passed between the authorities, which check references and digests before
    they write anything.

    * Conventions

    A model class is a [Record] with its fields in order; [validate_X] is the
    validation Pydantic runs, field constraints first, then the validators; a
    method of an authority is a computation in the monad [M] of this file, a
    state and a Python exception, in which the writes made before a [raise]
    stay. A method holds its lock for its whole body, so a call is one atomic
    step and sequences of calls are all the interleavings of concurrent callers.
    The readings of a clock are arguments. Projection and retrieval hold no lock
    across their adapter calls: their operations are trees of calls ([Interaction.prog]) that interleave at
    every call, and each call may fail before or after its effect. Dicts with string keys are [gmap]s;
    where insertion order or duplicates matter a list is kept. Machine-sized
    versions are [Z] with the bounds the code checks.

    * Files, and the source each models

    - [Prelude]: exceptions, [result], [M], loops, Python strings, sorting; the
      judgements [evolves] (the state only moves along a preorder) and [commits]
      (a method commits at most once), with their tactics.
    - [Sha256]: [hashlib.sha256], executable. [CanonicalJson]: [_canonical] and
      [canonical_digest], and that a digest determines its canonical value or
      exhibits a collision. [Grammar]: the identifier patterns, by derivatives.
      [Dag]: the ready-queue traversal of [runs/models.py] and
      [workflows/domain.py].
    - [PolicyModels], [PolicyAuthority]: [policy/models.py],
      [policy/repository.py]. The signature verifier is a parameter, with the
      in-memory exact verifier as its instance.
    - [RunModels], [AuditLog], [Capacity], [Observations], [Admission]:
      [runs/models.py], [audit.py], [capacity.py], [observations.py],
      [admission.py]. The authorization verifier of the admission is an
      interface that [PolicyAuthority] implements.
    - [WorkflowDomain], [WorkflowCatalog]: [workflows/domain.py],
      [workflows/repository.py]. The catalog is proved against the interfaces
      [BindingRegistry] and [WorkflowRepository] with its laws; the in-memory
      repository is an instance.
    - [MigrationModels], [MigrationAuthority]: [migrations/models.py],
      [errors.py], [authority.py]. [MigrationProtocol] is the abstract
      specification, a labelled transition system with its invariant;
      [MigrationSafety], [MigrationReplay] and [MigrationShadow] hold the
      theorems, [MigrationExample] a complete migration and their instances.

    - [EconomicsModels], [EconomicsService], [EconomicsLedger]:
      [economics/models.py], [service.py], [repository.py]. [EconomicsTime]:
      instants, the civil calendar, [isoformat] and its order.
      [EconomicsIdentity]: models with genuine derived identities. The theorems
      are in [EconomicsAccounts] (aggregation), [EconomicsDecisions] (lateness,
      objectives, reconciliation), [EconomicsSafety] (the ledger) and
      [EconomicsPages] (cursors); [EconomicsExample] holds their instances.
    - [Interaction]: programs that call adapters, their sequential runs, the
      rely/guarantee judgement [rg] and its soundness for a pool of programs.
      [ProjectionModels]: [projection/models.py]; [ProjectionPorts]:
      [protocols.py], [authority.py], [observability.py] and the contract of the
      adapters as a class of laws; [ProjectionService]: [projector.py],
      [repository.py]. The theorems are in [ProjectionSafety] (interleavings),
      [ProjectionProgress] (working adapters) and [ProjectionPromotion] (events
      and observations); [ProjectionExample] has in-memory adapters that meet the
      contract, schedules, and the instances.
    - [FoundationModels]: [foundation/models.py]; [FoundationRepository] and
      [FoundationService]: the in-memory repository and the service of
      [service.py], one dict of the repository being a [table], one method a
      definition of the same name. [FoundationSafety] has the invariant and that
      registrations keep it, [FoundationRelease] the specification of releases
      and histories of calls, [FoundationIsolation] the views of the tenants;
      [FoundationExample] holds fixtures and the instances.
    - [RetrievalModels]: [retrieval/models.py]; [RetrievalRepository]:
      [errors.py], [repository.py]; [RetrievalService]: [protocols.py],
      [service.py], as programs whose calls to the catalog and the cache are
      answered by the modelled code and whose calls to the clock, the authority
      and the engine are answered arbitrarily and logged. [RetrievalRanking]: the
      order of scores and the ranking; [RetrievalSafety]: invariant, rely and
      guarantee of retrievals; [RetrievalLifecycle]: cleanups, re-embeddings, pools
      and their theorems; [RetrievalRuns]: working adapters; [RetrievalExample]:
      the fixtures of the tests, the instances, and counterexamples to what the
      documentation promises.

    * What the theorems show

    - Policy: [authorize] and [verify_authorization] succeed exactly when the
      policy permits the operation with recorded evidence; authorizations
      revalidate at a later time exactly while their evidence lasts; recorded
      evidence is genuine and policies under a reference never change.
    - Runs: a run is admitted only with permission, atomically with its work
      item and audit events, once per identity; resolutions stay within their
      authorization; the audit log is append-only and tamper-evident; capacity
      is conserved; observations are monotonic.
    - Task and step graphs: the measures are exact on acyclic graphs and report
      a cycle exactly otherwise, so the loop always ends.
    - Workflows: digests identify definitions up to order; pointers fence stale
      writers; release, resolve and rollback are specified on every branch.
    - Migrations: provided plans are created without evidence, which
      [create_plan] does not check, the authority refines the staged protocol; a
      plan's state rests on its evidence; versions fence writers; accepted stage
      calls replay; reconciliations are the difference of their record sets; a
      migration can be rolled back until it is retired or the version of the plan
      or of its fence is exhausted. All stored models are valid. A requested
      rollback does not replay.
    - Economics: an aggregate holds every fact once with exact sums, and a day
      composed of hours is the aggregate of all their facts; lateness decisions,
      objective rollups and reconciliations are specified on every branch; ledger
      entries persist, price cards of a version exclude each other in time,
      watermarks only advance, and following the cursors of a query yields every
      matching row once, in order.
    - Projection: however projectors, cleanups, commits and promotions interleave,
      fail or crash, the graph holds a prefix of the outbox, cursors name what
      has been projected and never regress, and only safe calls are made; over
      working adapters a projector catches up and a rebuild restores any damage;
      created events revalidate and observations are promoted exactly under their
      policy.
    - Foundation: after any calls all references resolve within their tenant and
      records never change; an activation succeeds exactly when it is admissible;
      release histories are linear, activations of one target serialize, and what
      is released is live; a tenant's calls return what they would return if the
      other tenants did not exist, unless identities clash.
    - Retrieval: however retrievals, publications, cleanups and re-embeddings
      interleave or crash, evidence comes before cache, engine and ranking, what
      is returned is the best of what the engine found on allowed chunk keys, and
      failures are coded errors; generations move along their lifecycle, the current
      one stays active, deletions rest on the engine's checkpoint, and a failed
      cleanup can be repeated until it succeeds. Chunk keys are all that evidence
      is compared by, which is weaker than documented; what retrieval returns over
      working adapters ([retrieve_returns]) is stated for rows that have not drifted
      from the evidence and a cache with room.

    Digest theorems are stated up to an explicit SHA-256 collision of the two
    texts concerned; nothing is assumed about the hash.

    * Fuel

    The ready-queue loop runs on fuel: a node enters the queue when its degree
    reaches zero, so one unit per node is enough ([Dag.kahn_total]). The client
    that follows cursors ([EconomicsPages.follow]) runs on fuel as well: a page
    that has a successor is not empty, so more units than there are rows is
    enough, which [usage_pages_complete] states. So does the caller that drains
    an outbox ([ProjectionProgress.drain]): every batch that reports more advances
    the cursor, so more units than there are events left is enough, which
    [projection_catches_up] states.
    Everything else is structural recursion over lists.

    * Not modelled

    - Non-ASCII text beyond code point 255 and Unicode casefolding: strings are
      lists of 8-bit characters.
    - The rejection of extra and inline payload keys by the base models: records
      have no room for them.
    - The wording of Pydantic's error reports: a rejected model raises a
      [ValidationError] with the code of the first rule that fails.
    - Naive datetimes in economics: every instant is a count of microseconds, as
      [_ensure_utc] leaves it, and likewise in projection. [age_seconds] is kept in microseconds; it is
      compared with whole seconds only.
    - Float values in the summaries of projection events. The adapters behind
      the projection ports have no code in the repository: they are a class of
      laws, met by the adapters of [ProjectionExample].
    - Digests of retrieval models that hold a float score, whose JSON is not
      modelled; no operation reads them. Scores themselves are binary64 numbers.
    - The packages [agents], [sources], [connectors] and [webui] of the control
      plane: registries of the same build as the modelled ones (frozen models,
      content digests, an in-memory repository), left out for their extent. The
      rest of the repository is process orchestration, network and MCP adapters
      and presentation, whose behaviour lies in services and libraries outside
      it. *)
From stdpp Require Export base gmap sets list strings sorting relations.
From Stdlib Require Export ZArith Ascii.
From Stdlib Require Import Lia.

(** * Python exceptions

    An exception instance is its class with the classes it inherits from (the
    part of the MRO below [Exception] that the handlers of the source look at)
    and its [code]/message. A component declares one constructor function per
    exception class of its source file. *)
Record pyexn := PyExn {
  exn_mro : list string;   (** class name first, then its bases *)
  exn_code : string;       (** the stable machine code the exception carries *)
  exn_detail : string      (** the optional detail *)
}.

#[export] Instance pyexn_eq_dec : EqDecision pyexn.
Proof. solve_decision. Defined.

(** [isinstance(e, cls)] *)
Definition isinstance (e : pyexn) (cls : string) : bool :=
  bool_decide (cls ∈ exn_mro e).

Definition ValueError (code : string) : pyexn := PyExn ["ValueError"] code "".
Definition KeyError (key : string) : pyexn := PyExn ["KeyError"; "LookupError"] key "".
Definition AttributeError (name : string) : pyexn := PyExn ["AttributeError"] name "".
(** Pydantic's rejection of a model: a [ValueError] subclass. The model keeps
    the code of the first rule that fails. *)
Definition ValidationError (code : string) : pyexn :=
  PyExn ["ValidationError"; "ValueError"] code "".

(** * Fallible computations *)
Inductive result (A : Type) : Type :=
  | Ok (a : A)
  | Raise (e : pyexn).
Arguments Ok {A} _.
Arguments Raise {A} _.

#[export] Instance result_eq_dec `{EqDecision A} : EqDecision (result A).
Proof. solve_decision. Defined.
#[export] Instance result_ret : MRet result := λ _ a, Ok a.
#[export] Instance result_bind : MBind result := λ _ _ k m,
  match m with Ok a => k a | Raise e => Raise e end.
#[export] Instance result_throw : MThrow pyexn result := λ _ e, Raise e.

(** * Stateful fallible computations

    A method of a Python object runs on the object's state and either returns
    or raises; the mutations made before a [raise] persist, so the state comes
    back in both cases. *)
Definition M (S A : Type) : Type := S → result A * S.

#[export] Instance M_ret {S} : MRet (M S) := λ _ a s, (Ok a, s).
#[export] Instance M_bind {S} : MBind (M S) := λ _ _ k m s,
  match m s with
  | (Ok a, s') => k a s'
  | (Raise e, s') => (Raise e, s')
  end.
#[export] Instance M_throw {S} : MThrow pyexn (M S) := λ _ e s, (Raise e, s).

Definition get_state {S} : M S S := λ s, (Ok s, s).
Definition put_state {S} (s : S) : M S () := λ _, (Ok (), s).
Definition gets {S A} (f : S → A) : M S A := λ s, (Ok (f s), s).
Definition modify {S} (f : S → S) : M S () := λ s, (Ok (), f s).
(** A computation that cannot touch the state. *)
Definition lift {S A} (r : result A) : M S A := λ s, (r, s).

(** [if cond: raise e] *)
Definition raise_if {M : Type → Type} `{MRet M, MThrow pyexn M} (cond : bool) (e : pyexn) : M unit :=
  if cond then mthrow e else mret ().

(** [if x is None: raise e] *)
Definition require {M : Type → Type} `{MRet M, MThrow pyexn M} {A} (o : option A) (e : pyexn) : M A :=
  match o with Some a => mret a | None => mthrow e end.

(** [for x in xs: body(x)] for a body that only checks. *)
Fixpoint for_each {A} (body : A → result ()) (xs : list A) : result () :=
  match xs with
  | [] => Ok ()
  | x :: xs' => _ ← body x; for_each body xs'
  end.

(** [for x in xs: s = body(s, x)] for a body that updates [s] or raises. *)
Fixpoint for_fold {A S} (body : S → A → result S) (xs : list A) (s : S) : result S :=
  match xs with
  | [] => Ok s
  | x :: xs' => s' ← body s x; for_fold body xs' s'
  end.

(** [d[k]] on a dict with string keys *)
Definition dict_get {A} (d : gmap string A) (k : string) : result A :=
  match d !! k with Some a => Ok a | None => Raise (KeyError k) end.

(** A bounded loop stopped by its fuel: never a Python outcome. *)
Definition OutOfFuel : pyexn := PyExn ["OutOfFuel"] "" "".

(** Pydantic turns a [ValueError] raised by a validator into its own error. *)
Definition in_validator {A} (r : result A) : result A :=
  match r with
  | Raise e => Raise (if isinstance e "ValueError" then ValidationError (exn_code e) else e)
  | Ok a => Ok a
  end.

(** ** Laws and inversion lemmas *)
Lemma for_fold_app {A S} (body : S → A → result S) xs ys s :
  for_fold body (xs ++ ys) s = for_fold body xs s ≫= for_fold body ys.
Proof.
  revert s. induction xs as [|x xs IH]; intros s; cbn; [done|].
  destruct (body s x); cbn; [apply IH|done].
Qed.

(** Nested loops are one loop over the flattened sequence. *)
Lemma for_fold_concat {A B S} (f : S → B → result S) (g : A → list B) xs s :
  for_fold (λ s x, for_fold f (g x) s) xs s = for_fold f (concat (map g xs)) s.
Proof.
  revert s. induction xs as [|x xs IH]; intros s; cbn; [done|].
  rewrite for_fold_app. destruct (for_fold f (g x) s); cbn; [apply IH|done].
Qed.

Lemma in_validator_ok {A} (r : result A) a : in_validator r = Ok a ↔ r = Ok a.
Proof. by destruct r. Qed.

Lemma dict_get_ok {A} (d : gmap string A) k a : dict_get d k = Ok a ↔ d !! k = Some a.
Proof. unfold dict_get. destruct (d !! k); (split; intros E; inv E; done). Qed.

Lemma result_bind_ok {A B} (m : result A) (k : A → result B) b :
  m ≫= k = Ok b ↔ ∃ a, m = Ok a ∧ k a = Ok b.
Proof.
  destruct m; split; [by eauto|by intros (? & ? & ?); simplify_eq|done|].
  by intros (? & ? & ?).
Qed.

Lemma M_bind_ok {S A B} (m : M S A) (k : A → M S B) s b s' :
  (m ≫= k) s = (Ok b, s') ↔ ∃ a s1, m s = (Ok a, s1) ∧ k a s1 = (Ok b, s').
Proof.
  unfold mbind, M_bind. destruct (m s) as [[a|e] s1]; split; [by eauto| |done|];
    by intros (? & ? & ? & ?); simplify_eq.
Qed.

Lemma M_bind_raise {S A B} (m : M S A) (k : A → M S B) s e s' :
  (m ≫= k) s = (Raise e, s') ↔
  m s = (Raise e, s') ∨ ∃ a s1, m s = (Ok a, s1) ∧ k a s1 = (Raise e, s').
Proof.
  unfold mbind, M_bind. destruct (m s) as [[a|e'] s1]; split;
    [by eauto| |intros [= -> ->]; by left|];
    by intros [H|(? & ? & ? & ?)]; simplify_eq.
Qed.

Lemma raise_if_ok (b : bool) e : raise_if b e = Ok () ↔ b = false.
Proof. by destruct b. Qed.

Lemma require_ok {A} (o : option A) e a : require o e = Ok a ↔ o = Some a.
Proof. destruct o; (split; intros H; inv H; done). Qed.

Lemma for_each_ok {A} (body : A → result ()) xs :
  for_each body xs = Ok () ↔ Forall (λ x, body x = Ok ()) xs.
Proof.
  induction xs as [|x xs IH]; cbn; [by split|].
  rewrite Forall_cons, <- IH. destruct (body x) as [[]|]; cbn; by split; [|intros [? ?]].
Qed.

Lemma for_each_raise {A} (body : A → result ()) xs e :
  for_each body xs = Raise e → ∃ x, x ∈ xs ∧ body x = Raise e.
Proof.
  induction xs as [|x xs IH]; cbn; [done|].
  destruct (body x) as [[]|e'] eqn:E; intros H; simplify_eq/=;
    [apply IH in H as (y & ? & ?)|]; set_solver.
Qed.

Lemma result_bind_raise {A B} (m : result A) (k : A → result B) e :
  m ≫= k = Raise e ↔ m = Raise e ∨ ∃ a, m = Ok a ∧ k a = Raise e.
Proof.
  destruct m as [a|e']; split; [by eauto| |by intros [= ->]; left|];
    by intros [H|(? & ? & ?)]; simplify_eq.
Qed.

Lemma bool_decide_not_false (P : Prop) {dec : Decision P} : bool_decide (¬ P) = false ↔ P.
Proof. rewrite bool_decide_eq_false. split; [apply dec_stable|by intros ? ?]. Qed.

Lemma raise_if_run {S} b e (s : S) u s' : (raise_if b e : M S ()) s = (Ok u, s') → b = false ∧ s' = s.
Proof. destruct b; [done|]. by intros [= _ ->]. Qed.

Lemma require_run {S A} (o : option A) e (s : S) a s' : (require o e : M S A) s = (Ok a, s') → o = Some a ∧ s' = s.
Proof. destruct o; [|done]. by intros [= -> ->]. Qed.

(** Monadic code is run by unfolding the instances. *)
Ltac run_unfold :=
  unfold mbind, mret, mthrow, M_bind, M_ret, M_throw, result_bind, result_ret,
    result_throw, get_state, put_state, gets, modify, lift, raise_if, require in *.

(** The guards that a successful check leaves behind, as propositions. *)
Ltac guard_step :=
  match goal with
  | H : (_ ≫= _) = Ok _ |- _ =>
      let x := fresh "x" in let H' := fresh "Hok" in
      apply result_bind_ok in H as (x & H' & H)
  | H : (_ ≫= _) _ = (Ok _, _) |- _ =>
      let x := fresh "x" in let s := fresh "s" in let H' := fresh "Hok" in
      apply M_bind_ok in H as (x & s & H' & H)
  | H : raise_if (M := result) _ _ = Ok _ |- _ => apply raise_if_ok in H
  | H : require (M := result) _ _ = Ok _ |- _ => apply require_ok in H
  | H : in_validator _ = Ok _ |- _ => rewrite in_validator_ok in H
  | H : dict_get _ _ = Ok _ |- _ => apply dict_get_ok in H
  | H : for_each _ _ = Ok _ |- _ => apply for_each_ok in H
  | H : mret _ = Ok _ |- _ => injection H as H
  | H : Ok _ = Ok _ |- _ => injection H as H
  | H : Raise _ = Ok _ |- _ => discriminate H
  | H : Ok _ = Raise _ |- _ => discriminate H
  | H : mthrow _ = Ok _ |- _ => discriminate H
  | H : lift _ _ = (_, _) |- _ => unfold lift in H; injection H as H <-
  | H : get_state _ = (Ok _, _) |- _ => unfold get_state in H; injection H as <- <-
  | H : put_state _ _ = (Ok _, _) |- _ => unfold put_state in H; injection H as H
  | H : gets _ _ = (Ok _, _) |- _ => unfold gets in H; injection H as <- <-
  | H : modify _ _ = (Ok _, _) |- _ => unfold modify in H; injection H as H
  | H : mret _ _ = (_, _) |- _ => injection H as H <-
  | H : mthrow _ _ = (Ok _, _) |- _ => discriminate H
  | H : negb _ = false |- _ => apply negb_false_iff in H
  | H : negb _ = true |- _ => apply negb_true_iff in H
  | H : _ || _ = false |- _ => apply orb_false_iff in H as [? ?]
  | H : _ && _ = true |- _ => apply andb_true_iff in H as [? ?]
  | H : bool_decide (_ ≠ _) = false |- _ => apply bool_decide_not_false in H
  | H : bool_decide (_ ∉ _) = false |- _ => apply bool_decide_not_false in H
  | H : bool_decide _ = false |- _ => apply bool_decide_eq_false in H
  | H : bool_decide _ = true |- _ => apply bool_decide_eq_true in H
  | H : (_ <? _)%Z = false |- _ => apply Z.ltb_ge in H
  | H : (_ <? _)%Z = true |- _ => apply Z.ltb_lt in H
  | H : (_ <=? _)%Z = false |- _ => apply Z.leb_gt in H
  | H : (_ <=? _)%Z = true |- _ => apply Z.leb_le in H
  | H : (_ =? _)%Z = true |- _ => apply Z.eqb_eq in H
  | H : (_ =? _)%Z = false |- _ => apply Z.eqb_neq in H
  | H : () = () |- _ => clear H
  | x : unit |- _ => destruct x
  end.
Ltac guards := repeat guard_step.

(** Closed decidable goals by evaluation. *)
Ltac by_compute := refine (bool_decide_unpack _ _); vm_compute; exact I.

(** ** Frame reasoning

    [evolves R m]: whatever the outcome, the state after [m] is [R]-related to
    the state before. The combinators preserve it for a preorder [R], so only
    the writes of a method need an argument of their own. *)
Definition evolves {S A} (R : relation S) (m : M S A) : Prop :=
  ∀ s r s', m s = (r, s') → R s s'.

Section evolves.
Context {S : Type} (R : relation S) `{!PreOrder R}.

Lemma evolves_ret {A} (a : A) : evolves R (mret a).
Proof. by intros s r s' [= _ <-]. Qed.
Lemma evolves_throw {A} (e : pyexn) : evolves R (mthrow e : M S A).
Proof. by intros s r s' [= _ <-]. Qed.
Lemma evolves_lift {A} (x : result A) : evolves R (lift x).
Proof. by intros s r s' [= _ <-]. Qed.
Lemma evolves_get : evolves R get_state.
Proof. by intros s r s' [= _ <-]. Qed.
Lemma evolves_gets {A} (f : S → A) : evolves R (gets f).
Proof. by intros s r s' [= _ <-]. Qed.
Lemma evolves_raise_if b e : evolves R (raise_if b e).
Proof. destruct b; [apply evolves_throw|apply evolves_ret]. Qed.
Lemma evolves_require {A} (o : option A) e : evolves R (require o e).
Proof. destruct o; [apply evolves_ret|apply evolves_throw]. Qed.

Lemma evolves_bind {A B} (m : M S A) (k : A → M S B) :
  evolves R m → (∀ a, evolves R (k a)) → evolves R (m ≫= k).
Proof.
  intros Hm Hk s r s'. unfold mbind, M_bind.
  destruct (m s) as [[a|e] s1] eqn:E; apply Hm in E; [|by intros [= _ <-]].
  intros Hs%Hk. by etransitivity.
Qed.

(** Binding the current state: the continuation runs in that very state. *)
Lemma evolves_get_bind {B} (k : S → M S B) :
  (∀ s r s', k s s = (r, s') → R s s') → evolves R (get_state ≫= k).
Proof. intros Hk s r s' Hs. by eapply Hk. Qed.
End evolves.

Create HintDb evolves.
#[export] Hint Resolve evolves_ret evolves_throw evolves_lift evolves_get evolves_gets
  evolves_raise_if evolves_require : evolves.

(** Splits a method along its binds; the lemmas of the methods it calls are in
    the hint database. *)
Ltac evolve :=
  repeat first
    [ solve [auto 2 with evolves typeclass_instances]
    | apply evolves_bind; [apply _| |intros ?]
    | case_match ].

(** ** Methods that commit at most once

    [commits R m s]: run in [s], the method either leaves the state as it is,
    whether it returns or raises, or returns [a] in a state [s'] with [R a s'].
    The rules follow a method through its checks, collecting what each of them
    has established, up to the writes at its end. *)
Definition commits {S A} (R : A → S → Prop) (m : M S A) (s : S) : Prop :=
  ∀ r s', m s = (r, s') → s' = s ∨ ∃ a, r = Ok a ∧ R a s'.

Section commits.
Context {S : Type}.

Lemma commits_ret {A} (R : A → S → Prop) (a : A) s : commits R (mret a) s.
Proof. intros r s' [= _ <-]. by left. Qed.
Lemma commits_throw {A} (R : A → S → Prop) (e : pyexn) s : commits R (mthrow e : M S A) s.
Proof. intros r s' [= _ <-]. by left. Qed.
Lemma commits_lift {A B} (R : B → S → Prop) (x : result A) (k : A → M S B) s :
  (∀ a, x = Ok a → commits R (k a) s) → commits R (lift x ≫= k) s.
Proof.
  intros Hk r s'. unfold mbind, M_bind, lift. destruct x as [a|e]; [by apply Hk|]. intros [= _ <-]. by left.
Qed.
Lemma commits_raise_if {B} (R : B → S → Prop) b e (k : () → M S B) s :
  (b = false → commits R (k ()) s) → commits R (raise_if b e ≫= k) s.
Proof. intros Hk r s'. destruct b; [intros [= _ <-]; by left|by apply Hk]. Qed.
Lemma commits_require {A B} (R : B → S → Prop) (o : option A) e (k : A → M S B) s :
  (∀ a, o = Some a → commits R (k a) s) → commits R (require o e ≫= k) s.
Proof. intros Hk r s'. destruct o as [a|]; [by apply Hk|intros [= _ <-]; by left]. Qed.
Lemma commits_get {B} (R : B → S → Prop) (k : S → M S B) s :
  commits R (k s) s → commits R (get_state ≫= k) s.
Proof. intros Hk r s'. apply Hk. Qed.
Lemma commits_fail {A B} (R : B → S → Prop) (e : pyexn) (k : A → M S B) s : commits R ((mthrow e : M S A) ≫= k) s.
Proof. intros r s' [= _ <-]. by left. Qed.
Lemma commits_skip {A B} (R : B → S → Prop) (a : A) (k : A → M S B) s :
  commits R (k a) s → commits R (mret a ≫= k) s.
Proof. intros Hk r s'. apply Hk. Qed.
Lemma commits_done {A} (R : A → S → Prop) (m : M S A) s a s' :
  m s = (Ok a, s') → R a s' → commits R m s.
Proof. intros E HR r s''. rewrite E. intros [= <- <-]. right. by exists a. Qed.
End commits.

Ltac commit_step :=
  lazymatch goal with
  | |- commits _ (mret _) _ => apply commits_ret
  | |- commits _ (mthrow _) _ => apply commits_throw
  | |- commits _ (lift _ ≫= _) _ => apply commits_lift; intros ? ?
  | |- commits _ (raise_if _ _ ≫= _) _ => apply commits_raise_if; intros ?
  | |- commits _ (require _ _ ≫= _) _ => apply commits_require; intros ? ?
  | |- commits _ (get_state ≫= _) _ => apply commits_get
  end.

(** * Python strings *)
Definition py_startswith (s prefix : string) : bool := String.prefix prefix s.

Fixpoint string_drop (n : nat) (s : string) : string :=
  match n, s with
  | S n', String _ s' => string_drop n' s'
  | _, _ => s
  end.

Definition removeprefix (s prefix : string) : string :=
  if String.prefix prefix s then string_drop (String.length prefix) s else s.

Lemma string_drop_app p s : string_drop (String.length p) (p +:+ s) = s.
Proof. induction p as [|c p IH]; cbn; [done|]. apply IH. Qed.

Lemma prefix_app p s : String.prefix p (p +:+ s) = true.
Proof.
  induction p as [|c p IH]; [by destruct s|].
  change (String c p +:+ s) with (String c (p +:+ s)). cbn.
  by destruct (ascii_dec c c).
Qed.

Lemma removeprefix_app p s : removeprefix (p +:+ s) p = s.
Proof. unfold removeprefix. by rewrite prefix_app, string_drop_app. Qed.

(** [str.isspace] on the first 256 code points, what [str.strip] removes. *)
Definition is_py_space (c : ascii) : bool :=
  let n := N_of_ascii c in
  bool_decide ((9 ≤ n ∧ n ≤ 13) ∨ (28 ≤ n ∧ n ≤ 32) ∨ n = 133 ∨ n = 160)%N.

Fixpoint lstrip (s : string) : string :=
  match s with
  | String c s' => if is_py_space c then lstrip s' else s
  | EmptyString => EmptyString
  end.

Definition string_rev (s : string) : string :=
  String.string_of_list_ascii (rev (String.list_ascii_of_string s)).
Definition py_strip (s : string) : string := string_rev (lstrip (string_rev (lstrip s))).

(** [str.casefold] of an ASCII string. *)
Definition ascii_lower (c : ascii) : ascii :=
  let n := N_of_ascii c in
  if bool_decide (65 ≤ n ∧ n ≤ 90)%N then ascii_of_N (n + 32) else c.

Fixpoint casefold (s : string) : string :=
  match s with
  | EmptyString => EmptyString
  | String c s' => String (ascii_lower c) (casefold s')
  end.

(** [c in s] for a one-character string. *)
Fixpoint has_char (c : ascii) (s : string) : bool :=
  match s with
  | EmptyString => false
  | String c' s' => bool_decide (c = c') || has_char c s'
  end.

(** * Python collections *)

(** The order of tuples: the first comparison that decides *)
Definition then_cmp (c d : comparison) : comparison := match c with Eq => d | _ => c end.

(** [len(xs) != len(set(xs))] *)
Definition has_duplicates `{Countable A} (xs : list A) : bool :=
  bool_decide (length xs ≠ size (list_to_set xs : gset A)).

Lemma list_to_set_size_le `{Countable A} (xs : list A) :
  size (list_to_set xs : gset A) ≤ length xs.
Proof.
  induction xs as [|x xs IH]; cbn [list_to_set length]; [by rewrite size_empty|].
  rewrite size_union_alt, size_singleton.
  pose proof (subseteq_size (list_to_set xs ∖ {[x]} : gset A) (list_to_set xs)
    ltac:(set_solver)). lia.
Qed.

Lemma list_to_set_size_NoDup `{Countable A} (xs : list A) :
  length xs = size (list_to_set xs : gset A) ↔ NoDup xs.
Proof.
  split; [|intros ?; by rewrite size_list_to_set].
  induction xs as [|x xs IH]; [constructor|]. cbn [length list_to_set]. intros E.
  destruct (decide (x ∈ xs)) as [Hin|Hin].
  - exfalso. assert ({[x]} ∪ list_to_set xs = (list_to_set xs : gset A)) as Hs by set_solver.
    rewrite Hs in E. pose proof (list_to_set_size_le xs). lia.
  - constructor; [done|]. apply IH.
    rewrite size_union, size_singleton in E by set_solver. lia.
Qed.

Lemma has_duplicates_false `{Countable A} (xs : list A) :
  has_duplicates xs = false ↔ NoDup xs.
Proof.
  unfold has_duplicates. rewrite bool_decide_eq_false, <- list_to_set_size_NoDup.
  destruct (decide (length xs = size (list_to_set xs : gset A))); naive_solver.
Qed.

(** [max(values, default=0)] of non-negative integers *)
Definition max_default (values : list Z) : Z := foldr Z.max 0%Z values.

Lemma max_default_le (l : list Z) x : x ∈ l → (x ≤ max_default l)%Z.
Proof. induction 1 as [|x y l _ IH]; cbn; [lia|]. fold (max_default l). lia. Qed.

Lemma max_default_in (l : list Z) : (∀ x, x ∈ l → 0 ≤ x)%Z → l = [] ∨ max_default l ∈ l.
Proof.
  induction l as [|x l IH]; intros Hpos; [by left|right]. cbn. fold (max_default l).
  pose proof (Hpos x ltac:(by left)) as Hx.
  destruct IH as [->|IH]; [set_solver| |].
  - cbn. rewrite Z.max_l by lia. by left.
  - destruct (Z.max_spec x (max_default l)) as [[_ ->]|[_ ->]]; set_solver.
Qed.

Lemma existsb_false {A} (f : A → bool) l : existsb f l = false ↔ ∀ x, x ∈ l → f x = false.
Proof.
  rewrite <- not_true_iff_false, existsb_exists. split.
  - intros Hn x Hx. apply not_true_iff_false. intros Hf. apply Hn. exists x.
    by rewrite <- list_elem_of_In.
  - intros Hf (x & Hx & E). apply list_elem_of_In in Hx. rewrite Hf in E; done.
Qed.

Lemma elem_of_concat {A} (x : A) ls : x ∈ concat ls ↔ ∃ l, x ∈ l ∧ l ∈ ls.
Proof. induction ls as [|l ls IH]; cbn; [set_solver|]. rewrite elem_of_app, IH. set_solver. Qed.

Lemma filter_ext_in {A} (P Q : A → Prop) `{!∀ x, Decision (P x), !∀ x, Decision (Q x)} (l : list A) :
  (∀ x, x ∈ l → P x ↔ Q x) → filter P l = filter Q l.
Proof.
  induction l as [|x l IH]; intros HPQ; [done|]. rewrite !filter_cons, IH by set_solver.
  by rewrite (decide_ext (P x) (Q x)) by (apply HPQ; set_solver).
Qed.

(** ** Stable [sorted(xs, key=key)] for a string key. *)
Section sort_by.
Context {A : Type} (key : A → string).

Fixpoint insert_by (x : A) (l : list A) : list A :=
  match l with
  | [] => [x]
  | y :: l' => if decide (String.le (key x) (key y)) then x :: y :: l' else y :: insert_by x l'
  end.

Definition sort_by (l : list A) : list A := foldr insert_by [] l.

Definition key_le (x y : A) : Prop := String.le (key x) (key y).

Lemma insert_by_perm x l : insert_by x l ≡ₚ x :: l.
Proof.
  induction l as [|y l IH]; cbn; [done|]. case_decide; [done|].
  rewrite IH. apply Permutation_swap.
Qed.

Lemma sort_by_perm l : sort_by l ≡ₚ l.
Proof. induction l as [|x l IH]; cbn; [done|]. by rewrite insert_by_perm, IH. Qed.

Lemma insert_by_sorted x l : StronglySorted key_le l → StronglySorted key_le (insert_by x l).
Proof.
  induction 1 as [|y l Hs IH Hy]; cbn; [by repeat constructor|].
  case_decide as Hxy.
  - constructor; [by constructor|]. constructor; [done|].
    eapply Forall_impl; [exact Hy|]. intros z. unfold key_le. by transitivity (key y).
  - constructor; [done|]. rewrite insert_by_perm. constructor; [|done].
    unfold key_le. by destruct (total String.le (key x) (key y)).
Qed.

Lemma sort_by_sorted l : StronglySorted key_le (sort_by l).
Proof. induction l; cbn; [constructor|]. by apply insert_by_sorted. Qed.

(** With distinct keys the sorted list is determined by its elements. *)
Lemma sorted_key_unique l1 l2 :
  NoDup (key <$> l1) → StronglySorted key_le l1 → StronglySorted key_le l2 →
  l1 ≡ₚ l2 → l1 = l2.
Proof.
  intros Hnd Hs1 Hs2 HP.
  refine (StronglySorted_unique_strong key_le l1 l2 _ Hs1 Hs2 HP).
  intros x y Hx Hy Hxy Hyx.
  assert (key x = key y) as E by (by apply (anti_symm String.le)).
  rewrite <- HP in Hy. clear -Hnd Hx Hy E.
  induction l1 as [|z l1 IH]; [set_solver|]. inv Hnd.
  apply elem_of_cons in Hx as [->|Hx]; apply elem_of_cons in Hy as [->|Hy]; try done.
  - exfalso. apply H1. rewrite E. by apply list_elem_of_fmap_2.
  - exfalso. apply H1. rewrite <- E. by apply list_elem_of_fmap_2.
  - by apply IH.
Qed.

Lemma sort_by_unique l1 l2 :
  NoDup (key <$> l1) → l1 ≡ₚ l2 → sort_by l1 = sort_by l2.
Proof.
  intros Hnd HP. apply sorted_key_unique; try apply sort_by_sorted.
  - by rewrite sort_by_perm.
  - by rewrite !sort_by_perm.
Qed.

Lemma elem_of_sort_by x l : x ∈ sort_by l ↔ x ∈ l.
Proof. by rewrite sort_by_perm. Qed.

Lemma sort_by_id l : StronglySorted key_le l → sort_by l = l.
Proof.
  induction 1 as [|x l Hs IH Hx]; cbn; [done|]. fold (sort_by l). rewrite IH.
  destruct l as [|y l]; [done|]. cbn. rewrite decide_True; [done|].
  by inv Hx.
Qed.
End sort_by.

(** [sorted(xs)] on strings. *)
Definition py_sorted : list string → list string := sort_by id.

Lemma py_sorted_perm l : py_sorted l ≡ₚ l.
Proof. apply sort_by_perm. Qed.

Lemma elem_of_py_sorted x l : x ∈ py_sorted l ↔ x ∈ l.
Proof. apply elem_of_sort_by. Qed.

Lemma py_sorted_unique l1 l2 : l1 ≡ₚ l2 → py_sorted l1 = py_sorted l2.
Proof.
  intros HP. apply (StronglySorted_unique String.le);
    [apply (sort_by_sorted id)..|]. by rewrite !py_sorted_perm.
Qed.
