(* ===== verification/Sha256.v ===== *)
(** SHA-256 (FIPS 180-4), the [hashlib.sha256] of the Python standard library.

    Every content digest of the control plane is the hexadecimal SHA-256 of a
    canonical JSON text, so the model carries the real function rather than an
    uninterpreted one: a 32-bit word is a primitive 63-bit integer masked to 32
    bits, and [hexdigest] evaluates under [vm_compute] and in the kernel. The
    only fact the theorems use is the shape of a digest, 64 lowercase
    hexadecimal digits ([hexdigest_length], [hexdigest_hex]); the NIST vectors
    at the end of the file tie the definition to the standard. *)
From Corelib Require Import PrimInt63.
From Stdlib Require Import Uint63 Ascii.
From stdpp Require Import base list list_numbers strings.
Local Open Scope uint63_scope.

Definition mask32 (x : int) : int := x land 0xffffffff.
Definition add32 (x y : int) : int := mask32 (x + y).
Definition rotr (x n : int) : int := (x >> n) lor (mask32 (x << (32 - n))).

Definition big_sigma0 (x : int) : int := (rotr x 2) lxor (rotr x 13) lxor (rotr x 22).
Definition big_sigma1 (x : int) : int := (rotr x 6) lxor (rotr x 11) lxor (rotr x 25).
Definition small_sigma0 (x : int) : int := (rotr x 7) lxor (rotr x 18) lxor (x >> 3).
Definition small_sigma1 (x : int) : int := (rotr x 17) lxor (rotr x 19) lxor (x >> 10).
Definition ch (x y z : int) : int := (x land y) lxor ((x lxor 0xffffffff) land z).
Definition maj (x y z : int) : int := (x land y) lxor (x land z) lxor (y land z).

(** The constants of the standard, from their definition: the first 32 bits of
    the fractional parts of the cube roots (round constants) and square roots
    (initial hash) of the first primes. *)
Definition is_prime (n : Z) : bool :=
  forallb (λ d, negb (Z.eqb (n mod d) 0)) (seqZ 2 (Z.sqrt n - 1)).
Definition first_primes (count : nat) : list Z := take count (List.filter is_prime (seqZ 2 310)).

(** The integer cube root, bit by bit from bit 35. *)
Definition cube_root (n : Z) : Z :=
  foldr (λ bit r, let r' := (r + 2 ^ bit)%Z in if Z.leb (r' * r' * r') n then r' else r) 0%Z (seqZ 0 36).

Definition fraction_bits (root : Z) : int := of_Z (root mod 2 ^ 32)%Z.

Definition round_constants : list int :=
  Eval vm_compute in map (λ p, fraction_bits (cube_root (p * 2 ^ 96)%Z)) (first_primes 64).

Record hash_state := HashState {
  h0 : int; h1 : int; h2 : int; h3 : int; h4 : int; h5 : int; h6 : int; h7 : int }.

Definition initial_hash : hash_state :=
  Eval vm_compute in
  match map (λ p, fraction_bits (Z.sqrt (p * 2 ^ 64)%Z)) (first_primes 8) with
  | [a; b; c; d; e; f; g; h] => HashState a b c d e f g h
  | _ => HashState 0 0 0 0 0 0 0 0
  end.

Definition round (s : hash_state) (k w : int) : hash_state :=
  let t1 := add32 (h7 s) (add32 (big_sigma1 (h4 s))
              (add32 (ch (h4 s) (h5 s) (h6 s)) (add32 k w))) in
  let t2 := add32 (big_sigma0 (h0 s)) (maj (h0 s) (h1 s) (h2 s)) in
  HashState (add32 t1 t2) (h0 s) (h1 s) (h2 s) (add32 (h3 s) t1) (h4 s) (h5 s) (h6 s).

(** The message schedule is a sliding window of sixteen words: round [t] uses
    its head, and the word of round [t + 16] is appended. *)
Definition next_word (w : list int) : int :=
  match w with
  | [w0; w1; _; _; _; _; _; _; _; w9; _; _; _; _; w14; _] =>
      add32 (small_sigma1 w14) (add32 w9 (add32 (small_sigma0 w1) w0))
  | _ => 0
  end.

Fixpoint rounds (ks : list int) (w : list int) (s : hash_state) : hash_state :=
  match ks with
  | [] => s
  | k :: ks' => rounds ks' (tail w ++ [next_word w]) (round s k (hd 0 w))
  end.

Definition compress (s : hash_state) (block : list int) : hash_state :=
  let r := rounds round_constants block s in
  HashState (add32 (h0 s) (h0 r)) (add32 (h1 s) (h1 r)) (add32 (h2 s) (h2 r))
            (add32 (h3 s) (h3 r)) (add32 (h4 s) (h4 r)) (add32 (h5 s) (h5 r))
            (add32 (h6 s) (h6 r)) (add32 (h7 s) (h7 r)).

(** ** Padding and blocks *)
Definition byte_of_ascii (c : ascii) : int :=
  match c with
  | Ascii b0 b1 b2 b3 b4 b5 b6 b7 =>
      let bit (b : bool) (v : int) := if b then v else 0 in
      bit b0 1 + bit b1 2 + bit b2 4 + bit b3 8 + bit b4 16 + bit b5 32 + bit b6 64 + bit b7 128
  end.

Fixpoint bytes_of_string (s : string) : list int :=
  match s with
  | EmptyString => []
  | String c s' => byte_of_ascii c :: bytes_of_string s'
  end.

Definition int_of_nat (n : nat) : int := Uint63.of_Z (Z.of_nat n).

Definition be64 (x : int) : list int :=
  map (λ i, (x >> i) land 0xff) [56; 48; 40; 32; 24; 16; 8; 0].

(** Zero bytes after the [0x80] marker: the padded length is a multiple of 64. *)
Definition zero_padding (len : nat) : nat := ((119 - len mod 64) mod 64)%nat.

Definition pad (msg : list int) : list int :=
  let len := length msg in
  msg ++ 0x80 :: replicate (zero_padding len) 0 ++ be64 (int_of_nat len * 8).

Fixpoint words_of_bytes (bs : list int) : list int :=
  match bs with
  | a :: b :: c :: d :: rest =>
      ((a << 24) lor (b << 16) lor (c << 8) lor d) :: words_of_bytes rest
  | _ => []
  end.

(** One block is sixteen words; [fuel] bounds the number of blocks, and the
    number of words is enough of it. *)
Fixpoint absorb (fuel : nat) (ws : list int) (s : hash_state) : hash_state :=
  match fuel, ws with
  | S fuel', _ :: _ => absorb fuel' (drop 16 ws) (compress s (take 16 ws))
  | _, _ => s
  end.

(** ** Hexadecimal output *)
Definition hex_digit (n : int) : ascii :=
  if n =? 0 then "0"%char else
  if n =? 1 then "1"%char else
  if n =? 2 then "2"%char else
  if n =? 3 then "3"%char else
  if n =? 4 then "4"%char else
  if n =? 5 then "5"%char else
  if n =? 6 then "6"%char else
  if n =? 7 then "7"%char else
  if n =? 8 then "8"%char else
  if n =? 9 then "9"%char else
  if n =? 10 then "a"%char else
  if n =? 11 then "b"%char else
  if n =? 12 then "c"%char else
  if n =? 13 then "d"%char else
  if n =? 14 then "e"%char else
  "f"%char.

Definition hex_word (x : int) : list ascii :=
  map (λ i, hex_digit ((x >> i) land 0xf)) [28; 24; 20; 16; 12; 8; 4; 0].

Definition hex_state (s : hash_state) : list ascii :=
  hex_word (h0 s) ++ hex_word (h1 s) ++ hex_word (h2 s) ++ hex_word (h3 s)
  ++ hex_word (h4 s) ++ hex_word (h5 s) ++ hex_word (h6 s) ++ hex_word (h7 s).

Definition sha256_state (msg : string) : hash_state :=
  let ws := words_of_bytes (pad (bytes_of_string msg)) in
  absorb (length ws) ws initial_hash.

(** [hashlib.sha256(payload).hexdigest()] *)
Definition hexdigest (msg : string) : string :=
  String.string_of_list_ascii (hex_state (sha256_state msg)).

(** ** The shape of a digest *)
Definition is_hex (c : ascii) : bool :=
  match c with
  | "0" | "1" | "2" | "3" | "4" | "5" | "6" | "7" | "8" | "9"
  | "a" | "b" | "c" | "d" | "e" | "f" => true
  | _ => false
  end%char.

Lemma hex_digit_hex n : is_hex (hex_digit n) = true.
Proof. unfold hex_digit. repeat case_match; reflexivity. Qed.

Lemma hex_word_hex x : Forall (λ c, is_hex c = true) (hex_word x).
Proof. repeat constructor; apply hex_digit_hex. Qed.

Lemma hexdigest_hex msg :
  Forall (λ c, is_hex c = true) (String.list_ascii_of_string (hexdigest msg)).
Proof.
  unfold hexdigest. rewrite String.list_ascii_of_string_of_list_ascii.
  unfold hex_state. rewrite !Forall_app. repeat split; apply hex_word_hex.
Qed.

Lemma hexdigest_length msg :
  length (String.list_ascii_of_string (hexdigest msg)) = 64%nat.
Proof.
  unfold hexdigest. by rewrite String.list_ascii_of_string_of_list_ascii.
Qed.

(** ** NIST vectors *)
Example sha256_empty :
  hexdigest "" = "e3b0c44298fc1c149afbf4c8996fb92427ae41e4649b934ca495991b7852b855".
Proof. vm_compute. reflexivity. Qed.

Example sha256_abc :
  hexdigest "abc" = "ba7816bf8f01cfea414140de5dae2223b00361a396177a9cb410ff61f20015ad".
Proof. vm_compute. reflexivity. Qed.

Example sha256_two_blocks :
  hexdigest "abcdbcdecdefdefgefghfghighijhijkijkljklmklmnlmnomnopnopq"
  = "248d6a61d20638b8e5c026930c3e6039a33ce45964ff2167f6ecedd419db06c1".
Proof. vm_compute. reflexivity. Qed.
