(* ===== verification/CanonicalJson.v ===== *)
(** Canonical JSON and content digests.

    [control_plane/policy/models.py], [control_plane/workflows/domain.py] and
    [control_plane/migrations/models.py] each hold the same pair of functions:
    [_canonical] rebuilds a value with every mapping sorted by key, and the
    digest is the SHA-256 of [json.dumps(..., ensure_ascii=True,
    separators=(",", ":"), sort_keys=True)]. This file models the text
    [json.dumps] writes ([dumps]), the canonical form ([canonical]) and the
    digest ([canonical_digest]), and proves that the text determines the
    canonical value ([dumps_inj]): equal digests mean equal canonical values,
    or an explicit SHA-256 collision ([canonical_digest_inj]).

    A Python [str] is a [string] of code points below 256. *)
From S2P Require Export Prelude.
From S2P Require Import Sha256.
From stdpp Require Import pretty.
#[local] Set Warnings "-register-all".

Inductive json : Type :=
  | JNull
  | JBool (b : bool)
  | JInt (n : Z)
  | JStr (s : string)
  | JArr (vs : list json)
  | JObj (fields : list (string * json)).

Section json_ind.
Variable P : json → Prop.
Hypothesis HNull : P JNull.
Hypothesis HBool : ∀ b, P (JBool b).
Hypothesis HInt : ∀ n, P (JInt n).
Hypothesis HStr : ∀ s, P (JStr s).
Hypothesis HArr : ∀ vs, Forall P vs → P (JArr vs).
Hypothesis HObj : ∀ fs, Forall (λ kv, P kv.2) fs → P (JObj fs).

Fixpoint json_ind' (v : json) : P v :=
  match v with
  | JNull => HNull
  | JBool b => HBool b
  | JInt n => HInt n
  | JStr s => HStr s
  | JArr vs => HArr vs
      ((fix go (l : list json) : Forall P l :=
          match l with
          | [] => Forall_nil_2 P
          | x :: l' => Forall_cons_2 P x l' (json_ind' x) (go l')
          end) vs)
  | JObj fs => HObj fs
      ((fix go (l : list (string * json)) : Forall (λ kv, P kv.2) l :=
          match l with
          | [] => Forall_nil_2 _
          | kv :: l' => Forall_cons_2 _ kv l' (json_ind' kv.2) (go l')
          end) fs)
  end.
End json_ind.

(** ** The text of [json.dumps] with [ensure_ascii] and compact separators *)
Definition chars (s : string) : list ascii := String.list_ascii_of_string s.

Definition hex4 (c : ascii) : list ascii :=
  let d (n : N) := if bool_decide (n < 10)%N then ascii_of_N (48 + n) else ascii_of_N (87 + n) in
  let n := N_of_ascii c in
  ["0"%char; "0"%char; d (n / 16)%N; d (n mod 16)%N].

(** [ESCAPE_ASCII]: the short escapes, and a [u]-escape for the rest of what
    is not printable ASCII. *)
Definition escape (c : ascii) : list ascii :=
  let n := N_of_ascii c in
  if bool_decide (n = 34)%N then ["092"%char; c]
  else if bool_decide (n = 92)%N then ["092"%char; c]
  else if bool_decide (n = 10)%N then ["092"%char; "n"%char]
  else if bool_decide (n = 13)%N then ["092"%char; "r"%char]
  else if bool_decide (n = 9)%N then ["092"%char; "t"%char]
  else if bool_decide (n = 12)%N then ["092"%char; "f"%char]
  else if bool_decide (n = 8)%N then ["092"%char; "b"%char]
  else if bool_decide (32 ≤ n ∧ n ≤ 126)%N then [c]
  else "092"%char :: "u"%char :: hex4 c.

Definition dquote : ascii := ascii_of_N 34.

Definition quote (s : string) : list ascii :=
  dquote :: concat (map escape (chars s)) ++ [dquote].

Definition join_comma (ts : list (list ascii)) : list ascii :=
  match ts with
  | [] => []
  | t :: ts' => t ++ concat (map (cons ","%char) ts')
  end.

Fixpoint dumps (v : json) : list ascii :=
  match v with
  | JNull => chars "null"
  | JBool true => chars "true"
  | JBool false => chars "false"
  | JInt n => chars (pretty n)
  | JStr s => quote s
  | JArr vs => "["%char :: join_comma (map dumps vs) ++ ["]"%char]
  | JObj fs => "{"%char :: join_comma (map (λ kv, quote kv.1 ++ ":"%char :: dumps kv.2) fs) ++ ["}"%char]
  end.

(** ** Sorted keys and the digest *)
Fixpoint sort_keys (v : json) : json :=
  match v with
  | JArr vs => JArr (map sort_keys vs)
  | JObj fs => JObj (sort_by fst (map (λ kv, (kv.1, sort_keys kv.2)) fs))
  | _ => v
  end.

(** [_canonical]: containers rebuilt with sorted keys, leaves as they are. *)
Definition canonical (v : json) : json := sort_keys v.

(** [json.dumps(v, ensure_ascii=True, separators=(",", ":"), sort_keys=True)] *)
Definition json_dumps (v : json) : string :=
  String.string_of_list_ascii (dumps (sort_keys v)).

Definition payload (v : json) : string := json_dumps (canonical v).

Definition canonical_digest (v : json) : string := "sha256:" +:+ hexdigest (payload v).

(** A dict literal of a model dump with [exclude_none=True]. *)
Definition opt_field {A} (k : string) (f : A → json) (o : option A) : list (string * json) :=
  match o with Some a => [(k, f a)] | None => [] end.

(** The same entry of a dump that keeps [None]. *)
Definition null_or {A} (f : A → json) (o : option A) : json :=
  match o with Some a => f a | None => JNull end.

Definition JStrs (l : list string) : json := JArr (map JStr l).

(** * Canonical forms *)
Lemma key_le_fst_map (f : json → json) (l : list (string * json)) :
  StronglySorted (key_le fst) l → StronglySorted (key_le fst) (map (λ kv, (kv.1, f kv.2)) l).
Proof.
  induction 1 as [|kv l Hs IH Hkv]; cbn; constructor; [done|].
  apply Forall_fmap. eapply Forall_impl; [exact Hkv|]. done.
Qed.

Lemma sort_keys_idem v : sort_keys (sort_keys v) = sort_keys v.
Proof.
  induction v as [| | | |vs IH|fs IH] using json_ind'; cbn; try done.
  - f_equal. rewrite map_map. apply map_ext_Forall. exact IH.
  - f_equal. set (l := map (λ kv, (kv.1, sort_keys kv.2)) fs).
    assert (map (λ kv, (kv.1, sort_keys kv.2)) (sort_by fst l) = sort_by fst l) as ->.
    { rewrite <- (map_id (sort_by fst l)) at 2. apply map_ext_Forall.
      rewrite sort_by_perm. subst l. apply Forall_fmap.
      eapply Forall_impl; [exact IH|]. intros [k x] E; cbn in *. by rewrite E. }
    apply sort_by_id, sort_by_sorted.
Qed.

Lemma canonical_idem v : canonical (canonical v) = canonical v.
Proof. apply sort_keys_idem. Qed.

Lemma payload_dumps v : payload v = String.string_of_list_ascii (dumps (canonical v)).
Proof. unfold payload, json_dumps, canonical. by rewrite sort_keys_idem. Qed.

(** * The text determines the value *)

(** ** Integers: [-]?[0-9]+ *)
Definition is_digit (c : ascii) : bool :=
  let n := N_of_ascii c in bool_decide (48 ≤ n ∧ n ≤ 57)%N.

(** What may follow an integer in a JSON text. *)
Definition no_digit (r : list ascii) : Prop :=
  match r with [] => True | c :: _ => is_digit c = false end.

Lemma pretty_N_char_digit n : is_digit (pretty_N_char n) = true.
Proof. destruct n as [|p]; [done|]. do 4 (destruct p as [p|p|]; try done). Qed.

Lemma pretty_N_go_digits x s :
  Forall (λ c, is_digit c = true) (chars s) →
  Forall (λ c, is_digit c = true) (chars (pretty_N_go x s)).
Proof.
  revert s. induction (N.lt_wf_0 x) as [x _ IH]; intros s Hs.
  destruct (decide (x = 0)%N) as [->|Hx]; [done|].
  rewrite pretty_N_go_step by lia. apply IH; [by apply N.div_lt; lia|].
  constructor; [apply pretty_N_char_digit|done].
Qed.

Lemma pretty_N_digits (x : N) : Forall (λ c, is_digit c = true) (chars (pretty x)).
Proof.
  unfold pretty, pretty_N. case_decide; [by repeat constructor|]. by apply pretty_N_go_digits.
Qed.

Lemma chars_inj s1 s2 : chars s1 = chars s2 → s1 = s2.
Proof.
  intros E. rewrite <- (String.string_of_list_ascii_of_string s1),
    <- (String.string_of_list_ascii_of_string s2). unfold chars in E. by rewrite E.
Qed.

Lemma digits_app_inj l1 l2 r1 r2 :
  Forall (λ c, is_digit c = true) l1 → Forall (λ c, is_digit c = true) l2 →
  no_digit r1 → no_digit r2 → l1 ++ r1 = l2 ++ r2 → l1 = l2 ∧ r1 = r2.
Proof.
  intros H1. revert l2. induction H1 as [|c l1 Hc H1 IH]; intros l2 H2 Hr1 Hr2 E; cbn in E.
  - destruct H2 as [|c l2 Hc H2]; [done|]. subst r1. cbn in Hr1. congruence.
  - destruct H2 as [|c' l2 Hc' H2].
    + cbn in E. subst r2. cbn in Hr2. congruence.
    + cbn in E. simplify_eq. destruct (IH l2) as [-> ->]; done.
Qed.

(** The digits of [n] and whether a minus sign stands before them. *)
Lemma pretty_Z_split (n : Z) :
  chars (pretty n) = (if decide (n < 0)%Z then ["-"%char] else []) ++ chars (pretty (Z.abs_N n)).
Proof. destruct n as [|p|p]; done. Qed.

Lemma pretty_N_nonempty (x : N) : chars (pretty x) ≠ [].
Proof.
  intros E. assert (pretty x = "") as E' by (by apply chars_inj).
  pose proof (f_equal String.length E') as EL. revert EL. unfold pretty, pretty_N.
  case_decide; [done|]. rewrite pretty_N_go_step by lia.
  enough (∀ y s, String.length s ≤ String.length (pretty_N_go y s)) as Hle.
  { specialize (Hle (x `div` 10)%N (String (pretty_N_char (x `mod` 10)) "")). cbn in *. lia. }
  clear. intros y. induction (N.lt_wf_0 y) as [y _ IH]; intros s.
  destruct (decide (y = 0)%N) as [->|Hy]; [done|]. rewrite pretty_N_go_step by lia.
  etrans; [|apply IH; by apply N.div_lt; lia]. cbn. lia.
Qed.

Lemma int_app_inj (n1 n2 : Z) r1 r2 :
  no_digit r1 → no_digit r2 →
  chars (pretty n1) ++ r1 = chars (pretty n2) ++ r2 → n1 = n2 ∧ r1 = r2.
Proof.
  intros Hr1 Hr2. rewrite !pretty_Z_split.
  pose proof (pretty_N_digits (Z.abs_N n1)) as D1.
  pose proof (pretty_N_digits (Z.abs_N n2)) as D2.
  pose proof (pretty_N_nonempty (Z.abs_N n1)). pose proof (pretty_N_nonempty (Z.abs_N n2)).
  assert (Hfin : chars (pretty (Z.abs_N n1)) ++ r1 = chars (pretty (Z.abs_N n2)) ++ r2 →
    Z.abs_N n1 = Z.abs_N n2 ∧ r1 = r2).
  { intros E. apply digits_app_inj in E as [E ->]; [|done..].
    split; [|done]. by apply chars_inj, (inj pretty) in E. }
  do 2 case_decide; cbn; intros E.
  - injection E as E. apply Hfin in E as [? ->]. split; [lia|done].
  - destruct D2 as [|c l Hc]; [done|]. cbn in E. by simplify_eq.
  - destruct D1 as [|c l Hc]; [done|]. cbn in E. by simplify_eq.
  - apply Hfin in E as [? ->]. split; [lia|done].
Qed.

(** ** String literals *)
Lemma escape_app_inj c1 c2 r1 r2 : escape c1 ++ r1 = escape c2 ++ r2 → c1 = c2 ∧ r1 = r2.
Proof.
  pose (dec := λ l : list ascii, match l with
    | "092"%char :: x :: r =>
        if bool_decide (x = "u"%char) then
          match r with
          | _ :: _ :: a :: b :: r' =>
              let v (h : ascii) := if is_digit h then (N_of_ascii h - 48)%N else (N_of_ascii h - 87)%N in
              Some (ascii_of_N (v a * 16 + v b)%N, r')
          | _ => None
          end
        else if bool_decide (x = "n"%char) then Some (ascii_of_N 10, r)
        else if bool_decide (x = "r"%char) then Some (ascii_of_N 13, r)
        else if bool_decide (x = "t"%char) then Some (ascii_of_N 9, r)
        else if bool_decide (x = "f"%char) then Some (ascii_of_N 12, r)
        else if bool_decide (x = "b"%char) then Some (ascii_of_N 8, r)
        else Some (x, r)
    | x :: r => Some (x, r)
    | [] => None
    end).
  assert (Hdec : ∀ c r, dec (escape c ++ r) = Some (c, r)).
  { intros [[] [] [] [] [] [] [] []] r; reflexivity. }
  intros E. apply (f_equal dec) in E. rewrite !Hdec in E. by simplify_eq.
Qed.

Lemma escape_not_quote c r : ∃ x l, escape c ++ r = x :: l ∧ x ≠ dquote.
Proof. destruct c as [[] [] [] [] [] [] [] []]; by eexists _, _. Qed.

#[local] Opaque dquote.

Lemma quote_app_inj s1 s2 r1 r2 : quote s1 ++ r1 = quote s2 ++ r2 → s1 = s2 ∧ r1 = r2.
Proof.
  unfold quote. cbn. intros [= E]. rewrite <- !app_assoc in E. cbn in E.
  enough (chars s1 = chars s2 ∧ r1 = r2) as [Hc ->] by (by apply chars_inj in Hc).
  revert E. generalize (chars s2). generalize (chars s1). clear s1 s2. intros l1.
  induction l1 as [|c1 l1 IH]; intros [|c2 l2] E; cbn in E.
  - by simplify_eq.
  - rewrite <- app_assoc in E. destruct (escape_not_quote c2 (concat (map escape l2) ++ dquote :: r2)) as (x & l & E' & Hx).
    rewrite E' in E. by simplify_eq.
  - rewrite <- app_assoc in E. destruct (escape_not_quote c1 (concat (map escape l1) ++ dquote :: r1)) as (x & l & E' & Hx).
    rewrite E' in E. by simplify_eq.
  - rewrite <- !app_assoc in E. apply escape_app_inj in E as [-> E].
    by apply IH in E as [-> ->].
Qed.

#[local] Transparent dquote.

(** ** Values *)

(** The first character of a text tells the constructor. *)
Lemma dumps_head v : ∃ c l, dumps v = c :: l ∧
  match v with
  | JNull => c = "n"%char
  | JBool b => c = (if b then "t" else "f")%char
  | JInt _ => c = "-"%char ∨ is_digit c = true
  | JStr _ => c = dquote
  | JArr _ => c = "["%char
  | JObj _ => c = "{"%char
  end.
Proof.
  destruct v as [|[]|n|s|vs|fs]; try by eexists _, _.
  cbn. rewrite pretty_Z_split. case_decide; [eexists _, _; split; [done|by left]|].
  pose proof (pretty_N_digits (Z.abs_N n)) as D. pose proof (pretty_N_nonempty (Z.abs_N n)).
  destruct D as [|c l Hc]; [done|]. eexists _, _; split; [done|by right].
Qed.

Definition dumps_determines (v1 : json) : Prop := ∀ v2 r1 r2,
  no_digit r1 → no_digit r2 → dumps v1 ++ r1 = dumps v2 ++ r2 → v1 = v2 ∧ r1 = r2.

(** A separated sequence closed by [close] determines its elements when the
    text of each element does. *)
Lemma join_tail_inj {A} (f : A → list ascii) (close : ascii) (P : A → Prop) :
  is_digit close = false → close ≠ ","%char →
  (∀ x1 x2 r1 r2, P x1 → no_digit r1 → no_digit r2 → f x1 ++ r1 = f x2 ++ r2 → x1 = x2 ∧ r1 = r2) →
  ∀ l1 l2 r1 r2, Forall P l1 →
  concat (map (λ x, ","%char :: f x) l1) ++ close :: r1 =
  concat (map (λ x, ","%char :: f x) l2) ++ close :: r2 → l1 = l2 ∧ r1 = r2.
Proof.
  intros Hcl Hcomma Hf l1.
  assert (Hnd : ∀ (l : list A) r, no_digit (concat (map (λ x, ","%char :: f x) l) ++ close :: r)).
  { by intros [|x l] r. }
  induction l1 as [|x1 l1 IH]; intros [|x2 l2] r1 r2 HP E; cbn in E; simplify_eq; [done|].
  rewrite <- !app_assoc in E. inv HP.
  apply Hf in E as [-> E]; [|done|apply Hnd|apply Hnd]. by apply IH in E as [-> ->].
Qed.

Lemma join_comma_inj {A} (f : A → list ascii) (close : ascii) (P : A → Prop) l1 l2 r1 r2 :
  is_digit close = false → close ≠ ","%char →
  (∀ x, ∃ c l, f x = c :: l ∧ c ≠ close) →
  (∀ x1 x2 r1 r2, P x1 → no_digit r1 → no_digit r2 → f x1 ++ r1 = f x2 ++ r2 → x1 = x2 ∧ r1 = r2) →
  Forall P l1 →
  join_comma (map f l1) ++ close :: r1 = join_comma (map f l2) ++ close :: r2 → l1 = l2 ∧ r1 = r2.
Proof.
  intros Hcl Hcomma Hhead Hf HP E.
  assert (Hnd : ∀ (l : list A) r, no_digit (concat (map (λ x, ","%char :: f x) l) ++ close :: r)).
  { by intros [|x l] r. }
  destruct l1 as [|x1 l1], l2 as [|x2 l2]; cbn in E; simplify_eq; [done|..].
  - destruct (Hhead x2) as (c & l & Hx & Hc). rewrite Hx in E. cbn in E. by simplify_eq.
  - destruct (Hhead x1) as (c & l & Hx & Hc). rewrite Hx in E. cbn in E. by simplify_eq.
  - rewrite !map_map, <- !app_assoc in E. inv HP.
    apply Hf in E as [-> E]; [|done|apply Hnd|apply Hnd].
    by apply (join_tail_inj f close P) in E as [-> ->].
Qed.

Lemma dumps_head_ne v c : c = "]"%char ∨ c = "}"%char → ∃ x l, dumps v = x :: l ∧ x ≠ c.
Proof.
  intros Hc. destruct (dumps_head v) as (x & l & Hx & Hv). exists x, l. split; [done|].
  intros <-. destruct v as [|[]| | | |];
    repeat match goal with H : _ ∨ _ |- _ => destruct H end; subst; discriminate.
Qed.

(** Texts of values with different constructors differ in the first character. *)
Ltac heads_differ E :=
  match type of E with
  | dumps ?v1 ++ _ = dumps ?v2 ++ _ =>
      let H1 := fresh in let H2 := fresh in let X1 := fresh in let X2 := fresh in
      destruct (dumps_head v1) as (? & ? & H1 & X1);
      destruct (dumps_head v2) as (? & ? & H2 & X2);
      rewrite H1, H2 in E; injection E as -> _;
      repeat match goal with
        | H : _ ∨ _ |- _ => destruct H
        | H : context [if ?b then _ else _] |- _ => destruct b
        end; subst; discriminate
  end.

#[local] Opaque quote.

Lemma dumps_app_inj v : dumps_determines v.
Proof.
  induction v as [|b|n|s|vs IH|fs IH] using json_ind'; intros v2 r1 r2 Hr1 Hr2 E.
  - destruct v2; try (heads_differ E). by apply (inj (app _)) in E.
  - destruct v2 as [|b2| | | |]; try (heads_differ E).
    destruct b, b2; try (heads_differ E); by apply (inj (app _)) in E.
  - destruct v2; try (heads_differ E). by apply int_app_inj in E as [-> ->].
  - destruct v2; try (heads_differ E). by apply quote_app_inj in E as [-> ->].
  - destruct v2 as [| | | |vs2|]; try (heads_differ E).
    cbn in E. injection E as E. rewrite <- !app_assoc in E. cbn in E.
    apply (join_comma_inj dumps _ dumps_determines) in E as [-> ->]; try done.
    + intros x. apply dumps_head_ne. by left.
    + intros x1 x2 q1 q2 Hx. apply Hx.
  - destruct v2 as [| | | | |fs2]; try (heads_differ E).
    cbn in E. injection E as E. rewrite <- !app_assoc in E. cbn in E.
    apply (join_comma_inj _ _ (λ kv, dumps_determines kv.2)) in E as [-> ->]; try done.
    + intros [k x]. by eexists _, _.
    + intros [k1 x1] [k2 x2] q1 q2 Hx H1 H2 E'. cbn [fst snd] in *.
      rewrite <- (app_assoc (quote k1)), <- (app_assoc (quote k2)) in E'. apply quote_app_inj in E' as [-> E']. injection E' as E'.
      by apply Hx in E' as [-> ->].
Qed.

Theorem dumps_inj v1 v2 : dumps v1 = dumps v2 → v1 = v2.
Proof.
  intros E. destruct (dumps_app_inj v1 v2 [] []) as [-> _]; try done. by rewrite E.
Qed.

(** * Digests *)

(** Two texts that SHA-256 does not tell apart. *)
Definition sha256_collision (p1 p2 : string) : Prop := p1 ≠ p2 ∧ hexdigest p1 = hexdigest p2.

Lemma string_app_inj p s1 s2 : p +:+ s1 = p +:+ s2 → s1 = s2.
Proof. intros E. rewrite <- (string_drop_app p s1), E. apply string_drop_app. Qed.

Lemma payload_inj v1 v2 : payload v1 = payload v2 → canonical v1 = canonical v2.
Proof.
  rewrite !payload_dumps. intros E. apply dumps_inj.
  by rewrite <- (String.list_ascii_of_string_of_list_ascii (dumps (canonical v1))), E,
    String.list_ascii_of_string_of_list_ascii.
Qed.

Theorem canonical_digest_inj v1 v2 :
  canonical_digest v1 = canonical_digest v2 →
  canonical v1 = canonical v2 ∨ sha256_collision (payload v1) (payload v2).
Proof.
  intros E. apply string_app_inj in E.
  destruct (decide (payload v1 = payload v2)) as [Ep|Hne]; [left; by apply payload_inj|].
  by right.
Qed.

Lemma canonical_digest_ext v1 v2 :
  canonical v1 = canonical v2 → canonical_digest v1 = canonical_digest v2.
Proof. intros E. unfold canonical_digest. by rewrite !payload_dumps, E. Qed.

Lemma digest_hex_part v : removeprefix (canonical_digest v) "sha256:" = hexdigest (payload v).
Proof. apply removeprefix_app. Qed.

(** * Reading a field back out of a canonical value *)
Fixpoint assoc_get (k : string) (fs : list (string * json)) : option json :=
  match fs with
  | [] => None
  | (k', v) :: fs' => if String.eqb k k' then Some v else assoc_get k fs'
  end.

Definition obj_get (k : string) (v : json) : option json :=
  match v with JObj fs => assoc_get k fs | _ => None end.

Lemma assoc_get_insert_by k kv fs :
  assoc_get k (insert_by fst kv fs) = assoc_get k (kv :: fs).
Proof.
  induction fs as [|[k' v'] fs IH]; [done|]. cbn. case_decide as Hle; [done|].
  destruct kv as [k0 v0]; cbn in *. rewrite IH.
  destruct (String.eqb_spec k k'), (String.eqb_spec k k0); by subst.
Qed.

Lemma assoc_get_sort k fs : assoc_get k (sort_by fst fs) = assoc_get k fs.
Proof.
  induction fs as [|[k' v'] fs IH]; [done|]. cbn [sort_by foldr].
  rewrite assoc_get_insert_by. cbn. by rewrite <- IH.
Qed.

Lemma canonical_obj_get k v : obj_get k (canonical v) = canonical <$> obj_get k v.
Proof.
  destruct v as [| | | | |fs]; try done. cbn. rewrite assoc_get_sort.
  induction fs as [|[k' v'] fs IH]; [done|]. cbn. by destruct (String.eqb k k').
Qed.

(** A serializer whose canonical form determines the object. *)
Class CanonicalInj {A} (f : A → json) : Prop :=
  canonical_inj x y : canonical (f x) = canonical (f y) → x = y.

#[export] Instance JStr_inj : CanonicalInj JStr.
Proof. by intros x y [= ->]. Qed.
#[export] Instance JInt_inj : CanonicalInj JInt.
Proof. by intros x y [= ->]. Qed.
#[export] Instance JBool_inj : CanonicalInj JBool.
Proof. by intros x y [= ->]. Qed.

#[export] Instance JArr_map_inj {A} (f : A → json) :
  CanonicalInj f → CanonicalInj (λ xs, JArr (map f xs)).
Proof.
  intros Hf xs. induction xs as [|x xs IH]; intros [|y ys] E; cbn in E; simplify_eq; [done|].
  f_equal; [by apply Hf|]. apply IH. cbn. by f_equal.
Qed.

#[export] Instance JStrs_inj : CanonicalInj JStrs.
Proof. apply (JArr_map_inj JStr), _. Qed.

Lemma canonical_arr_inj {A} (f : A → json) `{!CanonicalInj f} xs ys :
  canonical (JArr (map f xs)) = canonical (JArr (map f ys)) → xs = ys.
Proof. apply (JArr_map_inj f). done. Qed.

(** [by_fields E ks]: from the equality [E] of the canonical forms of two
    objects, the equality of the canonical forms of the fields [ks]. *)
Arguments canonical : simpl never.

Ltac by_field E k :=
  let H := fresh "F" in
  pose proof (f_equal (obj_get k) E) as H; rewrite !canonical_obj_get in H; cbn in H;
  try discriminate H;
  try (apply (inj Some) in H; first [apply canonical_inj in H | apply @canonical_arr_inj in H; [|apply _]]).

Ltac by_fields E ks :=
  lazymatch ks with
  | nil => idtac
  | cons ?k ?ks' => by_field E k; by_fields E ks'
  end.

(** Digests of objects with an injective serializer. *)
Lemma digest_binds {A} (f : A → json) `{!CanonicalInj f} x y :
  canonical_digest (f x) = canonical_digest (f y) →
  x = y ∨ sha256_collision (payload (f x)) (payload (f y)).
Proof. intros [E|Hc]%canonical_digest_inj; [left; by apply canonical_inj|by right]. Qed.
