(* ===== verification/Grammar.v ===== *)
(** Identifier grammars.

    The contracts constrain every string field by one of a handful of regular
    expressions ([_ID_RE], [_REF_RE], [_KEY_RE], [_VERSION_RE], [_DIGEST_RE],
    [_SIGNATURE_RE] of [control_plane/policy/models.py], [_CHANNEL_RE] of
    [control_plane/workflows/domain.py]; [control_plane/runs/models.py],
    [runs/audit.py], [runs/observations.py] and [migrations/models.py] repeat
    them). The patterns are transcribed as terms of a small regular-expression
    syntax and run by derivatives; [re_match_correct] relates the matcher to
    the language of an expression. Every pattern is anchored, so matching is
    matching of the whole string. *)
From S2P Require Export CanonicalJson.
From S2P Require Import Sha256.

Inductive regex : Type :=
  | RVoid
  | REps
  | RClass (f : ascii → bool)
  | RCat (r1 r2 : regex)
  | RAlt (r1 r2 : regex)
  | RStar (r : regex)
  | RUpTo (r : regex) (n : nat).

Fixpoint nullable (r : regex) : bool :=
  match r with
  | RVoid | RClass _ => false
  | REps | RStar _ | RUpTo _ _ => true
  | RCat r1 r2 => nullable r1 && nullable r2
  | RAlt r1 r2 => nullable r1 || nullable r2
  end.

Definition cat (r1 r2 : regex) : regex :=
  match r1 with RVoid => RVoid | REps => r2 | _ => RCat r1 r2 end.
Definition alt (r1 r2 : regex) : regex :=
  match r1, r2 with RVoid, _ => r2 | _, RVoid => r1 | _, _ => RAlt r1 r2 end.

Fixpoint deriv (c : ascii) (r : regex) : regex :=
  match r with
  | RVoid | REps => RVoid
  | RClass f => if f c then REps else RVoid
  | RCat r1 r2 =>
      if nullable r1 then alt (cat (deriv c r1) r2) (deriv c r2) else cat (deriv c r1) r2
  | RAlt r1 r2 => alt (deriv c r1) (deriv c r2)
  | RStar r1 => cat (deriv c r1) (RStar r1)
  | RUpTo r1 (S n) => cat (deriv c r1) (RUpTo r1 n)
  | RUpTo _ O => RVoid
  end.

Fixpoint match_chars (r : regex) (l : list ascii) : bool :=
  match l with
  | [] => nullable r
  | c :: l' => match_chars (deriv c r) l'
  end.

(** [re.fullmatch(pattern, s) is not None] *)
Definition re_match (r : regex) (s : string) : bool := match_chars r (chars s).

(** ** The language of an expression *)
Inductive re_lang : regex → list ascii → Prop :=
  | lang_eps : re_lang REps []
  | lang_class f c : f c = true → re_lang (RClass f) [c]
  | lang_cat r1 r2 l1 l2 : re_lang r1 l1 → re_lang r2 l2 → re_lang (RCat r1 r2) (l1 ++ l2)
  | lang_alt_l r1 r2 l : re_lang r1 l → re_lang (RAlt r1 r2) l
  | lang_alt_r r1 r2 l : re_lang r2 l → re_lang (RAlt r1 r2) l
  | lang_star_nil r : re_lang (RStar r) []
  | lang_star_app r l1 l2 : re_lang r l1 → re_lang (RStar r) l2 → re_lang (RStar r) (l1 ++ l2)
  | lang_upto_nil r n : re_lang (RUpTo r n) []
  | lang_upto_app r n l1 l2 :
      re_lang r l1 → re_lang (RUpTo r n) l2 → re_lang (RUpTo r (S n)) (l1 ++ l2).

Create HintDb grammar.
#[export] Hint Constructors re_lang : grammar.

Lemma cat_lang r1 r2 l : re_lang (cat r1 r2) l ↔ re_lang (RCat r1 r2) l.
Proof.
  destruct r1; cbn; try done; split; intros H.
  - inv H.
  - inv H. by match goal with H : re_lang RVoid _ |- _ => inv H end.
  - by apply (lang_cat REps r2 [] l lang_eps).
  - inv H. by match goal with H : re_lang REps _ |- _ => inv H end.
Qed.

Lemma alt_lang r1 r2 l : re_lang (alt r1 r2) l ↔ re_lang (RAlt r1 r2) l.
Proof.
  assert (re_lang RVoid l → False) by (intros H; inv H).
  destruct r1, r2; cbn; try done; split; intros H'; auto with grammar; inv H'; done.
Qed.

Lemma nullable_lang r : nullable r = true ↔ re_lang r [].
Proof.
  split.
  - induction r as [| | |r1 IH1 r2 IH2|r1 IH1 r2 IH2| |]; cbn; intros H; try done; auto with grammar.
    + apply andb_true_iff in H as [? ?]. apply (lang_cat r1 r2 [] []); auto.
    + apply orb_true_iff in H as [?|?]; auto with grammar.
  - intros H. remember [] as l eqn:E. induction H; cbn; try done.
    + apply app_eq_nil in E as [-> ->]. by rewrite IHre_lang1, IHre_lang2.
    + by rewrite IHre_lang.
    + rewrite IHre_lang by done. by rewrite orb_true_r.
Qed.

Lemma upto_mono r n l : re_lang (RUpTo r n) l → re_lang (RUpTo r (S n)) l.
Proof.
  revert l. induction n as [|n IH]; intros l H; inv H; auto with grammar.
Qed.

(** A derivative drops the first character. *)
Lemma deriv_lang r c l : re_lang (deriv c r) l ↔ re_lang r (c :: l).
Proof.
  revert l. induction r as [| |f|r1 IH1 r2 IH2|r1 IH1 r2 IH2|r IH|r IH n]; intros l; cbn.
  - split; intros H; inv H.
  - split; intros H; inv H.
  - split.
    + destruct (f c) eqn:E; intros H; inv H. by constructor.
    + intros H; inv H. match goal with Hf : f c = true |- _ => rewrite Hf end. constructor.
  - assert (Hcat : re_lang (RCat (deriv c r1) r2) l ↔
      ∃ l1 l2, l = l1 ++ l2 ∧ re_lang r1 (c :: l1) ∧ re_lang r2 l2).
    { split; [intros H; inv H; eexists _, _; by rewrite <- IH1|].
      intros (l1 & l2 & -> & H1 & H2). constructor; [by apply IH1|done]. }
    assert (Hsplit : re_lang (RCat r1 r2) (c :: l) ↔
      (∃ l1 l2, l = l1 ++ l2 ∧ re_lang r1 (c :: l1) ∧ re_lang r2 l2) ∨
      (re_lang r1 [] ∧ re_lang r2 (c :: l))).
    { split.
      - intros H. inversion H as [| |? ? l1 l2 H1 H2 E1 E2| | | | | |]; subst.
        destruct l1 as [|c' l1]; cbn in E2; simplify_eq; [by right|left; by eexists _, _].
      - intros [(l1 & l2 & -> & H1 & H2)|[H1 H2]];
          [exact (lang_cat _ _ (c :: l1) l2 H1 H2)|exact (lang_cat _ _ [] _ H1 H2)]. }
    rewrite Hsplit, <- Hcat, <- IH2, <- nullable_lang.
    destruct (nullable r1); [rewrite alt_lang|rewrite cat_lang; naive_solver].
    split; [intros H; inv H; [left; by apply cat_lang|by right]|].
    intros [H|[_ H]]; [apply lang_alt_l; by apply cat_lang|by apply lang_alt_r].
  - rewrite alt_lang. split; intros H; inv H; [apply lang_alt_l|apply lang_alt_r|apply lang_alt_l|apply lang_alt_r];
      by first [apply IH1|apply IH2].
  - rewrite cat_lang. split.
    + intros H. inversion H as [| |? ? l1 l2 H1 H2| | | | | |]; subst.
      apply IH in H1. by apply (lang_star_app r (c :: l1)).
    + intros H. remember (RStar r) as q eqn:Eq. remember (c :: l) as cl eqn:El.
      revert l El. induction H as [| | | | | |r' l1 l2 H1 _ H2 IH2| |]; intros l0 El; simplify_eq.
      destruct l1 as [|c' l1]; cbn in El; [by apply IH2|]. simplify_eq.
      constructor; [by apply IH|done].
  - revert l. induction n as [|n IHn]; intros l; [split; intros H; inv H|].
    rewrite cat_lang. split.
    + intros H. inversion H as [| |? ? l1 l2 H1 H2| | | | | |]; subst.
      apply IH in H1. by apply (lang_upto_app r n (c :: l1)).
    + intros H. inversion H as [| | | | | | | |? ? l1 l2 H1 H2 E1 E2]; subst.
      destruct l1 as [|c' l1]; cbn in E2; simplify_eq.
      * destruct n as [|n]; [inv H2|]. apply IHn, cat_lang in H2. inv H2.
        constructor; [done|by apply upto_mono].
      * constructor; [by apply IH|done].
Qed.

Theorem re_match_correct r s : re_match r s = true ↔ re_lang r (chars s).
Proof.
  unfold re_match. revert r. induction (chars s) as [|c l IH]; intros r; cbn.
  - apply nullable_lang.
  - by rewrite IH, deriv_lang.
Qed.

(** * Character classes and derived forms *)
Definition in_range (lo hi : ascii) (c : ascii) : bool :=
  bool_decide (N_of_ascii lo ≤ N_of_ascii c ∧ N_of_ascii c ≤ N_of_ascii hi)%N.
Definition one_of (cs : string) (c : ascii) : bool := has_char c cs.

Definition lower (c : ascii) : bool := in_range "a" "z" c.
Definition upper (c : ascii) : bool := in_range "A" "Z" c.
Definition digit (c : ascii) : bool := in_range "0" "9" c.
Definition letter (c : ascii) : bool := lower c || upper c.
Definition alnum (c : ascii) : bool := letter c || digit c.

Fixpoint RLit (l : list ascii) : regex :=
  match l with
  | [] => REps
  | c :: l' => RCat (RClass (λ x, bool_decide (x = c))) (RLit l')
  end.
Fixpoint RTimes (r : regex) (n : nat) : regex :=
  match n with O => REps | S n' => RCat r (RTimes r n') end.
Definition RPlus (r : regex) : regex := RCat r (RStar r).
Definition ROpt (r : regex) : regex := RAlt REps r.

(** * The patterns *)

(** [[A-Za-z0-9:_./-]] *)
Definition id_char (c : ascii) : bool := alnum c || one_of ":_./-" c.

(** [^[A-Za-z][A-Za-z0-9:_./-]{0,127}$] *)
Definition ID_RE : regex := RCat (RClass letter) (RUpTo (RClass id_char) 127).
(** [^[A-Za-z][A-Za-z0-9:_./-]{0,255}$] *)
Definition REF_RE : regex := RCat (RClass letter) (RUpTo (RClass id_char) 255).
(** [^[A-Za-z][A-Za-z0-9._:/-]{0,255}$], the class of [REF_RE] in another order *)
Definition KEY_RE : regex :=
  RCat (RClass letter) (RUpTo (RClass (λ c, alnum c || one_of "._:/-" c)) 255).

(** A number without leading zeros. *)
Definition numeric_part : regex :=
  RAlt (RLit (chars "0")) (RCat (RClass (in_range "1" "9")) (RStar (RClass digit))).
(** Non-empty runs of [[0-9A-Za-z-]] separated by dots. *)
Definition dotted_idents : regex :=
  let ident := RPlus (RClass (λ c, alnum c || bool_decide (c = "-"%char))) in
  RCat ident (RStar (RCat (RLit (chars ".")) ident)).
Definition VERSION_RE : regex :=
  RCat numeric_part (RCat (RLit (chars ".")) (RCat numeric_part (RCat (RLit (chars "."))
    (RCat numeric_part (RCat (ROpt (RCat (RLit (chars "-")) dotted_idents))
      (ROpt (RCat (RLit (chars "+")) dotted_idents))))))).

(** [^sha256:[0-9a-f]{64}$] *)
Definition hex_lower (c : ascii) : bool := digit c || in_range "a" "f" c.
Definition DIGEST_RE : regex := RCat (RLit (chars "sha256:")) (RTimes (RClass hex_lower) 64).

(** [^sig:[A-Za-z0-9._:-]{3,255}$] *)
Definition sig_char (c : ascii) : bool := alnum c || one_of "._:-" c.
Definition SIGNATURE_RE : regex :=
  RCat (RLit (chars "sig:")) (RCat (RTimes (RClass sig_char) 3) (RUpTo (RClass sig_char) 252)).

(** [^[a-z][a-z0-9._-]{0,31}$] *)
Definition CHANNEL_RE : regex :=
  RCat (RClass lower) (RUpTo (RClass (λ c, lower c || digit c || one_of "._-" c)) 31).

(** ** Field types *)
Definition StableId (s : string) : bool := re_match ID_RE s.
Definition OpaqueRef (s : string) : bool := re_match REF_RE s.
Definition StableKey (s : string) : bool := re_match KEY_RE s.
Definition SemVer (s : string) : bool := re_match VERSION_RE s.
Definition Digest (s : string) : bool := re_match DIGEST_RE s.
Definition Signature (s : string) : bool := re_match SIGNATURE_RE s.
Definition ChannelName (s : string) : bool := re_match CHANNEL_RE s.

(** ** [\b(?:w1|w2|...)\b] with [IGNORECASE]

    Every alternative consists of word characters, so a match between two word
    boundaries is a maximal run of word characters equal to an alternative. *)
Definition word_char (c : ascii) : bool :=
  let n := N_of_ascii c in
  alnum c || bool_decide (c = "_"%char) ||
  bool_decide (n ∈ [170; 178; 179; 181; 185; 186; 188; 189; 190]%N) ||
  (bool_decide (192 ≤ n)%N && negb (bool_decide (n = 215 ∨ n = 247)%N)).

Fixpoint words_from (l : list ascii) (cur : list ascii) : list string :=
  let flush := match cur with [] => [] | _ => [String.string_of_list_ascii (rev cur)] end in
  match l with
  | [] => flush
  | c :: l' => if word_char c then words_from l' (c :: cur) else flush ++ words_from l' []
  end.

Definition words (s : string) : list string := words_from (chars s) [].

Definition search_words (alternatives : list string) (s : string) : bool :=
  existsb (λ w, bool_decide (casefold w ∈ alternatives)) (words s).

(** ** [re.search] with [IGNORECASE] *)

(** A literal in either case *)
Definition RWord (w : string) : regex := RLit (chars (casefold w)).
(** [re.search(r, s)] with [re.IGNORECASE] *)
Definition re_search (r : regex) (s : string) : bool :=
  let any := RStar (RClass (λ _, true)) in re_match (RCat any (RCat r any)) (casefold s).

Fixpoint RAlts (rs : list regex) : regex := match rs with [] => RVoid | r :: rs' => RAlt r (RAlts rs') end.
Definition RSep : regex := ROpt (RClass (one_of "_-")).

(** * Facts *)
Definition is_true_all (f : ascii → bool) (l : list ascii) : Prop := Forall (λ c, f c = true) l.

Lemma lang_upto_class f n l :
  re_lang (RUpTo (RClass f) n) l ↔ is_true_all f l ∧ length l ≤ n.
Proof.
  revert l. induction n as [|n IH]; intros l; split.
  - intros H; inv H. split; [constructor|cbn; lia].
  - intros [_ Hl]. destruct l; [constructor|cbn in Hl; lia].
  - intros H. inversion H as [| | | | | | | |? ? l1 l2 H1 H2]; subst; [split; [constructor|cbn; lia]|].
    inv H1. apply IH in H2 as [? ?]. split; [by constructor|cbn; lia].
  - intros [Hf Hl]. destruct Hf as [|c l Hc Hf]; [constructor|].
    apply (lang_upto_app _ n [c] l); [by constructor|]. apply IH. split; [done|cbn in Hl; lia].
Qed.

Lemma lang_times_class f n l :
  re_lang (RTimes (RClass f) n) l ↔ is_true_all f l ∧ length l = n.
Proof.
  revert l. induction n as [|n IH]; intros l; cbn; split.
  - intros H; inv H. split; [constructor|done].
  - intros [_ Hl]. destruct l; [constructor|done].
  - intros H. inversion H as [| |? ? l1 l2 H1 H2| | | | | |]; subst. inv H1.
    apply IH in H2 as [? ?]. split; [by constructor|cbn; lia].
  - intros [Hf Hl]. destruct Hf as [|c l Hc Hf]; [done|].
    apply (lang_cat _ _ [c] l); [by constructor|]. apply IH. split; [done|cbn in Hl; lia].
Qed.

Lemma lang_cat_inv r1 r2 l : re_lang (RCat r1 r2) l → ∃ l1 l2, l = l1 ++ l2 ∧ re_lang r1 l1 ∧ re_lang r2 l2.
Proof. intros H. inversion H as [| |? ? l1 l2 H1 H2| | | | | |]; subst. by exists l1, l2. Qed.

Lemma lang_lit l l' : re_lang (RLit l) l' ↔ l' = l.
Proof.
  revert l'. induction l as [|c l IH]; intros l'; cbn; split.
  - intros H; by inv H.
  - intros ->. constructor.
  - intros H. inversion H as [| |? ? l1 l2 H1 H2| | | | | |]; subst. inv H1.
    apply IH in H2 as ->. by match goal with H : bool_decide _ = true |- _ => apply bool_decide_eq_true in H as -> end.
  - intros ->. apply (lang_cat _ _ [c] l); [constructor; by apply bool_decide_eq_true|]. by apply IH.
Qed.

Lemma chars_app s1 s2 : chars (s1 +:+ s2) = chars s1 ++ chars s2.
Proof.
  induction s1 as [|c s1 IH]; [done|].
  change (String c s1 +:+ s2) with (String c (s1 +:+ s2)). cbn. by f_equal.
Qed.

Lemma class_then_upto g f n s :
  re_match (RCat (RClass g) (RUpTo (RClass f) n)) s = true ↔
  ∃ c l, chars s = c :: l ∧ g c = true ∧ is_true_all f l ∧ length l ≤ n.
Proof.
  rewrite re_match_correct. split.
  - intros H. inversion H as [| |? ? l1 l2 H1 H2 E1 E2| | | | | |]; subst. inv H1.
    apply lang_upto_class in H2 as [? ?]. by eexists _, _.
  - intros (c & l & -> & Hc & Hl). apply (lang_cat _ _ [c] l); [by constructor|].
    by apply lang_upto_class.
Qed.

Lemma hex_lower_is_hex c : is_hex c = true → hex_lower c = true.
Proof. destruct c as [[] [] [] [] [] [] [] []]; done. Qed.

Lemma hex_id_char c : hex_lower c = true → id_char c = true.
Proof. destruct c as [[] [] [] [] [] [] [] []]; done. Qed.

Lemma hexdigest_lower m : is_true_all hex_lower (chars (hexdigest m)).
Proof. eapply Forall_impl; [apply hexdigest_hex|]. apply hex_lower_is_hex. Qed.

(** Every digest the code computes satisfies the [Digest] field type. *)
Lemma canonical_digest_Digest v : Digest (canonical_digest v) = true.
Proof.
  apply re_match_correct. unfold canonical_digest. rewrite chars_app.
  apply lang_cat; [by apply lang_lit|]. apply lang_times_class.
  split; [apply hexdigest_lower|apply hexdigest_length].
Qed.

(** Identities of the form [prefix:<64 hex digits>] are stable ids. *)
Lemma prefixed_hex_StableId p m :
  (∃ c l, chars p = c :: l ∧ letter c = true ∧ is_true_all id_char l ∧ length l ≤ 63) →
  StableId (p +:+ hexdigest m) = true.
Proof.
  intros (c & l & Hp & Hc & Hl & Hlen). apply class_then_upto.
  exists c, (l ++ chars (hexdigest m)). rewrite chars_app, Hp. split; [done|]. split; [done|].
  rewrite length_app. pose proof (hexdigest_length m) as E. unfold chars. rewrite E. split; [|lia].
  apply Forall_app. split; [done|]. eapply Forall_impl; [apply hexdigest_lower|]. apply hex_id_char.
Qed.

Lemma StableId_OpaqueRef s : StableId s = true → OpaqueRef s = true.
Proof.
  intros H. apply class_then_upto in H as (c & l & ? & ? & ? & ?).
  apply class_then_upto. exists c, l. repeat split; [done..|lia].
Qed.

#[export] Hint Resolve canonical_digest_Digest StableId_OpaqueRef : grammar.

(** ** Grammar strings have nothing to strip *)
Lemma id_char_not_space c : id_char c = true → is_py_space c = false.
Proof. by destruct c as [[] [] [] [] [] [] [] []]. Qed.
Lemma letter_id_char c : letter c = true → id_char c = true.
Proof. by destruct c as [[] [] [] [] [] [] [] []]. Qed.
Lemma key_id_char c : alnum c || one_of "._:/-" c = true → id_char c = true.
Proof. by destruct c as [[] [] [] [] [] [] [] []]. Qed.

Lemma lstrip_id s : Forall (λ c, is_py_space c = false) (chars s) → lstrip s = s.
Proof. destruct s as [|c s]; [done|]. cbn. intros Hs. inv Hs. by rewrite H1. Qed.

Lemma chars_string_rev s : chars (string_rev s) = rev (chars s).
Proof. apply String.list_ascii_of_string_of_list_ascii. Qed.

Lemma py_strip_id s : Forall (λ c, is_py_space c = false) (chars s) → py_strip s = s.
Proof.
  intros Hs. unfold py_strip. rewrite (lstrip_id s) by done. rewrite lstrip_id.
  - apply chars_inj. by rewrite !chars_string_rev, rev_involutive.
  - rewrite chars_string_rev. apply Forall_rev. done.
Qed.

Lemma id_chars_strip s : is_true_all id_char (chars s) → py_strip s = s.
Proof. intros Hs. apply py_strip_id. eapply Forall_impl; [exact Hs|]. intros c. apply id_char_not_space. Qed.

Lemma OpaqueRef_strip s : OpaqueRef s = true → s ≠ "" ∧ py_strip s = s.
Proof.
  intros (c & l & E & Hc & Hl & _)%class_then_upto. split; [by intros ->|].
  apply id_chars_strip. rewrite E. constructor; [by apply letter_id_char|done].
Qed.

Lemma StableKey_strip s : StableKey s = true → s ≠ "" ∧ py_strip s = s.
Proof.
  intros (c & l & E & Hc & Hl & _)%class_then_upto. split; [by intros ->|].
  apply id_chars_strip. rewrite E. constructor; [by apply letter_id_char|].
  eapply Forall_impl; [exact Hl|]. apply key_id_char.
Qed.

(** ** Identities derived from a digest: a prefix and its 64 hex digits *)
Definition digest_id (prefix : string) (v : json) : string :=
  prefix +:+ removeprefix (canonical_digest v) "sha256:".

Lemma digest_id_StableId p v :
  (∃ c l, chars p = c :: l ∧ letter c = true ∧ is_true_all id_char l ∧ length l ≤ 63) →
  StableId (digest_id p v) = true.
Proof. intros Hp. unfold digest_id. rewrite digest_hex_part. by apply prefixed_hex_StableId. Qed.

Lemma digest_id_inj p {A} (f : A → json) `{!CanonicalInj f} x y :
  digest_id p (f x) = digest_id p (f y) →
  x = y ∨ sha256_collision (payload (f x)) (payload (f y)).
Proof.
  unfold digest_id. rewrite !digest_hex_part. intros E%string_app_inj.
  apply (digest_binds f). unfold canonical_digest. by rewrite E.
Qed.

(** ** Model fields *)
Local Open Scope Z_scope.

(** A field constraint: [ValidationError] naming the field when it fails. *)
Definition check_field (name : string) (ok : bool) : result () :=
  raise_if (negb ok) (ValidationError name).

(** [Field(ge=lo, le=hi)] *)
Definition in_bounds (lo hi n : Z) : bool := (lo <=? n) && (n <=? hi).

Definition Timestamp (n : Z) : bool := 0 <=? n.

(** [Field(min_length=lo, max_length=hi)] on a string *)
Definition str_len (lo hi : nat) (s : string) : bool := bool_decide (lo ≤ String.length s ≤ hi)%nat.
(** A constraint on a field that may be [None] *)
Definition OptField {A} (ok : A → bool) (o : option A) : bool := from_option ok true o.

Lemma chars_length s : length (chars s) = String.length s.
Proof. induction s as [|c s IH]; cbn; [done|]. by f_equal. Qed.
Lemma str_len_chars lo hi s : str_len lo hi s = true ↔ (lo ≤ length (chars s) ≤ hi)%nat.
Proof. unfold str_len. by rewrite bool_decide_eq_true, chars_length. Qed.

(** [Field(min_length=lo, max_length=hi)] on a tuple *)
Definition tuple_len {A} (lo hi : nat) (xs : list A) : bool :=
  bool_decide (lo ≤ length xs ∧ length xs ≤ hi)%nat.

Lemma check_field_ok name b : check_field name b = Ok () ↔ b = true.
Proof. by destruct b. Qed.

(** ** Building models *)

(** [check_field] on a list of named constraints, in order *)
Definition check_fields (fields : list (string * bool)) : result () :=
  for_each (λ f, check_field f.1 f.2) fields.

(** [cls(...)]: the model if its validation passes *)
Definition construct {A} (validate : A → result ()) (x : A) : result A := _ ← validate x; Ok x.

Lemma construct_ok {A} (validate : A → result ()) x y :
  construct validate x = Ok y ↔ y = x ∧ validate x = Ok ().
Proof.
  unfold construct. destruct (validate x) as [[]|e]; cbn; split; [by intros [= ->]|by intros [-> _]|done|by intros [_ ?]].
Qed.

Lemma bind_unit_ok {B} (m : result ()) (k : () → result B) b : m ≫= k = Ok b ↔ m = Ok () ∧ k () = Ok b.
Proof. destruct m as [[]|e]; cbn; [tauto|]. by split; [|intros [? _]]. Qed.
Lemma check_fields_ok fields : check_fields fields = Ok () ↔ Forall (λ f, f.2 = true) fields.
Proof. unfold check_fields. rewrite for_each_ok. by setoid_rewrite check_field_ok. Qed.

(** The constraints of a validator, one by one *)
Ltac constraints :=
  rewrite ?bind_unit_ok, ?in_validator_ok, ?bind_unit_ok, ?check_fields_ok, ?Forall_cons, ?Forall_nil, ?raise_if_ok; cbn [fst snd].

(** The engine and the hash are never unfolded by simplification or
    unification; [vm_compute] still runs them. *)
#[global] Arguments canonical_digest : simpl never.
#[global] Arguments payload : simpl never.
#[global] Opaque canonical_digest hexdigest re_match search_words.
