(* ===== verification/Dag.v ===== *)
(** Dependency graphs: the ready-queue traversal shared by
    [control_plane/runs/models.py] ([_graph_depth]) and
    [control_plane/workflows/domain.py] ([_topological_stats]).

    Both modules pop the least ready node, relax its children and re-sort the
    ready queue when a child becomes ready; they differ only in how a node's
    children are looked up, which is the parameter [kids]. The loop runs on
    fuel; [kahn_total] shows that one unit per node is enough. *)
From S2P Require Export Prelude.
From Stdlib Require Import Lia.
Local Open Scope Z_scope.

Record kahn := Kahn {
  k_ready : list string;
  k_degree : gmap string Z;
  k_depth : gmap string Z;
  k_visited : list string }.

(** One round of [for child in ...] *)
Definition relax (task : string) (st : kahn) (child : string) : result kahn :=
  child_depth ← dict_get (k_depth st) child;
  task_depth ← dict_get (k_depth st) task;
  degree ← dict_get (k_degree st) child;
  Ok (Kahn
    (if degree - 1 =? 0 then py_sorted (k_ready st ++ [child]) else k_ready st)
    (<[child := degree - 1]> (k_degree st))
    (<[child := Z.max child_depth (task_depth + 1)]> (k_depth st))
    (k_visited st)).

(** [while ready: ...] *)
Fixpoint kahn_loop (kids : string → result (list string)) (fuel : nat) (st : kahn) : result kahn :=
  match k_ready st with
  | [] => Ok st
  | task :: ready =>
      match fuel with
      | O => Raise OutOfFuel
      | S fuel' =>
          cs ← kids task;
          st' ← for_fold (relax task) cs
                  (Kahn ready (k_degree st) (k_depth st) (k_visited st ++ [task]));
          kahn_loop kids fuel' st'
      end
  end.

(** The state before the loop: the nodes without dependencies are ready and
    every depth is 1. [indegree] holds the items of the degree dict in order. *)
Definition kahn_start (indegree : list (string * Z)) : kahn :=
  Kahn (py_sorted (filter (λ kv, kv.2 = 0) indegree).*1)
    (list_to_map indegree) (list_to_map (map (λ kv, (kv.1, 1)) indegree)) [].

(** * What the traversal computes *)
Section graph.
Context (V : list string) (deps : string → list string).

Definition edge (u v : string) : Prop := v ∈ V ∧ u ∈ deps v.
Definition acyclic : Prop := ∀ v, ¬ tc edge v v.

(** [chain v n]: some dependency chain of [n] nodes ends at [v]. *)
Inductive chain : string → Z → Prop :=
  | chain_one v : v ∈ V → chain v 1
  | chain_next u v n : chain u n → edge u v → chain v (n + 1).

Definition longest_chain (v : string) (d : Z) : Prop :=
  chain v d ∧ ∀ n, chain v n → n ≤ d.

Record well_formed : Prop := {
  wf_nodup : NoDup V;
  wf_deps_nodup v : v ∈ V → NoDup (deps v);
  wf_deps_in v u : v ∈ V → u ∈ deps v → u ∈ V }.

Definition waiting (visited : list string) (v : string) : list string :=
  filter (λ u, u ∉ visited) (deps v).

Record kahn_inv (st : kahn) : Prop := {
  ki_nodup : NoDup (k_visited st ++ k_ready st);
  ki_in v : v ∈ k_visited st ++ k_ready st → v ∈ V;
  ki_degree v : v ∈ V → k_degree st !! v = Some (Z.of_nat (length (waiting (k_visited st) v)));
  ki_ready v : v ∈ V → v ∈ k_visited st ++ k_ready st ↔ waiting (k_visited st) v = [];
  ki_dom v : is_Some (k_depth st !! v) → v ∈ V;
  ki_depth v : v ∈ V → ∃ d, k_depth st !! v = Some d ∧ 1 ≤ d ∧
    (∀ u du, u ∈ deps v → u ∈ k_visited st → k_depth st !! u = Some du → du + 1 ≤ d) ∧
    (d = 1 ∨ ∃ u, u ∈ deps v ∧ u ∈ k_visited st ∧ k_depth st !! u = Some (d - 1)) }.

Context (Hwf : well_formed).

Lemma waiting_nil visited v : waiting visited v = [] ↔ ∀ u, u ∈ deps v → u ∈ visited.
Proof.
  unfold waiting. split.
  - intros E u Hu. destruct (decide (u ∈ visited)) as [|Hn]; [done|]. exfalso.
    assert (u ∈ filter (λ u, u ∉ visited) (deps v)) as Hin by (by apply list_elem_of_filter).
    rewrite E in Hin. by apply not_elem_of_nil in Hin.
  - intros H. destruct (filter _ _) as [|u l] eqn:E; [done|].
    assert (u ∈ filter (λ u, u ∉ visited) (deps v)) as Hin by (rewrite E; set_solver).
    apply list_elem_of_filter in Hin as [Hn Hu]. by destruct (Hn (H u Hu)).
Qed.

(** Visiting one more node takes it off the waiting lists it is on. *)
Lemma waiting_visit visited task v : v ∈ V → task ∉ visited →
  Z.of_nat (length (waiting visited v)) =
  Z.of_nat (length (waiting (visited ++ [task]) v)) + (if decide (task ∈ deps v) then 1 else 0).
Proof.
  intros Hv Hnew. pose proof (wf_deps_nodup Hwf v Hv) as Hnd. unfold waiting.
  induction Hnd as [|u l Hu Hnd IH]; [done|]. rewrite !filter_cons.
  destruct (decide (u = task)) as [->|Hne].
  - rewrite decide_True by done. rewrite decide_False by set_solver.
    rewrite decide_True by set_solver. cbn [length].
    rewrite decide_False in IH by done. lia.
  - destruct (decide (u ∉ visited)) as [Hu'|Hu'].
    + rewrite (decide_True (P := u ∉ visited ++ [task])) by set_solver. cbn [length].
      rewrite (decide_ext (task ∈ u :: l) (task ∈ l)) by set_solver. lia.
    + rewrite (decide_False (P := u ∉ visited ++ [task])) by set_solver.
      rewrite (decide_ext (task ∈ u :: l) (task ∈ l)) by set_solver. lia.
Qed.

(** ** One iteration *)

(** The effect of relaxing all children of [task]. *)
Lemma relax_all task dt cs st :
  NoDup cs → task ∉ cs → k_depth st !! task = Some dt →
  (∀ c, c ∈ cs → is_Some (k_depth st !! c) ∧ is_Some (k_degree st !! c)) →
  ∃ st', for_fold (relax task) cs st = Ok st' ∧ k_visited st' = k_visited st ∧
    (∀ v, k_depth st' !! v =
      if decide (v ∈ cs) then (λ d, Z.max d (dt + 1)) <$> k_depth st !! v else k_depth st !! v) ∧
    (∀ v, k_degree st' !! v =
      if decide (v ∈ cs) then (λ n, n - 1) <$> k_degree st !! v else k_degree st !! v) ∧
    k_ready st' ≡ₚ k_ready st ++ filter (λ c, k_degree st !! c = Some 1) cs.
Proof.
  intros Hnd. revert st. induction Hnd as [|c cs Hc Hnd IH]; intros st Ht Hdt Hcs.
  { exists st. cbn. rewrite app_nil_r. repeat split; done. }
  destruct (Hcs c) as [[dc Hdc] [n Hn]]; [set_solver|]. cbn [for_fold].
  set (st1 := Kahn (if n - 1 =? 0 then py_sorted (k_ready st ++ [c]) else k_ready st)
    (<[c := n - 1]> (k_degree st)) (<[c := Z.max dc (dt + 1)]> (k_depth st)) (k_visited st)).
  assert (relax task st c = Ok st1) as ->.
  { unfold relax, dict_get. by rewrite Hdc, Hdt, Hn. }
  destruct (IH st1) as (st' & Hst' & Hvis & Hdepth & Hdeg & Hready).
  { set_solver. }
  { cbn. rewrite lookup_insert_ne by set_solver. done. }
  { intros c' Hc'. cbn. destruct (Hcs c') as [? ?]; [set_solver|].
    destruct (decide (c = c')) as [->|]; [by rewrite !lookup_insert_eq|by rewrite !lookup_insert_ne]. }
  exists st'. split; [done|]. split; [done|]. split; [|split].
  - intros v. rewrite Hdepth. cbn. destruct (decide (c = v)) as [<-|Hne].
    + rewrite (decide_True (P := c ∈ c :: cs)), (decide_False (P := c ∈ cs)) by set_solver.
      by rewrite lookup_insert_eq, Hdc.
    + rewrite lookup_insert_ne by done. by rewrite (decide_ext (v ∈ c :: cs) (v ∈ cs)) by set_solver.
  - intros v. rewrite Hdeg. cbn. destruct (decide (c = v)) as [<-|Hne].
    + rewrite (decide_True (P := c ∈ c :: cs)), (decide_False (P := c ∈ cs)) by set_solver.
      by rewrite lookup_insert_eq, Hn.
    + rewrite lookup_insert_ne by done. by rewrite (decide_ext (v ∈ c :: cs) (v ∈ cs)) by set_solver.
  - rewrite Hready. cbn [k_ready k_degree st1].
    assert (filter (λ c0, <[c:=n - 1]> (k_degree st) !! c0 = Some 1) cs =
            filter (λ c0, k_degree st !! c0 = Some 1) cs) as ->.
    { apply filter_ext_in. intros x Hx. rewrite lookup_insert_ne; [done|]. by intros ->. }
    rewrite filter_cons. rewrite Hn.
    destruct (Z.eqb_spec (n - 1) 0) as [Hz|Hz].
    + rewrite decide_True by (f_equal; lia). rewrite py_sorted_perm, <- app_assoc. done.
    + rewrite decide_False; [done|]. intros [= ->]. lia.
Qed.

Lemma inv_task st task rest :
  kahn_inv st → k_ready st = task :: rest →
  task ∈ V ∧ task ∉ k_visited st ∧ task ∉ rest ∧ (∀ u, u ∈ deps task → u ∈ k_visited st) ∧
  NoDup (k_visited st ++ rest).
Proof.
  intros [Hnd Hin _ Hr _ _] E. rewrite E in *.
  assert (task ∈ V) as HV by (apply Hin; set_solver).
  assert (Hnd' : NoDup (task :: k_visited st ++ rest)).
  { eapply NoDup_Permutation_proper; [|exact Hnd]. by rewrite Permutation_middle. }
  apply NoDup_cons in Hnd' as [Hn ?]. repeat split; try set_solver.
  apply waiting_nil, Hr; set_solver.
Qed.

(** [st'] is [st] after visiting [task], the first ready node, and relaxing its
    children [cs], as [relax_all] describes it. *)
Section step.
Context (st st' : kahn) (task : string) (rest cs : list string).
Context (Hinv : kahn_inv st) (Hready : k_ready st = task :: rest).
Context (Hcs : ∀ v, v ∈ cs ↔ v ∈ V ∧ task ∈ deps v).

Lemma child_later v : v ∈ cs → v ∉ k_visited st ++ task :: rest.
Proof.
  intros [HvV Hv]%Hcs Hmem. destruct (inv_task _ _ _ Hinv Hready) as (_ & Htv & _).
  rewrite <- Hready in Hmem. apply (ki_ready _ Hinv) in Hmem; [|done].
  by apply Htv, (proj1 (waiting_nil (k_visited st) v) Hmem).
Qed.

Lemma task_not_child : task ∉ cs.
Proof. intros Hc. apply (child_later _ Hc). set_solver. Qed.

Context (Hnd : NoDup cs) (Hvis : k_visited st' = k_visited st ++ [task]).
Context (Hrdy : k_ready st' ≡ₚ rest ++ filter (λ c, k_degree st !! c = Some 1) cs).

(** A node is ready afterwards if it was, or if [task] was all it waited for. *)
Lemma step_new v : v ∈ V →
  v ∈ k_ready st' ↔ v ∈ rest ∨ v ∈ cs ∧ waiting (k_visited st ++ [task]) v = [].
Proof.
  intros HvV. destruct (inv_task _ _ _ Hinv Hready) as (_ & Htv & _).
  rewrite Hrdy, elem_of_app, list_elem_of_filter.
  pose proof (waiting_visit (k_visited st) task v HvV Htv) as Hw.
  rewrite (ki_degree _ Hinv v HvV), <- length_zero_iff_nil. rewrite Hcs in *.
  destruct (decide (task ∈ deps v)); [|naive_solver].
  assert (Some (Z.of_nat (length (waiting (k_visited st) v))) = Some 1 ↔
    length (waiting (k_visited st ++ [task]) v) = 0%nat) as ->; [|naive_solver].
  split; [intros [= ?]|intros ?; f_equal]; lia.
Qed.

Lemma step_nodup : NoDup (k_visited st' ++ k_ready st').
Proof.
  destruct (inv_task _ _ _ Hinv Hready) as (_ & Htv & Htr & _ & Hndr).
  apply NoDup_app in Hndr as (Hnv & Hdisj & Hnr). rewrite Hvis.
  apply NoDup_app. split; [|split].
  - apply NoDup_app. split; [done|]. split; [set_solver|apply NoDup_singleton].
  - intros v Hv%elem_of_app. rewrite Hrdy, elem_of_app, list_elem_of_filter.
    pose proof (child_later v). set_solver.
  - rewrite Hrdy. apply NoDup_app. split; [done|]. split; [|by apply NoDup_filter].
    intros v Hv [_ Hc]%list_elem_of_filter. apply (child_later v Hc). set_solver.
Qed.

Lemma step_in v : v ∈ k_visited st' ++ k_ready st' → v ∈ V.
Proof.
  pose proof (ki_in _ Hinv) as Hin. rewrite Hready in Hin.
  rewrite Hvis, Hrdy, !elem_of_app, list_elem_of_filter, Hcs. set_solver.
Qed.

Lemma step_ready v : v ∈ V →
  v ∈ k_visited st' ++ k_ready st' ↔ waiting (k_visited st') v = [].
Proof.
  intros HvV. destruct (inv_task _ _ _ Hinv Hready) as (HtV & _ & _ & Htd & _).
  pose proof (ki_ready _ Hinv) as Hrd. rewrite Hready in Hrd.
  rewrite Hvis, elem_of_app, (step_new v HvV). split.
  - intros [Hv|[Hv|[_ Hv]]]; [| |done]; apply waiting_nil; intros u Hu;
      apply elem_of_app; left; revert u Hu; apply waiting_nil.
    + apply elem_of_app in Hv as [Hv|Hv%list_elem_of_singleton]; [apply Hrd; set_solver|].
      subst v. by apply waiting_nil.
    + apply Hrd; set_solver.
  - intros Hw. destruct (decide (v ∈ cs)) as [Hc|Hc]; [by right; right|].
    assert (v ∈ k_visited st ++ task :: rest) as Hv; [|set_solver].
    apply Hrd; [done|]. apply waiting_nil. intros u Hu.
    assert (u ∈ k_visited st ++ [task]) as Hu' by (by apply (proj1 (waiting_nil _ v) Hw)).
    apply elem_of_app in Hu' as [?|Hu'%list_elem_of_singleton]; [done|]. subst u. by destruct Hc; apply Hcs.
Qed.

Context (dt : Z) (Hdt : k_depth st !! task = Some dt).
Context (Hdep : ∀ v, k_depth st' !! v =
  if decide (v ∈ cs) then (λ d, Z.max d (dt + 1)) <$> k_depth st !! v else k_depth st !! v).

(** A node visited by now keeps its depth: it is nobody's child. *)
Lemma visited_depth u : u ∈ k_visited st ++ [task] → k_depth st' !! u = k_depth st !! u.
Proof.
  intros Hu. rewrite Hdep, decide_False; [done|]. intros Huc. apply (child_later u Huc). set_solver.
Qed.

Lemma step_depth v : v ∈ V → ∃ d, k_depth st' !! v = Some d ∧ 1 ≤ d ∧
  (∀ u du, u ∈ deps v → u ∈ k_visited st' → k_depth st' !! u = Some du → du + 1 ≤ d) ∧
  (d = 1 ∨ ∃ u, u ∈ deps v ∧ u ∈ k_visited st' ∧ k_depth st' !! u = Some (d - 1)).
Proof.
  intros HvV. destruct (ki_depth _ Hinv v HvV) as (d & Hd & Hd1 & Hlo & Hhi).
  pose proof visited_depth as Hold. rewrite Hvis, Hdep, Hd.
  destruct (decide (v ∈ cs)) as [Hc|Hc]; cbn; eexists; (split; [done|]).
  - split; [lia|]. split.
    + intros u du Hu Huv. rewrite Hold by done. intros Hdu.
      apply elem_of_app in Huv as [Huv|Huv%list_elem_of_singleton];
        [pose proof (Hlo u du Hu Huv Hdu)|subst u; rewrite Hdt in Hdu; simplify_eq]; lia.
    + destruct (decide (dt + 1 ≤ d)).
      * rewrite Z.max_l by lia. destruct Hhi as [->|(u & ? & ? & ?)]; [by left|right].
        exists u. rewrite Hold by set_solver. set_solver.
      * rewrite Z.max_r by lia. right. exists task. apply Hcs in Hc as [_ Hc].
        rewrite Hold by set_solver. split; [done|]. split; [set_solver|]. rewrite Hdt. f_equal. lia.
  - split; [done|]. split.
    + intros u du Hu Huv. rewrite Hold by done. intros Hdu.
      apply elem_of_app in Huv as [Huv|Huv%list_elem_of_singleton]; [by apply (Hlo u)|].
      subst u. by destruct Hc; apply Hcs.
    + destruct Hhi as [->|(u & ? & ? & ?)]; [by left|right].
      exists u. rewrite Hold by set_solver. set_solver.
Qed.
End step.

(** The invariant survives an iteration of the loop. *)
Lemma kahn_step st task rest cs :
  kahn_inv st → k_ready st = task :: rest → NoDup cs →
  (∀ v, v ∈ cs ↔ v ∈ V ∧ task ∈ deps v) →
  ∃ st', for_fold (relax task) cs
           (Kahn rest (k_degree st) (k_depth st) (k_visited st ++ [task])) = Ok st' ∧
         kahn_inv st' ∧ k_visited st' = k_visited st ++ [task].
Proof.
  intros Hinv Hready Hnd Hcs.
  destruct (inv_task _ _ _ Hinv Hready) as (HtV & Htv & _).
  pose proof Hinv as [_ _ Hdeg _ Hdom Hdep].
  destruct (Hdep task HtV) as (dt & Hdt & _).
  pose proof (task_not_child _ _ _ _ Hinv Hready Hcs) as Htc.
  destruct (relax_all task dt cs (Kahn rest (k_degree st) (k_depth st) (k_visited st ++ [task])))
    as (st' & Hrun & Hvis & Hdep' & Hdeg' & Hrdy'); [done|done|done| |cbn in *].
  { intros v [HvV _]%Hcs. cbn. destruct (Hdep v HvV) as (d & -> & _). by rewrite (Hdeg v HvV). }
  exists st'. split; [done|]. split; [|done]. split.
  - by eapply step_nodup.
  - by eapply step_in.
  - intros v HvV. rewrite Hvis, Hdeg', (Hdeg v HvV), (waiting_visit (k_visited st) task v HvV Htv).
    rewrite (decide_ext (v ∈ cs) (task ∈ deps v)) by (rewrite Hcs; tauto).
    case_decide; cbn; f_equal; lia.
  - by eapply step_ready.
  - intros v. rewrite Hdep'. case_decide; [rewrite fmap_is_Some|]; apply Hdom.
  - by eapply step_depth.
Qed.

(** ** The whole traversal *)
Definition kids_spec (kids : string → result (list string)) : Prop :=
  ∀ t, t ∈ V → ∃ cs, kids t = Ok cs ∧ NoDup cs ∧ ∀ v, v ∈ cs ↔ v ∈ V ∧ t ∈ deps v.

(** One unit of fuel per node that is not visited yet is enough. *)
Lemma kahn_total kids fuel st :
  kids_spec kids → kahn_inv st → (length V ≤ fuel + length (k_visited st))%nat →
  ∃ st', kahn_loop kids fuel st = Ok st' ∧ kahn_inv st' ∧ k_ready st' = [].
Proof.
  intros Hkids. revert st. induction fuel as [|fuel IH]; intros st Hinv Hfuel; cbn;
    (destruct (k_ready st) as [|task rest] eqn:E; [by exists st|]);
    destruct (inv_task _ _ _ Hinv E) as (HtV & Htv & Htr & _ & Hnd).
  - exfalso. assert (length (task :: k_visited st) ≤ length V)%nat; [|cbn in *; lia].
    apply submseteq_length, NoDup_submseteq.
    + apply NoDup_app in Hnd as [? _]. by constructor.
    + intros v Hv. apply (ki_in st Hinv). rewrite E. set_solver.
  - destruct (Hkids task HtV) as (cs & -> & Hcn & Hcs). cbn.
    destruct (kahn_step _ _ _ _ Hinv E Hcn Hcs) as (st' & -> & Hinv' & Hvis). cbn.
    apply IH; [done|]. rewrite Hvis, length_app. cbn. lia.
Qed.

Lemma start_inv indegree :
  indegree.*1 = V → (∀ v n, (v, n) ∈ indegree → n = Z.of_nat (length (deps v))) →
  kahn_inv (kahn_start indegree).
Proof.
  intros HV Hn. pose proof (wf_nodup Hwf) as Hnd. rewrite <- HV in Hnd.
  assert (Hw : ∀ v, waiting [] v = deps v).
  { intros v. unfold waiting. induction (deps v) as [|u l IH]; [done|].
    rewrite filter_cons_True by set_solver. by rewrite IH. }
  assert (Hmem : ∀ v, v ∈ V ↔ (v, Z.of_nat (length (deps v))) ∈ indegree).
  { intros v. rewrite <- HV, list_elem_of_fmap. split.
    - intros ([v' n] & -> & H). cbn. by rewrite <- (Hn v' n H).
    - intros H. by exists (v, Z.of_nat (length (deps v))). }
  assert (Hz : ∀ v, v ∈ (filter (λ kv : string * Z, kv.2 = 0) indegree).*1 ↔ v ∈ V ∧ deps v = []).
  { intros v. rewrite list_elem_of_fmap. split.
    - intros ([v' n] & -> & [H0 H]%list_elem_of_filter). cbn in *. subst n.
      pose proof (Hn _ _ H). split; [rewrite <- HV; by apply (list_elem_of_fmap_2 fst) in H|].
      apply length_zero_iff_nil. lia.
    - intros [H%Hmem E]. rewrite E in H. exists (v, 0). split; [done|]. by apply list_elem_of_filter. }
  split; cbn [kahn_start k_ready k_degree k_depth k_visited app].
  - rewrite py_sorted_perm. eapply sublist_NoDup; [exact Hnd|]. apply fmap_sublist, sublist_filter.
  - intros v. rewrite elem_of_py_sorted, Hz. by intros [? _].
  - intros v HvV. rewrite Hw. apply elem_of_list_to_map; [done|]. by apply Hmem.
  - intros v HvV. rewrite elem_of_py_sorted, Hz, Hw. tauto.
  - intros v [d Hd%elem_of_list_to_map_2]. rewrite <- HV.
    apply list_elem_of_fmap in Hd as ([v' n] & [= -> ->] & H).
    by apply (list_elem_of_fmap_2 fst) in H.
  - intros v HvV. exists 1. split; [|split; [lia|split; [set_solver|by left]]].
    apply elem_of_list_to_map.
    + rewrite <- list_fmap_compose. exact Hnd.
    + apply Hmem in HvV. apply list_elem_of_fmap. by exists (v, Z.of_nat (length (deps v))).
Qed.

Lemma edge_tc_in u v : tc edge u v → v ∈ V.
Proof. induction 1 as [? ? [? _]|]; done. Qed.

(** If the traversal reaches every node, depths grow along edges. *)
Lemma depth_increases st u v du dv :
  kahn_inv st → (∀ w, w ∈ V → w ∈ k_visited st) → tc edge u v →
  k_depth st !! u = Some du → k_depth st !! v = Some dv → du < dv.
Proof.
  intros Hinv Hall Htc. revert du dv.
  assert (Hedge : ∀ u v du dv, edge u v → k_depth st !! u = Some du → k_depth st !! v = Some dv → du < dv).
  { intros x y dx dy [HyV Hxy] Hx Hy.
    destruct (ki_depth st Hinv y HyV) as (d & Hd & _ & Hlo & _). simplify_eq.
    pose proof (Hlo x dx Hxy (Hall x (wf_deps_in Hwf y x HyV Hxy)) Hx). lia. }
  induction Htc as [x y He|x y z He Htc IH]; intros dx dz Hx Hz; [by eapply Hedge|].
  destruct He as [HyV Hxy]. destruct (ki_depth st Hinv y HyV) as (dy & Hy & _).
  pose proof (Hedge x y dx dy (conj HyV Hxy) Hx Hy). pose proof (IH dy dz Hy Hz). lia.
Qed.

Lemma chain_in v n : chain v n → v ∈ V.
Proof. by intros [|? ? ? ? [? _]]. Qed.

Lemma depth_longest st v :
  kahn_inv st → (∀ w, w ∈ V → w ∈ k_visited st) → v ∈ V →
  ∃ d, k_depth st !! v = Some d ∧ longest_chain v d.
Proof.
  intros Hinv Hall HvV. destruct (ki_depth st Hinv v HvV) as (d & Hd & Hd1 & _).
  exists d. split; [done|]. split.
  - revert v HvV Hd Hd1. induction (Z.lt_wf 0 d) as [d _ IH]. intros v HvV Hd Hd1.
    destruct (ki_depth st Hinv v HvV) as (d' & Hd' & _ & _ & Hhi). simplify_eq.
    destruct Hhi as [->|(u & Hu & Huv & Hdu)]; [by constructor|].
    pose proof (wf_deps_in Hwf v u HvV Hu) as HuV.
    destruct (ki_depth st Hinv u HuV) as (d'' & Hd'' & ? & _). simplify_eq.
    replace d with (d - 1 + 1) by lia. apply (chain_next u); [|done]. apply IH; try done; lia.
  - intros n Hch. clear Hd1. revert d Hd. induction Hch as [v _|u v n Hch IH [HyV Huv]]; intros d Hd.
    + destruct (ki_depth st Hinv v HvV) as (d' & Hd' & ? & _). by simplify_eq.
    + pose proof (wf_deps_in Hwf v u HyV Huv) as HuV.
      destruct (ki_depth st Hinv u HuV) as (du & Hdu & _). specialize (IH HuV du Hdu).
      assert (du < d); [|lia].
      eapply depth_increases; [done|done| |exact Hdu|exact Hd]. by apply tc_once.
Qed.

(** If it does not, some node that is left waits for another one that is left,
    and there is a cycle. *)
Lemma stuck_cyclic st v :
  kahn_inv st → k_ready st = [] → v ∈ V → v ∉ k_visited st → ¬ acyclic.
Proof.
  intros Hinv Hr HvV Hv Hac.
  assert (Hsn : sn (flip edge) v).
  { apply tc_finite_sn.
    - assert (Hflip : ∀ x y, tc (flip edge) x y → tc edge y x).
      { induction 1 as [x y Hxy|x y z Hxy _ IH]; [exact (@tc_once _ edge y x Hxy)|exact (@tc_r _ edge _ _ _ IH Hxy)]. }
      intros x Hx. by apply (Hac x), Hflip.
    - exists V. intros x Hx. clear -Hx Hwf.
      induction Hx as [x y [Hx Hy]|]; [by apply (wf_deps_in Hwf x)|done]. }
  revert HvV Hv. induction Hsn as [v _ IH]. intros HvV Hv.
  destruct (waiting (k_visited st) v) as [|u l] eqn:E.
  - apply (ki_ready st Hinv v HvV) in E. rewrite Hr, app_nil_r in E. done.
  - assert (u ∈ waiting (k_visited st) v) as [Hu Huv]%list_elem_of_filter by (rewrite E; set_solver).
    by apply (IH u); [|apply (wf_deps_in Hwf v)|].
Qed.

(** The traversal visits as many nodes as there are exactly when the graph is
    acyclic, and then it has computed the length of the longest dependency
    chain that ends at each node. *)
Lemma kahn_correct kids indegree fuel :
  kids_spec kids → indegree.*1 = V →
  (∀ v n, (v, n) ∈ indegree → n = Z.of_nat (length (deps v))) → (length V ≤ fuel)%nat →
  ∃ st, kahn_loop kids fuel (kahn_start indegree) = Ok st ∧
    (length (k_visited st) = length V ↔ acyclic) ∧
    (∀ v, is_Some (k_depth st !! v) → v ∈ V) ∧
    (acyclic → ∀ v, v ∈ V → ∃ d, k_depth st !! v = Some d ∧ longest_chain v d).
Proof.
  intros Hkids HV Hn Hfuel.
  destruct (kahn_total kids fuel (kahn_start indegree)) as (st & Hrun & Hinv & Hr);
    [done|by apply start_inv|cbn; lia|].
  exists st. split; [done|].
  pose proof (ki_nodup st Hinv) as Hnd. rewrite Hr, app_nil_r in Hnd.
  assert (Hsub : k_visited st ⊆+ V).
  { apply NoDup_submseteq; [done|]. intros v Hv. apply (ki_in st Hinv). set_solver. }
  assert (Hfull : acyclic → ∀ w, w ∈ V → w ∈ k_visited st).
  { intros Hac w Hw. destruct (decide (w ∈ k_visited st)) as [|Hv]; [done|].
    by destruct (stuck_cyclic st w Hinv Hr Hw Hv). }
  split; [split|split; [apply (ki_dom st Hinv)|]].
  - intros Hlen v Htc. pose proof (edge_tc_in _ _ Htc) as HvV.
    assert (Hall : ∀ w, w ∈ V → w ∈ k_visited st).
    { apply submseteq_length_Permutation in Hsub; [|lia]. intros w. by rewrite Hsub. }
    destruct (ki_depth st Hinv v HvV) as (d & Hd & _).
    pose proof (depth_increases st v v d d Hinv Hall Htc Hd Hd). lia.
  - intros Hac. apply Nat.le_antisymm; [by apply submseteq_length|].
    apply submseteq_length, NoDup_submseteq; [apply Hwf|by apply Hfull].
  - intros Hac v HvV. apply depth_longest; auto.
Qed.
End graph.

(** A dict is the graph of a function on a set of keys: its values. *)
Lemma values_elem_of {A} (m : gmap string A) a : a ∈ (map_to_list m).*2 ↔ ∃ k, m !! k = Some a.
Proof.
  rewrite list_elem_of_fmap. split.
  - intros ([k x] & -> & Hk%elem_of_map_to_list). by exists k.
  - intros [k Hk%elem_of_map_to_list]. by exists (k, a).
Qed.


(** * Graphs given by a list of nodes

    Both modules hold their graph as a tuple of models with an id and a list of
    dependencies: [nid] and [ndeps]. *)
Section nodes.
Context {A : Type} (nid : A → string) (ndeps : A → list string) (nodes : list A).

(** The dependencies of a node by id. *)
Definition node_deps (v : string) : list string :=
  match list_find (λ t, nid t = v) nodes with
  | Some (_, t) => ndeps t
  | None => []
  end.

Definition dependents (d : string) : list string := map nid (filter (λ t, d ∈ ndeps t) nodes).

(** The constraints the validators have established when the graph is measured. *)
Record graph_ok : Prop := {
  go_ids : NoDup (map nid nodes);
  go_deps t : t ∈ nodes → NoDup (ndeps t);
  go_known t d : t ∈ nodes → d ∈ ndeps t → d ∈ map nid nodes }.

Let ids := map nid nodes.

(** [n] nodes is the longest dependency chain of the graph. *)
Definition depth_is (n : Z) : Prop :=
  (∀ v k, chain ids node_deps v k → k ≤ n) ∧ (nodes = [] ∧ n = 0 ∨ ∃ v, chain ids node_deps v n).

(** [n] is the largest number of nodes that depend on one node. *)
Definition fanout_is (n : Z) : Prop :=
  (∀ t, t ∈ nodes → Z.of_nat (length (dependents (nid t))) ≤ n) ∧
  (nodes = [] ∧ n = 0 ∨ ∃ t, t ∈ nodes ∧ n = Z.of_nat (length (dependents (nid t)))).

Lemma depth_is_unique n n' : depth_is n → depth_is n' → n = n'.
Proof.
  intros [H1 H2] [H1' H2']. destruct H2 as [[E ->]|[v Hv]], H2' as [[E' ->]|[v' Hv']]; try done.
  - apply chain_in in Hv'. unfold ids in Hv'. rewrite E in Hv'. by apply not_elem_of_nil in Hv'.
  - apply chain_in in Hv. unfold ids in Hv. rewrite E' in Hv. by apply not_elem_of_nil in Hv.
  - apply Z.le_antisymm; eauto.
Qed.

Lemma fanout_is_unique n n' : fanout_is n → fanout_is n' → n = n'.
Proof.
  intros [H1 H2] [H1' H2']. destruct H2 as [[E ->]|(t & Ht & ->)], H2' as [[E' ->]|(t' & Ht' & ->)]; try done.
  - rewrite E in Ht'. by apply not_elem_of_nil in Ht'.
  - rewrite E' in Ht. by apply not_elem_of_nil in Ht.
  - apply Z.le_antisymm; auto.
Qed.

Context (Hok : graph_ok).

Lemma node_deps_in t : t ∈ nodes → node_deps (nid t) = ndeps t.
Proof.
  intros Ht. unfold node_deps.
  assert (∀ i u, list_find (λ t0, nid t0 = nid t) nodes = Some (i, u) → u = t) as Huniq.
  { intros i u (Hu & E & _)%list_find_Some. apply list_elem_of_lookup in Ht as [j Hj].
    assert (i = j) as ->; [|congruence].
    eapply NoDup_lookup; [exact (go_ids Hok)| |]; apply list_lookup_fmap_Some; eauto. }
  destruct (list_find_elem_of (λ t0, nid t0 = nid t) nodes t Ht eq_refl) as [[i u] E].
  rewrite E. by rewrite (Huniq i u E).
Qed.

Lemma graph_ok_wf : well_formed ids node_deps.
Proof.
  split; [apply Hok| |].
  - intros v (t & -> & Ht)%list_elem_of_fmap. rewrite node_deps_in by done. by apply Hok.
  - intros v u (t & -> & Ht)%list_elem_of_fmap. rewrite node_deps_in by done. by apply Hok.
Qed.

Lemma dependents_spec t v : v ∈ dependents t ↔ v ∈ ids ∧ t ∈ node_deps v.
Proof.
  unfold dependents. split.
  - intros (u & -> & [Hu Ht]%list_elem_of_filter)%list_elem_of_fmap.
    rewrite node_deps_in by done. split; [by apply list_elem_of_fmap_2|done].
  - intros [(u & -> & Hu)%list_elem_of_fmap Ht]. rewrite node_deps_in in Ht by done.
    apply list_elem_of_fmap_2. by apply list_elem_of_filter.
Qed.

Lemma dependents_NoDup t : NoDup (dependents t).
Proof. eapply sublist_NoDup; [apply Hok|]. apply (fmap_sublist nid), sublist_filter. Qed.

(** The traversal of a node list, in terms of cycles and chains. *)
Lemma nodes_cases kids :
  (∀ t, t ∈ ids → kids t = Ok (py_sorted (dependents t))) →
  ∃ st, kahn_loop kids (length nodes)
          (kahn_start (map (λ t, (nid t, Z.of_nat (length (ndeps t)))) nodes)) = Ok st ∧
    (length (k_visited st) = length nodes ↔ acyclic ids node_deps) ∧
    (acyclic ids node_deps → depth_is (max_default (map_to_list (k_depth st)).*2)).
Proof.
  intros Hkids.
  destruct (kahn_correct ids node_deps graph_ok_wf kids
    (map (λ t, (nid t, Z.of_nat (length (ndeps t)))) nodes) (length nodes))
    as (st & Hrun & Hvis & Hdom & Hdepth).
  - intros t Ht. exists (py_sorted (dependents t)). split; [by apply Hkids|]. split.
    + rewrite py_sorted_perm. apply dependents_NoDup.
    + intros v. rewrite elem_of_py_sorted. apply dependents_spec.
  - unfold ids. clear. induction nodes as [|t l IH]; [done|]. cbn. by f_equal.
  - intros v n (t & [= -> ->] & Ht)%list_elem_of_fmap. by rewrite node_deps_in.
  - unfold ids. by rewrite length_map.
  - exists st. split; [done|]. unfold ids in Hvis. rewrite length_map in Hvis. split; [done|].
    intros Hac. split.
    + intros v k Hk. destruct (Hdepth Hac v (chain_in _ _ _ _ Hk)) as (d & Hd & _ & Hmax).
      pose proof (Hmax k Hk). assert (d ≤ max_default (map_to_list (k_depth st)).*2); [|lia].
      apply max_default_le, values_elem_of. by exists v.
    + assert (Hval : ∀ n, n ∈ (map_to_list (k_depth st)).*2 → ∃ v, chain ids node_deps v n).
      { intros n [v Hv]%values_elem_of. exists v.
        destruct (Hdepth Hac v) as (d & Hd & Hc & _); [apply Hdom; by eexists|]. congruence. }
      destruct (max_default_in (map_to_list (k_depth st)).*2) as [E|Hin]; [|left|right; by apply Hval].
      { intros n [v Hc]%Hval. clear -Hc. induction Hc; lia. }
      rewrite E. split; [|done]. destruct nodes as [|t l] eqn:En; [done|].
      destruct (Hdepth Hac (nid t)) as (d & Hd & _); [by left|].
      assert (d ∈ (map_to_list (k_depth st)).*2) as Hin by (apply values_elem_of; by eexists).
      rewrite E in Hin. by apply not_elem_of_nil in Hin.
Qed.

(** The largest entry of the lengths of all dependents lists. *)
Lemma nodes_fanout (lengths : list Z) :
  (∀ n, n ∈ lengths ↔ ∃ t, t ∈ nodes ∧ n = Z.of_nat (length (dependents (nid t)))) →
  fanout_is (max_default lengths).
Proof.
  intros Hval. split.
  - intros t Ht. apply max_default_le, Hval. by exists t.
  - destruct (max_default_in lengths) as [E|Hin]; [intros n (t & _ & ->)%Hval; lia| |right; by apply Hval].
    left. rewrite E. split; [|done]. destruct nodes as [|t l] eqn:En; [done|].
    assert (Hin : Z.of_nat (length (dependents (nid t))) ∈ lengths).
    { apply Hval. exists t. split; [by left|done]. }
    rewrite E in Hin. by apply not_elem_of_nil in Hin.
Qed.
End nodes.

(** Reading the edges off a node list: the pairs (dependency, dependent) in
    the order both modules visit them. *)
Definition node_edges {A} (nid : A → string) (ndeps : A → list string) (nodes : list A) :
    list (string * string) :=
  concat (map (λ t, map (λ d, (d, nid t)) (ndeps t)) nodes).

Lemma dependents_edges {A} (nid : A → string) (ndeps : A → list string) nodes d :
  (∀ t, t ∈ nodes → NoDup (ndeps t)) →
  (filter (λ e, e.1 = d) (node_edges nid ndeps nodes)).*2 = dependents nid ndeps nodes d.
Proof.
  unfold node_edges. induction nodes as [|t nodes IH]; intros Hnd; [done|]. cbn [map concat].
  rewrite filter_app, fmap_app, IH by set_solver.
  unfold dependents. rewrite filter_cons.
  assert (Hone : (filter (λ e : string * string, e.1 = d) (map (λ x, (x, nid t)) (ndeps t))).*2 =
    if decide (d ∈ ndeps t) then [nid t] else []).
  { assert (NoDup (ndeps t)) as Ht by (apply Hnd; by left). clear -Ht.
    induction Ht as [|x l Hx _ IH]; [done|]. cbn [map]. rewrite filter_cons. cbn [fst].
    destruct (decide (x = d)) as [->|Hne].
    - rewrite decide_True by left. rewrite fmap_cons, IH, decide_False by done. done.
    - rewrite IH. by rewrite (decide_ext (d ∈ x :: l) (d ∈ l)) by set_solver. }
  rewrite Hone. by case_decide.
Qed.

Lemma node_edges_in {A} (nid : A → string) (ndeps : A → list string) nodes d v :
  (d, v) ∈ node_edges nid ndeps nodes ↔ ∃ t, t ∈ nodes ∧ d ∈ ndeps t ∧ v = nid t.
Proof.
  unfold node_edges. rewrite elem_of_concat. split.
  - intros (es & He & (t & -> & Ht)%list_elem_of_fmap).
    apply list_elem_of_fmap in He as (x & [= -> ->] & Hd). by exists t.
  - intros (t & Ht & Hd & ->). exists (map (λ x, (x, nid t)) (ndeps t)). split.
    + apply list_elem_of_fmap. by exists d.
    + apply list_elem_of_fmap. by exists t.
Qed.

Lemma filter_nil {A} (P : A → Prop) `{!∀ x, Decision (P x)} l : (∀ x, x ∈ l → ¬ P x) → filter P l = [].
Proof. induction l as [|x l IH]; intros Hl; [done|]. rewrite filter_cons_False, IH; [done|set_solver..]. Qed.

Lemma edges_into {A} (nid : A → string) (ndeps : A → list string) nodes t :
  NoDup (map nid nodes) → t ∈ nodes →
  length (filter (λ e, e.2 = nid t) (node_edges nid ndeps nodes)) = length (ndeps t).
Proof.
  unfold node_edges. intros Hnd Ht.
  assert (Hone : ∀ u, length (filter (λ e : string * string, e.2 = nid t) (map (λ d, (d, nid u)) (ndeps u))) =
    if decide (nid u = nid t) then length (ndeps u) else 0%nat).
  { intros u. induction (ndeps u) as [|d l IH]; [by case_decide|]. cbn [map]. rewrite filter_cons. cbn [snd].
    destruct (decide (nid u = nid t)); cbn [length]; by rewrite IH. }
  induction nodes as [|u nodes IH]; [by apply not_elem_of_nil in Ht|]. cbn [map concat] in *.
  rewrite filter_app, length_app, Hone. apply NoDup_cons in Hnd as [Hu Hnd].
  apply elem_of_cons in Ht as [->|Ht].
  - rewrite decide_True by done. enough (filter (λ e : string * string, e.2 = nid u)
      (concat (map (λ t, map (λ d, (d, nid t)) (ndeps t)) nodes)) = []) as -> by (cbn; lia).
    apply filter_nil. intros [d v] He E. cbn in E. subst v.
    apply node_edges_in in He as (w & Hw & _ & E). apply Hu. rewrite E. by apply list_elem_of_fmap_2.
  - rewrite decide_False, IH; [done|done..|]. intros E. apply Hu. rewrite E. by apply list_elem_of_fmap_2.
Qed.
