(* ===== verification/PolicyModels.v ===== *)
(** The immutable policy contracts of [arbora/control_plane/policy/models.py].

    One record per Pydantic model. [validate_X x = Ok ()] says that the strict
    frozen model [X] accepts the fields of [x]: the field constraints first, in
    declaration order, then the model's own validators, then the models it
    embeds. [X_json] is [model_dump(mode="json", exclude_none=True)], and the
    digests are the content digests of those dumps. *)
From S2P Require Export Grammar.
Local Open Scope Z_scope.

Definition ABSOLUTE_MAX_TASKS : Z := 256.
Definition ABSOLUTE_MAX_DEPTH : Z := 64.
Definition ABSOLUTE_MAX_TOKENS : Z := 4000000.
Definition ABSOLUTE_MAX_SECONDS : Z := 86400.
Definition ABSOLUTE_MAX_COST_MICROS : Z := 10000000.

Inductive Privilege := Read | Write | Admin.
Inductive BindingKind := KAgent | KSkill | KTool | KDelegation.
Inductive Effect := Allow | Deny.
Inductive PolicyDecision := Approved | Denied.

#[export] Instance Privilege_eq_dec : EqDecision Privilege.
Proof. solve_decision. Defined.
#[export] Instance BindingKind_eq_dec : EqDecision BindingKind.
Proof. solve_decision. Defined.
#[export] Instance Effect_eq_dec : EqDecision Effect.
Proof. solve_decision. Defined.
#[export] Instance PolicyDecision_eq_dec : EqDecision PolicyDecision.
Proof. solve_decision. Defined.

Definition privilege_str (p : Privilege) : string :=
  match p with Read => "read" | Write => "write" | Admin => "admin" end.
Definition kind_str (k : BindingKind) : string :=
  match k with KAgent => "agent" | KSkill => "skill" | KTool => "tool" | KDelegation => "delegation" end.
Definition effect_str (e : Effect) : string := match e with Allow => "allow" | Deny => "deny" end.
Definition decision_str (d : PolicyDecision) : string :=
  match d with Approved => "approved" | Denied => "denied" end.

(** ** Summaries *)
Definition nonempty_check (value field_name : string) : result string :=
  _ ← raise_if (bool_decide (py_strip value = "")) (ValueError (field_name +:+ "_empty"));
  _ ← raise_if (bool_decide (value ≠ py_strip value)) (ValueError (field_name +:+ "_whitespace"));
  Ok value.

Definition SENSITIVE_WORDS : list string :=
  ["argument"; "body"; "credential"; "password"; "payload"; "prompt"; "result"; "secret"; "token"].

Definition safe_summary (value : string) : result string :=
  value ← nonempty_check value "summary";
  _ ← raise_if (bool_decide (256 < String.length value)%nat) (ValueError "summary_too_long");
  _ ← raise_if (search_words SENSITIVE_WORDS value) (ValueError "summary_sensitive_content");
  Ok value.

(** ** ExecutionBudget *)
Record ExecutionBudget := mkBudget {
  max_tasks : Z; max_depth : Z; max_fanout : Z; max_tool_calls : Z;
  max_tokens : Z; max_seconds : Z; max_cost_micros : Z }.

Definition validate_ExecutionBudget (b : ExecutionBudget) : result () :=
  _ ← check_field "max_tasks" (in_bounds 1 ABSOLUTE_MAX_TASKS (max_tasks b));
  _ ← check_field "max_depth" (in_bounds 1 ABSOLUTE_MAX_DEPTH (max_depth b));
  _ ← check_field "max_fanout" (in_bounds 1 ABSOLUTE_MAX_TASKS (max_fanout b));
  _ ← check_field "max_tool_calls" (in_bounds 0 ABSOLUTE_MAX_TASKS (max_tool_calls b));
  _ ← check_field "max_tokens" (in_bounds 1 ABSOLUTE_MAX_TOKENS (max_tokens b));
  _ ← check_field "max_seconds" (in_bounds 1 ABSOLUTE_MAX_SECONDS (max_seconds b));
  check_field "max_cost_micros" (in_bounds 0 ABSOLUTE_MAX_COST_MICROS (max_cost_micros b)).

Definition ExecutionBudget_json (b : ExecutionBudget) : json :=
  JObj [("max_tasks", JInt (max_tasks b)); ("max_depth", JInt (max_depth b));
        ("max_fanout", JInt (max_fanout b)); ("max_tool_calls", JInt (max_tool_calls b));
        ("max_tokens", JInt (max_tokens b)); ("max_seconds", JInt (max_seconds b));
        ("max_cost_micros", JInt (max_cost_micros b))].

(** [_within]: every dimension of the request is at most the ceiling's. *)
Definition within (requested ceiling : ExecutionBudget) : bool :=
  forallb (λ f : ExecutionBudget → Z, f requested <=? f ceiling)
    [max_tasks; max_depth; max_fanout; max_tool_calls; max_tokens; max_seconds; max_cost_micros].

(** ** CapabilityBinding *)
Record CapabilityBinding := mkBinding {
  cb_kind : BindingKind; cb_binding_id : string; cb_version : string;
  cb_digest : string; cb_privilege : Privilege }.

Definition no_alias (value : string) : result () :=
  raise_if (bool_decide (casefold value ∈ ["latest"; "current"; "default"]) || has_char "@" value)
    (ValidationError "binding_alias_forbidden").

Definition validate_CapabilityBinding (b : CapabilityBinding) : result () :=
  _ ← check_field "binding_id" (StableId (cb_binding_id b));
  _ ← check_field "version" (SemVer (cb_version b));
  _ ← check_field "digest" (Digest (cb_digest b));
  no_alias (cb_binding_id b).

Definition CapabilityBinding_json (b : CapabilityBinding) : json :=
  JObj [("kind", JStr (kind_str (cb_kind b))); ("binding_id", JStr (cb_binding_id b));
        ("version", JStr (cb_version b)); ("digest", JStr (cb_digest b));
        ("privilege", JStr (privilege_str (cb_privilege b)))].

(** ** PolicyRef *)
Record PolicyRef := mkPolicyRef { pr_policy_id : string; pr_version : string; pr_digest : string }.

Definition validate_PolicyRef (r : PolicyRef) : result () :=
  _ ← check_field "policy_id" (StableId (pr_policy_id r));
  _ ← check_field "version" (SemVer (pr_version r));
  check_field "digest" (Digest (pr_digest r)).

Definition PolicyRef_json (r : PolicyRef) : json :=
  JObj [("policy_id", JStr (pr_policy_id r)); ("version", JStr (pr_version r));
        ("digest", JStr (pr_digest r))].

(** ** ApprovalRequirement *)
Record ApprovalRequirement := mkRequirement {
  ar_required : bool; ar_min_approvers : Z; ar_max_age_seconds : Z; ar_approver_scope : string }.

Definition required_has_approvers (a : ApprovalRequirement) : result () :=
  _ ← raise_if (ar_required a && (ar_min_approvers a <? 1))
        (ValidationError "approval_approver_count_missing");
  raise_if (negb (ar_required a) && negb (ar_min_approvers a =? 0))
    (ValidationError "optional_approval_approver_count_invalid").

Definition validate_ApprovalRequirement (a : ApprovalRequirement) : result () :=
  _ ← check_field "min_approvers" (in_bounds 0 16 (ar_min_approvers a));
  _ ← check_field "max_age_seconds" (in_bounds 1 86400 (ar_max_age_seconds a));
  _ ← check_field "approver_scope" (OpaqueRef (ar_approver_scope a));
  required_has_approvers a.

Definition ApprovalRequirement_json (a : ApprovalRequirement) : json :=
  JObj [("required", JBool (ar_required a)); ("min_approvers", JInt (ar_min_approvers a));
        ("max_age_seconds", JInt (ar_max_age_seconds a));
        ("approver_scope", JStr (ar_approver_scope a))].

(** ** PolicyRule *)
Record PolicyRule := mkRule {
  rule_operation : string; rule_effect : Effect; rule_approval_required : bool;
  rule_budget : ExecutionBudget }.

Definition validate_PolicyRule (r : PolicyRule) : result () :=
  _ ← check_field "operation" (StableKey (rule_operation r));
  validate_ExecutionBudget (rule_budget r).

Definition PolicyRule_json (r : PolicyRule) : json :=
  JObj [("operation", JStr (rule_operation r)); ("effect", JStr (effect_str (rule_effect r)));
        ("approval_required", JBool (rule_approval_required r));
        ("budget", ExecutionBudget_json (rule_budget r))].

(** ** PolicyVersion *)
Record PolicyVersion := mkPolicy {
  pv_policy_id : string; pv_version : string; pv_issuer_ref : string;
  pv_budget : ExecutionBudget; pv_rules : list PolicyRule;
  pv_bindings : list CapabilityBinding; pv_max_privilege : Privilege;
  pv_approval : ApprovalRequirement; pv_summary : string }.

Definition privilege_level (p : Privilege) : Z :=
  match p with Read => 0 | Write => 1 | Admin => 2 end.

Definition validate_policy (p : PolicyVersion) : result () :=
  _ ← raise_if (has_duplicates (map rule_operation (pv_rules p)))
        (ValidationError "policy_operation_ambiguous");
  _ ← for_each (λ rule, raise_if (negb (within (rule_budget rule) (pv_budget p)))
        (ValidationError "policy_rule_budget_escalation")) (pv_rules p);
  _ ← raise_if (has_duplicates
        (map (λ b, (kind_str (cb_kind b), cb_binding_id b, cb_version b)) (pv_bindings p)))
        (ValidationError "policy_binding_ambiguous");
  raise_if (existsb (λ b, privilege_level (pv_max_privilege p) <? privilege_level (cb_privilege b))
              (pv_bindings p))
    (ValidationError "policy_privilege_escalation").

Definition validate_PolicyVersion (p : PolicyVersion) : result () :=
  _ ← check_field "policy_id" (StableId (pv_policy_id p));
  _ ← check_field "version" (SemVer (pv_version p));
  _ ← check_field "issuer_ref" (OpaqueRef (pv_issuer_ref p));
  _ ← validate_ExecutionBudget (pv_budget p);
  _ ← check_field "rules" (tuple_len 1 256 (pv_rules p));
  _ ← for_each validate_PolicyRule (pv_rules p);
  _ ← check_field "bindings" (tuple_len 0 256 (pv_bindings p));
  _ ← for_each validate_CapabilityBinding (pv_bindings p);
  _ ← validate_ApprovalRequirement (pv_approval p);
  _ ← safe_summary (pv_summary p);
  validate_policy p.

Definition PolicyVersion_json (p : PolicyVersion) : json :=
  JObj [("policy_id", JStr (pv_policy_id p)); ("version", JStr (pv_version p));
        ("issuer_ref", JStr (pv_issuer_ref p)); ("budget", ExecutionBudget_json (pv_budget p));
        ("rules", JArr (map PolicyRule_json (pv_rules p)));
        ("bindings", JArr (map CapabilityBinding_json (pv_bindings p)));
        ("max_privilege", JStr (privilege_str (pv_max_privilege p)));
        ("approval", ApprovalRequirement_json (pv_approval p));
        ("summary", JStr (pv_summary p))].

Definition policy_digest (p : PolicyVersion) : string := canonical_digest (PolicyVersion_json p).

Definition policy_ref_of (p : PolicyVersion) : PolicyRef :=
  mkPolicyRef (pv_policy_id p) (pv_version p) (policy_digest p).

(** [PolicyVersion.rule_for] *)
Fixpoint first_rule (operation : string) (rules : list PolicyRule) : result PolicyRule :=
  match rules with
  | [] => Raise (KeyError operation)
  | rule :: rules' =>
      if bool_decide (rule_operation rule = operation) then Ok rule else first_rule operation rules'
  end.

Definition rule_for (p : PolicyVersion) (operation : string) : result PolicyRule :=
  first_rule operation (pv_rules p).

(** ** Approvals, exceptions and the authorization they lead to *)
Record ApprovalRef := mkApprovalRef { apr_approval_id : string; apr_decision_digest : string }.
Record ExceptionRef := mkExceptionRef { exr_exception_id : string; exr_exception_digest : string }.

Definition ApprovalRef_json (r : ApprovalRef) : json :=
  JObj [("approval_id", JStr (apr_approval_id r));
        ("decision_digest", JStr (apr_decision_digest r))].
Definition ExceptionRef_json (r : ExceptionRef) : json :=
  JObj [("exception_id", JStr (exr_exception_id r));
        ("exception_digest", JStr (exr_exception_digest r))].

Definition validate_ApprovalRef (r : ApprovalRef) : result () :=
  _ ← check_field "approval_id" (StableId (apr_approval_id r));
  check_field "decision_digest" (Digest (apr_decision_digest r)).
Definition validate_ExceptionRef (r : ExceptionRef) : result () :=
  _ ← check_field "exception_id" (StableId (exr_exception_id r));
  check_field "exception_digest" (Digest (exr_exception_digest r)).

Record ApprovalDecision := mkApproval {
  ap_approval_id : string; ap_policy_ref : PolicyRef; ap_operation : string;
  ap_request_digest : string; ap_decision : PolicyDecision; ap_approver_refs : list string;
  ap_issued_at : Z; ap_expires_at : Z; ap_signer_ref : string; ap_signature : string }.

Definition validate_decision (a : ApprovalDecision) : result () :=
  _ ← raise_if (ap_expires_at a <=? ap_issued_at a) (ValidationError "approval_expiry_invalid");
  _ ← raise_if (has_duplicates (ap_approver_refs a)) (ValidationError "approval_approver_duplicate");
  raise_if (bool_decide (ap_decision a = Approved) && bool_decide (ap_approver_refs a = []))
    (ValidationError "approval_approver_missing").

Definition validate_ApprovalDecision (a : ApprovalDecision) : result () :=
  _ ← check_field "approval_id" (StableId (ap_approval_id a));
  _ ← validate_PolicyRef (ap_policy_ref a);
  _ ← check_field "operation" (StableKey (ap_operation a));
  _ ← check_field "request_digest" (Digest (ap_request_digest a));
  _ ← check_field "approver_refs"
        (tuple_len 0 16 (ap_approver_refs a) && forallb OpaqueRef (ap_approver_refs a));
  _ ← check_field "issued_at" (Timestamp (ap_issued_at a));
  _ ← check_field "expires_at" (Timestamp (ap_expires_at a));
  _ ← check_field "signer_ref" (OpaqueRef (ap_signer_ref a));
  _ ← check_field "signature" (Signature (ap_signature a));
  validate_decision a.

(** The dump without the signature that the signature is over. *)
Definition ApprovalDecision_unsigned_json (a : ApprovalDecision) : json :=
  JObj [("approval_id", JStr (ap_approval_id a)); ("policy_ref", PolicyRef_json (ap_policy_ref a));
        ("operation", JStr (ap_operation a)); ("request_digest", JStr (ap_request_digest a));
        ("decision", JStr (decision_str (ap_decision a)));
        ("approver_refs", JStrs (ap_approver_refs a)); ("issued_at", JInt (ap_issued_at a));
        ("expires_at", JInt (ap_expires_at a)); ("signer_ref", JStr (ap_signer_ref a))].

Definition decision_digest (a : ApprovalDecision) : string :=
  canonical_digest (ApprovalDecision_unsigned_json a).

Definition approval_ref_of (a : ApprovalDecision) : ApprovalRef :=
  mkApprovalRef (ap_approval_id a) (decision_digest a).

Record PolicyException := mkException {
  ex_exception_id : string; ex_policy_ref : PolicyRef; ex_operation : string;
  ex_request_digest : string; ex_scope_ref : string; ex_budget : ExecutionBudget;
  ex_allow_denied_operation : bool; ex_issued_at : Z; ex_expires_at : Z;
  ex_signer_ref : string; ex_signature : string }.

Definition validate_PolicyException (x : PolicyException) : result () :=
  _ ← check_field "exception_id" (StableId (ex_exception_id x));
  _ ← validate_PolicyRef (ex_policy_ref x);
  _ ← check_field "operation" (StableKey (ex_operation x));
  _ ← check_field "request_digest" (Digest (ex_request_digest x));
  _ ← check_field "scope_ref" (OpaqueRef (ex_scope_ref x));
  _ ← validate_ExecutionBudget (ex_budget x);
  _ ← check_field "issued_at" (Timestamp (ex_issued_at x));
  _ ← check_field "expires_at" (Timestamp (ex_expires_at x));
  _ ← check_field "signer_ref" (OpaqueRef (ex_signer_ref x));
  _ ← check_field "signature" (Signature (ex_signature x));
  raise_if (ex_expires_at x <=? ex_issued_at x) (ValidationError "exception_expiry_invalid").

Definition PolicyException_unsigned_json (x : PolicyException) : json :=
  JObj [("exception_id", JStr (ex_exception_id x)); ("policy_ref", PolicyRef_json (ex_policy_ref x));
        ("operation", JStr (ex_operation x)); ("request_digest", JStr (ex_request_digest x));
        ("scope_ref", JStr (ex_scope_ref x)); ("budget", ExecutionBudget_json (ex_budget x));
        ("allow_denied_operation", JBool (ex_allow_denied_operation x));
        ("issued_at", JInt (ex_issued_at x)); ("expires_at", JInt (ex_expires_at x));
        ("signer_ref", JStr (ex_signer_ref x))].

Definition exception_digest (x : PolicyException) : string :=
  canonical_digest (PolicyException_unsigned_json x).

Definition exception_ref_of (x : PolicyException) : ExceptionRef :=
  mkExceptionRef (ex_exception_id x) (exception_digest x).

Record PolicyAuthorization := mkAuthorization {
  au_policy_ref : PolicyRef; au_operation : string; au_request_digest : string;
  au_bindings : list CapabilityBinding; au_budget : ExecutionBudget;
  au_approval_ref : option ApprovalRef; au_exception_ref : option ExceptionRef;
  au_resolved_at : Z }.

Definition validate_PolicyAuthorization (a : PolicyAuthorization) : result () :=
  _ ← validate_PolicyRef (au_policy_ref a);
  _ ← check_field "operation" (StableKey (au_operation a));
  _ ← check_field "request_digest" (Digest (au_request_digest a));
  _ ← check_field "bindings" (tuple_len 0 256 (au_bindings a));
  _ ← for_each validate_CapabilityBinding (au_bindings a);
  _ ← validate_ExecutionBudget (au_budget a);
  _ ← from_option validate_ApprovalRef (Ok ()) (au_approval_ref a);
  _ ← from_option validate_ExceptionRef (Ok ()) (au_exception_ref a);
  check_field "resolved_at" (Timestamp (au_resolved_at a)).

Definition PolicyAuthorization_json (a : PolicyAuthorization) : json :=
  JObj ([("policy_ref", PolicyRef_json (au_policy_ref a)); ("operation", JStr (au_operation a));
         ("request_digest", JStr (au_request_digest a));
         ("bindings", JArr (map CapabilityBinding_json (au_bindings a)));
         ("budget", ExecutionBudget_json (au_budget a))]
        ++ opt_field "approval_ref" ApprovalRef_json (au_approval_ref a)
        ++ opt_field "exception_ref" ExceptionRef_json (au_exception_ref a)
        ++ [("resolved_at", JInt (au_resolved_at a))]).

Definition authorization_digest (a : PolicyAuthorization) : string :=
  canonical_digest (PolicyAuthorization_json a).

(** ** Model equality *)
#[export] Instance ExecutionBudget_eq_dec : EqDecision ExecutionBudget.
Proof. solve_decision. Defined.
#[export] Instance CapabilityBinding_eq_dec : EqDecision CapabilityBinding.
Proof. solve_decision. Defined.
#[export] Instance PolicyRef_eq_dec : EqDecision PolicyRef.
Proof. solve_decision. Defined.
#[export] Instance ApprovalRequirement_eq_dec : EqDecision ApprovalRequirement.
Proof. solve_decision. Defined.
#[export] Instance PolicyRule_eq_dec : EqDecision PolicyRule.
Proof. solve_decision. Defined.
#[export] Instance PolicyVersion_eq_dec : EqDecision PolicyVersion.
Proof. solve_decision. Defined.
#[export] Instance ApprovalRef_eq_dec : EqDecision ApprovalRef.
Proof. solve_decision. Defined.
#[export] Instance ExceptionRef_eq_dec : EqDecision ExceptionRef.
Proof. solve_decision. Defined.
#[export] Instance ApprovalDecision_eq_dec : EqDecision ApprovalDecision.
Proof. solve_decision. Defined.
#[export] Instance PolicyException_eq_dec : EqDecision PolicyException.
Proof. solve_decision. Defined.
#[export] Instance PolicyAuthorization_eq_dec : EqDecision PolicyAuthorization.
Proof. solve_decision. Defined.

(** * Facts *)
Lemma within_spec r c : within r c = true ↔
  max_tasks r ≤ max_tasks c ∧ max_depth r ≤ max_depth c ∧ max_fanout r ≤ max_fanout c ∧
  max_tool_calls r ≤ max_tool_calls c ∧ max_tokens r ≤ max_tokens c ∧
  max_seconds r ≤ max_seconds c ∧ max_cost_micros r ≤ max_cost_micros c.
Proof. unfold within. cbn. lia. Qed.

#[export] Instance within_refl : Reflexive within.
Proof. intros b. apply Is_true_true, within_spec. lia. Qed.
#[export] Instance within_trans : Transitive within.
Proof. intros a b c. rewrite !Is_true_true, !within_spec. lia. Qed.

(** ** Serializers determine their objects *)
#[export] Instance kind_str_inj : Inj (=) (=) kind_str.
Proof. by intros [] []. Qed.
#[export] Instance privilege_str_inj : Inj (=) (=) privilege_str.
Proof. by intros [] []. Qed.
#[export] Instance effect_str_inj : Inj (=) (=) effect_str.
Proof. by intros [] []. Qed.
#[export] Instance decision_str_inj : Inj (=) (=) decision_str.
Proof. by intros [] []. Qed.

#[export] Instance ExecutionBudget_json_inj : CanonicalInj ExecutionBudget_json.
Proof.
  intros [] [] E. by_fields E ["max_tasks"; "max_depth"; "max_fanout"; "max_tool_calls";
    "max_tokens"; "max_seconds"; "max_cost_micros"]. by simplify_eq.
Qed.

#[export] Instance CapabilityBinding_json_inj : CanonicalInj CapabilityBinding_json.
Proof.
  intros [] [] E. by_fields E ["kind"; "binding_id"; "version"; "digest"; "privilege"].
  by simplify_eq.
Qed.

#[export] Instance PolicyRef_json_inj : CanonicalInj PolicyRef_json.
Proof. intros [] [] E. by_fields E ["policy_id"; "version"; "digest"]. by simplify_eq. Qed.

#[export] Instance ApprovalRequirement_json_inj : CanonicalInj ApprovalRequirement_json.
Proof.
  intros [] [] E. by_fields E ["required"; "min_approvers"; "max_age_seconds"; "approver_scope"].
  by simplify_eq.
Qed.

#[export] Instance PolicyRule_json_inj : CanonicalInj PolicyRule_json.
Proof.
  intros [] [] E. by_fields E ["operation"; "effect"; "approval_required"; "budget"].
  by simplify_eq.
Qed.

#[export] Instance PolicyVersion_json_inj : CanonicalInj PolicyVersion_json.
Proof.
  intros [] [] E. by_fields E ["policy_id"; "version"; "issuer_ref"; "budget"; "rules"; "bindings";
    "max_privilege"; "approval"; "summary"]. by simplify_eq.
Qed.

Lemma policy_digest_binds p q :
  policy_digest p = policy_digest q →
  p = q ∨ sha256_collision (payload (PolicyVersion_json p)) (payload (PolicyVersion_json q)).
Proof. exact (digest_binds PolicyVersion_json p q). Qed.

#[export] Instance ApprovalRef_json_inj : CanonicalInj ApprovalRef_json.
Proof. intros [] [] E. by_fields E ["approval_id"; "decision_digest"]. by simplify_eq. Qed.

#[export] Instance ExceptionRef_json_inj : CanonicalInj ExceptionRef_json.
Proof. intros [] [] E. by_fields E ["exception_id"; "exception_digest"]. by simplify_eq. Qed.

(** The dump of an optional field is absent for [None] ([exclude_none]). *)
#[export] Instance PolicyAuthorization_json_inj : CanonicalInj PolicyAuthorization_json.
Proof.
  intros [? ? ? ? ? [] [] ?] [? ? ? ? ? [] [] ?] E;
  by_fields E ["policy_ref"; "operation"; "request_digest"; "bindings"; "budget"; "approval_ref";
    "exception_ref"; "resolved_at"]; by simplify_eq.
Qed.

(** The signed part of an approval: everything but the signature. *)
Lemma ApprovalDecision_unsigned_inj a b :
  canonical (ApprovalDecision_unsigned_json a) = canonical (ApprovalDecision_unsigned_json b) →
  a = mkApproval (ap_approval_id b) (ap_policy_ref b) (ap_operation b) (ap_request_digest b)
        (ap_decision b) (ap_approver_refs b) (ap_issued_at b) (ap_expires_at b) (ap_signer_ref b)
        (ap_signature a).
Proof.
  destruct a, b; cbn. intros E. by_fields E ["approval_id"; "policy_ref"; "operation";
    "request_digest"; "decision"; "approver_refs"; "issued_at"; "expires_at"; "signer_ref"].
  by simplify_eq.
Qed.

Lemma PolicyException_unsigned_inj a b :
  canonical (PolicyException_unsigned_json a) = canonical (PolicyException_unsigned_json b) →
  a = mkException (ex_exception_id b) (ex_policy_ref b) (ex_operation b) (ex_request_digest b)
        (ex_scope_ref b) (ex_budget b) (ex_allow_denied_operation b) (ex_issued_at b)
        (ex_expires_at b) (ex_signer_ref b) (ex_signature a).
Proof.
  destruct a, b; cbn. intros E. by_fields E ["exception_id"; "policy_ref"; "operation";
    "request_digest"; "scope_ref"; "budget"; "allow_denied_operation"; "issued_at"; "expires_at";
    "signer_ref"].
  by simplify_eq.
Qed.
