(* ===== verification/PolicyAuthority.v ===== *)
(** The policy repository and the approval/exception authority of
    [arbora/control_plane/policy/repository.py].

    The [PolicyRepository] and [SignatureVerifier] protocols are the classes of
    the same names; the theorems about [PolicyAuthority] are proved for any
    implementation with [PolicyRepositoryLaws], and [InMemoryPolicyRepository]
    is an instance. A method is a computation on the authority's state; the
    reading of [self.clock()] is an argument. *)
From S2P Require Export PolicyModels.
Local Open Scope Z_scope.

Definition PolicyDomainError (code : string) : pyexn :=
  PyExn ["PolicyDomainError"; "ValueError"] code "".
Definition PolicyConflictError (code : string) : pyexn :=
  PyExn ["PolicyConflictError"; "PolicyDomainError"; "ValueError"] code "".
Definition PolicyNotFoundError (code : string) : pyexn :=
  PyExn ["PolicyNotFoundError"; "PolicyDomainError"; "ValueError"] code "".

(** ** The repository protocol *)
Class PolicyRepository (R : Type) := {
  repo_put : PolicyVersion → M R ();
  repo_get : string → string → R → option PolicyVersion }.

(** ** The in-memory repository *)
Record InMemoryPolicyRepository := mkPolicyRepository {
  stored_policies : gmap (string * string) PolicyVersion }.

Definition put (policy : PolicyVersion) : M InMemoryPolicyRepository () :=
  let key := (pv_policy_id policy, pv_version policy) in
  self ← get_state;
  _ ← match stored_policies self !! key with
      | Some prior =>
          raise_if (bool_decide (policy_digest prior ≠ policy_digest policy))
            (PolicyConflictError "immutable_policy_version_conflict")
      | None => mret ()
      end;
  put_state (mkPolicyRepository (<[key := policy]> (stored_policies self))).

Definition get_policy (policy_id version : string) (self : InMemoryPolicyRepository) :
    option PolicyVersion :=
  stored_policies self !! (policy_id, version).

#[export] Instance in_memory_policy_repository : PolicyRepository InMemoryPolicyRepository :=
  {| repo_put := put; repo_get := get_policy |}.

(** ** Signature verification *)
Class SignatureVerifier (V : Type) :=
  verify_signature : V → string → string → string → bool.

Record ExactSignatureVerifier := mkVerifier { signatures : gmap (string * string) string }.

(** The dict comprehension of [__init__]: a later triple replaces an earlier one. *)
Definition ExactSignatureVerifier_new (triples : list (string * string * string)) :
    ExactSignatureVerifier :=
  mkVerifier (foldl (λ m '(signer_ref, signed_digest, signature),
                       <[(signer_ref, signed_digest) := signature]> m) ∅ triples).

#[export] Instance exact_verify : SignatureVerifier ExactSignatureVerifier :=
  λ self signer_ref signed_digest signature,
    bool_decide (signatures self !! (signer_ref, signed_digest) = Some signature).

(** ** The authority *)
Record PolicyAuthority (R V : Type) := mkAuthority {
  repository : R;
  verifier : V;
  approvals : gmap (string * string) ApprovalDecision;
  exceptions : gmap (string * string) PolicyException }.
Arguments mkAuthority {R V} _ _ _ _.
Arguments repository {R V} _.
Arguments verifier {R V} _.
Arguments approvals {R V} _.
Arguments exceptions {R V} _.

#[export] Instance InMemoryPolicyRepository_eq_dec : EqDecision InMemoryPolicyRepository.
Proof. solve_decision. Defined.
#[export] Instance ExactSignatureVerifier_eq_dec : EqDecision ExactSignatureVerifier.
Proof. solve_decision. Defined.
#[export] Instance PolicyAuthority_eq_dec {R V : Type} `{EqDecision R, EqDecision V} :
  EqDecision (PolicyAuthority R V).
Proof. solve_decision. Defined.

Section authority.
Context {R V : Type} `{PolicyRepository R, SignatureVerifier V}.
Implicit Types self : PolicyAuthority R V.

(** [_budget_within]: the same comparison as [policy.models._within]. *)
Definition budget_within (requested ceiling : ExecutionBudget) : bool :=
  forallb (λ f : ExecutionBudget → Z, f requested <=? f ceiling)
    [max_tasks; max_depth; max_fanout; max_tool_calls; max_tokens; max_seconds; max_cost_micros].

Definition publish (policy : PolicyVersion) : M (PolicyAuthority R V) PolicyRef :=
  self ← get_state;
  let '(r, repo) := repo_put policy (repository self) in
  _ ← put_state (mkAuthority repo (verifier self) (approvals self) (exceptions self));
  _ ← lift r;
  mret (policy_ref_of policy).

Definition resolve self (reference : PolicyRef) : result PolicyVersion :=
  policy ← require (repo_get (pr_policy_id reference) (pr_version reference) (repository self))
             (PolicyNotFoundError "policy_version_missing");
  _ ← raise_if (bool_decide (policy_digest policy ≠ pr_digest reference))
        (PolicyConflictError "policy_digest_mismatch");
  Ok policy.

Definition verify_approval_signature self (approval : ApprovalDecision) : result () :=
  raise_if (negb (verify_signature (verifier self) (ap_signer_ref approval)
                    (decision_digest approval) (ap_signature approval)))
    (PolicyDomainError "approval_signature_invalid").

Definition verify_exception_signature self (x : PolicyException) : result () :=
  raise_if (negb (verify_signature (verifier self) (ex_signer_ref x)
                    (exception_digest x) (ex_signature x)))
    (PolicyDomainError "exception_signature_invalid").

Definition approval_key (a : ApprovalDecision) : string * string :=
  (pr_policy_id (ap_policy_ref a), ap_approval_id a).
Definition exception_key (x : PolicyException) : string * string :=
  (pr_policy_id (ex_policy_ref x), ex_exception_id x).

Definition record_approval (approval : ApprovalDecision) : M (PolicyAuthority R V) () :=
  self ← get_state;
  _ ← lift (verify_approval_signature self approval);
  _ ← match approvals self !! approval_key approval with
      | Some prior => raise_if (bool_decide (prior ≠ approval))
                        (PolicyConflictError "approval_identity_conflict")
      | None => mret ()
      end;
  put_state (mkAuthority (repository self) (verifier self)
    (<[approval_key approval := approval]> (approvals self)) (exceptions self)).

Definition record_exception (x : PolicyException) : M (PolicyAuthority R V) () :=
  self ← get_state;
  _ ← lift (verify_exception_signature self x);
  _ ← match exceptions self !! exception_key x with
      | Some prior => raise_if (bool_decide (prior ≠ x))
                        (PolicyConflictError "exception_identity_conflict")
      | None => mret ()
      end;
  put_state (mkAuthority (repository self) (verifier self) (approvals self)
    (<[exception_key x := x]> (exceptions self))).

Definition resolve_rule_for (policy : PolicyVersion) (operation : string) : result PolicyRule :=
  match rule_for policy operation with
  | Raise _ => Raise (PolicyDomainError "policy_operation_unresolved")
  | ok => ok
  end.

Definition allows_denied (x : option PolicyException) : bool :=
  from_option ex_allow_denied_operation false x.

Definition check_deny_gate (rule : PolicyRule) (exception_ref : option ExceptionRef)
    (x : option PolicyException) : result () :=
  raise_if (bool_decide (rule_effect rule = Deny) &&
              (bool_decide (exception_ref = None) || negb (allows_denied x)))
    (PolicyDomainError "policy_denied").

Definition record_if_present (approval : option ApprovalDecision) (x : option PolicyException) :
    M (PolicyAuthority R V) () :=
  _ ← match approval with Some a => record_approval a | None => mret () end;
  match x with Some x => record_exception x | None => mret () end.

Definition exact_binding (b : CapabilityBinding) : BindingKind * string * string * string * Privilege :=
  (cb_kind b, cb_binding_id b, cb_version b, cb_digest b, cb_privilege b).

Definition validate_bindings (policy : PolicyVersion) (bindings : list CapabilityBinding) : result () :=
  for_each (λ b, raise_if (bool_decide (exact_binding b ∉ map exact_binding (pv_bindings policy)))
    (PolicyDomainError "binding_unresolved_or_privilege_escalated")) bindings.

Definition check_approval_identity (a : ApprovalDecision) (policy : PolicyVersion)
    (operation request_digest : string) : result () :=
  _ ← raise_if (bool_decide (ap_policy_ref a ≠ policy_ref_of policy))
        (PolicyConflictError "approval_policy_reference_mismatch");
  raise_if (bool_decide (ap_operation a ≠ operation) || bool_decide (ap_request_digest a ≠ request_digest))
    (PolicyConflictError "approval_request_drift").

Definition check_approval_freshness (a : ApprovalDecision) (policy : PolicyVersion) (current : Z) :
    result () :=
  _ ← raise_if (bool_decide (ap_decision a ≠ Approved)) (PolicyDomainError "approval_denied");
  _ ← raise_if ((current <? ap_issued_at a) || (ap_expires_at a <=? current))
        (PolicyDomainError "approval_expired_or_not_yet_valid");
  _ ← raise_if (ar_max_age_seconds (pv_approval policy) <? ap_expires_at a - ap_issued_at a)
        (PolicyDomainError "approval_window_exceeded");
  raise_if (Z.of_nat (length (ap_approver_refs a)) <? ar_min_approvers (pv_approval policy))
    (PolicyDomainError "approval_quorum_missing").

Definition validate_approval self (approval : option ApprovalDecision) (policy : PolicyVersion)
    (operation request_digest : string) (required : bool) (current : Z) : result (option ApprovalRef) :=
  match approval with
  | None => _ ← raise_if required (PolicyDomainError "approval_required"); Ok None
  | Some a =>
      _ ← check_approval_identity a policy operation request_digest;
      _ ← check_approval_freshness a policy current;
      _ ← verify_approval_signature self a;
      Ok (Some (approval_ref_of a))
  end.

Definition validate_exception self (x : option PolicyException) (policy : PolicyVersion)
    (operation request_digest : string) (requested_budget : ExecutionBudget) (current : Z) :
    result (option ExceptionRef) :=
  match x with
  | None => Ok None
  | Some x =>
      _ ← raise_if (bool_decide (ex_policy_ref x ≠ policy_ref_of policy))
            (PolicyConflictError "exception_policy_reference_mismatch");
      _ ← raise_if (bool_decide (ex_operation x ≠ operation) ||
                    bool_decide (ex_request_digest x ≠ request_digest))
            (PolicyConflictError "exception_request_drift");
      _ ← raise_if ((current <? ex_issued_at x) || (ex_expires_at x <=? current))
            (PolicyDomainError "exception_expired_or_not_yet_valid");
      _ ← raise_if (86400 <? ex_expires_at x - ex_issued_at x)
            (PolicyDomainError "exception_window_exceeded");
      _ ← raise_if (negb (budget_within requested_budget (ex_budget x)))
            (PolicyDomainError "exception_budget_escalation");
      _ ← verify_exception_signature self x;
      Ok (Some (exception_ref_of x))
  end.

(** The checks of [authorize], before anything is recorded: the authorization
    the call is about to construct. *)
Definition authorize_checks self (policy_ref : PolicyRef) (operation request_digest : string)
    (bindings : list CapabilityBinding) (requested_budget : ExecutionBudget)
    (approval : option ApprovalDecision) (x : option PolicyException) (current : Z) :
    result PolicyAuthorization :=
  _ ← raise_if (negb (Digest request_digest)) (PolicyDomainError "request_digest_invalid");
  policy ← resolve self policy_ref;
  rule ← resolve_rule_for policy operation;
  _ ← raise_if (negb (budget_within requested_budget (rule_budget rule)))
        (PolicyDomainError "budget_escalation");
  _ ← validate_bindings policy bindings;
  exception_ref ← validate_exception self x policy operation request_digest requested_budget current;
  _ ← check_deny_gate rule exception_ref x;
  approval_ref ← validate_approval self approval policy operation request_digest
    (rule_approval_required rule || ar_required (pv_approval policy)) current;
  Ok (mkAuthorization (policy_ref_of policy) operation request_digest bindings requested_budget
        approval_ref exception_ref current).

(** [authorize]: the checks, the recording of the evidence, and the
    construction of the authorization, which Pydantic validates last. *)
Definition authorize (policy_ref : PolicyRef) (operation request_digest : string)
    (bindings : list CapabilityBinding) (requested_budget : ExecutionBudget)
    (approval : option ApprovalDecision) (x : option PolicyException) (now : option Z) (clock : Z) :
    M (PolicyAuthority R V) PolicyAuthorization :=
  self ← get_state;
  authorization ← lift (authorize_checks self policy_ref operation request_digest bindings
                          requested_budget approval x (default clock now));
  _ ← record_if_present approval x;
  _ ← lift (validate_PolicyAuthorization authorization);
  mret authorization.

(** ** Revalidation *)
Definition resolve_recorded_reference {T} (policy_id reference_id expected_digest : string)
    (records : gmap (string * string) T) (digest_for : T → string) (error_code : string) : result T :=
  match records !! (policy_id, reference_id) with
  | Some record =>
      _ ← raise_if (bool_decide (digest_for record ≠ expected_digest)) (PolicyConflictError error_code);
      Ok record
  | None => Raise (PolicyConflictError error_code)
  end.

Definition resolve_recorded_approval self (authorization : PolicyAuthorization) :
    result (option ApprovalDecision) :=
  match au_approval_ref authorization with
  | None => Ok None
  | Some reference =>
      record ← resolve_recorded_reference (pr_policy_id (au_policy_ref authorization))
        (apr_approval_id reference) (apr_decision_digest reference) (approvals self)
        decision_digest "approval_reference_drift";
      Ok (Some record)
  end.

Definition resolve_recorded_exception self (authorization : PolicyAuthorization) :
    result (option PolicyException) :=
  match au_exception_ref authorization with
  | None => Ok None
  | Some reference =>
      record ← resolve_recorded_reference (pr_policy_id (au_policy_ref authorization))
        (exr_exception_id reference) (exr_exception_digest reference) (exceptions self)
        exception_digest "exception_reference_drift";
      Ok (Some record)
  end.

Definition verify_authorization self (authorization : PolicyAuthorization) (now : option Z) (clock : Z) :
    result () :=
  policy ← resolve self (au_policy_ref authorization);
  rule ← resolve_rule_for policy (au_operation authorization);
  _ ← raise_if (negb (budget_within (au_budget authorization) (rule_budget rule)))
        (PolicyDomainError "budget_escalation");
  _ ← validate_bindings policy (au_bindings authorization);
  let current := default clock now in
  approval ← resolve_recorded_approval self authorization;
  x ← resolve_recorded_exception self authorization;
  _ ← validate_exception self x policy (au_operation authorization)
        (au_request_digest authorization) (au_budget authorization) current;
  _ ← raise_if (bool_decide (rule_effect rule = Deny) && negb (allows_denied x))
        (PolicyDomainError "policy_denied");
  _ ← validate_approval self approval policy (au_operation authorization)
        (au_request_digest authorization)
        (rule_approval_required rule || ar_required (pv_approval policy)) current;
  Ok ().
End authority.

(** * Repository laws

    What the authority relies on: a stored policy is read back, other keys are
    untouched, a refused [put] changes nothing, and an identity never changes
    its digest. *)
Class PolicyRepositoryLaws (R : Type) `{PolicyRepository R} : Prop := {
  repo_put_get p r r' :
    repo_put p r = (Ok (), r') → repo_get (pv_policy_id p) (pv_version p) r' = Some p;
  repo_put_other p r o r' policy_id version :
    repo_put p r = (o, r') → (policy_id, version) ≠ (pv_policy_id p, pv_version p) →
    repo_get policy_id version r' = repo_get policy_id version r;
  repo_put_raise p r e r' : repo_put p r = (Raise e, r') → r' = r;
  repo_put_digest p r r' prior :
    repo_put p r = (Ok (), r') → repo_get (pv_policy_id p) (pv_version p) r = Some prior →
    policy_digest prior = policy_digest p }.

#[export] Instance in_memory_policy_laws : PolicyRepositoryLaws InMemoryPolicyRepository.
Proof.
  assert (Hput : ∀ p r o r', put p r = (o, r') →
    (o = Ok () ∧ r' = mkPolicyRepository (<[(pv_policy_id p, pv_version p) := p]> (stored_policies r)) ∧
     ∀ prior, stored_policies r !! (pv_policy_id p, pv_version p) = Some prior →
       policy_digest prior = policy_digest p) ∨
    (∃ e, o = Raise e) ∧ r' = r).
  { unfold put. intros p r o r' Hrun. run_unfold.
    destruct (stored_policies r !! _) as [q|].
    - case_bool_decide as Hq; injection Hrun as <- <-; [right; by eauto|left].
      split; [done|]. split; [done|]. by intros ? [= <-].
    - injection Hrun as <- <-. by left. }
  split; unfold repo_put, repo_get, in_memory_policy_repository, get_policy.
  - intros p r r' [(_ & -> & _)|[[e ?] _]]%Hput; [apply lookup_insert_eq|done].
  - intros p r o r' policy_id version [(_ & -> & _)|[_ ->]]%Hput Hne; [|done].
    by apply lookup_insert_ne.
  - by intros p r e r' [(? & _)|[_ ->]]%Hput.
  - intros p r r' prior [(_ & _ & E)|[[e ?] _]]%Hput Hprior; [by apply E|done].
Qed.

Section authority_facts.
Context {R V : Type} `{PolicyRepositoryLaws R, SignatureVerifier V}.
Implicit Types self : PolicyAuthority R V.

#[local] Arguments budget_within : simpl never.

Lemma resolve_ok self reference p :
  resolve self reference = Ok p ↔
  repo_get (pr_policy_id reference) (pr_version reference) (repository self) = Some p ∧
  policy_digest p = pr_digest reference.
Proof.
  unfold resolve. split.
  - intros Hok. guards. by subst.
  - intros [-> E]. cbn. by rewrite (bool_decide_eq_false_2 _ (λ H, H E)).
Qed.

Lemma verify_approval_signature_ok self a :
  verify_approval_signature self a = Ok () ↔
  verify_signature (verifier self) (ap_signer_ref a) (decision_digest a) (ap_signature a) = true.
Proof. unfold verify_approval_signature. rewrite raise_if_ok. apply negb_false_iff. Qed.

Lemma verify_exception_signature_ok self x :
  verify_exception_signature self x = Ok () ↔
  verify_signature (verifier self) (ex_signer_ref x) (exception_digest x) (ex_signature x) = true.
Proof. unfold verify_exception_signature. rewrite raise_if_ok. apply negb_false_iff. Qed.

Lemma record_approval_ok a self self' :
  record_approval a self = (Ok (), self') →
  verify_approval_signature self a = Ok () ∧
  (approvals self !! approval_key a = None ∨ approvals self !! approval_key a = Some a) ∧
  self' = mkAuthority (repository self) (verifier self)
            (<[approval_key a := a]> (approvals self)) (exceptions self).
Proof.
  unfold record_approval. intros Hrun. run_unfold.
  destruct (verify_approval_signature self a) as [[]|]; [|done].
  destruct (approvals self !! approval_key a) as [prior|]; cbn in Hrun;
    [case_bool_decide as Hp; [done|subst]|]; injection Hrun as <-; auto.
Qed.

Lemma record_approval_raise a self self' e :
  record_approval a self = (Raise e, self') → self' = self.
Proof.
  unfold record_approval. intros Hrun. run_unfold.
  destruct (verify_approval_signature self a) as [[]|]; [|by simplify_eq].
  destruct (approvals self !! approval_key a) as [prior|]; cbn in Hrun; [|done].
  case_bool_decide; by simplify_eq/=.
Qed.

Lemma record_exception_ok x self self' :
  record_exception x self = (Ok (), self') →
  verify_exception_signature self x = Ok () ∧
  (exceptions self !! exception_key x = None ∨ exceptions self !! exception_key x = Some x) ∧
  self' = mkAuthority (repository self) (verifier self) (approvals self)
            (<[exception_key x := x]> (exceptions self)).
Proof.
  unfold record_exception. intros Hrun. run_unfold.
  destruct (verify_exception_signature self x) as [[]|]; [|done].
  destruct (exceptions self !! exception_key x) as [prior|]; cbn in Hrun;
    [case_bool_decide as Hp; [done|subst]|]; injection Hrun as <-; auto.
Qed.

Lemma record_exception_raise x self self' e :
  record_exception x self = (Raise e, self') → self' = self.
Proof.
  unfold record_exception. intros Hrun. run_unfold.
  destruct (verify_exception_signature self x) as [[]|]; [|by simplify_eq].
  destruct (exceptions self !! exception_key x) as [prior|]; cbn in Hrun; [|done].
  case_bool_decide; by simplify_eq/=.
Qed.

(** ** Operations as steps *)
Inductive authority_step : PolicyAuthority R V → PolicyAuthority R V → Prop :=
  | step_publish p o self self' : publish p self = (o, self') → authority_step self self'
  | step_record_approval a o self self' :
      record_approval a self = (o, self') → authority_step self self'
  | step_record_exception x o self self' :
      record_exception x self = (o, self') → authority_step self self'
  | step_authorize pref op rd bs budget a x now clock o self self' :
      authorize pref op rd bs budget a x now clock self = (o, self') → authority_step self self'.

(** What one step can do to the authority: evidence is only added, under its
    own key and with a verified signature; policies keep their digests. *)
Definition extends (self self' : PolicyAuthority R V) : Prop :=
  verifier self' = verifier self ∧
  (∀ k a, approvals self !! k = Some a → approvals self' !! k = Some a) ∧
  (∀ k x, exceptions self !! k = Some x → exceptions self' !! k = Some x) ∧
  (∀ k a, approvals self' !! k = Some a → approvals self !! k = Some a ∨
     k = approval_key a ∧ verify_approval_signature self a = Ok ()) ∧
  (∀ k x, exceptions self' !! k = Some x → exceptions self !! k = Some x ∨
     k = exception_key x ∧ verify_exception_signature self x = Ok ()) ∧
  (∀ policy_id version p, repo_get policy_id version (repository self) = Some p →
     ∃ p', repo_get policy_id version (repository self') = Some p' ∧
           policy_digest p' = policy_digest p).

#[export] Instance extends_preorder : PreOrder extends.
Proof.
  split; [intros self; repeat split; eauto|].
  intros s1 s2 s3 (V1 & A1 & X1 & A1' & X1' & P1) (V2 & A2 & X2 & A2' & X2' & P2).
  unfold extends, verify_approval_signature, verify_exception_signature in *.
  rewrite V1 in *. split; [done|]. split; [by eauto|]. split; [by eauto|].
  split; [intros k a [Ha|Ha]%A2'; [by apply A1'|by right]|].
  split; [intros k x [Hx|Hx]%X2'; [by apply X1'|by right]|].
  intros policy_id version p (p' & Hp' & E)%P1.
  apply P2 in Hp' as (p'' & ? & ?). exists p''. split; [done|congruence].
Qed.

Lemma publish_extends p : evolves extends (publish p).
Proof.
  intros self o self'. unfold publish. intros Hrun. run_unfold.
  destruct (repo_put p (repository self)) as [o' repo] eqn:Hput.
  assert (self' = mkAuthority repo (verifier self) (approvals self) (exceptions self)) as ->.
  { destruct o'; by simplify_eq. }
  clear Hrun. repeat split; cbn; eauto. intros policy_id version q Hq.
  destruct o' as [[]|e]; [|apply repo_put_raise in Hput as ->; by eauto].
  destruct (decide ((policy_id, version) = (pv_policy_id p, pv_version p))) as [[= -> ->]|Hne].
  - exists p. split; [by apply (repo_put_get p _ _ Hput)|].
    symmetry. by eapply repo_put_digest.
  - exists q. split; [|done]. by rewrite (repo_put_other _ _ _ _ _ _ Hput).
Qed.

Lemma record_approval_extends a : evolves extends (record_approval a).
Proof.
  intros self [[]|e] self'; [|by intros ->%record_approval_raise].
  intros (Hsig & Hprior & ->)%record_approval_ok. repeat split; cbn; eauto.
  - intros k b Hb. destruct (decide (approval_key a = k)) as [<-|Hne];
      [|by rewrite lookup_insert_ne].
    rewrite lookup_insert_eq. destruct Hprior as [Hprior|Hprior]; congruence.
  - intros k b. destruct (decide (approval_key a = k)) as [<-|Hne];
      [rewrite lookup_insert_eq; intros [= <-]; by right|rewrite lookup_insert_ne by done; by left].
Qed.

Lemma record_exception_extends x : evolves extends (record_exception x).
Proof.
  intros self [[]|e] self'; [|by intros ->%record_exception_raise].
  intros (Hsig & Hprior & ->)%record_exception_ok. repeat split; cbn; eauto.
  - intros k b Hb. destruct (decide (exception_key x = k)) as [<-|Hne];
      [|by rewrite lookup_insert_ne].
    rewrite lookup_insert_eq. destruct Hprior as [Hprior|Hprior]; congruence.
  - intros k b. destruct (decide (exception_key x = k)) as [<-|Hne];
      [rewrite lookup_insert_eq; intros [= <-]; by right|rewrite lookup_insert_ne by done; by left].
Qed.

#[local] Hint Resolve record_approval_extends record_exception_extends : evolves.

Lemma record_if_present_extends a x : evolves extends (record_if_present a x).
Proof. unfold record_if_present. evolve. Qed.
#[local] Hint Resolve record_if_present_extends : evolves.

Lemma authorize_extends pref op rd bs budget a x now clock :
  evolves extends (authorize pref op rd bs budget a x now clock).
Proof. unfold authorize. evolve. Qed.

Lemma steps_extends self self' : rtc authority_step self self' → extends self self'.
Proof.
  induction 1 as [|s1 s2 s3 Hs _ IH]; [done|]. transitivity s2; [|done].
  destruct Hs as [p o s s' Hs|a o s s' Hs|x o s s' Hs|pref op rd bs budget a x now clock o s s' Hs].
  - by apply publish_extends in Hs.
  - by apply record_approval_extends in Hs.
  - by apply record_exception_extends in Hs.
  - by apply authorize_extends in Hs.
Qed.

(** ** The contract of an authorization

    What "this operation is permitted by policy [p] under rule [rule], with
    evidence [a] and [x], at instant [t]" means, apart from how the code
    computes it. *)
Record admissible_approval self (p : PolicyVersion) (op rd : string) (t : Z) (a : ApprovalDecision) :
    Prop := {
  aa_policy : ap_policy_ref a = policy_ref_of p;
  aa_request : ap_operation a = op ∧ ap_request_digest a = rd;
  aa_approved : ap_decision a = Approved;
  aa_fresh : ap_issued_at a ≤ t < ap_expires_at a;
  aa_window : ap_expires_at a - ap_issued_at a ≤ ar_max_age_seconds (pv_approval p);
  aa_quorum : ar_min_approvers (pv_approval p) ≤ Z.of_nat (length (ap_approver_refs a));
  aa_signed : verify_signature (verifier self) (ap_signer_ref a) (decision_digest a) (ap_signature a) = true }.

Record admissible_exception self (p : PolicyVersion) (op rd : string) (budget : ExecutionBudget) (t : Z)
    (x : PolicyException) : Prop := {
  ae_policy : ex_policy_ref x = policy_ref_of p;
  ae_request : ex_operation x = op ∧ ex_request_digest x = rd;
  ae_fresh : ex_issued_at x ≤ t < ex_expires_at x;
  ae_window : ex_expires_at x - ex_issued_at x ≤ 86400;
  ae_budget : within budget (ex_budget x) = true;
  ae_signed : verify_signature (verifier self) (ex_signer_ref x) (exception_digest x) (ex_signature x) = true }.

Record permits self (p : PolicyVersion) (rule : PolicyRule) (op rd : string)
    (bs : list CapabilityBinding) (budget : ExecutionBudget)
    (a : option ApprovalDecision) (x : option PolicyException) (t : Z) : Prop := {
  pm_rule : rule_for p op = Ok rule;
  pm_budget : within budget (rule_budget rule) = true;
  pm_bindings : ∀ b, b ∈ bs → b ∈ pv_bindings p;
  pm_exception : ∀ x', x = Some x' → admissible_exception self p op rd budget t x';
  pm_deny : rule_effect rule = Deny → ∃ x', x = Some x' ∧ ex_allow_denied_operation x' = true;
  pm_approval : ∀ a', a = Some a' → admissible_approval self p op rd t a';
  pm_required : rule_approval_required rule = true ∨ ar_required (pv_approval p) = true → a ≠ None }.

Lemma first_rule_ok op rules rule :
  first_rule op rules = Ok rule → rule ∈ rules ∧ rule_operation rule = op.
Proof.
  induction rules as [|r rules IH]; cbn; [done|].
  case_bool_decide; [intros [= ->]; set_solver|]. intros [? ?]%IH. set_solver.
Qed.

Lemma resolve_rule_for_ok p op rule : resolve_rule_for p op = Ok rule ↔ rule_for p op = Ok rule.
Proof. unfold resolve_rule_for. by destruct (rule_for p op). Qed.

#[export] Instance exact_binding_inj : Inj (=) (=) exact_binding.
Proof. intros [] [] E. unfold exact_binding in E. cbn in E. by simplify_eq. Qed.

Lemma validate_bindings_ok p bs :
  validate_bindings p bs = Ok () ↔ ∀ b, b ∈ bs → b ∈ pv_bindings p.
Proof.
  unfold validate_bindings. rewrite for_each_ok, Forall_forall.
  apply forall_proper; intros b. apply forall_proper; intros _.
  rewrite raise_if_ok, bool_decide_not_false.
  split; [intros (c & ->%(inj _) & ?)%list_elem_of_fmap; done|apply list_elem_of_fmap_2].
Qed.

Lemma validate_approval_ok self a p op rd required t r :
  validate_approval self a p op rd required t = Ok r ↔
  r = approval_ref_of <$> a ∧ (required = true → a ≠ None) ∧
  ∀ a', a = Some a' → admissible_approval self p op rd t a'.
Proof.
  destruct a as [a|]; cbn.
  - unfold check_approval_identity, check_approval_freshness. split.
    + intros Hok. guards. rewrite verify_approval_signature_ok in *. subst.
      split; [done|]. split; [done|]. intros ? [= <-]. by split.
    + intros (-> & _ & Ha). destruct (Ha a eq_refl) as [E1 [E2 E3] E4 [] ? ? Hs].
      rewrite E1, E2, E3, E4, !bool_decide_eq_false_2 by auto. cbn.
      rewrite !(proj2 (Z.ltb_ge _ _)), (proj2 (Z.leb_gt _ _)) by lia. cbn.
      unfold verify_approval_signature. by rewrite Hs.
  - destruct required; cbn.
    + split; [done|]. intros (_ & Hr & _). by destruct (Hr eq_refl).
    + split; [by intros [= <-]|by intros (-> & _)].
Qed.

Lemma validate_exception_ok self x p op rd budget t r :
  validate_exception self x p op rd budget t = Ok r ↔
  r = exception_ref_of <$> x ∧ ∀ x', x = Some x' → admissible_exception self p op rd budget t x'.
Proof.
  destruct x as [x|]; cbn; [|split; [intros [= <-]; split; [done|intros ? [=]]|by intros (-> & _)]].
  split.
  - intros Hok. guards. rewrite verify_exception_signature_ok in *. subst.
    split; [done|]. intros ? [= <-]. by split.
  - intros (-> & Hx). destruct (Hx x eq_refl) as [E1 [E2 E3] [] ? Hb Hs].
    rewrite E1, E2, E3, !bool_decide_eq_false_2 by auto. cbn.
    rewrite !(proj2 (Z.ltb_ge _ _)), (proj2 (Z.leb_gt _ _)) by lia. cbn.
    change (budget_within budget (ex_budget x)) with (within budget (ex_budget x)). rewrite Hb. cbn.
    unfold verify_exception_signature. by rewrite Hs.
Qed.

Lemma deny_gate_ok (rule : PolicyRule) (x : option PolicyException) :
  bool_decide (rule_effect rule = Deny) && negb (allows_denied x) = false ↔
  (rule_effect rule = Deny → ∃ x', x = Some x' ∧ ex_allow_denied_operation x' = true).
Proof.
  case_bool_decide as E; cbn; [|by split]. rewrite negb_false_iff.
  destruct x as [x|]; cbn; (split; [by eauto|]); intros HE; by destruct (HE E) as (? & [= <-] & ?).
Qed.

Lemma check_deny_gate_ok (rule : PolicyRule) (x : option PolicyException) :
  check_deny_gate rule (exception_ref_of <$> x) x = Ok () ↔
  (rule_effect rule = Deny → ∃ x', x = Some x' ∧ ex_allow_denied_operation x' = true).
Proof.
  rewrite <- deny_gate_ok. unfold check_deny_gate. rewrite raise_if_ok. by destruct x.
Qed.

(** The checks of [authorize] succeed exactly when the contract holds. *)
Lemma authorize_checks_ok self pref op rd bs budget a x t auth :
  authorize_checks self pref op rd bs budget a x t = Ok auth ↔
  Digest rd = true ∧ ∃ p rule, resolve self pref = Ok p ∧ permits self p rule op rd bs budget a x t ∧
  auth = mkAuthorization (policy_ref_of p) op rd bs budget (approval_ref_of <$> a)
           (exception_ref_of <$> x) t.
Proof.
  unfold authorize_checks. split.
  - intros Hok. guards. split; [done|]. eexists _, _. split; [done|].
    rewrite resolve_rule_for_ok, validate_bindings_ok, validate_approval_ok, validate_exception_ok in *.
    destruct_and!. subst. rewrite check_deny_gate_ok in *. split; [|done].
    split; try done. intros [E|E]; rewrite ?E, ?orb_true_r in *; auto.
  - intros (Hd & p & rule & Hp & [Hr Hb Hbs Hx Hdeny Ha Hreq] & ->).
    apply resolve_rule_for_ok in Hr. apply validate_bindings_ok in Hbs.
    apply check_deny_gate_ok in Hdeny.
    change (within budget (rule_budget rule)) with (budget_within budget (rule_budget rule)) in Hb.
    pose proof (proj2 (validate_exception_ok self x p op rd budget t _) (conj eq_refl Hx)) as Hx'.
    assert (rule_approval_required rule || ar_required (pv_approval p) = true → a ≠ None) as Hreq'
      by (by rewrite orb_true_iff).
    pose proof (proj2 (validate_approval_ok self a p op rd _ t _) (conj eq_refl (conj Hreq' Ha))) as Ha'.
    by rewrite Hd, Hp; cbn; rewrite Hr; cbn; rewrite Hb; cbn; rewrite Hbs; cbn; rewrite Hx'; cbn;
      rewrite Hdeny; cbn; rewrite Ha'.
Qed.

(** ** What recording does *)
Definition with_evidence (a : option ApprovalDecision) (x : option PolicyException) self :
    PolicyAuthority R V :=
  mkAuthority (repository self) (verifier self)
    (from_option (λ a, <[approval_key a := a]>) id a (approvals self))
    (from_option (λ x, <[exception_key x := x]>) id x (exceptions self)).

(** The evidence is new or the very record already stored under its key. *)
Definition no_conflict (a : option ApprovalDecision) (x : option PolicyException) self : Prop :=
  (∀ a' prior, a = Some a' → approvals self !! approval_key a' = Some prior → prior = a') ∧
  (∀ x' prior, x = Some x' → exceptions self !! exception_key x' = Some prior → prior = x').

Lemma record_approval_iff a self self' :
  record_approval a self = (Ok (), self') ↔
  verify_approval_signature self a = Ok () ∧ no_conflict (Some a) None self ∧
  self' = with_evidence (Some a) None self.
Proof.
  split.
  - intros (Hs & Hprior & ->)%record_approval_ok. repeat split; try done.
    intros ? ? [= <-] Hl. destruct Hprior; congruence.
  - intros (Hs & [Hc _] & ->). unfold record_approval. run_unfold. rewrite Hs.
    destruct (approvals self !! approval_key a) as [prior|] eqn:E; cbn; [|done].
    rewrite (Hc a prior eq_refl E). rewrite bool_decide_eq_false_2 by auto. done.
Qed.

Lemma record_exception_iff x self self' :
  record_exception x self = (Ok (), self') ↔
  verify_exception_signature self x = Ok () ∧ no_conflict None (Some x) self ∧
  self' = with_evidence None (Some x) self.
Proof.
  split.
  - intros (Hs & Hprior & ->)%record_exception_ok. repeat split; try done.
    intros ? ? [= <-] Hl. destruct Hprior; congruence.
  - intros (Hs & [_ Hc] & ->). unfold record_exception. run_unfold. rewrite Hs.
    destruct (exceptions self !! exception_key x) as [prior|] eqn:E; cbn; [|done].
    rewrite (Hc x prior eq_refl E). rewrite bool_decide_eq_false_2 by auto. done.
Qed.

Lemma record_if_present_ok a x self self' :
  record_if_present a x self = (Ok (), self') ↔
  (∀ a', a = Some a' → verify_approval_signature self a' = Ok ()) ∧
  (∀ x', x = Some x' → verify_exception_signature self x' = Ok ()) ∧
  no_conflict a x self ∧ self' = with_evidence a x self.
Proof.
  unfold record_if_present. rewrite M_bind_ok. split.
  - intros ([] & s1 & Ra & Rx).
    assert (s1 = with_evidence a None self ∧
      (∀ a', a = Some a' → verify_approval_signature self a' = Ok ()) ∧ no_conflict a None self)
      as (-> & ? & [? _]).
    { destruct a as [a|]; [apply record_approval_iff in Ra as (? & ? & ->)|injection Ra as <-].
      - split; [done|]. split; [|done]. by intros ? [= <-].
      - by destruct self. }
    split; [done|].
    destruct x as [x|]; [apply record_exception_iff in Rx as (? & [_ ?] & ->)|injection Rx as <-];
      (split; [by intros ? [= <-]|]); done.
  - intros (Ha & Hx & [Hca Hcx] & ->). exists (), (with_evidence a None self). split.
    + destruct a as [a|]; [apply record_approval_iff|by destruct self]. split; [by apply Ha|by split].
    + destruct x as [x|]; [apply record_exception_iff|by destruct self]. split; [by apply Hx|by split].
Qed.

Lemma authorize_iff self pref op rd bs budget a x now clock auth self' :
  authorize pref op rd bs budget a x now clock self = (Ok auth, self') ↔
  Digest rd = true ∧
  ∃ p rule,
    repo_get (pr_policy_id pref) (pr_version pref) (repository self) = Some p ∧
    policy_digest p = pr_digest pref ∧
    permits self p rule op rd bs budget a x (default clock now) ∧
    no_conflict a x self ∧
    auth = mkAuthorization (policy_ref_of p) op rd bs budget (approval_ref_of <$> a)
             (exception_ref_of <$> x) (default clock now) ∧
    validate_PolicyAuthorization auth = Ok () ∧
    self' = with_evidence a x self.
Proof.
  unfold authorize. rewrite M_bind_ok. split.
  - intros (? & ? & [= <- <-] & Hs). guards.
    rewrite record_if_present_ok, authorize_checks_ok in *. destruct_and!.
    destruct select (∃ _ _, _) as (p & rule & [? ?]%resolve_ok & ? & ->). subst.
    split; [done|]. by exists p, rule.
  - intros (Hd & p & rule & Hp & Hdig & Hperm & Hc & -> & Hv & ->).
    exists self, self. split; [done|]. rewrite M_bind_ok. eexists _, self. split.
    { unfold lift. f_equal. apply authorize_checks_ok. split; [done|]. exists p, rule.
      by rewrite resolve_ok. }
    rewrite M_bind_ok. exists (), (with_evidence a x self). split.
    { apply record_if_present_ok. repeat split; try apply Hc.
      - intros a' E. apply verify_approval_signature_ok, (pm_approval _ _ _ _ _ _ _ _ _ _ Hperm a' E).
      - intros x' E. apply verify_exception_signature_ok, (pm_exception _ _ _ _ _ _ _ _ _ _ Hperm x' E). }
    unfold mbind, M_bind, lift. by rewrite Hv.
Qed.

(** ** Revalidation *)

(** The evidence an authorization names is the evidence on record. *)
Definition recorded_evidence self (auth : PolicyAuthorization)
    (a : option ApprovalDecision) (x : option PolicyException) : Prop :=
  let pid := pr_policy_id (au_policy_ref auth) in
  match au_approval_ref auth with
  | None => a = None
  | Some r => ∃ a', a = Some a' ∧ approvals self !! (pid, apr_approval_id r) = Some a' ∧
                    decision_digest a' = apr_decision_digest r
  end ∧
  match au_exception_ref auth with
  | None => x = None
  | Some r => ∃ x', x = Some x' ∧ exceptions self !! (pid, exr_exception_id r) = Some x' ∧
                    exception_digest x' = exr_exception_digest r
  end.

Lemma resolve_recorded_reference_ok {T} (pid rid digest : string) (records : gmap (string * string) T) (f : T → string) code t :
  resolve_recorded_reference pid rid digest records f code = Ok t ↔
  records !! (pid, rid) = Some t ∧ f t = digest.
Proof.
  unfold resolve_recorded_reference. destruct (records !! _) as [u|]; [|split; [done|by intros [? ?]]].
  split; [intros Hok; guards; by subst|intros [[= ->] ->]]. by rewrite bool_decide_eq_false_2 by auto.
Qed.

Lemma resolve_recorded_ok self auth a x :
  resolve_recorded_approval self auth = Ok a ∧ resolve_recorded_exception self auth = Ok x ↔
  recorded_evidence self auth a x.
Proof.
  unfold resolve_recorded_approval, resolve_recorded_exception, recorded_evidence.
  assert (Himp : ∀ A B C D : Prop, A ↔ B → C ↔ D → A ∧ C ↔ B ∧ D) by tauto.
  apply Himp; [destruct (au_approval_ref auth)|destruct (au_exception_ref auth)];
    rewrite ?result_bind_ok; try (split; [by intros [= <-]|by intros ->]);
    setoid_rewrite resolve_recorded_reference_ok;
    (split; [intros (t & ? & [= <-])|intros (t & -> & ?)]; by eauto).
Qed.

Lemma verify_authorization_iff self auth now clock :
  verify_authorization self auth now clock = Ok () ↔
  ∃ p rule a x,
    repo_get (pr_policy_id (au_policy_ref auth)) (pr_version (au_policy_ref auth))
      (repository self) = Some p ∧
    policy_digest p = pr_digest (au_policy_ref auth) ∧
    recorded_evidence self auth a x ∧
    permits self p rule (au_operation auth) (au_request_digest auth) (au_bindings auth)
      (au_budget auth) a x (default clock now).
Proof.
  unfold verify_authorization. split.
  - intros Hok. guards.
    rewrite resolve_ok, resolve_rule_for_ok, validate_bindings_ok, validate_approval_ok,
      validate_exception_ok, deny_gate_ok in *. destruct_and!.
    pose proof (proj1 (resolve_recorded_ok self auth _ _) (conj Hok4 Hok5)).
    eexists _, _, _, _. do 3 (split; [done|]). split; try done.
    intros [E|E]; rewrite ?E, ?orb_true_r in *; auto.
  - intros (p & rule & a & x & Hp & Hd & [Ha Hx]%resolve_recorded_ok & Hperm).
    destruct Hperm as [Hr Hb Hbs Hxs Hdeny Has Hreq].
    rewrite (proj2 (resolve_ok self _ p) (conj Hp Hd)). cbn.
    apply resolve_rule_for_ok in Hr. apply validate_bindings_ok in Hbs. apply deny_gate_ok in Hdeny.
    change (within (au_budget auth)) with (budget_within (au_budget auth)) in Hb.
    assert (rule_approval_required rule || ar_required (pv_approval p) = true → a ≠ None) as Hreq'
      by (by rewrite orb_true_iff).
    rewrite Hr; cbn; rewrite Hb; cbn; rewrite Hbs; cbn; rewrite Ha; cbn; rewrite Hx; cbn.
    rewrite (proj2 (validate_exception_ok self x p _ _ _ _ _) (conj eq_refl Hxs)); cbn.
    rewrite Hdeny; cbn.
    by rewrite (proj2 (validate_approval_ok self a p _ _ _ _ _) (conj eq_refl (conj Hreq' Has))).
Qed.

(** The repository files a policy under its own identity. *)
Definition keyed (r : R) : Prop :=
  ∀ policy_id version p, repo_get policy_id version r = Some p →
    policy_id = pv_policy_id p ∧ version = pv_version p.

Lemma publish_keyed p o self self' :
  keyed (repository self) → publish p self = (o, self') → keyed (repository self').
Proof.
  unfold publish. intros Hk Hrun. run_unfold.
  destruct (repo_put p (repository self)) as [o' repo] eqn:Hput.
  assert (repository self' = repo) as -> by (destruct o'; by simplify_eq).
  destruct o' as [[]|e]; [|by apply repo_put_raise in Hput as ->].
  intros policy_id version q Hq.
  destruct (decide ((policy_id, version) = (pv_policy_id p, pv_version p))) as [[= -> ->]|Hne].
  - rewrite (repo_put_get _ _ _ Hput) in Hq. by injection Hq as ->.
  - apply Hk. by rewrite <- (repo_put_other _ _ _ _ _ _ Hput Hne).
Qed.

(** The policy stored now under an identity is not [p] although SHA-256 does
    not tell them apart. *)
Definition supplanted self policy_id version (p : PolicyVersion) : Prop :=
  ∃ q, repo_get policy_id version (repository self) = Some q ∧
       sha256_collision (payload (PolicyVersion_json p)) (payload (PolicyVersion_json q)).

(** A policy that once resolved keeps resolving to the same policy. *)
Lemma resolve_stable self self' policy_id version p :
  rtc authority_step self self' → repo_get policy_id version (repository self) = Some p →
  repo_get policy_id version (repository self') = Some p ∨ supplanted self' policy_id version p.
Proof.
  intros (_ & _ & _ & _ & _ & Hp)%steps_extends (p' & Hp' & E)%Hp. symmetry in E.
  destruct (policy_digest_binds _ _ E) as [->|Hc];
    [left; assumption|right; exists p'; split; assumption].
Qed.

Definition evidence_fresh (t : Z) (a : option ApprovalDecision) (x : option PolicyException) : Prop :=
  (∀ a', a = Some a' → ap_issued_at a' ≤ t < ap_expires_at a') ∧
  (∀ x', x = Some x' → ex_issued_at x' ≤ t < ex_expires_at x').

Lemma permits_at self self' p rule op rd bs budget a x t t' :
  verifier self' = verifier self → permits self p rule op rd bs budget a x t →
  permits self' p rule op rd bs budget a x t' ↔ evidence_fresh t' a x.
Proof.
  intros Hv [Hr Hb Hbs Hx Hdeny Ha Hreq]. split.
  - intros [_ _ _ Hx' _ Ha' _]. split; [intros a' E; apply (Ha' a' E)|intros x' E; apply (Hx' x' E)].
  - intros [Hfa Hfx]. split; try done.
    + intros x' E. destruct (Hx x' E). split; try done; [by apply Hfx|by rewrite Hv].
    + intros a' E. destruct (Ha a' E). split; try done; [by apply Hfa|by rewrite Hv].
Qed.

Lemma recorded_evidence_det self auth a x a' x' :
  recorded_evidence self auth a x → recorded_evidence self auth a' x' → a' = a ∧ x' = x.
Proof.
  intros [Ha Hx] [Ha' Hx']. split.
  - destruct (au_approval_ref auth); [|congruence].
    destruct Ha as (? & -> & ? & _), Ha' as (? & -> & ? & _). congruence.
  - destruct (au_exception_ref auth); [|congruence].
    destruct Hx as (? & -> & ? & _), Hx' as (? & -> & ? & _). congruence.
Qed.

(** * Properties *)

(** C1: [authorize] returns an authorization exactly when the request digest is
    well formed, the policy reference resolves to a stored policy with that
    digest, the operation is permitted by that policy at the instant read, the
    supplied evidence does not contradict recorded evidence, and the
    authorization is a valid model; it then names that policy, budget, bindings
    and evidence, and the evidence is recorded and nothing else changes. *)
Theorem authorize_spec self pref op rd bs budget a x now clock auth self' :
  authorize pref op rd bs budget a x now clock self = (Ok auth, self') ↔
  Digest rd = true ∧
  ∃ p rule,
    repo_get (pr_policy_id pref) (pr_version pref) (repository self) = Some p ∧
    policy_digest p = pr_digest pref ∧
    permits self p rule op rd bs budget a x (default clock now) ∧
    no_conflict a x self ∧
    auth = mkAuthorization (policy_ref_of p) op rd bs budget (approval_ref_of <$> a)
             (exception_ref_of <$> x) (default clock now) ∧
    validate_PolicyAuthorization auth = Ok () ∧
    self' = with_evidence a x self.
Proof. apply authorize_iff. Qed.

(** Revalidation accepts an authorization exactly when its exact policy
    still resolves and permits the same operation, budget and bindings at the
    instant of revalidation, with the evidence on record under the references
    the authorization carries. *)
Theorem verify_authorization_spec self auth now clock :
  verify_authorization self auth now clock = Ok () ↔
  ∃ p rule a x,
    repo_get (pr_policy_id (au_policy_ref auth)) (pr_version (au_policy_ref auth))
      (repository self) = Some p ∧
    policy_digest p = pr_digest (au_policy_ref auth) ∧
    recorded_evidence self auth a x ∧
    permits self p rule (au_operation auth) (au_request_digest auth) (au_bindings auth)
      (au_budget auth) a x (default clock now).
Proof. apply verify_authorization_iff. Qed.

(** C28: An authorization stays good: after any later operations of the
    authority, at any instant, it revalidates exactly when the evidence it was
    granted on is then within its own validity window - unless the policy was
    supplanted by a different one with the same SHA-256 digest. *)
Theorem authorization_revalidates pref op rd bs budget a x now clock auth s0 s1 s2 :
  keyed (repository s0) →
  authorize pref op rd bs budget a x now clock s0 = (Ok auth, s1) →
  rtc authority_step s1 s2 →
  (∀ t clock', verify_authorization s2 auth (Some t) clock' = Ok () ↔ evidence_fresh t a x) ∨
  ∃ p, resolve s0 pref = Ok p ∧ supplanted s2 (pr_policy_id pref) (pr_version pref) p.
Proof.
  intros Hk (_ & p & rule & Hget & Hdig & Hperm & _ & -> & _ & ->)%authorize_iff Hsteps.
  destruct (Hk _ _ _ Hget) as [Eid Ever].
  destruct (resolve_stable _ _ _ _ p Hsteps Hget) as [Hget2|]; [left|right; exists p; by rewrite resolve_ok].
  apply steps_extends in Hsteps as (Hv & Ha & Hx & _).
  set (auth := mkAuthorization _ _ _ _ _ _ _ _).
  assert (recorded_evidence s2 auth a x) as Hrec.
  { split; cbn.
    - destruct a as [a|]; [|done]. exists a. split; [done|]. split; [|done]. apply Ha. cbn.
      unfold approval_key. rewrite (aa_policy _ _ _ _ _ _ (pm_approval _ _ _ _ _ _ _ _ _ _ Hperm a eq_refl)).
      apply lookup_insert_eq.
    - destruct x as [x|]; [|done]. exists x. split; [done|]. split; [|done]. apply Hx. cbn.
      unfold exception_key. rewrite (ae_policy _ _ _ _ _ _ _ (pm_exception _ _ _ _ _ _ _ _ _ _ Hperm x eq_refl)).
      apply lookup_insert_eq. }
  intros t clock'. rewrite verify_authorization_iff. cbn.
  rewrite <- (permits_at s0 s2 p rule op rd bs budget a x _ t Hv Hperm).
  rewrite Eid, Ever in Hget2. split.
  - intros (p2 & rule2 & a2 & x2 & Hp2 & _ & Hrec2 & Hperm2).
    destruct (recorded_evidence_det _ _ _ _ _ _ Hrec Hrec2) as [-> ->].
    rewrite Hget2 in Hp2. injection Hp2 as <-.
    pose proof (pm_rule _ _ _ _ _ _ _ _ _ _ Hperm) as E.
    rewrite (pm_rule _ _ _ _ _ _ _ _ _ _ Hperm2) in E. by injection E as ->.
  - intros Hperm2. exists p, rule, a, x. by split.
Qed.

(** A published policy is immutable: once a reference resolves, every
    later operation leaves it resolving to the same policy, unless it is
    supplanted by a different policy with the same SHA-256 digest. *)
Theorem published_policy_immutable self self' reference p :
  resolve self reference = Ok p → rtc authority_step self self' →
  resolve self' reference = Ok p ∨
  supplanted self' (pr_policy_id reference) (pr_version reference) p.
Proof.
  intros [Hget Hd]%resolve_ok Hsteps.
  destruct (resolve_stable _ _ _ _ p Hsteps Hget) as [?|]; [left|by right].
  by rewrite resolve_ok.
Qed.

(** From an authority without evidence, every approval and exception on
    record is filed under its own key, carries a signature that verifies over
    its unsigned digest, and no later operation removes or alters it. *)
Theorem recorded_evidence_genuine self0 self self' :
  approvals self0 = ∅ → exceptions self0 = ∅ →
  rtc authority_step self0 self → rtc authority_step self self' →
  (∀ k a, approvals self !! k = Some a →
     k = approval_key a ∧
     verify_signature (verifier self0) (ap_signer_ref a) (decision_digest a) (ap_signature a) = true ∧
     approvals self' !! k = Some a) ∧
  (∀ k x, exceptions self !! k = Some x →
     k = exception_key x ∧
     verify_signature (verifier self0) (ex_signer_ref x) (exception_digest x) (ex_signature x) = true ∧
     exceptions self' !! k = Some x).
Proof.
  intros E1 E2 (_ & _ & _ & Ha & Hx & _)%steps_extends (_ & Ha' & Hx' & _)%steps_extends. split.
  - intros k a Hk. destruct (Ha k a Hk) as [Hk0|[-> Hs]]; [by rewrite E1, lookup_empty in Hk0|].
    rewrite verify_approval_signature_ok in Hs. by auto.
  - intros k x Hk. destruct (Hx k x Hk) as [Hk0|[-> Hs]]; [by rewrite E2, lookup_empty in Hk0|].
    rewrite verify_exception_signature_ok in Hs. by auto.
Qed.
End authority_facts.

(** * A concrete authority

    One published policy with a denied operation, an approval with a quorum of
    one and an exception that lifts the denial, all signed for. *)
Module PolicyExample.
Definition budget : ExecutionBudget := mkBudget 4 2 2 4 1000 60 0.
Definition binding : CapabilityBinding :=
  mkBinding KTool "tool:search" "1.0.0" (canonical_digest (JStr "tool")) Read.
Definition policy : PolicyVersion :=
  mkPolicy "policy:core" "1.2.0" "issuer:team" budget
    [mkRule "run.execute" Allow true budget; mkRule "run.delete" Deny true budget] [binding] Write
    (mkRequirement true 1 600 "scope:ops") "Core execution policy".
Definition request : string := canonical_digest (JStr "request").
Definition approval (operation : string) : ApprovalDecision :=
  mkApproval ("approval:" +:+ operation) (policy_ref_of policy) operation request Approved ["user:ada"] 100 400
    "signer:ops" "sig:abc".
Definition exception : PolicyException :=
  mkException "exception:1" (policy_ref_of policy) "run.delete" request "scope:ops" budget true
    100 400 "signer:ops" "sig:def".
Definition authority : PolicyAuthority InMemoryPolicyRepository ExactSignatureVerifier :=
  mkAuthority (mkPolicyRepository {[("policy:core", "1.2.0") := policy]})
    (ExactSignatureVerifier_new
       [("signer:ops", decision_digest (approval "run.execute"), "sig:abc");
        ("signer:ops", decision_digest (approval "run.delete"), "sig:abc");
        ("signer:ops", exception_digest exception, "sig:def")])
    ∅ ∅.

(** The denied operation, lifted by the exception. *)
Definition granted : PolicyAuthorization :=
  mkAuthorization (policy_ref_of policy) "run.delete" request [binding] budget
    (Some (approval_ref_of (approval "run.delete"))) (Some (exception_ref_of exception)) 200.
Definition authority' : PolicyAuthority InMemoryPolicyRepository ExactSignatureVerifier :=
  with_evidence (Some (approval "run.delete")) (Some exception) authority.

Lemma granted_ok :
  authorize (policy_ref_of policy) "run.delete" request [binding] budget
    (Some (approval "run.delete")) (Some exception) None 200 authority = (Ok granted, authority').
Proof. by_compute. Qed.

Lemma authority_keyed : keyed (repository authority).
Proof.
  intros policy_id version p. cbn. unfold get_policy. cbn.
  intros [[= <- <-] <-]%lookup_singleton_Some. done.
Qed.

(** Without the exception the operation is denied, and nothing is recorded. *)
Example denied_without_exception :
  authorize (policy_ref_of policy) "run.delete" request [binding] budget
    (Some (approval "run.delete")) None None 200 authority =
  (Raise (PolicyDomainError "policy_denied"), authority).
Proof. by_compute. Qed.
End PolicyExample.

Lemma authorization_revalidates_witness :
  let auth := PolicyExample.granted in
  keyed (repository PolicyExample.authority) ∧
  ((∀ t clock', verify_authorization PolicyExample.authority' auth (Some t) clock' = Ok () ↔
      evidence_fresh t (Some (PolicyExample.approval "run.delete")) (Some PolicyExample.exception)) ∨
   ∃ p, resolve PolicyExample.authority (policy_ref_of PolicyExample.policy) = Ok p ∧
        supplanted PolicyExample.authority' "policy:core" "1.2.0" p).
Proof.
  split; [apply PolicyExample.authority_keyed|].
  exact (authorization_revalidates _ _ _ _ _ _ _ _ _ _ _ _ _
    PolicyExample.authority_keyed PolicyExample.granted_ok (rtc_refl _ _)).
Defined.

Lemma published_policy_immutable_witness :
  resolve PolicyExample.authority' (policy_ref_of PolicyExample.policy) = Ok PolicyExample.policy ∨
  supplanted PolicyExample.authority' "policy:core" "1.2.0" PolicyExample.policy.
Proof.
  apply (published_policy_immutable PolicyExample.authority PolicyExample.authority'
    (policy_ref_of PolicyExample.policy)).
  - by_compute.
  - eapply rtc_once, step_authorize, PolicyExample.granted_ok.
Defined.

Lemma recorded_evidence_genuine_witness :
  verify_signature (verifier PolicyExample.authority) "signer:ops"
    (decision_digest (PolicyExample.approval "run.delete")) "sig:abc" = true.
Proof.
  refine (proj1 (proj2 (proj1 (recorded_evidence_genuine PolicyExample.authority
    PolicyExample.authority' PolicyExample.authority' eq_refl eq_refl
    (rtc_once _ _ _) (rtc_refl _ _)) ("policy:core", "approval:run.delete")
    (PolicyExample.approval "run.delete") _))).
  - eapply step_authorize, PolicyExample.granted_ok.
  - by_compute.
Defined.
