(* ===== verification/RunModels.v ===== *)
(** The run-resolution contracts of [arbora/control_plane/runs/models.py]: the
    references a resolved run is made of, the validation of a resolution
    against its policy authorization, the task graph, and the deterministic
    run and work-item identities. Conventions as in [PolicyModels]. *)
From S2P Require Export PolicyModels Dag.
Local Open Scope Z_scope.

Record TraceRef := mkTrace { tr_trace_id : string; tr_digest : string }.
Definition validate_TraceRef (t : TraceRef) : result () :=
  _ ← check_field "trace_id" (StableId (tr_trace_id t));
  check_field "digest" (Digest (tr_digest t)).
Definition TraceRef_json (t : TraceRef) : json :=
  JObj [("trace_id", JStr (tr_trace_id t)); ("digest", JStr (tr_digest t))].

Record ArtifactRef := mkArtifact { art_artifact_id : string; art_digest : string }.
Definition validate_ArtifactRef (a : ArtifactRef) : result () :=
  _ ← check_field "artifact_id" (StableId (art_artifact_id a));
  check_field "digest" (Digest (art_digest a)).
Definition ArtifactRef_json (a : ArtifactRef) : json :=
  JObj [("artifact_id", JStr (art_artifact_id a)); ("digest", JStr (art_digest a))].

(** The [(artifact_id, digest)] pairs that must not repeat. *)
Definition artifact_identities (refs : list ArtifactRef) : list (string * string) :=
  map (λ a, (art_artifact_id a, art_digest a)) refs.

Record JobRef := mkJob { job_job_id : string; job_version : string; job_digest : string }.
Definition validate_JobRef (j : JobRef) : result () :=
  _ ← check_field "job_id" (StableId (job_job_id j));
  _ ← check_field "version" (SemVer (job_version j));
  check_field "digest" (Digest (job_digest j)).
Definition JobRef_json (j : JobRef) : json :=
  JObj [("job_id", JStr (job_job_id j)); ("version", JStr (job_version j));
        ("digest", JStr (job_digest j))].

Record TaskRef := mkTask {
  task_id : string; task_job_id : string; task_version : string; task_digest : string;
  depends_on : list string }.

Definition dependencies_are_unique (t : TaskRef) : result () :=
  _ ← raise_if (bool_decide (task_id t ∈ depends_on t)) (ValidationError "task_self_dependency");
  raise_if (has_duplicates (depends_on t)) (ValidationError "task_dependency_duplicate").

Definition validate_TaskRef (t : TaskRef) : result () :=
  _ ← check_field "task_id" (StableId (task_id t));
  _ ← check_field "job_id" (StableId (task_job_id t));
  _ ← check_field "version" (SemVer (task_version t));
  _ ← check_field "digest" (Digest (task_digest t));
  _ ← check_field "depends_on" (forallb StableId (depends_on t));
  dependencies_are_unique t.

Definition TaskRef_json (t : TaskRef) : json :=
  JObj [("task_id", JStr (task_id t)); ("job_id", JStr (task_job_id t));
        ("version", JStr (task_version t)); ("digest", JStr (task_digest t));
        ("depends_on", JStrs (depends_on t))].

Record ToolBindingRef := mkToolBinding { tb_binding : CapabilityBinding }.
Definition tb_binding_id (t : ToolBindingRef) : string := cb_binding_id (tb_binding t).
Definition tb_digest (t : ToolBindingRef) : string := cb_digest (tb_binding t).
Definition validate_ToolBindingRef (t : ToolBindingRef) : result () :=
  _ ← validate_CapabilityBinding (tb_binding t);
  raise_if (bool_decide (cb_kind (tb_binding t) ≠ KTool)) (ValidationError "tool_binding_kind_invalid").
Definition ToolBindingRef_json (t : ToolBindingRef) : json :=
  JObj [("binding", CapabilityBinding_json (tb_binding t))].

Record InvocationRef := mkInvocation {
  inv_invocation_id : string; inv_task_id : string; inv_tool_binding_id : string;
  inv_tool_binding_digest : string; inv_input_digest : string; inv_trace_ref : TraceRef;
  inv_artifact_refs : list ArtifactRef }.

Definition validate_InvocationRef (i : InvocationRef) : result () :=
  _ ← check_field "invocation_id" (StableId (inv_invocation_id i));
  _ ← check_field "task_id" (StableId (inv_task_id i));
  _ ← check_field "tool_binding_id" (StableId (inv_tool_binding_id i));
  _ ← check_field "tool_binding_digest" (Digest (inv_tool_binding_digest i));
  _ ← check_field "input_digest" (Digest (inv_input_digest i));
  _ ← validate_TraceRef (inv_trace_ref i);
  _ ← for_each validate_ArtifactRef (inv_artifact_refs i);
  raise_if (has_duplicates (artifact_identities (inv_artifact_refs i)))
    (ValidationError "invocation_artifact_duplicate").

Definition InvocationRef_json (i : InvocationRef) : json :=
  JObj [("invocation_id", JStr (inv_invocation_id i)); ("task_id", JStr (inv_task_id i));
        ("tool_binding_id", JStr (inv_tool_binding_id i));
        ("tool_binding_digest", JStr (inv_tool_binding_digest i));
        ("input_digest", JStr (inv_input_digest i)); ("trace_ref", TraceRef_json (inv_trace_ref i));
        ("artifact_refs", JArr (map ArtifactRef_json (inv_artifact_refs i)))].

Definition invocation_digest (i : InvocationRef) : string := canonical_digest (InvocationRef_json i).

(** ** Identities *)
Definition admission_key_json (tenant_ref idempotency_key : string) : json :=
  JObj [("tenant_ref", JStr tenant_ref); ("idempotency_key", JStr idempotency_key)].

Definition deterministic_admission_id (tenant_ref idempotency_key : string) : result string :=
  _ ← raise_if (bool_decide (tenant_ref = "") || bool_decide (tenant_ref ≠ py_strip tenant_ref))
        (ValueError "tenant_ref_invalid");
  _ ← raise_if (bool_decide (idempotency_key = "") ||
                bool_decide (idempotency_key ≠ py_strip idempotency_key))
        (ValueError "idempotency_key_invalid");
  Ok (digest_id "run:" (admission_key_json tenant_ref idempotency_key)).

Definition native_work_item_id (run_id : string) : result string :=
  _ ← raise_if (bool_decide (run_id = "") || negb (py_startswith run_id "run:"))
        (ValueError "run_id_invalid");
  Ok (digest_id "work_item:" (JStr run_id)).

Record RunAdmissionIdentity := mkAdmissionIdentity { rai_tenant_ref : string; rai_idempotency_key : string }.
Definition identity_run_id (i : RunAdmissionIdentity) : result string :=
  deterministic_admission_id (rai_tenant_ref i) (rai_idempotency_key i).
Definition validate_RunAdmissionIdentity (i : RunAdmissionIdentity) : result () :=
  _ ← check_field "tenant_ref" (OpaqueRef (rai_tenant_ref i));
  check_field "idempotency_key" (StableKey (rai_idempotency_key i)).

Record RunRef := mkRunRef { rr_run_id : string; rr_resolution_digest : string }.
Definition validate_RunRef (r : RunRef) : result () :=
  _ ← check_field "run_id" (StableId (rr_run_id r));
  check_field "resolution_digest" (Digest (rr_resolution_digest r)).

(** ** The resolution *)
Record RunResolution := mkResolution {
  res_tenant_ref : string; res_idempotency_key : string; res_request_digest : string;
  res_authorization : PolicyAuthorization; res_job : JobRef; res_tasks : list TaskRef;
  res_tool_bindings : list ToolBindingRef; res_invocations : list InvocationRef;
  res_trace_ref : TraceRef; res_artifact_refs : list ArtifactRef }.

Definition RunResolution_json (r : RunResolution) : json :=
  JObj [("tenant_ref", JStr (res_tenant_ref r)); ("idempotency_key", JStr (res_idempotency_key r));
        ("request_digest", JStr (res_request_digest r));
        ("authorization", PolicyAuthorization_json (res_authorization r));
        ("job", JobRef_json (res_job r)); ("tasks", JArr (map TaskRef_json (res_tasks r)));
        ("tool_bindings", JArr (map ToolBindingRef_json (res_tool_bindings r)));
        ("invocations", JArr (map InvocationRef_json (res_invocations r)));
        ("trace_ref", TraceRef_json (res_trace_ref r));
        ("artifact_refs", JArr (map ArtifactRef_json (res_artifact_refs r)))].

Definition res_run_id (r : RunResolution) : result string :=
  deterministic_admission_id (res_tenant_ref r) (res_idempotency_key r).
Definition resolution_digest (r : RunResolution) : string := canonical_digest (RunResolution_json r).

(** [RunResolution.ref] *)
Definition res_ref (r : RunResolution) : result RunRef :=
  run_id ← res_run_id r;
  let ref := mkRunRef run_id (resolution_digest r) in
  _ ← validate_RunRef ref;
  Ok ref.

(** ** The task graph *)

(** [_graph_edges]: the children of each task, and the degree dict in task order. *)
Definition add_child (children : gmap string (list string)) (e : string * string) :
    result (gmap string (list string)) :=
  let '(dependency, task) := e in
  match children !! dependency with
  | None => Raise (ValueError "task_dependency_missing")
  | Some cs => Ok (<[dependency := cs ++ [task]]> children)
  end.

Definition graph_edges (tasks : list TaskRef) :
    result (gmap string (list string) * list (string * Z)) :=
  let children := foldl (λ m t, <[task_id t := []]> m) ∅ tasks in
  children ← for_fold (λ children t,
               for_fold add_child (map (λ d, (d, task_id t)) (depends_on t)) children) tasks children;
  Ok (children, map (λ t, (task_id t, Z.of_nat (length (depends_on t)))) tasks).

(** [_graph_depth] *)
Definition graph_depth (children : gmap string (list string)) (indegree : list (string * Z))
    (task_count : nat) : result (gmap string Z) :=
  st ← kahn_loop (λ t, cs ← dict_get children t; Ok (py_sorted cs)) task_count (kahn_start indegree);
  _ ← raise_if (bool_decide (length (k_visited st) ≠ task_count)) (ValueError "task_cycle");
  Ok (k_depth st).

Definition graph_shape (tasks : list TaskRef) : result (Z * Z) :=
  '(children, indegree) ← graph_edges tasks;
  depth ← graph_depth children indegree (length tasks);
  Ok (max_default (map_to_list depth).*2,
      max_default (map (λ cs, Z.of_nat (length cs)) (map_to_list children).*2)).

(** ** Validation of a resolution *)
Definition validate_resolution_request (r : RunResolution) : result () :=
  _ ← raise_if (bool_decide (au_request_digest (res_authorization r) ≠ res_request_digest r))
        (ValueError "authorization_request_digest_mismatch");
  raise_if (max_tasks (au_budget (res_authorization r)) <? Z.of_nat (length (res_tasks r)))
    (ValueError "run_task_budget_exceeded").

Definition validate_resolution_tasks (r : RunResolution) : result (gmap string TaskRef) :=
  let task_ids := map task_id (res_tasks r) in
  _ ← raise_if (has_duplicates task_ids) (ValueError "run_task_duplicate");
  let task_map := list_to_map (map (λ t, (task_id t, t)) (res_tasks r)) : gmap string TaskRef in
  _ ← for_each (λ t,
        _ ← raise_if (bool_decide (task_job_id t ≠ job_job_id (res_job r)))
              (ValueError "task_job_reference_mismatch");
        raise_if (existsb (λ d, bool_decide (d ∉ task_ids)) (depends_on t))
          (ValueError "task_dependency_missing")) (res_tasks r);
  '(depth, fanout) ← graph_shape (res_tasks r);
  _ ← raise_if (max_depth (au_budget (res_authorization r)) <? depth)
        (ValueError "run_depth_budget_exceeded");
  _ ← raise_if (max_fanout (au_budget (res_authorization r)) <? fanout)
        (ValueError "run_fanout_budget_exceeded");
  Ok task_map.

(** The binding dict keeps the last binding of each id. *)
Definition binding_map_of (bindings : list ToolBindingRef) : gmap string ToolBindingRef :=
  foldl (λ m t, <[tb_binding_id t := t]> m) ∅ bindings.

Definition exact (b : CapabilityBinding) : BindingKind * string * string * string * Privilege :=
  (cb_kind b, cb_binding_id b, cb_version b, cb_digest b, cb_privilege b).

Definition validate_resolution_bindings (r : RunResolution) : result (gmap string ToolBindingRef) :=
  let binding_map := binding_map_of (res_tool_bindings r) in
  _ ← raise_if (bool_decide (size binding_map ≠ length (res_tool_bindings r)))
        (ValueError "tool_binding_duplicate");
  let allowed := map exact (au_bindings (res_authorization r)) in
  _ ← for_each (λ tool, raise_if (bool_decide (exact (tb_binding tool) ∉ allowed))
        (ValueError "tool_binding_not_in_authorization")) (res_tool_bindings r);
  Ok binding_map.

Definition validate_resolution_invocations (r : RunResolution) (task_map : gmap string TaskRef)
    (binding_map : gmap string ToolBindingRef) : result () :=
  _ ← raise_if (max_tool_calls (au_budget (res_authorization r)) <? Z.of_nat (length (res_invocations r)))
        (ValueError "run_tool_budget_exceeded");
  for_each (λ i,
    _ ← raise_if (bool_decide (task_map !! inv_task_id i = None))
          (ValueError "invocation_task_reference_missing");
    raise_if (match binding_map !! inv_tool_binding_id i with
              | None => true
              | Some b => bool_decide (tb_digest b ≠ inv_tool_binding_digest i)
              end) (ValueError "invocation_tool_binding_drift")) (res_invocations r).

Definition validate_resolution_artifacts (r : RunResolution) : result () :=
  raise_if (has_duplicates (artifact_identities (res_artifact_refs r)))
    (ValueError "run_artifact_duplicate").

(** The field constraints of [RunResolution], then its validator. *)
Definition validate_resolution (r : RunResolution) : result () :=
  _ ← validate_resolution_request r;
  task_map ← validate_resolution_tasks r;
  binding_map ← validate_resolution_bindings r;
  _ ← validate_resolution_invocations r task_map binding_map;
  validate_resolution_artifacts r.

Definition validate_RunResolution (r : RunResolution) : result () :=
  _ ← check_field "tenant_ref" (OpaqueRef (res_tenant_ref r));
  _ ← check_field "idempotency_key" (StableKey (res_idempotency_key r));
  _ ← check_field "request_digest" (Digest (res_request_digest r));
  _ ← validate_PolicyAuthorization (res_authorization r);
  _ ← validate_JobRef (res_job r);
  _ ← check_field "tasks" (tuple_len 1 256 (res_tasks r));
  _ ← for_each validate_TaskRef (res_tasks r);
  _ ← check_field "tool_bindings" (tuple_len 0 256 (res_tool_bindings r));
  _ ← for_each validate_ToolBindingRef (res_tool_bindings r);
  _ ← check_field "invocations" (tuple_len 0 512 (res_invocations r));
  _ ← for_each validate_InvocationRef (res_invocations r);
  _ ← validate_TraceRef (res_trace_ref r);
  _ ← check_field "artifact_refs" (tuple_len 0 512 (res_artifact_refs r));
  _ ← for_each validate_ArtifactRef (res_artifact_refs r);
  in_validator (validate_resolution r).

(** ** Admission *)
Record NativeWorkItemAdmission := mkWorkItem {
  wi_run_id : string; wi_work_item_id : string; wi_tenant_ref : string;
  wi_idempotency_key : string; wi_kind : string; wi_payload_ref : string;
  wi_payload_digest : string; wi_request_digest : string; wi_resolution_digest : string;
  wi_depends_on : list string }.

Definition NativeWorkItemAdmission_json (w : NativeWorkItemAdmission) : json :=
  JObj [("run_id", JStr (wi_run_id w)); ("work_item_id", JStr (wi_work_item_id w));
        ("tenant_ref", JStr (wi_tenant_ref w)); ("idempotency_key", JStr (wi_idempotency_key w));
        ("kind", JStr (wi_kind w)); ("payload_ref", JStr (wi_payload_ref w));
        ("payload_digest", JStr (wi_payload_digest w)); ("request_digest", JStr (wi_request_digest w));
        ("resolution_digest", JStr (wi_resolution_digest w)); ("depends_on", JStrs (wi_depends_on w))].

Definition work_item_digest (w : NativeWorkItemAdmission) : string :=
  canonical_digest (NativeWorkItemAdmission_json w).

Definition identity_is_deterministic (w : NativeWorkItemAdmission) : result () :=
  expected_run ← deterministic_admission_id (wi_tenant_ref w) (wi_idempotency_key w);
  _ ← raise_if (bool_decide (wi_run_id w ≠ expected_run))
        (ValueError "native_admission_run_identity_mismatch");
  expected_item ← native_work_item_id (wi_run_id w);
  _ ← raise_if (bool_decide (wi_work_item_id w ≠ expected_item))
        (ValueError "native_admission_work_item_identity_mismatch");
  raise_if (has_duplicates (wi_depends_on w)) (ValueError "native_admission_dependency_duplicate").

Definition validate_NativeWorkItemAdmission (w : NativeWorkItemAdmission) : result () :=
  _ ← check_field "run_id" (StableId (wi_run_id w));
  _ ← check_field "work_item_id" (StableId (wi_work_item_id w));
  _ ← check_field "tenant_ref" (OpaqueRef (wi_tenant_ref w));
  _ ← check_field "idempotency_key" (StableKey (wi_idempotency_key w));
  _ ← check_field "kind" (StableKey (wi_kind w));
  _ ← check_field "payload_ref" (OpaqueRef (wi_payload_ref w));
  _ ← check_field "payload_digest" (Digest (wi_payload_digest w));
  _ ← check_field "request_digest" (Digest (wi_request_digest w));
  _ ← check_field "resolution_digest" (Digest (wi_resolution_digest w));
  _ ← check_field "depends_on" (forallb StableId (wi_depends_on w));
  in_validator (identity_is_deterministic w).

Record NativeAdmissionRequest := mkAdmissionRequest {
  adm_resolution : RunResolution; adm_work_item : NativeWorkItemAdmission }.

Definition run_and_item_are_one_pair (r : NativeAdmissionRequest) : result () :=
  let resolution := adm_resolution r in
  let item := adm_work_item r in
  run_id ← res_run_id resolution;
  _ ← raise_if (bool_decide (wi_run_id item ≠ run_id)) (ValueError "native_admission_run_mismatch");
  _ ← raise_if (bool_decide (wi_tenant_ref item ≠ res_tenant_ref resolution))
        (ValueError "native_admission_tenant_mismatch");
  _ ← raise_if (bool_decide (wi_idempotency_key item ≠ res_idempotency_key resolution))
        (ValueError "native_admission_idempotency_mismatch");
  _ ← raise_if (bool_decide (wi_request_digest item ≠ res_request_digest resolution))
        (ValueError "native_admission_request_digest_mismatch");
  raise_if (bool_decide (wi_resolution_digest item ≠ resolution_digest resolution))
    (ValueError "native_admission_resolution_digest_mismatch").

Definition validate_NativeAdmissionRequest (r : NativeAdmissionRequest) : result () :=
  _ ← validate_RunResolution (adm_resolution r);
  _ ← validate_NativeWorkItemAdmission (adm_work_item r);
  in_validator (run_and_item_are_one_pair r).

Record AdmissionReceipt := mkReceipt {
  rc_run_id : string; rc_work_item_id : string; rc_resolution_digest : string;
  rc_work_item_digest : string; rc_created : bool }.

Definition validate_AdmissionReceipt (r : AdmissionReceipt) : result () :=
  _ ← check_field "run_id" (StableId (rc_run_id r));
  _ ← check_field "work_item_id" (StableId (rc_work_item_id r));
  _ ← check_field "resolution_digest" (Digest (rc_resolution_digest r));
  check_field "work_item_digest" (Digest (rc_work_item_digest r)).

Record RunRecord := mkRunRecord {
  rec_resolution : RunResolution; rec_work_item : NativeWorkItemAdmission;
  rec_audit_event_ids : list string }.

Definition validate_RunRecord (r : RunRecord) : result () :=
  _ ← validate_RunResolution (rec_resolution r);
  _ ← validate_NativeWorkItemAdmission (rec_work_item r);
  check_field "audit_event_ids" (forallb StableId (rec_audit_event_ids r)).

(** ** Model equality *)
#[export] Instance TraceRef_eq_dec : EqDecision TraceRef.
Proof. solve_decision. Defined.
#[export] Instance ArtifactRef_eq_dec : EqDecision ArtifactRef.
Proof. solve_decision. Defined.
#[export] Instance JobRef_eq_dec : EqDecision JobRef.
Proof. solve_decision. Defined.
#[export] Instance TaskRef_eq_dec : EqDecision TaskRef.
Proof. solve_decision. Defined.
#[export] Instance ToolBindingRef_eq_dec : EqDecision ToolBindingRef.
Proof. solve_decision. Defined.
#[export] Instance InvocationRef_eq_dec : EqDecision InvocationRef.
Proof. solve_decision. Defined.
#[export] Instance RunRef_eq_dec : EqDecision RunRef.
Proof. solve_decision. Defined.
#[export] Instance RunResolution_eq_dec : EqDecision RunResolution.
Proof. solve_decision. Defined.
#[export] Instance NativeWorkItemAdmission_eq_dec : EqDecision NativeWorkItemAdmission.
Proof. solve_decision. Defined.
#[export] Instance NativeAdmissionRequest_eq_dec : EqDecision NativeAdmissionRequest.
Proof. solve_decision. Defined.
#[export] Instance AdmissionReceipt_eq_dec : EqDecision AdmissionReceipt.
Proof. solve_decision. Defined.
#[export] Instance RunRecord_eq_dec : EqDecision RunRecord.
Proof. solve_decision. Defined.

(** ** Serializers determine their objects *)
#[export] Instance TraceRef_json_inj : CanonicalInj TraceRef_json.
Proof. intros [] [] E. by_fields E ["trace_id"; "digest"]. by simplify_eq. Qed.
#[export] Instance ArtifactRef_json_inj : CanonicalInj ArtifactRef_json.
Proof. intros [] [] E. by_fields E ["artifact_id"; "digest"]. by simplify_eq. Qed.
#[export] Instance JobRef_json_inj : CanonicalInj JobRef_json.
Proof. intros [] [] E. by_fields E ["job_id"; "version"; "digest"]. by simplify_eq. Qed.
#[export] Instance TaskRef_json_inj : CanonicalInj TaskRef_json.
Proof.
  intros [] [] E. by_fields E ["task_id"; "job_id"; "version"; "digest"; "depends_on"]. by simplify_eq.
Qed.
#[export] Instance ToolBindingRef_json_inj : CanonicalInj ToolBindingRef_json.
Proof. intros [] [] E. by_fields E ["binding"]. by simplify_eq. Qed.
#[export] Instance InvocationRef_json_inj : CanonicalInj InvocationRef_json.
Proof.
  intros [] [] E. by_fields E ["invocation_id"; "task_id"; "tool_binding_id"; "tool_binding_digest";
    "input_digest"; "trace_ref"; "artifact_refs"]. by simplify_eq.
Qed.
#[export] Instance RunResolution_json_inj : CanonicalInj RunResolution_json.
Proof.
  intros [] [] E. by_fields E ["tenant_ref"; "idempotency_key"; "request_digest"; "authorization";
    "job"; "tasks"; "tool_bindings"; "invocations"; "trace_ref"; "artifact_refs"]. by simplify_eq.
Qed.
#[export] Instance NativeWorkItemAdmission_json_inj : CanonicalInj NativeWorkItemAdmission_json.
Proof.
  intros [] [] E. by_fields E ["run_id"; "work_item_id"; "tenant_ref"; "idempotency_key"; "kind";
    "payload_ref"; "payload_digest"; "request_digest"; "resolution_digest"; "depends_on"].
  by simplify_eq.
Qed.

(** * The task graph *)
Notation task_deps := (node_deps task_id depends_on).
Notation task_dependents := (dependents task_id depends_on).
Notation tasks_ok := (graph_ok task_id depends_on).

Lemma children_init tasks (m : gmap string (list string)) k :
  foldl (λ m t, <[task_id t := []]> m) m tasks !! k =
  if decide (k ∈ map task_id tasks) then Some [] else m !! k.
Proof.
  revert m. induction tasks as [|t tasks IH]; intros m; [done|]. cbn. rewrite IH.
  destruct (decide (k ∈ map task_id tasks)).
  - rewrite decide_True; [done|]. by right.
  - destruct (decide (k = task_id t)) as [->|Hne].
    + rewrite lookup_insert_eq, decide_True by left. done.
    + rewrite lookup_insert_ne, decide_False by set_solver. done.
Qed.

Lemma add_children es (m : gmap string (list string)) :
  (∀ e, e ∈ es → is_Some (m !! e.1)) →
  ∃ m', for_fold add_child es m = Ok m' ∧
    (∀ d, m !! d = None → m' !! d = None) ∧
    ∀ d cs, m !! d = Some cs → m' !! d = Some (cs ++ (filter (λ e, e.1 = d) es).*2).
Proof.
  revert m. induction es as [|[d t] es IH]; intros m Hes.
  { exists m. split; [done|]. split; [done|]. intros d cs. cbn. by rewrite app_nil_r. }
  destruct (Hes (d, t)) as [cs Hcs]; [by left|]. cbn in Hcs. cbn [for_fold]. cbn. rewrite Hcs. cbn.
  destruct (IH (<[d := cs ++ [t]]> m)) as (m' & Hm' & Hnone & Hsome).
  { intros e He. destruct (decide (e.1 = d)) as [->|]; [by rewrite lookup_insert_eq|].
    rewrite lookup_insert_ne by done. apply Hes. by right. }
  exists m'. split; [done|]. split.
  - intros d' Hd'. apply Hnone. rewrite lookup_insert_ne; [done|]. intros ->. congruence.
  - intros d' cs' Hd'. destruct (decide (d = d')) as [->|Hne].
    + rewrite Hcs in Hd'. injection Hd' as <-.
      rewrite (Hsome d' _ (lookup_insert_eq _ _ _)), <- app_assoc. done.
    + apply Hsome. by rewrite lookup_insert_ne.
Qed.

(** [_graph_edges] builds the dependents of every task. *)
Lemma graph_edges_ok tasks :
  tasks_ok tasks →
  ∃ children, graph_edges tasks =
      Ok (children, map (λ t, (task_id t, Z.of_nat (length (depends_on t)))) tasks) ∧
    ∀ d, children !! d = if decide (d ∈ map task_id tasks) then Some (task_dependents tasks d) else None.
Proof.
  intros [Hids Hdeps Hknown]. unfold graph_edges.
  rewrite (for_fold_concat add_child (λ t, map (λ d, (d, task_id t)) (depends_on t))).
  change (concat _) with (node_edges task_id depends_on tasks).
  destruct (add_children (node_edges task_id depends_on tasks)
    (foldl (λ m t, <[task_id t := []]> m) ∅ tasks)) as (m' & -> & Hnone & Hsome).
  { intros [d v] (t & Ht & Hd & ->)%node_edges_in.
    rewrite children_init, decide_True by (by apply (Hknown t)). done. }
  exists m'. split; [done|]. intros d.
  pose proof (children_init tasks ∅ d) as Hi. case_decide.
  - rewrite (Hsome d [] Hi), dependents_edges by done. done.
  - by apply Hnone.
Qed.

Lemma graph_shape_cases tasks :
  tasks_ok tasks →
  (acyclic (map task_id tasks) (task_deps tasks) ∧ ∃ depth fanout, graph_shape tasks = Ok (depth, fanout) ∧
     depth_is task_id depends_on tasks depth ∧ fanout_is task_id depends_on tasks fanout) ∨
  (¬ acyclic (map task_id tasks) (task_deps tasks) ∧ graph_shape tasks = Raise (ValueError "task_cycle")).
Proof.
  intros Hok. destruct (graph_edges_ok tasks Hok) as (children & Hedges & Hch).
  unfold graph_shape, graph_depth. rewrite Hedges. cbn -[kahn_loop kahn_start].
  destruct (nodes_cases task_id depends_on tasks Hok (λ t, cs ← dict_get children t; Ok (py_sorted cs)))
    as (st & -> & Hvis & Hdepth).
  { intros t Ht. unfold dict_get. by rewrite Hch, decide_True. }
  cbn. case_bool_decide as Hlen; [right|left; apply Hvis in Hlen].
  - split; [|done]. intros Hac. by apply Hlen, Hvis.
  - split; [done|]. cbn. eexists _, _. split; [done|]. split; [by apply Hdepth|].
    apply nodes_fanout. intros n. rewrite list_elem_of_fmap. setoid_rewrite values_elem_of. split.
    + intros (cs & -> & d & Hcs). rewrite Hch in Hcs. case_decide as Hd'; [|done]. injection Hcs as <-.
      apply list_elem_of_fmap in Hd' as (t & -> & Ht). by exists t.
    + intros (t & Ht & ->). exists (task_dependents tasks (task_id t)). split; [done|].
      exists (task_id t). rewrite Hch, decide_True; [done|]. by apply list_elem_of_fmap_2.
Qed.

(** ** What an accepted resolution satisfies *)
#[export] Instance exact_inj : Inj (=) (=) exact.
Proof. intros [] [] E. unfold exact in E. cbn in E. by simplify_eq. Qed.

Lemma binding_map_lookup bindings k t :
  binding_map_of bindings !! k = Some t → t ∈ bindings ∧ tb_binding_id t = k.
Proof.
  unfold binding_map_of.
  enough (∀ m : gmap string ToolBindingRef, foldl (λ m t, <[tb_binding_id t := t]> m) m bindings !! k = Some t →
    t ∈ bindings ∧ tb_binding_id t = k ∨ m !! k = Some t) as Hm.
  { intros [?|?]%Hm; [done|]. by rewrite lookup_empty in *. }
  induction bindings as [|b bindings IH]; intros m; cbn; [by right|].
  intros [[? ?]|Hl]%IH; [left; by split; [right|]|].
  apply lookup_insert_Some in Hl as [[<- <-]|[_ ?]]; [left; by split; [left|]|by right].
Qed.

Lemma validate_TaskRef_deps t : validate_TaskRef t = Ok () → NoDup (depends_on t).
Proof. unfold validate_TaskRef, dependencies_are_unique. intros Hok. guards. by apply has_duplicates_false. Qed.

Lemma validate_tasks_ok r task_map :
  Forall (λ t, validate_TaskRef t = Ok ()) (res_tasks r) →
  validate_resolution_tasks r = Ok task_map →
  tasks_ok (res_tasks r) ∧
  task_map = list_to_map (map (λ t, (task_id t, t)) (res_tasks r)) ∧
  ∃ depth fanout, graph_shape (res_tasks r) = Ok (depth, fanout) ∧
    depth ≤ max_depth (au_budget (res_authorization r)) ∧
    fanout ≤ max_fanout (au_budget (res_authorization r)).
Proof.
  intros Htasks. unfold validate_resolution_tasks. intros Hok.
  apply result_bind_ok in Hok as ([] & Hdup & Hok). apply result_bind_ok in Hok as ([] & Heach & Hok).
  apply result_bind_ok in Hok as ([depth fanout] & Hshape & Hok). guards.
  rewrite Forall_forall in Heach, Htasks.
  split; [|split; [done|by exists depth, fanout]]. split.
  - by apply has_duplicates_false.
  - intros t Ht. by apply validate_TaskRef_deps, Htasks.
  - intros t d Ht Hd. pose proof (Heach t Ht) as Hg. cbn in Hg. guards.
    rewrite existsb_false in Hg. pose proof (Hg d Hd). guards. done.
Qed.

(** A resolution stays inside its authorization. *)
Record within_authorization (r : RunResolution) : Prop := {
  wa_request : au_request_digest (res_authorization r) = res_request_digest r;
  wa_tasks : Z.of_nat (length (res_tasks r)) ≤ max_tasks (au_budget (res_authorization r));
  wa_acyclic : acyclic (map task_id (res_tasks r)) (task_deps (res_tasks r));
  wa_depth v n : chain (map task_id (res_tasks r)) (task_deps (res_tasks r)) v n →
    n ≤ max_depth (au_budget (res_authorization r));
  wa_fanout t : t ∈ res_tasks r →
    Z.of_nat (length (task_dependents (res_tasks r) (task_id t))) ≤ max_fanout (au_budget (res_authorization r));
  wa_tools t : t ∈ res_tool_bindings r →
    cb_kind (tb_binding t) = KTool ∧ tb_binding t ∈ au_bindings (res_authorization r);
  wa_calls : Z.of_nat (length (res_invocations r)) ≤ max_tool_calls (au_budget (res_authorization r));
  wa_invocations i : i ∈ res_invocations r →
    inv_task_id i ∈ map task_id (res_tasks r) ∧
    ∃ t, t ∈ res_tool_bindings r ∧ tb_binding_id t = inv_tool_binding_id i ∧
         tb_digest t = inv_tool_binding_digest i;
  wa_artifacts : NoDup (artifact_identities (res_artifact_refs r)) }.

Lemma accepted_within r : validate_RunResolution r = Ok () → within_authorization r.
Proof.
  unfold validate_RunResolution, validate_resolution, validate_resolution_request,
    validate_resolution_artifacts. intros Hok.
  do 14 (apply result_bind_ok in Hok as ([] & ? & Hok)). rewrite in_validator_ok in Hok.
  apply result_bind_ok in Hok as ([] & Hreq & Hok).
  apply result_bind_ok in Hok as (task_map & Htm & Hok).
  apply result_bind_ok in Hok as (binding_map & Hbm & Hok).
  apply result_bind_ok in Hok as ([] & Hinv & Hart). guards.
  match goal with H : Forall (λ t, validate_TaskRef t = Ok ()) _ |- _ => rename H into Htasks end.
  match goal with H : Forall (λ t, validate_ToolBindingRef t = Ok ()) _ |- _ => rename H into Htools end.
  destruct (validate_tasks_ok r task_map Htasks Htm) as (Hgo & -> & depth & fanout & Hshape & Hd & Hf).
  destruct (graph_shape_cases _ Hgo) as [(Hac & d' & f' & E & [Hdepth _] & [Hfan _])|[_ E]];
    rewrite Hshape in E; [injection E as <- <-|done].
  unfold validate_resolution_bindings in Hbm. guards. subst binding_map.
  unfold validate_resolution_invocations in Hinv. guards.
  rewrite !Forall_forall in *.
  split; try done.
  - intros v n Hc. etransitivity; [by eapply Hdepth|done].
  - intros t Ht. etransitivity; [by apply Hfan|done].
  - intros t Ht. pose proof (Htools t Ht) as Hk. unfold validate_ToolBindingRef in Hk. guards. split; [done|].
    match goal with H : ∀ x, x ∈ res_tool_bindings r → _ |- _ => pose proof (H t Ht) as He; cbn in He end.
    guards. by apply list_elem_of_fmap in He as (b & ->%(inj _) & ?).
  - intros i Hi.
    match goal with H : ∀ x, x ∈ res_invocations r → _ ≫= _ = _ |- _ => pose proof (H i Hi) as He; cbn in He end.
    guards. split.
    + destruct (list_to_map _ !! inv_task_id i) as [t|] eqn:El; [|done].
      apply elem_of_list_to_map_2, list_elem_of_fmap in El as (u & [= -> ->] & Hu).
      by apply list_elem_of_fmap_2.
    + destruct (binding_map_of _ !! _) as [b|] eqn:Eb; [|done]. apply binding_map_lookup in Eb as [? ?].
      exists b. guards. done.
  - by apply has_duplicates_false.
Qed.

(** ** Identities *)
#[export] Instance admission_key_json_inj : CanonicalInj (λ k, admission_key_json k.1 k.2).
Proof. intros [] [] E. unfold admission_key_json in E. by_fields E ["tenant_ref"; "idempotency_key"]. by simplify_eq/=. Qed.

Lemma deterministic_admission_id_ok tenant key run :
  deterministic_admission_id tenant key = Ok run → run = digest_id "run:" (admission_key_json tenant key).
Proof. unfold deterministic_admission_id. intros Hok. by guards. Qed.

Lemma native_work_item_id_ok run item :
  native_work_item_id run = Ok item → item = digest_id "work_item:" (JStr run).
Proof. unfold native_work_item_id. intros Hok. by guards. Qed.

Lemma py_startswith_app p s : py_startswith (p +:+ s) p = true.
Proof. apply prefix_app. Qed.

Lemma native_work_item_id_total v :
  native_work_item_id (digest_id "run:" v) = Ok (digest_id "work_item:" (JStr (digest_id "run:" v))).
Proof.
  unfold native_work_item_id.
  assert (py_startswith (digest_id "run:" v) "run:" = true) as -> by apply py_startswith_app.
  by rewrite bool_decide_eq_false_2.
Qed.

Lemma deterministic_admission_id_total tenant key :
  OpaqueRef tenant = true → StableKey key = true →
  deterministic_admission_id tenant key = Ok (digest_id "run:" (admission_key_json tenant key)).
Proof.
  intros [Ht Ht']%OpaqueRef_strip [Hk Hk']%StableKey_strip. unfold deterministic_admission_id.
  rewrite Ht', Hk', !bool_decide_eq_false_2 by auto. done.
Qed.

Lemma run_id_StableId v : StableId (digest_id "run:" v) = true.
Proof. apply digest_id_StableId. eexists _, _. split; [reflexivity|]. split; [done|]. split; [by repeat constructor|cbn; lia]. Qed.
Lemma work_item_id_StableId v : StableId (digest_id "work_item:" v) = true.
Proof. apply digest_id_StableId. eexists _, _. split; [reflexivity|]. split; [done|]. split; [by repeat constructor|cbn; lia]. Qed.
#[export] Hint Resolve run_id_StableId work_item_id_StableId : grammar.

(** * Properties *)

(** C38: The task graph is measured exactly: on tasks with distinct ids and
    duplicate-free known dependencies, [_graph_shape] returns [(depth, fanout)]
    if and only if there is no dependency cycle, the longest dependency chain
    has [depth] tasks and [fanout] is the largest number of tasks that depend
    on one task; and it reports [task_cycle] if and only if there is a cycle. *)
Theorem graph_shape_correct tasks :
  tasks_ok tasks →
  (∀ depth fanout, graph_shape tasks = Ok (depth, fanout) ↔
     acyclic (map task_id tasks) (task_deps tasks) ∧
     depth_is task_id depends_on tasks depth ∧ fanout_is task_id depends_on tasks fanout) ∧
  (graph_shape tasks = Raise (ValueError "task_cycle") ↔
     ¬ acyclic (map task_id tasks) (task_deps tasks)).
Proof.
  intros Hok.
  destruct (graph_shape_cases tasks Hok) as [(Hac & d & f & -> & Hd & Hf)|[Hc ->]].
  - split; [|by split]. intros depth fanout. split; [by intros [= <- <-]|].
    intros (_ & Hd' & Hf').
    by rewrite (depth_is_unique _ _ _ _ _ Hd Hd'), (fanout_is_unique _ _ _ _ _ Hf Hf').
  - split; [|by split]. intros depth fanout. split; [done|by intros [? _]].
Qed.

(** A resolution the model accepts stays inside its policy authorization:
    same request, task count, dependency depth, fanout and tool calls within
    the granted budget, an acyclic task graph, only granted tools, and every
    invocation on a task and tool digest of the resolution. *)
Theorem accepted_resolution_within_authorization r :
  validate_RunResolution r = Ok () → within_authorization r.
Proof. apply accepted_within. Qed.

(** The run identity determines tenant and idempotency key: equal run ids
    come from equal pairs, unless the two serialized keys collide in SHA-256. *)
Theorem run_identity_binds tenant1 key1 tenant2 key2 run :
  deterministic_admission_id tenant1 key1 = Ok run →
  deterministic_admission_id tenant2 key2 = Ok run →
  (tenant1 = tenant2 ∧ key1 = key2) ∨
  sha256_collision (payload (admission_key_json tenant1 key1)) (payload (admission_key_json tenant2 key2)).
Proof.
  intros ->%deterministic_admission_id_ok E%deterministic_admission_id_ok.
  destruct (digest_id_inj "run:" (λ k, admission_key_json k.1 k.2) (tenant1, key1) (tenant2, key2) E)
    as [[= -> ->]|Hc]; [by left|by right].
Qed.

(** * A concrete resolution: a diamond-free graph of three tasks. *)
Module RunExample.
Definition digest (s : string) : string := canonical_digest (JStr s).
Definition budget : ExecutionBudget := mkBudget 4 3 2 4 1000 60 0.
Definition binding : CapabilityBinding := mkBinding KTool "tool:search" "1.0.0" (digest "tool") Read.
Definition authorization : PolicyAuthorization :=
  mkAuthorization (mkPolicyRef "policy:core" "1.0.0" (digest "policy")) "run.execute" (digest "request")
    [binding] budget None None 100.
Definition task (id : string) (deps : list string) : TaskRef :=
  mkTask id "job:report" "1.0.0" (digest id) deps.
Definition tasks : list TaskRef :=
  [task "publish" ["draft"; "collect"]; task "draft" ["collect"]; task "collect" []].
Definition resolution : RunResolution :=
  mkResolution "tenant:acme" "request-7" (digest "request") authorization
    (mkJob "job:report" "1.0.0" (digest "job")) tasks [mkToolBinding binding]
    [mkInvocation "invocation:1" "collect" "tool:search" (digest "tool") (digest "input")
       (mkTrace "trace:1" (digest "trace")) []]
    (mkTrace "trace:1" (digest "trace")) [].

Example shape : graph_shape tasks = Ok (3, 2).
Proof. by_compute. Qed.
Example task_cycle : graph_shape [task "a" ["b"]; task "b" ["a"]] = Raise (ValueError "task_cycle").
Proof. by_compute. Qed.

Lemma tasks_graph_ok : tasks_ok tasks.
Proof.
  split; [by_compute| |].
  - assert (Forall (λ t, NoDup (depends_on t)) tasks) as H by by_compute.
    by rewrite Forall_forall in H.
  - assert (Forall (λ t, Forall (λ d, d ∈ map task_id tasks) (depends_on t)) tasks) as H by by_compute.
    intros t d Ht Hd. rewrite Forall_forall in H. specialize (H t Ht).
    by rewrite Forall_forall in H; apply H.
Qed.
End RunExample.

Lemma graph_shape_correct_witness :
  acyclic (map task_id RunExample.tasks) (task_deps RunExample.tasks) ∧
  depth_is task_id depends_on RunExample.tasks 3 ∧ fanout_is task_id depends_on RunExample.tasks 2.
Proof.
  apply (proj1 (graph_shape_correct RunExample.tasks RunExample.tasks_graph_ok)). exact RunExample.shape.
Defined.

Lemma accepted_resolution_within_authorization_witness : within_authorization RunExample.resolution.
Proof. apply accepted_resolution_within_authorization. by_compute. Defined.

Lemma run_identity_binds_witness :
  let run := digest_id "run:" (admission_key_json "tenant:acme" "request-7") in
  deterministic_admission_id "tenant:acme" "request-7" = Ok run ∧
  (("tenant:acme" = "tenant:acme" ∧ "request-7" = "request-7") ∨
   sha256_collision (payload (admission_key_json "tenant:acme" "request-7"))
     (payload (admission_key_json "tenant:acme" "request-7"))).
Proof.
  split; [by_compute|].
  apply (run_identity_binds _ _ _ _ (digest_id "run:" (admission_key_json "tenant:acme" "request-7")));
    by_compute.
Defined.
