(* ===== verification/AuditLog.v ===== *)
(** The bounded hash-chained audit log of [arbora/control_plane/runs/audit.py].

    [AuditChain] is the list of events with its capacity; [append] is a
    computation on it. The lock only serializes calls, which a state
    computation does by itself. *)
From S2P Require Export PolicyModels.
Local Open Scope Z_scope.

Definition AuditDiscontinuityError (code : string) : pyexn :=
  PyExn ["AuditDiscontinuityError"; "ValueError"] code "".

Definition GENESIS_HASH : string := canonical_digest (JStr "control-plane-audit-genesis-v1").

Record AuditEvent := mkAuditEvent {
  ev_sequence : Z; ev_event_id : string; ev_kind : string; ev_subject_ref : string;
  ev_payload_digest : string; ev_previous_hash : string; ev_chain_hash : string;
  ev_observed_at : Z }.

#[export] Instance AuditEvent_eq_dec : EqDecision AuditEvent.
Proof. solve_decision. Defined.

Definition validate_AuditEvent (e : AuditEvent) : result () :=
  _ ← check_field "sequence" (Timestamp (ev_sequence e));
  _ ← check_field "event_id" (StableId (ev_event_id e));
  _ ← check_field "kind" (StableId (ev_kind e));
  _ ← check_field "subject_ref" (OpaqueRef (ev_subject_ref e));
  _ ← check_field "payload_digest" (Digest (ev_payload_digest e));
  _ ← check_field "previous_hash" (Digest (ev_previous_hash e));
  _ ← check_field "chain_hash" (Digest (ev_chain_hash e));
  check_field "observed_at" (Timestamp (ev_observed_at e)).

Record AuditChain := mkChain { max_events : Z; events : list AuditEvent }.

#[export] Instance AuditChain_eq_dec : EqDecision AuditChain.
Proof. solve_decision. Defined.

Definition AuditChain_new (max_events : Z) : result AuditChain :=
  _ ← raise_if ((max_events <? 1) || (4096 <? max_events)) (ValueError "audit_capacity_invalid");
  Ok (mkChain max_events []).

Definition can_append (count : Z) (self : AuditChain) : bool :=
  (0 <=? count) && (Z.of_nat (length (events self)) + count <=? max_events self).

(** The material one event's [chain_hash] is over. *)
Definition entry_json (sequence : Z) (kind subject_ref payload_digest previous_hash : string)
    (observed_at : Z) : json :=
  JObj [("sequence", JInt sequence); ("kind", JStr kind); ("subject_ref", JStr subject_ref);
        ("payload_digest", JStr payload_digest); ("previous_hash", JStr previous_hash);
        ("observed_at", JInt observed_at)].

Definition event_json (e : AuditEvent) : json :=
  entry_json (ev_sequence e) (ev_kind e) (ev_subject_ref e) (ev_payload_digest e)
    (ev_previous_hash e) (ev_observed_at e).

Definition event_id_of (chain_hash : string) : string :=
  "audit:" +:+ removeprefix chain_hash "sha256:".

(** The loop of [verify] from sequence number [expected] and hash [previous]. *)
Fixpoint verify_from (expected : Z) (previous : string) (es : list AuditEvent) : bool :=
  match es with
  | [] => true
  | e :: es' =>
      if bool_decide (ev_sequence e ≠ expected) || bool_decide (ev_previous_hash e ≠ previous) then false
      else if bool_decide (ev_chain_hash e ≠ canonical_digest (event_json e)) then false
      else if bool_decide (ev_event_id e ≠ event_id_of (ev_chain_hash e)) then false
      else verify_from (expected + 1) (ev_chain_hash e) es'
  end.

Definition verify (self : AuditChain) : bool := verify_from 0 GENESIS_HASH (events self).

Definition require_valid (self : AuditChain) : result () :=
  raise_if (negb (verify self)) (AuditDiscontinuityError "audit_chain_discontinuous").

(** [self._events[-1].chain_hash if self._events else GENESIS_HASH] *)
Definition head_hash (es : list AuditEvent) : string :=
  match last es with Some e => ev_chain_hash e | None => GENESIS_HASH end.

Definition next_event (es : list AuditEvent) (kind subject_ref payload_digest : string)
    (observed_at : Z) : AuditEvent :=
  let sequence := Z.of_nat (length es) in
  let previous_hash := head_hash es in
  let chain_hash := canonical_digest
    (entry_json sequence kind subject_ref payload_digest previous_hash observed_at) in
  mkAuditEvent sequence (event_id_of chain_hash) kind subject_ref payload_digest previous_hash
    chain_hash observed_at.

Definition append (kind subject_ref payload_digest : string) (observed_at : Z) :
    M AuditChain AuditEvent :=
  self ← get_state;
  _ ← raise_if (negb (verify self)) (AuditDiscontinuityError "audit_chain_discontinuous");
  _ ← raise_if (negb (can_append 1 self)) (AuditDiscontinuityError "audit_capacity_exceeded");
  let event := next_event (events self) kind subject_ref payload_digest observed_at in
  _ ← lift (validate_AuditEvent event);
  _ ← put_state (mkChain (max_events self) (events self ++ [event]));
  mret event.

Definition snapshot (self : AuditChain) : list AuditEvent := events self.

(** * Facts *)
#[local] Arguments can_append : simpl never.
#[local] Arguments verify : simpl never.
#[local] Arguments next_event : simpl never.
Lemma verify_from_app n p es e :
  verify_from n p (es ++ [e]) = true ↔
  verify_from n p es = true ∧
  ev_sequence e = n + Z.of_nat (length es) ∧
  ev_previous_hash e = (match last es with Some l => ev_chain_hash l | None => p end) ∧
  ev_chain_hash e = canonical_digest (event_json e) ∧ ev_event_id e = event_id_of (ev_chain_hash e).
Proof.
  revert n p. induction es as [|x es IH]; intros n p; cbn [app verify_from].
  - cbn [length last]. rewrite Z.add_0_r. repeat case_bool_decide; cbn; naive_solver.
  - repeat case_bool_decide; cbn [orb]; try (split; [done|]; naive_solver).
    rewrite IH, last_cons. cbn [length].
    replace (n + 1 + Z.of_nat (length es)) with (n + Z.of_nat (S (length es))) by lia.
    destruct (last es); done.
Qed.

Lemma verify_from_prefix n p es es' : verify_from n p (es ++ es') = true → verify_from n p es = true.
Proof.
  revert n p. induction es as [|x es IH]; intros n p; cbn; [done|].
  repeat case_bool_decide; cbn; try done. apply IH.
Qed.

Lemma next_event_verifies es kind subject digest t :
  verify_from 0 GENESIS_HASH es = true →
  verify_from 0 GENESIS_HASH (es ++ [next_event es kind subject digest t]) = true.
Proof. intros Hv. apply verify_from_app. done. Qed.

(** Every outcome of [append]. *)
Lemma audit_append_cases kind subject digest t self r self' :
  append kind subject digest t self = (r, self') →
  (∃ e, r = Raise e ∧ self' = self) ∨
  (let e := next_event (events self) kind subject digest t in
   r = Ok e ∧ self' = mkChain (max_events self) (events self ++ [e]) ∧ verify self = true ∧
   Z.of_nat (length (events self)) + 1 ≤ max_events self ∧ validate_AuditEvent e = Ok ()).
Proof.
  unfold append. intros Hrun. run_unfold.
  destruct (verify self) eqn:Hv; cbn in Hrun; [|left; simplify_eq/=; by eauto].
  destruct (can_append 1 self) eqn:Hc; cbn in Hrun; [|left; simplify_eq/=; by eauto].
  destruct (validate_AuditEvent _) as [[]|e] eqn:Hval; [right|left; simplify_eq/=; by eauto].
  injection Hrun as <- <-. unfold can_append in Hc. guards. auto.
Qed.

#[export] Instance entry_inj : CanonicalInj (λ x : Z * string * string * string * string * Z,
  let '(s, k, r, d, p, t) := x in entry_json s k r d p t).
Proof.
  intros [[[[[]]]]] [[[[[]]]]] E. unfold entry_json in E.
  by_fields E ["sequence"; "kind"; "subject_ref"; "payload_digest"; "previous_hash"; "observed_at"].
  by simplify_eq.
Qed.

(** A log is cut from the end without [verify] noticing: only an external
    anchor of the head hash detects it. *)
Lemma truncation_verifies max es es' :
  verify (mkChain max (es ++ es')) = true → verify (mkChain max es) = true.
Proof. apply verify_from_prefix. Qed.

Inductive audit_step : AuditChain → AuditChain → Prop :=
  | audit_step_append kind subject digest t r self self' :
      append kind subject digest t self = (r, self') → audit_step self self'.

(** Everything a chain's hashes are over, the genesis text included. *)
Definition material (es : list AuditEvent) : list json :=
  JStr "control-plane-audit-genesis-v1" :: map event_json es.

Definition material_collision (es1 es2 : list AuditEvent) : Prop :=
  ∃ j1 j2, j1 ∈ material es1 ∧ j2 ∈ material es2 ∧ sha256_collision (payload j1) (payload j2).

Lemma collision_mono es1 es2 es1' es2' :
  material_collision es1 es2 → material_collision (es1 ++ es1') (es2 ++ es2').
Proof.
  intros (j1 & j2 & H1 & H2 & Hc). exists j1, j2. unfold material in *. rewrite !map_app.
  split; [|split; [|done]]; set_solver.
Qed.

Lemma material_last es e : event_json e ∈ material (es ++ [e]).
Proof. unfold material. rewrite map_app. set_solver. Qed.

Lemma head_hash_snoc es e : head_hash (es ++ [e]) = ev_chain_hash e.
Proof. unfold head_hash. by rewrite last_snoc. Qed.

Lemma genesis_or_collision e es :
  GENESIS_HASH = canonical_digest (event_json e) → material_collision [] (es ++ [e]).
Proof.
  intros [E|Hc]%canonical_digest_inj; [done|]. eexists _, _. split; [by left|]. split; [apply material_last|exact Hc].
Qed.

Lemma collision_sym es1 es2 : material_collision es1 es2 → material_collision es2 es1.
Proof. intros (j1 & j2 & ? & ? & Hn & E). exists j2, j1. split; [done|]. split; [done|]. by split. Qed.

(** Two verified logs with the same head hash are the same log, up to a hash
    collision between two of their entries. *)
Lemma head_determines es1 es2 :
  verify_from 0 GENESIS_HASH es1 = true → verify_from 0 GENESIS_HASH es2 = true →
  head_hash es1 = head_hash es2 → es1 = es2 ∨ material_collision es1 es2.
Proof.
  revert es2. induction es1 as [|e1 es1 IH] using rev_ind; intros es2;
    (destruct es2 as [|e2 es2 _] using rev_ind); rewrite ?verify_from_app, ?head_hash_snoc.
  - by left.
  - intros _ (_ & _ & _ & E2 & _) E. right. apply genesis_or_collision. by rewrite <- E2.
  - intros (_ & _ & _ & E1 & _) _ E. right. apply collision_sym, genesis_or_collision. by rewrite <- E1.
  - intros (V1 & S1 & P1 & C1 & I1) (V2 & S2 & P2 & C2 & I2) E.
    rewrite C1, C2 in E.
    destruct (digest_binds (λ x : Z * string * string * string * string * Z,
      let '(s, k, r, d, p, t) := x in entry_json s k r d p t)
      (ev_sequence e1, ev_kind e1, ev_subject_ref e1, ev_payload_digest e1, ev_previous_hash e1, ev_observed_at e1)
      (ev_sequence e2, ev_kind e2, ev_subject_ref e2, ev_payload_digest e2, ev_previous_hash e2, ev_observed_at e2) E)
      as [Heq|Hc].
    + injection Heq as Es Ek Er Ed Ep Et.
      destruct (IH es2 V1 V2) as [->|Hc].
      { unfold head_hash. by rewrite <- P1, <- P2. }
      * left. f_equal. f_equal. destruct e1, e2; cbn in *. congruence.
      * right. by apply collision_mono.
    + right. exists (event_json e1), (event_json e2).
      split; [apply material_last|]. split; [apply material_last|exact Hc].
Qed.

Lemma audit_step_inv self self' :
  audit_step self self' → verify self = true → Z.of_nat (length (events self)) ≤ max_events self →
  verify self' = true ∧ Z.of_nat (length (events self')) ≤ max_events self' ∧
  max_events self' = max_events self ∧ events self `prefix_of` events self'.
Proof.
  intros [kind subject digest t r s s' [(? & -> & ->)|(-> & -> & Hv & Hlen & _)]%audit_append_cases] Hv' Hl; [done|].
  cbn. split; [by apply next_event_verifies|]. split; [rewrite length_app; cbn; lia|].
  split; [done|]. by apply prefix_app_r.
Qed.

(** * Properties *)

(** The log is append-only, bounded and always verifiable: from a new
    chain, whatever is appended, accepted or refused, the chain verifies, never
    exceeds its capacity, and later states extend earlier ones. *)
Theorem audit_chain_append_only max self0 self1 self2 :
  AuditChain_new max = Ok self0 → rtc audit_step self0 self1 → rtc audit_step self1 self2 →
  verify self2 = true ∧ Z.of_nat (length (events self2)) ≤ max ∧
  events self1 `prefix_of` events self2.
Proof.
  unfold AuditChain_new. intros Hnew. guards. subst self0.
  assert (Hsteps : ∀ s s', rtc audit_step s s' → verify s = true →
    Z.of_nat (length (events s)) ≤ max_events s →
    verify s' = true ∧ Z.of_nat (length (events s')) ≤ max_events s' ∧
    max_events s' = max_events s ∧ events s `prefix_of` events s').
  { induction 1 as [s|s1 s2 s3 Hs _ IH]; intros Hv Hl; [done|].
    destruct (audit_step_inv s1 s2 Hs Hv Hl) as (Hv2 & Hl2 & Hm2 & Hp2).
    destruct (IH Hv2 Hl2) as (? & ? & Hm3 & Hp3). split; [done|]. split; [done|].
    split; [by rewrite Hm3|by etransitivity]. }
  intros H1 H2. destruct (Hsteps _ _ H1) as (Hv1 & Hl1 & Hm1 & _); [done|cbn; lia|].
  destruct (Hsteps _ _ H2 Hv1 Hl1) as (? & ? & Hm2 & ?). cbn in *. split; [done|].
  split; [lia|done].
Qed.

(** C40: The log is tamper evident: two chains that verify and end in the same
    head hash hold the same events, unless two entries among them (or the
    genesis text) collide in SHA-256. *)
Theorem audit_chain_tamper_evident c1 c2 :
  verify c1 = true → verify c2 = true → head_hash (events c1) = head_hash (events c2) →
  events c1 = events c2 ∨ material_collision (events c1) (events c2).
Proof. apply head_determines. Qed.

(** * A concrete log *)
Module AuditExample.
Definition run_event : AuditEvent :=
  next_event [] "run.admitted" "run:1" (canonical_digest (JStr "resolution")) 10.
Definition chain : AuditChain :=
  mkChain 2 [run_event; next_event [run_event] "work_item.admitted" "work_item:1"
                          (canonical_digest (JStr "item")) 10].
(** A log whose second entry was rewritten, its own hash recomputed. *)
Definition rewritten : AuditChain :=
  mkChain 2 [run_event; next_event [run_event] "work_item.admitted" "work_item:2"
                          (canonical_digest (JStr "item")) 10].

Lemma chain_reachable : rtc audit_step (mkChain 2 []) chain.
Proof.
  eapply rtc_l; [|eapply rtc_once].
  - apply (audit_step_append "run.admitted" "run:1" (canonical_digest (JStr "resolution")) 10
      (Ok run_event) _ (mkChain 2 [run_event])). by_compute.
  - apply (audit_step_append "work_item.admitted" "work_item:1" (canonical_digest (JStr "item")) 10
      (Ok (next_event [run_event] "work_item.admitted" "work_item:1" (canonical_digest (JStr "item")) 10))).
    by_compute.
Qed.

Example capacity_refused :
  append "run.admitted" "run:2" (canonical_digest (JStr "resolution")) 11 chain =
  (Raise (AuditDiscontinuityError "audit_capacity_exceeded"), chain).
Proof. by_compute. Qed.
Example rewritten_verifies_with_another_head :
  verify rewritten = true ∧ head_hash (events rewritten) ≠ head_hash (events chain).
Proof. split; by_compute. Qed.
End AuditExample.

Lemma audit_chain_append_only_witness :
  verify AuditExample.chain = true ∧ Z.of_nat (length (events AuditExample.chain)) ≤ 2 ∧
  [] `prefix_of` events AuditExample.chain.
Proof.
  apply (audit_chain_append_only 2 (mkChain 2 []) (mkChain 2 []) AuditExample.chain);
    [by_compute|apply rtc_refl|apply AuditExample.chain_reachable].
Defined.

Lemma audit_chain_tamper_evident_witness :
  events AuditExample.chain = events AuditExample.chain ∨
  material_collision (events AuditExample.chain) (events AuditExample.chain).
Proof. apply audit_chain_tamper_evident; by_compute. Defined.
