(* ===== verification/Capacity.v ===== *)
(** Capacity accounting for runs: the slot ledger of
    [arbora/control_plane/runs/capacity.py] and the multi-resource
    [CapacityAcquisition] of [arbora/control_plane/runs/admission.py]. *)
From S2P Require Export Prelude.
From Stdlib Require Import Lia.
Local Open Scope Z_scope.

(** * CapacityLedger *)
Module Ledger.

Definition CapacityError (code : string) : pyexn := PyExn ["CapacityError"; "ValueError"] code "".
Definition CapacityReDecisionExhaustedError (holder_id : string) : pyexn :=
  PyExn ["CapacityReDecisionExhaustedError"; "CapacityError"; "ValueError"]
    "capacity_redecision_exhausted" holder_id.

Record CapacityDecision := mkDecision { granted : bool; amount : Z; redecision : bool }.

Record CapacityLedger := mkLedger {
  total : Z; available : Z; held : gmap string Z;
  pending_redecision : gset string; exhausted : gset string }.

#[global] Instance CapacityDecision_eq_dec : EqDecision CapacityDecision.
Proof. solve_decision. Defined.
#[global] Instance CapacityLedger_eq_dec : EqDecision CapacityLedger.
Proof. solve_decision. Defined.

Definition CapacityLedger_new (total : Z) : result CapacityLedger :=
  _ ← raise_if (total <? 0) (CapacityError "capacity_total_invalid");
  Ok (mkLedger total total ∅ ∅ ∅).

Definition held_by (holder_id : string) (self : CapacityLedger) : Z :=
  default 0 (held self !! holder_id).

Definition acquire (holder_id : string) (amount : Z) : M CapacityLedger CapacityDecision :=
  _ ← raise_if (amount <=? 0) (CapacityError "capacity_amount_invalid");
  self ← get_state;
  _ ← raise_if (bool_decide (holder_id ∈ exhausted self)) (CapacityReDecisionExhaustedError holder_id);
  let is_redecision := bool_decide (holder_id ∈ pending_redecision self) in
  if amount <=? available self then
    _ ← put_state (mkLedger (total self) (available self - amount)
          (<[holder_id := default 0 (held self !! holder_id) + amount]> (held self))
          (pending_redecision self ∖ {[holder_id]}) (exhausted self));
    mret (mkDecision true amount is_redecision)
  else if is_redecision then
    _ ← put_state (mkLedger (total self) (available self) (held self)
          (pending_redecision self ∖ {[holder_id]}) (exhausted self ∪ {[holder_id]}));
    mthrow (CapacityReDecisionExhaustedError holder_id)
  else
    _ ← put_state (mkLedger (total self) (available self) (held self)
          (pending_redecision self ∪ {[holder_id]}) (exhausted self));
    mret (mkDecision false 0 false).

Definition release (holder_id : string) : M CapacityLedger Z :=
  self ← get_state;
  let amount := default 0 (held self !! holder_id) in
  _ ← put_state (mkLedger (total self) (available self + amount) (delete holder_id (held self))
        (pending_redecision self ∖ {[holder_id]}) (exhausted self ∖ {[holder_id]}));
  mret amount.

(** ** The contract, holder by holder

    A holder is in one of three stages; the pool is a number. [spec_acquire]
    and [spec_release] are what the class documents, on that view alone. *)
Inductive stage := Fresh | OneDenial | Exhausted.
#[global] Instance stage_eq_dec : EqDecision stage.
Proof. solve_decision. Defined.

Definition stage_of (self : CapacityLedger) (h : string) : stage :=
  if decide (h ∈ exhausted self) then Exhausted
  else if decide (h ∈ pending_redecision self) then OneDenial else Fresh.

(** The view: what is free, and what each holder holds and may still do. *)
Record view := mkView { v_free : Z; v_held : string → Z; v_stage : string → stage }.

Definition view_of (self : CapacityLedger) : view :=
  mkView (available self) (λ h, held_by h self) (stage_of self).

Definition set_at {A} (f : string → A) (h : string) (a : A) : string → A :=
  λ h', if decide (h' = h) then a else f h'.

Definition spec_acquire (h : string) (n : Z) (v : view) : result CapacityDecision * view :=
  if n <=? 0 then (Raise (CapacityError "capacity_amount_invalid"), v)
  else match v_stage v h with
  | Exhausted => (Raise (CapacityReDecisionExhaustedError h), v)
  | st =>
      if n <=? v_free v then
        (Ok (mkDecision true n (bool_decide (st = OneDenial))),
         mkView (v_free v - n) (set_at (v_held v) h (v_held v h + n)) (set_at (v_stage v) h Fresh))
      else match st with
      | Fresh => (Ok (mkDecision false 0 false), mkView (v_free v) (v_held v) (set_at (v_stage v) h OneDenial))
      | _ => (Raise (CapacityReDecisionExhaustedError h),
              mkView (v_free v) (v_held v) (set_at (v_stage v) h Exhausted))
      end
  end.

Definition spec_release (h : string) (v : view) : result Z * view :=
  (Ok (v_held v h),
   mkView (v_free v + v_held v h) (set_at (v_held v) h 0) (set_at (v_stage v) h Fresh)).

(** Views are compared pointwise. *)
#[global] Instance view_equiv : Equiv view := λ v w,
  v_free v = v_free w ∧ (∀ h, v_held v h = v_held w h) ∧ (∀ h, v_stage v h = v_stage w h).

#[global] Instance view_equivalence : Equivalence (≡@{view}).
Proof.
  split.
  - by intros v.
  - by intros v w (? & ? & ?).
  - intros u v w (? & H1 & H2) (? & H3 & H4). split; [congruence|].
    split; intros h; [by rewrite H1|by rewrite H2].
Qed.

(** The pool's sum and the well-formedness of the sets. *)
Definition sum_held (m : gmap string Z) : Z := map_fold (λ _ n acc, n + acc) 0 m.

Record ledger_inv (self : CapacityLedger) : Prop := {
  li_free : 0 ≤ available self;
  li_pos h n : held self !! h = Some n → 0 < n;
  li_sum : available self + sum_held (held self) = total self;
  li_disjoint : pending_redecision self ## exhausted self }.

Inductive ledger_step : CapacityLedger → CapacityLedger → Prop :=
  | step_acquire h n r self self' : acquire h n self = (r, self') → ledger_step self self'
  | step_release h r self self' : release h self = (r, self') → ledger_step self self'.

(** ** Facts *)
Lemma sum_held_insert (m : gmap string Z) h n :
  sum_held (<[h := n]> m) = sum_held m - default 0 (m !! h) + n.
Proof.
  assert (Hins : ∀ (m : gmap string Z) h n, m !! h = None → sum_held (<[h := n]> m) = n + sum_held m).
  { intros m0 h0 n0 Hn. unfold sum_held. rewrite map_fold_insert_L; [done|intros; lia|done]. }
  destruct (m !! h) as [k|] eqn:E; cbn.
  - rewrite <- (insert_delete_id m h k E) at 2. rewrite <- insert_delete_eq.
    rewrite !Hins by apply lookup_delete_eq. lia.
  - rewrite Hins by done. lia.
Qed.

Lemma sum_held_delete (m : gmap string Z) h :
  sum_held (delete h m) = sum_held m - default 0 (m !! h).
Proof.
  destruct (m !! h) as [k|] eqn:E; cbn.
  - rewrite <- (insert_delete_id m h k E) at 2. rewrite sum_held_insert, lookup_delete_eq. cbn. lia.
  - rewrite delete_id by done. lia.
Qed.

Lemma sum_held_nonneg (m : gmap string Z) : (∀ h n, m !! h = Some n → 0 < n) → 0 ≤ sum_held m.
Proof.
  induction m as [|h n m Hn IH] using map_ind; intros Hpos; [done|].
  rewrite sum_held_insert, Hn. cbn. pose proof (Hpos h n (lookup_insert_eq _ _ _)).
  assert (0 ≤ sum_held m); [|lia]. apply IH. intros h' k Hk. apply (Hpos h').
  rewrite lookup_insert_ne; [done|]. intros ->. congruence.
Qed.

Lemma held_by_insert m t a p e h n h' :
  held_by h' (mkLedger t a (<[h := n]> m) p e) = set_at (λ x, default 0 (m !! x)) h n h'.
Proof.
  unfold held_by, set_at. cbn. case_decide as E; [subst; by rewrite lookup_insert_eq|].
  by rewrite lookup_insert_ne.
Qed.

(** [acquire] does what the contract says. *)
Lemma acquire_refines h n self :
  let '(r, self') := acquire h n self in
  let '(r', v') := spec_acquire h n (view_of self) in
  r = r' ∧ view_of self' ≡ v'.
Proof.
  unfold acquire, spec_acquire. run_unfold.
  destruct (Z.leb_spec n 0); [by split|]. cbn [view_of v_stage v_free v_held].
  destruct (stage_of self h) eqn:Est; unfold stage_of in Est;
    (destruct (decide (h ∈ exhausted self)) as [Hex|Hex]; [try done|]);
    (destruct (decide (h ∈ pending_redecision self)) as [Hp|Hp]; try done); clear Est;
    cbn -[stage_of held_by set_at];
    rewrite ?(bool_decide_eq_true_2 _ Hex), ?(bool_decide_eq_false_2 _ Hex),
      ?(bool_decide_eq_true_2 _ Hp), ?(bool_decide_eq_false_2 _ Hp);
    cbn -[stage_of held_by set_at]; try (by split);
    destruct (n <=? available self); (split; [done|]); (split; [done|]);
    (split; intros h'; cbn [view_of v_stage v_held]; rewrite ?held_by_insert; try done);
    unfold stage_of, set_at; cbn; destruct (decide (h' = h)) as [->|Hne];
    repeat case_decide; try done; set_solver.
Qed.

Lemma release_refines h self :
  let '(r, self') := release h self in
  let '(r', v') := spec_release h (view_of self) in
  r = r' ∧ view_of self' ≡ v'.
Proof.
  unfold release, spec_release. run_unfold. cbn -[stage_of held_by set_at].
  split; [done|]. split; [done|]. split; intros h'; cbn -[stage_of].
  - unfold held_by, set_at. cbn. case_decide as E; [subst; by rewrite lookup_delete_eq|].
    by rewrite lookup_delete_ne.
  - unfold stage_of, set_at. cbn. destruct (decide (h' = h)) as [->|Hne];
      repeat case_decide; try done; set_solver.
Qed.

Lemma new_inv n self : CapacityLedger_new n = Ok self → ledger_inv self ∧ total self = n.
Proof.
  unfold CapacityLedger_new. intros Hok. guards. subst self. split; [|done].
  split; cbn; [done|done| |set_solver]. unfold sum_held. rewrite map_fold_empty. lia.
Qed.

Lemma step_inv self self' :
  ledger_step self self' → ledger_inv self → ledger_inv self' ∧ total self' = total self.
Proof.
  intros [h n r s s' Hs|h r s s' Hs] [Hf Hpos Hsum Hdis].
  - unfold acquire in Hs. run_unfold.
    destruct (Z.leb_spec n 0); [by simplify_eq/=|]. cbn in Hs.
    case_bool_decide as Hex; [by simplify_eq/=|]. cbn in Hs.
    destruct (Z.leb_spec n (available s)); [|destruct (bool_decide (h ∈ pending_redecision s))]; simplify_eq/=;
      (split; [|done]); split; cbn; try done; try lia; try set_solver.
    + intros h' k. destruct (decide (h = h')) as [<-|Hne]; [|rewrite lookup_insert_ne by done; apply Hpos].
      rewrite lookup_insert_eq. intros [= <-]. destruct (held s !! h) as [k|] eqn:E; cbn; [|lia].
      pose proof (Hpos h k E). lia.
    + rewrite sum_held_insert. lia.
  - unfold release in Hs. run_unfold. simplify_eq/=. split; [|done].
    assert (0 ≤ default 0 (held s !! h)).
    { destruct (held s !! h) as [k|] eqn:E; cbn; [|lia]. pose proof (Hpos h k E). lia. }
    split; cbn; [lia| | |set_solver].
    + intros h' k Hk. apply lookup_delete_Some in Hk as [_ Hk]. by apply (Hpos h').
    + rewrite sum_held_delete. lia.
Qed.

Lemma steps_inv self self' :
  rtc ledger_step self self' → ledger_inv self → ledger_inv self' ∧ total self' = total self.
Proof.
  induction 1 as [s|s1 s2 s3 Hs _ IH]; intros Hinv; [done|].
  destruct (step_inv _ _ Hs Hinv) as [Hinv2 <-]. by apply IH.
Qed.

(** ** Properties *)

(** [CapacityLedger] implements its documented contract: [acquire] grants
    all of a request or nothing, a first denial leaves one re-decision, a
    second denial exhausts the holder, who is refused until [release]; and
    [release] returns everything held and resets the holder. No call touches
    another holder. *)
Theorem capacity_ledger_refines h n self :
  (let '(r, self') := acquire h n self in
   let '(r', v') := spec_acquire h n (view_of self) in r = r' ∧ view_of self' ≡ v') ∧
  (let '(r, self') := release h self in
   let '(r', v') := spec_release h (view_of self) in r = r' ∧ view_of self' ≡ v').
Proof. split; [apply acquire_refines|apply release_refines]. Qed.

(** Slots are conserved: after any calls on a new ledger of [n] slots, the
    free slots and the held slots add up to [n], none is negative, and no
    holder is both pending a re-decision and exhausted. *)
Theorem capacity_ledger_conserves n self0 self :
  CapacityLedger_new n = Ok self0 → rtc ledger_step self0 self →
  available self + sum_held (held self) = n ∧ 0 ≤ available self ≤ n ∧
  (∀ h, 0 ≤ held_by h self) ∧ pending_redecision self ## exhausted self.
Proof.
  intros [Hinv0 <-]%new_inv Hsteps. destruct (steps_inv _ _ Hsteps Hinv0) as [[Hf Hpos Hsum Hdis] Ht].
  pose proof (sum_held_nonneg _ Hpos). split; [lia|]. split; [lia|]. split; [|done].
  intros h. unfold held_by. destruct (held self !! h) as [k|] eqn:E; cbn; [|lia].
  pose proof (Hpos h k E). lia.
Qed.
End Ledger.

Lemma capacity_ledger_conserves_witness :
  let self := Ledger.mkLedger 3 1 {["run:a" := 2]} ∅ ∅ in
  Ledger.available self + Ledger.sum_held (Ledger.held self) = 3 ∧ 0 ≤ Ledger.available self ≤ 3 ∧
  (∀ h, 0 ≤ Ledger.held_by h self) ∧ Ledger.pending_redecision self ## Ledger.exhausted self.
Proof.
  apply (Ledger.capacity_ledger_conserves 3 (Ledger.mkLedger 3 3 ∅ ∅ ∅)); [reflexivity|].
  apply rtc_once, (Ledger.step_acquire "run:a" 2 (Ok (Ledger.mkDecision true 2 false))).
  reflexivity.
Defined.

(** * CapacityAcquisition *)
Module Acquisition.

(** [NativeAdmissionError] and its subclass, of [runs/admission.py]. *)
Definition CapacityDeniedError (run_id : string) : pyexn :=
  PyExn ["CapacityDeniedError"; "NativeAdmissionError"; "ValueError"]
    "capacity_denied_after_redecision" run_id.

Record CapacityAcquisition := mkAcquisition {
  capacity : gmap string Z; held : gmap string (gmap string Z); redecided : gset string }.

#[global] Instance CapacityAcquisition_eq_dec : EqDecision CapacityAcquisition.
Proof. solve_decision. Defined.

Definition CapacityAcquisition_new (capacity : gmap string Z) : CapacityAcquisition :=
  mkAcquisition capacity ∅ ∅.

(** [for key, units in items: capacity[key] = capacity.get(key, 0) + f(units)] *)
Definition adjust (f : Z → Z) (capacity resources : gmap string Z) : gmap string Z :=
  foldl (λ c kv, <[kv.1 := default 0 (c !! kv.1) + f kv.2]> c) capacity (map_to_list resources).

Definition can_satisfy (self : CapacityAcquisition) (resources : gmap string Z) : bool :=
  forallb (λ kv : string * Z, kv.2 <=? default 0 (capacity self !! kv.1)) (map_to_list resources).

Definition commit (run_id : string) (resources : gmap string Z) (self : CapacityAcquisition) :
    CapacityAcquisition :=
  mkAcquisition (adjust Z.opp (capacity self) resources)
    (<[run_id := resources]> (held self)) (redecided self).

Definition acquire (run_id : string) (resources : gmap string Z) : M CapacityAcquisition bool :=
  self ← get_state;
  if can_satisfy self resources then
    _ ← put_state (commit run_id resources self);
    _ ← modify (λ self, mkAcquisition (capacity self) (held self) (redecided self ∖ {[run_id]}));
    mret true
  else
    _ ← raise_if (bool_decide (run_id ∈ redecided self)) (CapacityDeniedError run_id);
    _ ← put_state (mkAcquisition (capacity self) (held self) (redecided self ∪ {[run_id]}));
    mret false.

Definition release (run_id : string) : M CapacityAcquisition () :=
  self ← get_state;
  put_state (mkAcquisition
    (match held self !! run_id with
     | Some resources => adjust id (capacity self) resources
     | None => capacity self
     end) (delete run_id (held self)) (redecided self ∖ {[run_id]})).

Definition held_of (run_id : string) (self : CapacityAcquisition) : gmap string Z :=
  default ∅ (held self !! run_id).

(** ** Facts *)
Lemma adjust_lookup f c r k :
  default 0 (adjust f c r !! k) = default 0 (c !! k) + from_option f 0 (r !! k).
Proof.
  unfold adjust.
  enough (Hgen : ∀ l (c : gmap string Z), NoDup l.*1 →
    default 0 (foldl (λ c kv, <[kv.1 := default 0 (c !! kv.1) + f kv.2]> c) c l !! k) =
    default 0 (c !! k) + from_option f 0 ((list_to_map l : gmap string Z) !! k)).
  { rewrite Hgen, list_to_map_to_list; [done|]. apply NoDup_fst_map_to_list. }
  clear c r. induction l as [|[i x] l IH]; intros c Hnd; cbn [foldl list_to_map foldr];
    [rewrite lookup_empty; cbn; lia|].
  cbn [fmap list_fmap fst] in Hnd. apply NoDup_cons in Hnd as [Hi Hnd].
  rewrite IH by done. cbn [fst snd]. destruct (decide (i = k)) as [->|Hne].
  - change (foldr _ _ l) with (list_to_map l : gmap string Z). rewrite !lookup_insert_eq. cbn.
    rewrite (not_elem_of_list_to_map_1 l k Hi). cbn. lia.
  - rewrite !lookup_insert_ne by done. done.
Qed.

Lemma can_satisfy_spec self r :
  can_satisfy self r = true ↔ ∀ k n, r !! k = Some n → n ≤ default 0 (capacity self !! k).
Proof.
  unfold can_satisfy. rewrite forallb_forall. split.
  - intros H k n Hk. apply elem_of_map_to_list, list_elem_of_In in Hk. apply H in Hk. cbn in Hk. lia.
  - intros H [k n] Hk%list_elem_of_In%elem_of_map_to_list. cbn. apply Z.leb_le. by apply H.
Qed.

(** Units of [k] that exist: the free ones and those some run holds. *)
Definition held_units (k : string) (m : gmap string (gmap string Z)) : Z :=
  map_fold (λ _ r acc, default 0 (r !! k) + acc) 0 m.
Definition units (k : string) (self : CapacityAcquisition) : Z :=
  default 0 (capacity self !! k) + held_units k (held self).

Lemma held_units_insert k m run r :
  held_units k (<[run := r]> m) =
  held_units k m - default 0 (default ∅ (m !! run) !! k) + default 0 (r !! k).
Proof.
  assert (Hins : ∀ (m : gmap string (gmap string Z)) run r, m !! run = None →
    held_units k (<[run := r]> m) = default 0 (r !! k) + held_units k m).
  { intros m0 h0 n0 Hn. unfold held_units. rewrite map_fold_insert_L; [done|intros; lia|done]. }
  destruct (m !! run) as [r0|] eqn:E; cbn [default from_option id].
  - rewrite <- (insert_delete_id m run r0 E) at 2. rewrite <- insert_delete_eq.
    rewrite !Hins by apply lookup_delete_eq. lia.
  - rewrite Hins by done. rewrite lookup_empty. cbn. lia.
Qed.

Lemma held_units_delete k m run :
  held_units k (delete run m) = held_units k m - default 0 (default ∅ (m !! run) !! k).
Proof.
  destruct (m !! run) as [r|] eqn:E; cbn [default from_option id].
  - rewrite <- (insert_delete_id m run r E) at 2. rewrite held_units_insert, lookup_delete_eq.
    cbn [default from_option id]. rewrite lookup_empty. cbn. lia.
  - rewrite delete_id by done. rewrite lookup_empty. cbn. lia.
Qed.

Lemma acquire_true run r self self' :
  acquire run r self = (Ok true, self') ↔
  can_satisfy self r = true ∧
  self' = mkAcquisition (adjust Z.opp (capacity self) r) (<[run := r]> (held self))
            (redecided self ∖ {[run]}).
Proof.
  unfold acquire. run_unfold. destruct (can_satisfy self r); cbn.
  - split; [by intros [= <-]|by intros [_ ->]].
  - split; [|by intros [? _]]. by case_bool_decide.
Qed.

Lemma acquire_not_true run r self self' res :
  acquire run r self = (res, self') → res ≠ Ok true →
  can_satisfy self r = false ∧ capacity self' = capacity self ∧ held self' = held self ∧
  (run ∈ redecided self → res = Raise (CapacityDeniedError run) ∧ self' = self) ∧
  (run ∉ redecided self → res = Ok false ∧ redecided self' = redecided self ∪ {[run]}).
Proof.
  unfold acquire. intros Hrun Hres. run_unfold. destruct (can_satisfy self r); cbn in Hrun.
  - by simplify_eq.
  - case_bool_decide; simplify_eq/=; split_and!; done || naive_solver.
Qed.

(** ** Properties *)

(** Acquisition is all-or-nothing with one re-decision: a request is
    granted exactly when every requested unit is free, and then exactly those
    units are taken; otherwise no unit moves, the first refusal returns
    [False] and the next one raises. *)
Theorem acquisition_all_or_nothing run r self res self' :
  acquire run r self = (res, self') →
  (res = Ok true ↔ ∀ k n, r !! k = Some n → n ≤ default 0 (capacity self !! k)) ∧
  (res = Ok true → held_of run self' = r ∧
     (∀ k, default 0 (capacity self' !! k) = default 0 (capacity self !! k) - default 0 (r !! k)) ∧
     run ∉ redecided self') ∧
  (res ≠ Ok true → capacity self' = capacity self ∧ held self' = held self ∧ run ∈ redecided self' ∧
     res = if decide (run ∈ redecided self) then Raise (CapacityDeniedError run) else Ok false).
Proof.
  intros Hrun. rewrite <- can_satisfy_spec. split; [|split].
  - split.
    + intros ->. by apply acquire_true in Hrun as [? _].
    + intros Hc. unfold acquire in Hrun. run_unfold. rewrite Hc in Hrun. cbn in Hrun. by simplify_eq.
  - intros ->. apply acquire_true in Hrun as [_ ->]. unfold held_of. cbn. rewrite lookup_insert_eq.
    split; [done|]. split; [|set_solver]. intros k. rewrite adjust_lookup.
    destruct (r !! k); cbn; lia.
  - intros Hne. destruct (acquire_not_true _ _ _ _ _ Hrun Hne) as (_ & Hc & Hh & Hin & Hout).
    split; [done|]. split; [done|]. case_decide as Hr.
    + by destruct (Hin Hr) as [-> ->].
    + destruct (Hout Hr) as [-> ->]. split; [set_solver|done].
Qed.

(** Unit accounting: releasing a run returns exactly what it holds, and
    granting a request keeps the number of existing units of every resource
    except that the units the same run already held are lost. *)
Theorem acquisition_accounting run r self self' k :
  (release run self = (Ok (), self') → units k self' = units k self ∧ held self' !! run = None) ∧
  (acquire run r self = (Ok true, self') →
     units k self' = units k self - default 0 (held_of run self !! k)).
Proof.
  unfold units, held_of. split.
  - unfold release. intros Hrun. run_unfold. simplify_eq/=. rewrite held_units_delete, lookup_delete_eq.
    split; [|done]. destruct (held self !! run) as [r0|]; cbn [default from_option id].
    + rewrite adjust_lookup. destruct (r0 !! k); cbn; lia.
    + rewrite lookup_empty. cbn. lia.
  - intros [_ ->]%acquire_true. cbn. rewrite adjust_lookup, held_units_insert.
    destruct (r !! k); cbn; lia.
Qed.
End Acquisition.

(** A run that acquires twice before it stops leaves the pool short: two
    units existed, one is lost. *)
Example reacquire_leaks :
  let self0 := Acquisition.CapacityAcquisition_new {["gpu" := 2]} in
  let '(_, self1) := Acquisition.acquire "run:a" {["gpu" := 1]} self0 in
  let '(r, self2) := Acquisition.acquire "run:a" {["gpu" := 1]} self1 in
  let '(_, self3) := Acquisition.release "run:a" self2 in
  r = Ok true ∧ Acquisition.units "gpu" self0 = 2 ∧ Acquisition.units "gpu" self3 = 1 ∧
  Acquisition.held self3 = ∅.
Proof. by_compute. Qed.

Lemma acquisition_all_or_nothing_witness :
  let self := Acquisition.CapacityAcquisition_new {["gpu" := 2; "cpu" := 0]} in
  let r := {["gpu" := 1; "cpu" := 1]} : gmap string Z in
  let self' := Acquisition.mkAcquisition {["gpu" := 2; "cpu" := 0]} ∅ {["run:a"]} in
  (Ok false = Ok true ↔ ∀ k n, r !! k = Some n → n ≤ default 0 (Acquisition.capacity self !! k)) ∧
  "run:a" ∈ Acquisition.redecided self'.
Proof.
  intros self r self'.
  assert (E : Acquisition.acquire "run:a" r self = (Ok false, self')) by by_compute.
  destruct (Acquisition.acquisition_all_or_nothing "run:a" r self (Ok false) self' E) as (H1 & _ & H3).
  split; [exact H1|]. by apply H3.
Defined.

Lemma acquisition_accounting_witness :
  let self := Acquisition.mkAcquisition {["gpu" := 1]} {["run:a" := {["gpu" := 1]}]} ∅ in
  let self' := Acquisition.mkAcquisition {["gpu" := 0]} {["run:a" := {["gpu" := 1]}]} ∅ in
  Acquisition.units "gpu" self' = Acquisition.units "gpu" self - 1.
Proof.
  intros self self'.
  apply (proj2 (Acquisition.acquisition_accounting "run:a" {["gpu" := 1]} self self' "gpu")).
  by_compute.
Defined.
