(* ===== verification/Observations.v ===== *)
(** The monotonic observation ledger of [arbora/control_plane/runs/observations.py]. *)
From S2P Require Export PolicyModels.
Local Open Scope Z_scope.

Definition ObservationDiscontinuityError (code : string) : pyexn :=
  PyExn ["ObservationDiscontinuityError"; "ValueError"] code "".

Inductive ObservedState := Unknown | Discovered | Pending | Blocked | Drifted.
#[export] Instance ObservedState_eq_dec : EqDecision ObservedState.
Proof. solve_decision. Defined.

Definition observed_state_str (s : ObservedState) : string :=
  match s with
  | Unknown => "unknown" | Discovered => "discovered" | Pending => "pending"
  | Blocked => "blocked" | Drifted => "drifted"
  end.

Record RelationalObservation := mkObservation {
  ob_observation_id : string; ob_run_id : string; ob_work_item_id : string; ob_sequence : Z;
  ob_observed_state : ObservedState; ob_source_ref : string; ob_evidence_digest : string;
  ob_observed_at : Z }.
#[export] Instance RelationalObservation_eq_dec : EqDecision RelationalObservation.
Proof. solve_decision. Defined.

Definition validate_RelationalObservation (o : RelationalObservation) : result () :=
  _ ← check_field "observation_id" (StableId (ob_observation_id o));
  _ ← check_field "run_id" (StableId (ob_run_id o));
  _ ← check_field "work_item_id" (StableId (ob_work_item_id o));
  _ ← check_field "sequence" (Timestamp (ob_sequence o));
  _ ← check_field "source_ref" (OpaqueRef (ob_source_ref o));
  _ ← check_field "evidence_digest" (Digest (ob_evidence_digest o));
  check_field "observed_at" (Timestamp (ob_observed_at o)).

Definition RelationalObservation_json (o : RelationalObservation) : json :=
  JObj [("observation_id", JStr (ob_observation_id o)); ("run_id", JStr (ob_run_id o));
        ("work_item_id", JStr (ob_work_item_id o)); ("sequence", JInt (ob_sequence o));
        ("observed_state", JStr (observed_state_str (ob_observed_state o)));
        ("source_ref", JStr (ob_source_ref o)); ("evidence_digest", JStr (ob_evidence_digest o));
        ("observed_at", JInt (ob_observed_at o))].

Definition observation_digest (o : RelationalObservation) : string :=
  canonical_digest (RelationalObservation_json o).

Record InMemoryObservationLedger := mkObservations {
  rows : gmap string (list RelationalObservation);
  observations : gmap string RelationalObservation }.
#[export] Instance InMemoryObservationLedger_eq_dec : EqDecision InMemoryObservationLedger.
Proof. solve_decision. Defined.

Definition empty_ledger : InMemoryObservationLedger := mkObservations ∅ ∅.

(** The checks against the last row of the same work item. *)
Definition check_continuity (o prior : RelationalObservation) : result bool :=
  _ ← raise_if (bool_decide (ob_run_id o ≠ ob_run_id prior))
        (ObservationDiscontinuityError "observation_run_identity_drift");
  _ ← raise_if (ob_sequence o <? ob_sequence prior)
        (ObservationDiscontinuityError "observation_sequence_regressed");
  _ ← raise_if (ob_observed_at o <? ob_observed_at prior)
        (ObservationDiscontinuityError "observation_time_regressed");
  if ob_sequence o =? ob_sequence prior then
    _ ← raise_if (bool_decide (o ≠ prior)) (ObservationDiscontinuityError "observation_sequence_drift");
    Ok false
  else Ok true.

(** [append]: [setdefault] has put the (possibly empty) row list in place
    before the continuity checks run. *)
Definition append_observation (o : RelationalObservation) : M InMemoryObservationLedger bool :=
  self ← get_state;
  _ ← match observations self !! ob_observation_id o with
      | Some prior => raise_if (bool_decide (prior ≠ o))
                        (ObservationDiscontinuityError "observation_identity_drift")
      | None => mret ()
      end;
  let item_rows := default [] (rows self !! ob_work_item_id o) in
  _ ← put_state (mkObservations (<[ob_work_item_id o := item_rows]> (rows self)) (observations self));
  fresh ← match last item_rows with
          | None => mret true
          | Some prior => lift (check_continuity o prior)
          end;
  if (fresh : bool) then
    _ ← modify (λ self, mkObservations
          (<[ob_work_item_id o := item_rows ++ [o]]> (rows self))
          (<[ob_observation_id o := o]> (observations self)));
    mret true
  else mret false.

Definition read (work_item_id : string) (self : InMemoryObservationLedger) :
    list RelationalObservation :=
  default [] (rows self !! work_item_id).

(** * The ledger invariant *)

(** [y] may follow [x] in the rows of one work item. *)
Definition follows (x y : RelationalObservation) : Prop :=
  ob_run_id x = ob_run_id y ∧ ob_sequence x < ob_sequence y ∧ ob_observed_at x ≤ ob_observed_at y.

#[export] Instance follows_trans : Transitive follows.
Proof. intros x y z (? & ? & ?) (? & ? & ?). split; [congruence|]. split; lia. Qed.

Record ledger_ok (self : InMemoryObservationLedger) : Prop := {
  lo_nonempty w rs : rows self !! w = Some rs → rs ≠ [];
  lo_item w o : o ∈ read w self → ob_work_item_id o = w;
  lo_sorted w : StronglySorted follows (read w self);
  lo_indexed w o : o ∈ read w self → observations self !! ob_observation_id o = Some o;
  lo_rows i o : observations self !! i = Some o → ob_observation_id o = i ∧ o ∈ read (ob_work_item_id o) self }.

Lemma empty_ok : ledger_ok empty_ledger.
Proof.
  assert (Hread : ∀ w, read w empty_ledger = []) by done.
  split; try setoid_rewrite Hread; try done.
  - by intros w o ?%not_elem_of_nil.
  - constructor.
  - by intros w o ?%not_elem_of_nil.
Qed.

Lemma check_continuity_true o prior : check_continuity o prior = Ok true ↔ follows prior o.
Proof.
  unfold check_continuity, follows. split.
  - intros Hok. guards. case_match; guards; [done|]. split; [done|]. lia.
  - intros (-> & ? & ?). rewrite (bool_decide_eq_false_2 (ob_run_id o ≠ ob_run_id o)) by auto. cbn.
    rewrite !(proj2 (Z.ltb_ge _ _)) by lia. cbn. by rewrite (proj2 (Z.eqb_neq _ _)) by lia.
Qed.

Lemma check_continuity_false o prior : check_continuity o prior = Ok false ↔ o = prior.
Proof.
  unfold check_continuity. split.
  - intros Hok. guards. case_match; guards; done.
  - intros ->. rewrite (bool_decide_eq_false_2 (ob_run_id prior ≠ _)) by auto. cbn.
    rewrite !Z.ltb_irrefl. cbn.
    rewrite Z.eqb_refl. by rewrite bool_decide_eq_false_2 by auto.
Qed.

Lemma read_insert w self prior :
  last (read w self) = Some prior → <[w := read w self]> (rows self) = rows self.
Proof. unfold read. intros Hl. apply insert_id. by destruct (rows self !! w). Qed.

(** Every outcome of [append] on a well-formed ledger. *)
Lemma observation_append_cases o self r self' :
  ledger_ok self → append_observation o self = (r, self') →
  (∃ e, r = Raise e ∧ self' = self) ∨
  (r = Ok false ∧ self' = self ∧ last (read (ob_work_item_id o) self) = Some o) ∨
  (r = Ok true ∧
   (observations self !! ob_observation_id o = None ∨ observations self !! ob_observation_id o = Some o) ∧
   (∀ prior, last (read (ob_work_item_id o) self) = Some prior → follows prior o) ∧
   self' = mkObservations (<[ob_work_item_id o := read (ob_work_item_id o) self ++ [o]]> (rows self))
             (<[ob_observation_id o := o]> (observations self))).
Proof.
  intros Hok Hrun. unfold append_observation in Hrun. run_unfold.
  assert (Hid : observations self !! ob_observation_id o = None ∨
    observations self !! ob_observation_id o = Some o ∨ r = Raise (ObservationDiscontinuityError "observation_identity_drift") ∧ self' = self).
  { destruct (observations self !! _) as [q|]; [|by left].
    case_bool_decide; simplify_eq/=; auto. }
  destruct Hid as [Hid|[Hid|[-> ->]]]; [| |left; by eauto].
  all: rewrite Hid in Hrun; rewrite ?bool_decide_eq_false_2 in Hrun by auto; cbn in Hrun.
  all: fold (read (ob_work_item_id o) self) in Hrun.
  all: destruct (last (read (ob_work_item_id o) self)) as [prior|] eqn:El; cbn in Hrun;
    [|right; right; simplify_eq/=; rewrite insert_insert_eq; split_and!; auto; by intros ? [=]].
  all: assert (Hsame : <[ob_work_item_id o := read (ob_work_item_id o) self]> (rows self) = rows self);
    [by eapply read_insert|].
  all: rewrite Hsame in Hrun.
  all: destruct (check_continuity o prior) as [[]|e] eqn:Ec;
    [apply check_continuity_true in Ec|apply check_continuity_false in Ec|]; simplify_eq/=.
  all: destruct self; cbn in *.
  all: try (left; by eauto).
  all: try (right; left; by auto).
  all: right; right; split_and!; auto; intros ? [=]; by subst.
Qed.

Inductive observation_step : InMemoryObservationLedger → InMemoryObservationLedger → Prop :=
  | step_append o r self self' : append_observation o self = (r, self') → observation_step self self'.

Lemma StronglySorted_snoc {A} (R : relation A) `{!Transitive R} l x :
  StronglySorted R l → (∀ y, last l = Some y → R y x) → StronglySorted R (l ++ [x]).
Proof.
  induction 1 as [|y l Hs IH Hy]; cbn; intros Hl; [by repeat constructor|].
  assert (Hlast : ∀ z, last l = Some z → R z x).
  { intros z Hz. apply Hl. rewrite last_cons, Hz. done. }
  constructor; [by apply IH|]. apply Forall_app. split; [done|]. constructor; [|constructor].
  rewrite last_cons in Hl. destruct (last l) as [z|] eqn:E; [|by apply Hl].
  transitivity z; [|by apply Hlast]. rewrite Forall_forall in Hy. apply Hy.
  apply last_Some in E as [l' ->]. set_solver.
Qed.

Lemma read_insert_rows o rs self obs w :
  read w (mkObservations (<[ob_work_item_id o := rs]> (rows self)) obs) =
  if decide (w = ob_work_item_id o) then rs else read w self.
Proof.
  unfold read. cbn. case_decide as E; [subst; by rewrite lookup_insert_eq|by rewrite lookup_insert_ne].
Qed.

Lemma append_ok o self self' r :
  ledger_ok self → append_observation o self = (r, self') →
  ledger_ok self' ∧ (∀ w, read w self `prefix_of` read w self').
Proof.
  intros Hok Hrun. destruct (observation_append_cases o self r self' Hok Hrun)
    as [(? & -> & ->)|[(-> & -> & _)|(-> & Hid & Hlast & ->)]]; [done|done|].
  destruct Hok as [Hne Hit Hso Hix Hro]. split.
  2:{ intros w. rewrite read_insert_rows. case_decide as E; [subst; by apply prefix_app_r|done]. }
  split.
  - cbn. intros w rs. destruct (decide (ob_work_item_id o = w)) as [<-|E];
      [rewrite lookup_insert_eq; intros [= <-]; by destruct (read _ self)|
       rewrite lookup_insert_ne by done; apply Hne].
  - intros w q. rewrite read_insert_rows. case_decide as E; [|apply Hit].
    intros [Hq|Hq%list_elem_of_singleton]%elem_of_app; subst; [by apply Hit|done].
  - intros w. rewrite read_insert_rows. case_decide as E; [|apply Hso].
    apply StronglySorted_snoc; [apply _|apply Hso|exact Hlast].
  - intros w q. rewrite read_insert_rows. cbn. intros Hq.
    assert (q = o ∨ q ∈ read w self) as [->|Hq'].
    { case_decide; [|by right]. apply elem_of_app in Hq as [?|?%list_elem_of_singleton]; subst; auto. }
    + by rewrite lookup_insert_eq.
    + pose proof (Hix w q Hq') as Hl. destruct (decide (ob_observation_id o = ob_observation_id q)) as [E|E];
        [|by rewrite lookup_insert_ne].
      rewrite E, lookup_insert_eq. rewrite E in Hid. destruct Hid; congruence.
  - cbn. intros i q. destruct (decide (ob_observation_id o = i)) as [<-|E].
    + rewrite lookup_insert_eq. intros [= <-]. split; [done|]. rewrite read_insert_rows, decide_True by done.
      set_solver.
    + rewrite lookup_insert_ne by done. intros [? Hq]%Hro. split; [done|].
      rewrite read_insert_rows. case_decide as E'; [rewrite <- E'; set_solver|done].
Qed.

(** * Properties *)

(** Observations are monotonic: on every ledger reached from the empty one,
    the rows of a work item share one run, their sequence numbers strictly
    increase and their times never go back, each is filed under its own work
    item and is the one recorded under its observation id; and rows already
    read stay, in order, in every later ledger. *)
Theorem observation_ledger_monotonic self self' w :
  rtc observation_step empty_ledger self → rtc observation_step self self' →
  StronglySorted follows (read w self) ∧
  (∀ o, o ∈ read w self → ob_work_item_id o = w ∧ observations self !! ob_observation_id o = Some o) ∧
  read w self `prefix_of` read w self'.
Proof.
  assert (Hsteps : ∀ s s', rtc observation_step s s' → ledger_ok s →
    ledger_ok s' ∧ ∀ w, read w s `prefix_of` read w s').
  { induction 1 as [|s1 s2 s3 [o r t t' Hs] _ IH]; intros Hok; [done|].
    destruct (append_ok _ _ _ _ Hok Hs) as [Hok2 Hp]. destruct (IH Hok2) as [? Hp'].
    split; [done|]. intros v. transitivity (read v t'); [apply Hp|apply Hp']. }
  intros H1 H2. destruct (Hsteps _ _ H1 empty_ok) as [Hok _]. destruct (Hsteps _ _ H2 Hok) as [_ Hp].
  split; [apply Hok|]. split; [|done]. intros o Ho. split; [by apply Hok|by eapply Hok].
Qed.

(** Appending is idempotent and atomic: on a reachable ledger, an accepted
    observation sent again at once is answered [False] and changes nothing, and
    a refused observation changes nothing. *)
Theorem observation_append_idempotent self o r self' :
  rtc observation_step empty_ledger self → append_observation o self = (r, self') →
  (∀ b, r = Ok b → append_observation o self' = (Ok false, self')) ∧
  (∀ e, r = Raise e → self' = self).
Proof.
  intros Hreach Hrun.
  assert (Hok : ledger_ok self).
  { clear Hrun. remember empty_ledger as s0 eqn:E. assert (ledger_ok s0) as H0 by (subst; apply empty_ok).
    clear E. induction Hreach as [|s1 s2 s3 [q r' t t' Hs] _ IH]; [done|]. apply IH. by eapply append_ok. }
  destruct (append_ok _ _ _ _ Hok Hrun) as [Hok' _].
  assert (Hagain : ∀ s, ledger_ok s → last (read (ob_work_item_id o) s) = Some o →
    append_observation o s = (Ok false, s)).
  { intros s Hs Hl. assert (o ∈ read (ob_work_item_id o) s) as Hin.
    { apply last_Some in Hl as [l' ->]. set_solver. }
    unfold append_observation. run_unfold.
    rewrite (lo_indexed s Hs _ o Hin), bool_decide_eq_false_2 by auto. cbn.
    fold (read (ob_work_item_id o) s). rewrite Hl. cbn.
    rewrite (proj2 (check_continuity_false o o) eq_refl). cbn.
    rewrite (read_insert _ _ _ Hl). by destruct s. }
  destruct (observation_append_cases o self r self' Hok Hrun)
    as [(e & -> & ->)|[(-> & -> & Hl)|(-> & Hid & Hlast & ->)]].
  - by split.
  - split; [|done]. intros b _. by apply Hagain.
  - split; [|done]. intros b _. apply Hagain; [done|].
    rewrite read_insert_rows, decide_True by done. apply last_snoc.
Qed.

Module ObservationExample.
Definition observation (id : string) (sequence time : Z) : RelationalObservation :=
  mkObservation ("observation:" +:+ id) "run:1" "work_item:1" sequence Pending "source:graph"
    (canonical_digest (JStr "evidence")) time.
Definition two : InMemoryObservationLedger :=
  mkObservations {["work_item:1" := [observation "0" 0 5; observation "1" 1 5]]}
    {["observation:0" := observation "0" 0 5; "observation:1" := observation "1" 1 5]}.

Lemma two_reachable : rtc observation_step empty_ledger two.
Proof.
  eapply rtc_l; [|eapply rtc_once].
  - apply (step_append (observation "0" 0 5) (Ok true) _ (mkObservations {["work_item:1" := [observation "0" 0 5]]}
      {["observation:0" := observation "0" 0 5]})). by_compute.
  - apply (step_append (observation "1" 1 5) (Ok true)). by_compute.
Qed.

Example time_regression_refused :
  append_observation (observation "2" 2 4) two =
  (Raise (ObservationDiscontinuityError "observation_time_regressed"), two).
Proof. by_compute. Qed.
End ObservationExample.

Lemma observation_ledger_monotonic_witness :
  StronglySorted follows (read "work_item:1" ObservationExample.two).
Proof.
  apply (observation_ledger_monotonic ObservationExample.two ObservationExample.two "work_item:1"
    ObservationExample.two_reachable (rtc_refl _ _)).
Defined.

Lemma observation_append_idempotent_witness :
  append_observation (ObservationExample.observation "1" 1 5) ObservationExample.two =
  (Ok false, ObservationExample.two).
Proof.
  apply (proj1 (observation_append_idempotent ObservationExample.two (ObservationExample.observation "1" 1 5)
    (Ok false) ObservationExample.two ObservationExample.two_reachable ltac:(by_compute)) false eq_refl).
Defined.
