(* ===== verification/Admission.v ===== *)
(** One-run/one-work-item admission: [InMemoryNativeAdmission] of
    [arbora/control_plane/runs/admission.py], on top of the run models, the
    audit chain and an authorization verifier, for which the policy authority
    is an instance.

    [admit_once] reads the clock at most twice: the two readings are its
    arguments. The receiver of a request is handed a validated model, so the
    theorems are about requests that [validate_NativeAdmissionRequest] accepts. *)
From S2P Require Export PolicyAuthority RunModels AuditLog.
Local Open Scope Z_scope.

Definition NativeAdmissionError (code : string) : pyexn :=
  PyExn ["NativeAdmissionError"; "ValueError"] code "".
Definition ReplayDriftError (code : string) : pyexn :=
  PyExn ["ReplayDriftError"; "NativeAdmissionError"; "ValueError"] code "".

(** The [ResolvedAuthorizationVerifier] protocol, and the policy authority as
    an implementation of it. *)
Class ResolvedAuthorizationVerifier (V : Type) :=
  verify_resolved : V → PolicyAuthorization → Z → result ().

#[export] Instance policy_authority_verifier {R S} `{PolicyRepository R, SignatureVerifier S} :
  ResolvedAuthorizationVerifier (PolicyAuthority R S) :=
  λ self authorization now, verify_authorization self authorization (Some now) now.

Record InMemoryNativeAdmission (V : Type) := mkAdmission {
  audit : option AuditChain;
  authorization_verifier : option V;
  records : gmap string RunRecord;
  work_items : gmap string string }.
Arguments mkAdmission {V} _ _ _ _.
Arguments audit {V} _.
Arguments authorization_verifier {V} _.
Arguments records {V} _.
Arguments work_items {V} _.

Section admission.
Context {V : Type} `{ResolvedAuthorizationVerifier V}.
Implicit Types self : InMemoryNativeAdmission V.

(** [_receipt] *)
Definition receipt (record : RunRecord) (created : bool) : result AdmissionReceipt :=
  run_id ← res_run_id (rec_resolution record);
  let r := mkReceipt run_id (wi_work_item_id (rec_work_item record))
             (resolution_digest (rec_resolution record)) (work_item_digest (rec_work_item record))
             created in
  _ ← validate_AdmissionReceipt r;
  Ok r.

Definition replay_receipt self (run_id : string) (request : NativeAdmissionRequest) :
    result (option AdmissionReceipt) :=
  match records self !! run_id with
  | None => Ok None
  | Some existing =>
      _ ← raise_if (bool_decide (rec_resolution existing ≠ adm_resolution request) ||
                    bool_decide (rec_work_item existing ≠ adm_work_item request))
            (ReplayDriftError "replay_or_body_drift");
      r ← receipt existing false;
      Ok (Some r)
  end.

Definition ensure_work_item_available self (work_item_id : string) : result () :=
  raise_if (bool_decide (work_items self !! work_item_id ≠ None))
    (NativeAdmissionError "work_item_identity_conflict").

Definition verify_request_authorization self (request : NativeAdmissionRequest) (clock : Z) : result () :=
  match authorization_verifier self with
  | None => Ok ()
  | Some v =>
      match verify_resolved v (res_authorization (adm_resolution request)) clock with
      | Ok _ => Ok ()
      | Raise _ => Raise (NativeAdmissionError "authorization_stale_or_invalid")
      end
  end.

Definition ensure_audit_capacity self : result () :=
  match audit self with
  | None => Ok ()
  | Some chain =>
      _ ← match require_valid chain with
          | Raise e => if isinstance e "AuditDiscontinuityError"
                       then Raise (NativeAdmissionError "audit_discontinuity") else Raise e
          | ok => ok
          end;
      raise_if (negb (can_append 2 chain)) (NativeAdmissionError "audit_capacity_exceeded")
  end.

(** A call on the audit object. *)
Definition on_audit {A} (chain : AuditChain) (m : M AuditChain A) :
    M (InMemoryNativeAdmission V) (A * AuditChain) := λ self,
  let '(r, chain') := m chain in
  (match r with Ok a => Ok (a, chain') | Raise e => Raise e end,
   mkAdmission (Some chain') (authorization_verifier self) (records self) (work_items self)).

Definition append_audit (request : NativeAdmissionRequest) (now : Z) :
    M (InMemoryNativeAdmission V) (list string) :=
  self ← get_state;
  match audit self with
  | None => mret []
  | Some chain =>
      run_id ← lift (res_run_id (adm_resolution request));
      '(run_event, chain) ← on_audit chain (append "run.admitted" run_id
        (resolution_digest (adm_resolution request)) now);
      '(item_event, _) ← on_audit chain (append "work_item.admitted"
        (wi_work_item_id (adm_work_item request)) (work_item_digest (adm_work_item request)) now);
      mret [ev_event_id run_event; ev_event_id item_event]
  end.

Definition admit_once (request : NativeAdmissionRequest) (clock now : Z) :
    M (InMemoryNativeAdmission V) AdmissionReceipt :=
  self ← get_state;
  run_id ← lift (res_run_id (adm_resolution request));
  let work_item_id := wi_work_item_id (adm_work_item request) in
  replay ← lift (replay_receipt self run_id request);
  match replay with
  | Some r => mret r
  | None =>
      _ ← lift (ensure_work_item_available self work_item_id);
      _ ← lift (verify_request_authorization self request clock);
      _ ← lift (ensure_audit_capacity self);
      audit_ids ← append_audit request now;
      let record := mkRunRecord (adm_resolution request) (adm_work_item request) audit_ids in
      _ ← lift (validate_RunRecord record);
      _ ← modify (λ self, mkAdmission (audit self) (authorization_verifier self)
            (<[run_id := record]> (records self)) (<[work_item_id := run_id]> (work_items self)));
      lift (receipt record true)
  end.

Definition read_run (run_id : string) self : option RunRecord := records self !! run_id.
End admission.

(** * Facts *)

Lemma audit_id_StableId v : StableId (event_id_of (canonical_digest v)) = true.
Proof.
  apply (digest_id_StableId "audit:"). eexists _, _. split; [reflexivity|]. split; [done|].
  split; [by repeat constructor|cbn; lia].
Qed.

Lemma validate_event s i k r d p h t :
  0 ≤ s → StableId i = true → StableId k = true → OpaqueRef r = true → Digest d = true →
  Digest p = true → Digest h = true → 0 ≤ t → validate_AuditEvent (mkAuditEvent s i k r d p h t) = Ok ().
Proof.
  intros Hs H1 H2 H3 H4 H5 H6 Ht. unfold validate_AuditEvent. cbn -[check_field Timestamp].
  assert (Timestamp s = true ∧ Timestamp t = true) as [-> ->] by (unfold Timestamp; lia).
  by rewrite H1, H2, H3, H4, H5, H6.
Qed.

Lemma head_hash_Digest es : verify_from 0 GENESIS_HASH es = true → Digest (head_hash es) = true.
Proof.
  intros Hv. unfold head_hash. destruct (last es) as [l|] eqn:El; [|apply canonical_digest_Digest].
  apply last_Some in El as [es' El]. rewrite El in Hv.
  apply verify_from_app in Hv as (_ & _ & _ & -> & _). apply canonical_digest_Digest.
Qed.

Lemma next_event_valid es kind subject digest t :
  verify_from 0 GENESIS_HASH es = true →
  StableId kind = true → OpaqueRef subject = true → Digest digest = true → 0 ≤ t →
  validate_AuditEvent (next_event es kind subject digest t) = Ok ().
Proof.
  intros Hv Hk Hs Hd Ht. unfold next_event.
  apply validate_event; [lia|apply audit_id_StableId|exact Hk|exact Hs|exact Hd|
    by apply head_hash_Digest|apply canonical_digest_Digest|exact Ht].
Qed.

Lemma next_event_id es kind subject digest t :
  StableId (ev_event_id (next_event es kind subject digest t)) = true.
Proof. unfold next_event. cbn [ev_event_id]. apply audit_id_StableId. Qed.

(** A verified chain takes any well-formed event while it has room. *)
Lemma append_total kind subject digest t chain :
  verify chain = true → Z.of_nat (length (events chain)) + 1 ≤ max_events chain →
  StableId kind = true → OpaqueRef subject = true → Digest digest = true → 0 ≤ t →
  append kind subject digest t chain =
  (Ok (next_event (events chain) kind subject digest t),
   mkChain (max_events chain) (events chain ++ [next_event (events chain) kind subject digest t])).
Proof.
  intros Hv Hlen Hk Hs Hd Ht.
  assert (Hc : can_append 1 chain = true) by (unfold can_append; apply andb_true_iff; split; lia).
  pose proof (next_event_valid (events chain) kind subject digest t Hv Hk Hs Hd Ht) as Hval.
  unfold append. apply M_bind_ok. exists chain, chain. split; [reflexivity|].
  rewrite Hv, Hc. apply M_bind_ok. exists (), chain. split; [reflexivity|].
  apply M_bind_ok. exists (), chain. split; [reflexivity|].
  apply M_bind_ok. exists (), chain. split; [unfold lift; by rewrite Hval|reflexivity].
Qed.

(** What validation of a request establishes about its identities. *)
Definition request_run (request : NativeAdmissionRequest) : string :=
  digest_id "run:" (admission_key_json (res_tenant_ref (adm_resolution request))
                      (res_idempotency_key (adm_resolution request))).

Lemma valid_request request :
  validate_NativeAdmissionRequest request = Ok () →
  validate_RunResolution (adm_resolution request) = Ok () ∧
  validate_NativeWorkItemAdmission (adm_work_item request) = Ok () ∧
  res_run_id (adm_resolution request) = Ok (request_run request) ∧
  wi_work_item_id (adm_work_item request) = digest_id "work_item:" (JStr (request_run request)) ∧
  wi_resolution_digest (adm_work_item request) = resolution_digest (adm_resolution request).
Proof.
  unfold validate_NativeAdmissionRequest. intros Hok. guards.
  unfold run_and_item_are_one_pair in Hok. guards.
  split; [done|]. split; [done|].
  match goal with H : res_run_id _ = Ok ?x |- _ =>
    pose proof (deterministic_admission_id_ok _ _ _ H) as Hx; rewrite H, Hx end.
  split; [done|].
  match goal with H : validate_NativeWorkItemAdmission _ = Ok () |- _ =>
    unfold validate_NativeWorkItemAdmission, identity_is_deterministic in H; guards end.
  match goal with H : native_work_item_id _ = Ok _ |- _ => apply native_work_item_id_ok in H end.
  split; [|done]. unfold request_run. congruence.
Qed.

Lemma validate_receipt run item d1 d2 created :
  StableId run = true → StableId item = true → Digest d1 = true → Digest d2 = true →
  validate_AdmissionReceipt (mkReceipt run item d1 d2 created) = Ok ().
Proof.
  intros H1 H2 H3 H4. unfold validate_AdmissionReceipt. cbn -[check_field]. by rewrite H1, H2, H3, H4.
Qed.

Lemma receipt_total request created ids :
  validate_NativeAdmissionRequest request = Ok () →
  receipt (mkRunRecord (adm_resolution request) (adm_work_item request) ids) created =
  Ok (mkReceipt (request_run request) (wi_work_item_id (adm_work_item request))
        (resolution_digest (adm_resolution request)) (work_item_digest (adm_work_item request)) created).
Proof.
  intros (_ & _ & Hrun & Hitem & _)%valid_request. unfold receipt. cbn [rec_resolution rec_work_item].
  apply result_bind_ok. exists (request_run request). split; [exact Hrun|].
  apply result_bind_ok. exists (). split; [|reflexivity].
  apply validate_receipt; [apply run_id_StableId| |apply canonical_digest_Digest..].
  rewrite Hitem. apply work_item_id_StableId.
Qed.

Section facts.
Context {V : Type} `{ResolvedAuthorizationVerifier V}.
Implicit Types self : InMemoryNativeAdmission V.

(** The two events of an admission. *)
Definition run_event (request : NativeAdmissionRequest) (now : Z) (es : list AuditEvent) : AuditEvent :=
  next_event es "run.admitted" (request_run request) (resolution_digest (adm_resolution request)) now.
Definition item_event (request : NativeAdmissionRequest) (now : Z) (es : list AuditEvent) : AuditEvent :=
  next_event (es ++ [run_event request now es]) "work_item.admitted"
    (wi_work_item_id (adm_work_item request)) (work_item_digest (adm_work_item request)) now.

Definition audited (request : NativeAdmissionRequest) (now : Z) (a : option AuditChain) :
    option AuditChain * list string :=
  match a with
  | None => (None, [])
  | Some c =>
      let e1 := run_event request now (events c) in
      let e2 := item_event request now (events c) in
      (Some (mkChain (max_events c) (events c ++ [e1; e2])), [ev_event_id e1; ev_event_id e2])
  end.

(** There is room for both events on a chain that verifies. *)
Definition audit_ready (a : option AuditChain) : Prop :=
  match a with
  | None => True
  | Some c => verify c = true ∧ Z.of_nat (length (events c)) + 2 ≤ max_events c
  end.

Lemma ensure_audit_capacity_ok self : ensure_audit_capacity self = Ok () ↔ audit_ready (audit self).
Proof.
  unfold ensure_audit_capacity, audit_ready, require_valid. destruct (audit self) as [c|]; [|done].
  destruct (verify c); cbn -[can_append]; [|split; [done|by intros [? _]]].
  destruct (can_append 2 c) eqn:E; unfold can_append in E; cbn.
  - apply andb_true_iff in E as [_ E%Z.leb_le]. done.
  - split; [done|]. intros [_ ?]. apply andb_false_iff in E as [E|E%Z.leb_gt]; [done|lia].
Qed.

Lemma append_audit_ok request now self :
  validate_NativeAdmissionRequest request = Ok () → 0 ≤ now → audit_ready (audit self) →
  append_audit request now self =
    (Ok (audited request now (audit self)).2,
     mkAdmission (audited request now (audit self)).1 (authorization_verifier self)
       (records self) (work_items self)) ∧
  Forall (λ i, StableId i = true) (audited request now (audit self)).2.
Proof.
  intros (_ & _ & Hrun & Hitem & _)%valid_request Hnow Hready. unfold append_audit, audited.
  destruct (audit self) as [c|] eqn:Ea.
  2:{ run_unfold. rewrite Ea. split; [destruct self; cbn in *; by subst|constructor]. }
  destruct Hready as [Hv Hlen].
  assert (Happ1 := append_total "run.admitted" (request_run request)
    (resolution_digest (adm_resolution request)) now c).
  lapply Happ1; [clear Happ1; intros Happ1|done]. lapply Happ1; [clear Happ1; intros Happ1|lia].
  specialize (Happ1 ltac:(by vm_compute) (StableId_OpaqueRef _ (run_id_StableId _))
    (canonical_digest_Digest _) Hnow).
  fold (run_event request now (events c)) in Happ1.
  set (c1 := mkChain (max_events c) (events c ++ [run_event request now (events c)])) in *.
  assert (Hitem' : OpaqueRef (wi_work_item_id (adm_work_item request)) = true).
  { rewrite Hitem. apply StableId_OpaqueRef, work_item_id_StableId. }
  assert (Hv1 : verify c1 = true) by (by apply next_event_verifies).
  assert (Hlen1 : Z.of_nat (length (events c1)) + 1 ≤ max_events c1).
  { cbn [c1 events max_events]. rewrite length_app. cbn [length]. lia. }
  assert (Happ2 := append_total "work_item.admitted" (wi_work_item_id (adm_work_item request))
    (work_item_digest (adm_work_item request)) now c1 Hv1 Hlen1 ltac:(by vm_compute) Hitem'
    (canonical_digest_Digest _) Hnow).
  cbn [c1 events] in Happ2. fold (item_event request now (events c)) in Happ2.
  split; [|constructor; [apply next_event_id|constructor; [apply next_event_id|constructor]]].
  run_unfold. unfold on_audit. rewrite Ea, Hrun, Happ1. rewrite Happ2. by rewrite <- app_assoc.
Qed.

Lemma verify_request_ok self request clock :
  verify_request_authorization self request clock = Ok () ↔
  ∀ v, authorization_verifier self = Some v →
    ∃ u, verify_resolved v (res_authorization (adm_resolution request)) clock = Ok u.
Proof.
  unfold verify_request_authorization. destruct (authorization_verifier self) as [v|]; [|by split].
  destruct (verify_resolved v _ clock) as [u|e] eqn:E; split; try done.
  - intros _ ? [= <-]. by exists u.
  - intros Hv. destruct (Hv v eq_refl) as [u Hu]. congruence.
Qed.

(** A fresh admission: what it writes. *)
Definition admitted (request : NativeAdmissionRequest) (now : Z) self : InMemoryNativeAdmission V :=
  mkAdmission (audited request now (audit self)).1 (authorization_verifier self)
    (<[request_run request :=
       mkRunRecord (adm_resolution request) (adm_work_item request) (audited request now (audit self)).2]>
       (records self))
    (<[wi_work_item_id (adm_work_item request) := request_run request]> (work_items self)).

Definition receipt_of (request : NativeAdmissionRequest) (created : bool) : AdmissionReceipt :=
  mkReceipt (request_run request) (wi_work_item_id (adm_work_item request))
    (resolution_digest (adm_resolution request)) (work_item_digest (adm_work_item request)) created.

Definition replay_of (request : NativeAdmissionRequest) (existing : RunRecord) : Prop :=
  rec_resolution existing = adm_resolution request ∧ rec_work_item existing = adm_work_item request.

(** The complete behaviour of [admit_once] on valid requests. *)
Lemma admit_once_cases request clock now self :
  validate_NativeAdmissionRequest request = Ok () → 0 ≤ now →
  match records self !! request_run request with
  | Some existing =>
      (replay_of request existing ∧ admit_once request clock now self = (Ok (receipt_of request false), self)) ∨
      (¬ replay_of request existing ∧
       admit_once request clock now self = (Raise (ReplayDriftError "replay_or_body_drift"), self))
  | None =>
      (work_items self !! wi_work_item_id (adm_work_item request) = None ∧
       verify_request_authorization self request clock = Ok () ∧ audit_ready (audit self) ∧
       admit_once request clock now self = (Ok (receipt_of request true), admitted request now self)) ∨
      (∃ e, isinstance e "NativeAdmissionError" = true ∧
       admit_once request clock now self = (Raise e, self) ∧
       (work_items self !! wi_work_item_id (adm_work_item request) ≠ None ∨
        verify_request_authorization self request clock ≠ Ok () ∨ ¬ audit_ready (audit self)))
  end.
Proof.
  intros Hval Hnow. destruct (valid_request request Hval) as (Hres & Hitem & Hrun & _).
  unfold admit_once. run_unfold. rewrite Hrun. unfold replay_receipt.
  destruct (records self !! request_run request) as [[res item ids]|] eqn:E.
  { destruct (decide (res = adm_resolution request ∧ item = adm_work_item request)) as [[-> ->]|Hne].
    - left. split; [done|]. cbn [rec_resolution rec_work_item].
      rewrite !bool_decide_eq_false_2 by auto. cbn [orb raise_if mbind result_bind mret result_ret].
      by rewrite receipt_total.
    - right. split; [done|]. cbn [rec_resolution rec_work_item].
      assert (bool_decide (res ≠ adm_resolution request) || bool_decide (item ≠ adm_work_item request) = true)
        as ->; [|done].
      apply orb_true_iff. rewrite !bool_decide_eq_true.
      destruct (decide (res = adm_resolution request)); [right|by left]. intros ->. by apply Hne. }
  unfold ensure_work_item_available. case_bool_decide as Hi.
  { right. exists (NativeAdmissionError "work_item_identity_conflict").
    split; [reflexivity|]. split; [reflexivity|by left]. }
  cbn [raise_if mret result_ret].
  destruct (verify_request_authorization self request clock) as [[]|e] eqn:Ev.
  2:{ right. exists e. split; [|split; [done|right; by left]].
      unfold verify_request_authorization in Ev. destruct (authorization_verifier self) as [v|]; [|done].
      destruct (verify_resolved v _ clock); [done|]. by injection Ev as <-. }
  destruct (ensure_audit_capacity self) as [[]|e] eqn:Ec.
  2:{ right. exists e. split; [|split; [done|right; right]].
      - unfold ensure_audit_capacity, require_valid in Ec. destruct (audit self) as [c|]; [|done].
        destruct (verify c); cbn -[can_append] in Ec; [|by injection Ec as <-].
        destruct (can_append 2 c); [done|]. by injection Ec as <-.
      - intros Hr%ensure_audit_capacity_ok. congruence. }
  apply ensure_audit_capacity_ok in Ec. left. split; [done|]. split; [done|]. split; [done|].
  destruct (append_audit_ok request now self Hval Hnow Ec) as [-> Hids].
  assert (validate_RunRecord (mkRunRecord (adm_resolution request) (adm_work_item request)
    (audited request now (audit self)).2) = Ok ()) as ->.
  { unfold validate_RunRecord. cbn [rec_resolution rec_work_item rec_audit_event_ids]. rewrite Hres, Hitem.
    assert (forallb StableId (audited request now (audit self)).2 = true) as ->; [|done].
    apply forallb_forall. intros i Hi'%list_elem_of_In. rewrite Forall_forall in Hids. exact (Hids i Hi'). }
  cbn [mret M_ret]. by rewrite receipt_total.
Qed.
End facts.

Section invariants.
Context {V : Type} `{ResolvedAuthorizationVerifier V}.
Implicit Types self : InMemoryNativeAdmission V.

Inductive admission_step : InMemoryNativeAdmission V → InMemoryNativeAdmission V → Prop :=
  | step_admit request clock now r self self' :
      validate_NativeAdmissionRequest request = Ok () → 0 ≤ now →
      admit_once request clock now self = (r, self') → admission_step self self'.

(** A step changes nothing or is a fresh admission. *)
Lemma step_cases self self' :
  admission_step self self' → self' = self ∨
  ∃ request now, validate_NativeAdmissionRequest request = Ok () ∧
    records self !! request_run request = None ∧
    work_items self !! wi_work_item_id (adm_work_item request) = None ∧
    audit_ready (audit self) ∧ self' = admitted request now self.
Proof.
  intros [request clock now r s s' Hval Hnow Hrun].
  pose proof (admit_once_cases request clock now s Hval Hnow) as Hc. rewrite Hrun in Hc.
  destruct (records s !! request_run request) as [ex|] eqn:E.
  - left. destruct Hc as [[_ E']|[_ E']]; by injection E' as _ ->.
  - destruct Hc as [(Hi & _ & Ha & E')|(e & _ & E' & _)]; injection E' as _ ->; [right|by left].
    by exists request, now.
Qed.

(** Records are never replaced. *)
Lemma records_grow self self' run record :
  rtc admission_step self self' → records self !! run = Some record → records self' !! run = Some record.
Proof.
  induction 1 as [|s1 s2 s3 Hs _ IH]; intros Hr; [done|]. apply IH.
  destruct (step_cases _ _ Hs) as [->|(request & now & _ & Hn & _ & _ & ->)]; [done|].
  cbn. rewrite lookup_insert_ne; [done|]. intros E. rewrite E in Hn. congruence.
Qed.

(** The audit log names a record's admission: two events, in order, over the
    digests of its resolution and of its work item. *)
Definition audited_record (es : list AuditEvent) (run : string) (record : RunRecord) : Prop :=
  ∃ e1 e2, e1 ∈ es ∧ e2 ∈ es ∧ rec_audit_event_ids record = [ev_event_id e1; ev_event_id e2] ∧
    ev_kind e1 = "run.admitted" ∧ ev_subject_ref e1 = run ∧
    ev_payload_digest e1 = resolution_digest (rec_resolution record) ∧
    ev_kind e2 = "work_item.admitted" ∧ ev_subject_ref e2 = wi_work_item_id (rec_work_item record) ∧
    ev_payload_digest e2 = work_item_digest (rec_work_item record).

Record admission_ok self : Prop := {
  ao_run run record : records self !! run = Some record →
    res_run_id (rec_resolution record) = Ok run ∧
    validate_RunResolution (rec_resolution record) = Ok () ∧
    work_items self !! wi_work_item_id (rec_work_item record) = Some run;
  ao_item item run : work_items self !! item = Some run →
    ∃ record, records self !! run = Some record ∧ wi_work_item_id (rec_work_item record) = item;
  ao_audit chain : audit self = Some chain →
    verify chain = true ∧
    ∀ run record, records self !! run = Some record → audited_record (events chain) run record }.

Lemma audited_record_mono es es' run record :
  audited_record es run record → audited_record (es ++ es') run record.
Proof. intros (e1 & e2 & H1 & H2 & ?). exists e1, e2. set_solver. Qed.

Lemma admitted_ok request now self :
  admission_ok self → validate_NativeAdmissionRequest request = Ok () →
  records self !! request_run request = None →
  work_items self !! wi_work_item_id (adm_work_item request) = None →
  audit_ready (audit self) → admission_ok (admitted request now self).
Proof.
  intros [Hrun Hitem Haudit] Hval Hnr Hni Hready.
  destruct (valid_request request Hval) as (Hres & _ & Hid & _). split.
  - intros run record. cbn. intros [[<- <-]|[Hne Hr]]%lookup_insert_Some; cbn.
    + by rewrite lookup_insert_eq.
    + destruct (Hrun run record Hr) as (? & ? & Hw). split; [done|]. split; [done|].
      rewrite lookup_insert_ne; [done|]. intros E. rewrite <- E in Hw. congruence.
  - intros item run. cbn. intros [[<- <-]|[Hne Hr]]%lookup_insert_Some.
    + rewrite lookup_insert_eq. eexists. split; reflexivity.
    + destruct (Hitem item run Hr) as (record & Hrec & Hw). exists record. split; [|done].
      rewrite lookup_insert_ne; [done|]. intros E. rewrite <- E in Hrec. congruence.
  - intros chain. cbn. destruct (audit self) as [c|] eqn:Ea; [|done]. cbn. intros [= <-].
    destruct (Haudit c eq_refl) as [Hv Hall]. split.
    + unfold verify. cbn [events].
      change [run_event request now (events c); item_event request now (events c)] with
        ([run_event request now (events c)] ++ [item_event request now (events c)]).
      rewrite app_assoc. by apply next_event_verifies, next_event_verifies.
    + cbn [events]. intros run record [[<- <-]|[_ Hr]]%lookup_insert_Some;
        [|by apply audited_record_mono, Hall].
      exists (run_event request now (events c)), (item_event request now (events c)).
      split; [apply elem_of_app; right; constructor|].
      split; [apply elem_of_app; right; apply list_elem_of_further, list_elem_of_here|]. repeat split; reflexivity.
Qed.

Lemma steps_ok self self' : rtc admission_step self self' → admission_ok self → admission_ok self'.
Proof.
  induction 1 as [|s1 s2 s3 Hs _ IH]; intros Hok; [done|]. apply IH.
  destruct (step_cases _ _ Hs) as [->|(request & now & Hv & Hn & Hi & Ha & ->)]; [done|].
  by apply admitted_ok.
Qed.

(** A new admission object, over an audit chain that verifies or none. *)
Lemma new_ok (a : option AuditChain) (v : option V) :
  (∀ c, a = Some c → verify c = true) → admission_ok (mkAdmission a v ∅ ∅).
Proof.
  intros Ha. split; cbn; [by intros ? ? ?%lookup_empty_Some..|].
  intros chain E. split; [by apply Ha|]. by intros ? ? ?%lookup_empty_Some.
Qed.

(** * Properties *)

(** C15: Admission is total and atomic on validated requests: the first
    delivery of an identity writes the run, its work item and its two audit
    events together, provided the work item is free, the authorization
    verifies and the audit chain has room; otherwise it raises a
    [NativeAdmissionError] and changes nothing. A repeated identity never
    writes: the same body is answered from the record, another one is drift. *)
Theorem admit_once_outcomes request clock now self :
  validate_NativeAdmissionRequest request = Ok () → 0 ≤ now →
  match records self !! request_run request with
  | Some existing =>
      (replay_of request existing ∧ admit_once request clock now self = (Ok (receipt_of request false), self)) ∨
      (¬ replay_of request existing ∧
       admit_once request clock now self = (Raise (ReplayDriftError "replay_or_body_drift"), self))
  | None =>
      (work_items self !! wi_work_item_id (adm_work_item request) = None ∧
       verify_request_authorization self request clock = Ok () ∧ audit_ready (audit self) ∧
       admit_once request clock now self = (Ok (receipt_of request true), admitted request now self)) ∨
      (∃ e, isinstance e "NativeAdmissionError" = true ∧
       admit_once request clock now self = (Raise e, self) ∧
       (work_items self !! wi_work_item_id (adm_work_item request) ≠ None ∨
        verify_request_authorization self request clock ≠ Ok () ∨ ¬ audit_ready (audit self)))
  end.
Proof. apply admit_once_cases. Qed.

(** Delivery is idempotent: once a request has been admitted, delivering it
    again after any other admissions, at any time, returns the receipt of the
    existing run with [created] false and changes nothing, even if the
    authorization has expired or the audit chain is full. *)
Theorem admit_once_idempotent request clock now s0 r s1 s2 :
  validate_NativeAdmissionRequest request = Ok () → 0 ≤ now →
  admit_once request clock now s0 = (Ok r, s1) → rtc admission_step s1 s2 →
  ∀ clock' now', 0 ≤ now' → admit_once request clock' now' s2 = (Ok (receipt_of request false), s2).
Proof.
  intros Hval Hnow Hrun Hsteps clock' now' Hnow'.
  assert (Hrec : ∃ ex, records s1 !! request_run request = Some ex ∧ replay_of request ex).
  { pose proof (admit_once_cases request clock now s0 Hval Hnow) as Hc. rewrite Hrun in Hc.
    destruct (records s0 !! request_run request) as [ex|] eqn:E.
    - destruct Hc as [[Hr E']|[_ E']]; [|done]. injection E' as _ ->. by exists ex.
    - destruct Hc as [(_ & _ & _ & E')|(e & _ & E' & _)]; [|done]. injection E' as _ ->.
      cbn [records admitted]. rewrite lookup_insert_eq. eexists. split; [reflexivity|]. split; reflexivity. }
  destruct Hrec as (ex & Hex & Hrep). apply (records_grow _ s2) in Hex; [|done].
  pose proof (admit_once_cases request clock' now' s2 Hval Hnow') as Hc. rewrite Hex in Hc.
  destruct Hc as [[_ E]|[Hne _]]; [done|by destruct Hne].
Qed.

(** C36: One run, one work item: in every state reached from a new admission
    object, the records and the work-item index are inverse to each other, a
    record is filed under the identity of its own validated resolution, and if
    there is an audit chain it verifies and holds the record's two admission
    events over its resolution and work-item digests. *)
Theorem one_run_one_work_item a (v : option V) self :
  (∀ c, a = Some c → verify c = true) → rtc admission_step (mkAdmission a v ∅ ∅) self →
  admission_ok self.
Proof. intros Ha Hsteps. eapply steps_ok; [done|]. by apply new_ok. Qed.
End invariants.

Section permission.
Context {R S : Type} `{PolicyRepository R, SignatureVerifier S}.

(** C6: No run without permission: with the policy authority as verifier, a
    run is created only if its resolution stays inside its authorization and
    the exact policy of the authorization, resolved at the admission instant,
    permits the operation with the evidence on record. *)
Theorem admission_requires_permission request clock now (self : InMemoryNativeAdmission (PolicyAuthority R S))
    authority r self' :
  validate_NativeAdmissionRequest request = Ok () → 0 ≤ now →
  records self !! request_run request = None → authorization_verifier self = Some authority →
  admit_once request clock now self = (Ok r, self') →
  let auth := res_authorization (adm_resolution request) in
  within_authorization (adm_resolution request) ∧
  ∃ p rule a x,
    repo_get (pr_policy_id (au_policy_ref auth)) (pr_version (au_policy_ref auth))
      (repository authority) = Some p ∧
    policy_digest p = pr_digest (au_policy_ref auth) ∧
    recorded_evidence authority auth a x ∧
    permits authority p rule (au_operation auth) (au_request_digest auth) (au_bindings auth)
      (au_budget auth) a x clock.
Proof.
  intros Hval Hnow Hfresh Hv Hrun auth.
  split; [by apply accepted_within, (valid_request request Hval)|].
  pose proof (admit_once_cases request clock now self Hval Hnow) as Hc. rewrite Hfresh, Hrun in Hc.
  destruct Hc as [(_ & Hver & _)|(e & _ & E & _)]; [|done].
  destruct (proj1 (verify_request_ok self request clock) Hver authority Hv) as [[] Hok].
  unfold verify_resolved, policy_authority_verifier in Hok.
  by apply verify_authorization_iff in Hok.
Qed.
End permission.

(** * A concrete admission, verified by the policy authority of [PolicyExample] *)
Module AdmissionExample.
#[local] Notation Authority := (PolicyAuthority InMemoryPolicyRepository ExactSignatureVerifier).

Definition resolution : RunResolution :=
  mkResolution "tenant:acme" "request-7" PolicyExample.request PolicyExample.granted
    (mkJob "job:report" "1.0.0" (canonical_digest (JStr "job")))
    [mkTask "publish" "job:report" "1.0.0" (canonical_digest (JStr "publish")) ["collect"];
     mkTask "collect" "job:report" "1.0.0" (canonical_digest (JStr "collect")) []]
    [mkToolBinding PolicyExample.binding] [] (mkTrace "trace:1" (canonical_digest (JStr "trace"))) [].
Definition run_id : string := digest_id "run:" (admission_key_json "tenant:acme" "request-7").
Definition request : NativeAdmissionRequest :=
  mkAdmissionRequest resolution
    (mkWorkItem run_id (digest_id "work_item:" (JStr run_id)) "tenant:acme" "request-7" "run.execute"
       "payload:1" (canonical_digest (JStr "payload")) PolicyExample.request
       (resolution_digest resolution) []).
Definition empty : InMemoryNativeAdmission Authority :=
  mkAdmission (Some (mkChain 4 [])) (Some PolicyExample.authority') ∅ ∅.

Lemma request_valid : validate_NativeAdmissionRequest request = Ok ().
Proof. by_compute. Qed.

#[export] Instance admission_eq_dec : EqDecision (InMemoryNativeAdmission Authority).
Proof. solve_decision. Defined.

Lemma admit_ok :
  admit_once request 200 200 empty = (Ok (receipt_of request true), admitted request 200 empty).
Proof. by_compute. Qed.

(** After the approval has expired the first delivery is refused, and the
    state is untouched. *)
Example expired_refused :
  admit_once request 500 500 empty =
  (Raise (NativeAdmissionError "authorization_stale_or_invalid"), empty).
Proof. by_compute. Qed.

Lemma admitted_reachable : rtc admission_step empty (admitted request 200 empty).
Proof.
  apply rtc_once, (step_admit request 200 200 (Ok (receipt_of request true)));
    [apply request_valid|done|apply admit_ok].
Qed.
End AdmissionExample.

Lemma admit_once_outcomes_witness :
  validate_NativeAdmissionRequest AdmissionExample.request = Ok () ∧
  match records (admitted AdmissionExample.request 200 AdmissionExample.empty)
          !! request_run AdmissionExample.request with
  | Some _ => True
  | None => False
  end ∧
  (let self := admitted AdmissionExample.request 200 AdmissionExample.empty in
   match records self !! request_run AdmissionExample.request with
   | Some existing =>
       (replay_of AdmissionExample.request existing ∧
        admit_once AdmissionExample.request 900 900 self = (Ok (receipt_of AdmissionExample.request false), self)) ∨
       (¬ replay_of AdmissionExample.request existing ∧
        admit_once AdmissionExample.request 900 900 self =
          (Raise (ReplayDriftError "replay_or_body_drift"), self))
   | None =>
       (work_items self !! wi_work_item_id (adm_work_item AdmissionExample.request) = None ∧
        verify_request_authorization self AdmissionExample.request 900 = Ok () ∧ audit_ready (audit self) ∧
        admit_once AdmissionExample.request 900 900 self =
          (Ok (receipt_of AdmissionExample.request true), admitted AdmissionExample.request 900 self)) ∨
       (∃ e, isinstance e "NativeAdmissionError" = true ∧
        admit_once AdmissionExample.request 900 900 self = (Raise e, self) ∧
        (work_items self !! wi_work_item_id (adm_work_item AdmissionExample.request) ≠ None ∨
         verify_request_authorization self AdmissionExample.request 900 ≠ Ok () ∨ ¬ audit_ready (audit self)))
   end).
Proof.
  split; [apply AdmissionExample.request_valid|]. split; [vm_compute; exact I|].
  apply admit_once_outcomes; [apply AdmissionExample.request_valid|lia].
Defined.

Lemma admit_once_idempotent_witness :
  admit_once AdmissionExample.request 900 900 (admitted AdmissionExample.request 200 AdmissionExample.empty) =
  (Ok (receipt_of AdmissionExample.request false),
   admitted AdmissionExample.request 200 AdmissionExample.empty).
Proof.
  apply (admit_once_idempotent AdmissionExample.request 200 200 AdmissionExample.empty
    (receipt_of AdmissionExample.request true) (admitted AdmissionExample.request 200 AdmissionExample.empty));
    [apply AdmissionExample.request_valid|lia|apply AdmissionExample.admit_ok|apply rtc_refl|lia].
Defined.

Lemma one_run_one_work_item_witness :
  admission_ok (admitted AdmissionExample.request 200 AdmissionExample.empty).
Proof.
  apply (one_run_one_work_item (Some (mkChain 4 [])) (Some PolicyExample.authority')).
  - by intros c [= <-].
  - apply AdmissionExample.admitted_reachable.
Defined.

Lemma admission_requires_permission_witness :
  within_authorization AdmissionExample.resolution.
Proof.
  refine (proj1 (admission_requires_permission AdmissionExample.request 200 200 AdmissionExample.empty
    PolicyExample.authority' _ _ AdmissionExample.request_valid _ _ _ AdmissionExample.admit_ok)); done.
Defined.
