(* ===== verification/WorkflowDomain.v ===== *)
(** The immutable workflow contracts of [arbora/control_plane/workflows/domain.py].

    One record per model with its validation and dump, as in [PolicyModels];
    the DAG measures [_graph_adjacency], [_topological_stats] and
    [_graph_stats]; and the canonical, order-independent form of a definition
    its identity digest is over. *)
From S2P Require Export Grammar Dag.
Local Open Scope Z_scope.

Definition ABSOLUTE_MAX_STEPS : Z := 256.
Definition ABSOLUTE_MAX_DEPTH : Z := 64.
Definition ABSOLUTE_MAX_FANOUT : Z := 32.
Definition ABSOLUTE_MAX_TOKENS : Z := 4000000.
Definition ABSOLUTE_MAX_SECONDS : Z := 86400.
Definition ABSOLUTE_MAX_COST_MICROS : Z := 10000000.

Inductive BindingKind := KAgent | KSkill | KTool | KPolicy | KDelegation.
#[export] Instance BindingKind_eq_dec : EqDecision BindingKind.
Proof. solve_decision. Defined.

Definition kind_str (k : BindingKind) : string :=
  match k with
  | KAgent => "agent" | KSkill => "skill" | KTool => "tool" | KPolicy => "policy"
  | KDelegation => "delegation"
  end.
#[export] Instance kind_str_inj : Inj (=) (=) kind_str.
Proof. by intros [] []. Qed.

(** ** Summaries *)
Definition validate_nonempty (value field_name : string) : result string :=
  _ ← raise_if (bool_decide (py_strip value = "")) (ValueError (field_name +:+ "_empty"));
  _ ← raise_if (bool_decide (value ≠ py_strip value)) (ValueError (field_name +:+ "_whitespace"));
  Ok value.

(** [ord(char) < 32 and char not in "\t"] for some character *)
Definition has_control_character (value : string) : bool :=
  existsb (λ c, (N_of_ascii c <? 32)%N && negb (N_of_ascii c =? 9)%N) (chars value).

Definition validate_summary (value : string) : result string :=
  value ← validate_nonempty value "summary";
  _ ← raise_if (bool_decide (256 < String.length value)%nat) (ValueError "summary_too_long");
  _ ← raise_if (has_control_character value) (ValueError "summary_control_character");
  _ ← raise_if (search_words ["argument"; "body"; "credential"; "password"; "payload"; "prompt";
                              "result"; "secret"; "token"] value)
        (ValueError "summary_sensitive_content");
  Ok value.

(** ** Bindings and contracts *)
Record ArtifactRef := mkArtifact { af_ref : string; af_digest : string }.
Definition validate_ArtifactRef (a : ArtifactRef) : result () :=
  _ ← check_field "ref" (OpaqueRef (af_ref a));
  check_field "digest" (Digest (af_digest a)).
Definition ArtifactRef_json (a : ArtifactRef) : json :=
  JObj [("ref", JStr (af_ref a)); ("digest", JStr (af_digest a))].

Record ApprovedBinding := mkBinding {
  ab_kind : BindingKind; ab_binding_id : string; ab_version : string; ab_digest : string }.

Definition binding_id_is_not_an_alias (value : string) : result () :=
  raise_if (has_char "@" value || bool_decide (casefold value ∈ ["latest"; "current"; "default"]))
    (ValueError "binding_alias_forbidden").

Definition validate_ApprovedBinding (b : ApprovedBinding) : result () :=
  _ ← check_field "binding_id" (StableId (ab_binding_id b));
  _ ← in_validator (binding_id_is_not_an_alias (ab_binding_id b));
  _ ← check_field "version" (SemVer (ab_version b));
  check_field "digest" (Digest (ab_digest b)).

Definition ApprovedBinding_json (b : ApprovedBinding) : json :=
  JObj [("kind", JStr (kind_str (ab_kind b))); ("binding_id", JStr (ab_binding_id b));
        ("version", JStr (ab_version b)); ("digest", JStr (ab_digest b))].

Record StepContract := mkContract {
  sc_contract_id : string; sc_input_schema : ArtifactRef; sc_output_schema : ArtifactRef;
  sc_input_artifacts : list ArtifactRef; sc_output_artifacts : list ArtifactRef }.

Definition artifact_identities (refs : list ArtifactRef) : list (string * string) :=
  map (λ a, (af_ref a, af_digest a)) refs.

Definition artifacts_are_unique (c : StepContract) : result () :=
  _ ← raise_if (has_duplicates (artifact_identities (sc_input_artifacts c)))
        (ValueError "input_artifacts_duplicate");
  raise_if (has_duplicates (artifact_identities (sc_output_artifacts c)))
    (ValueError "output_artifacts_duplicate").

Definition validate_StepContract (c : StepContract) : result () :=
  _ ← check_field "contract_id" (StableId (sc_contract_id c));
  _ ← validate_ArtifactRef (sc_input_schema c);
  _ ← validate_ArtifactRef (sc_output_schema c);
  _ ← for_each validate_ArtifactRef (sc_input_artifacts c);
  _ ← for_each validate_ArtifactRef (sc_output_artifacts c);
  in_validator (artifacts_are_unique c).

Definition StepContract_json (c : StepContract) : json :=
  JObj [("contract_id", JStr (sc_contract_id c));
        ("input_schema", ArtifactRef_json (sc_input_schema c));
        ("output_schema", ArtifactRef_json (sc_output_schema c));
        ("input_artifacts", JArr (map ArtifactRef_json (sc_input_artifacts c)));
        ("output_artifacts", JArr (map ArtifactRef_json (sc_output_artifacts c)))].

(** ** Steps *)
Record WorkflowStep := mkStep {
  step_id : string; ws_binding : ApprovedBinding; ws_contract : StepContract;
  depends_on : list string; ws_policy_binding : option ApprovedBinding; ws_summary : string }.

Definition dependencies_are_unique_and_not_self (s : WorkflowStep) : result () :=
  _ ← raise_if (has_duplicates (depends_on s)) (ValueError "step_dependency_duplicate");
  _ ← raise_if (bool_decide (step_id s ∈ depends_on s)) (ValueError "step_self_dependency");
  _ ← raise_if (bool_decide (ab_kind (ws_binding s) = KPolicy))
        (ValueError "step_policy_binding_required_on_policy_field");
  raise_if (match ws_policy_binding s with
            | Some b => bool_decide (ab_kind b ≠ KPolicy)
            | None => false
            end) (ValueError "step_policy_binding_kind_invalid").

Definition validate_WorkflowStep (s : WorkflowStep) : result () :=
  _ ← check_field "step_id" (StableId (step_id s));
  _ ← validate_ApprovedBinding (ws_binding s);
  _ ← validate_StepContract (ws_contract s);
  _ ← check_field "depends_on" (forallb StableId (depends_on s));
  _ ← from_option validate_ApprovedBinding (Ok ()) (ws_policy_binding s);
  _ ← in_validator (validate_summary (ws_summary s));
  in_validator (dependencies_are_unique_and_not_self s).

Definition WorkflowStep_json (s : WorkflowStep) : json :=
  JObj ([("step_id", JStr (step_id s)); ("binding", ApprovedBinding_json (ws_binding s));
         ("contract", StepContract_json (ws_contract s)); ("depends_on", JStrs (depends_on s))]
        ++ opt_field "policy_binding" ApprovedBinding_json (ws_policy_binding s)
        ++ [("summary", JStr (ws_summary s))]).

(** ** Budgets and graph measures *)
Record WorkflowBudget := mkBudget {
  max_steps : Z; max_depth : Z; max_fanout : Z; max_tool_calls : Z; max_tokens : Z;
  max_seconds : Z; max_cost_micros : Z }.

Definition validate_WorkflowBudget (b : WorkflowBudget) : result () :=
  _ ← check_field "max_steps" (in_bounds 1 ABSOLUTE_MAX_STEPS (max_steps b));
  _ ← check_field "max_depth" (in_bounds 1 ABSOLUTE_MAX_DEPTH (max_depth b));
  _ ← check_field "max_fanout" (in_bounds 1 ABSOLUTE_MAX_FANOUT (max_fanout b));
  _ ← check_field "max_tool_calls" (in_bounds 0 ABSOLUTE_MAX_STEPS (max_tool_calls b));
  _ ← check_field "max_tokens" (in_bounds 1 ABSOLUTE_MAX_TOKENS (max_tokens b));
  _ ← check_field "max_seconds" (in_bounds 1 ABSOLUTE_MAX_SECONDS (max_seconds b));
  check_field "max_cost_micros" (in_bounds 0 ABSOLUTE_MAX_COST_MICROS (max_cost_micros b)).

Definition WorkflowBudget_json (b : WorkflowBudget) : json :=
  JObj [("max_steps", JInt (max_steps b)); ("max_depth", JInt (max_depth b));
        ("max_fanout", JInt (max_fanout b)); ("max_tool_calls", JInt (max_tool_calls b));
        ("max_tokens", JInt (max_tokens b)); ("max_seconds", JInt (max_seconds b));
        ("max_cost_micros", JInt (max_cost_micros b))].

Definition budget_within (requested approved : WorkflowBudget) : bool :=
  forallb (λ f : WorkflowBudget → Z, f requested <=? f approved)
    [max_steps; max_depth; max_fanout; max_tool_calls; max_tokens; max_seconds; max_cost_micros].

Record WorkflowGraphStats := mkStats {
  gs_step_count : Z; gs_depth : Z; gs_max_fanout : Z; gs_tool_step_count : Z }.

Definition validate_WorkflowGraphStats (g : WorkflowGraphStats) : result () :=
  _ ← check_field "step_count" (in_bounds 1 ABSOLUTE_MAX_STEPS (gs_step_count g));
  _ ← check_field "depth" (in_bounds 1 ABSOLUTE_MAX_DEPTH (gs_depth g));
  _ ← check_field "max_fanout" (in_bounds 0 ABSOLUTE_MAX_FANOUT (gs_max_fanout g));
  check_field "tool_step_count" (in_bounds 0 ABSOLUTE_MAX_STEPS (gs_tool_step_count g)).

(** [_graph_adjacency]: the inner loop's body on the two dicts it fills. *)
Definition graph_dicts : Type := gmap string (list string) * gmap string Z.

Definition add_dependency (g : graph_dicts) (e : string * string) : result graph_dicts :=
  let '(children, indegree) := g in
  let '(dependency, step) := e in
  _ ← raise_if (bool_decide (indegree !! dependency = None)) (ValueError "workflow_dependency_missing");
  degree ← dict_get indegree step;
  Ok (<[dependency := default [] (children !! dependency) ++ [step]]> children,
      <[step := degree + 1]> indegree).

Definition fill_dicts (steps : list WorkflowStep) : result graph_dicts :=
  for_fold (λ g s, for_fold add_dependency (map (λ d, (d, step_id s)) (depends_on s)) g) steps
    (∅, list_to_map (map (λ i, (i, 0)) (map step_id steps))).

Definition degrees (g : graph_dicts) : gmap string Z := g.2.

(** [for child_ids in children.values(): child_ids.sort()] *)
Definition sort_children (children : gmap string (list string)) : gmap string (list string) :=
  py_sorted <$> children.

(** The three values it returns; the degree dict as its items in step order. *)
Definition graph_adjacency (steps : list WorkflowStep) :
    result (list string * gmap string (list string) * list (string * Z)) :=
  g ← fill_dicts steps;
  Ok (map step_id steps, sort_children (fst g),
      map (λ i, (i, default 0 (degrees g !! i))) (map step_id steps)).

(** [_topological_stats]: the visited nodes and the longest chains. *)
Definition topological_stats (step_ids : list string) (children : gmap string (list string))
    (indegree : list (string * Z)) : result (list string * gmap string Z) :=
  st ← kahn_loop (λ i, Ok (default [] (children !! i))) (length step_ids) (kahn_start indegree);
  Ok (k_visited st, k_depth st).

Definition graph_stats (steps : list WorkflowStep) : result WorkflowGraphStats :=
  g ← graph_adjacency steps;
  let '(step_ids, children, indegree) := g in
  '(visited, longest) ← topological_stats step_ids children indegree;
  _ ← raise_if (bool_decide (length visited ≠ length step_ids)) (ValueError "workflow_cycle");
  _ ← raise_if (bool_decide ((map_to_list longest).*2 = [])) (ValueError "max() iterable argument is empty");
  let stats := mkStats (Z.of_nat (length step_ids)) (max_default (map_to_list longest).*2)
    (max_default (map (λ i, Z.of_nat (length (default [] (children !! i)))) step_ids))
    (Z.of_nat (length (List.filter (λ s, bool_decide (ab_kind (ws_binding s) = KTool)) steps))) in
  _ ← validate_WorkflowGraphStats stats;
  Ok stats.

Definition enforce_graph_bounds (stats : WorkflowGraphStats) (budget : WorkflowBudget) : result () :=
  _ ← raise_if (max_steps budget <? gs_step_count stats) (ValueError "workflow_step_budget_exceeded");
  _ ← raise_if (max_depth budget <? gs_depth stats) (ValueError "workflow_depth_budget_exceeded");
  _ ← raise_if (max_fanout budget <? gs_max_fanout stats) (ValueError "workflow_fanout_budget_exceeded");
  raise_if (max_tool_calls budget <? gs_tool_step_count stats) (ValueError "workflow_tool_budget_exceeded").

(** ** Identity and template *)
Record WorkflowIdentity := mkIdentity {
  wid_workflow_id : string; wid_template_id : string; wid_version : string }.
Definition validate_WorkflowIdentity (i : WorkflowIdentity) : result () :=
  _ ← check_field "workflow_id" (StableId (wid_workflow_id i));
  _ ← check_field "template_id" (StableId (wid_template_id i));
  check_field "version" (SemVer (wid_version i)).

Record WorkflowTemplate := mkTemplate {
  wt_template_id : string; wt_workflow_id : string; wt_summary : string; wt_owner_ref : string }.
Definition validate_WorkflowTemplate (t : WorkflowTemplate) : result () :=
  _ ← check_field "template_id" (StableId (wt_template_id t));
  _ ← check_field "workflow_id" (StableId (wt_workflow_id t));
  _ ← in_validator (validate_summary (wt_summary t));
  check_field "owner_ref" (OpaqueRef (wt_owner_ref t)).
Definition template_identity (t : WorkflowTemplate) : string * string :=
  (wt_workflow_id t, wt_template_id t).
Definition template_material (t : WorkflowTemplate) : json :=
  JObj [("template_id", JStr (wt_template_id t)); ("workflow_id", JStr (wt_workflow_id t));
        ("summary", JStr (wt_summary t)); ("owner_ref", JStr (wt_owner_ref t))].
Definition template_digest (t : WorkflowTemplate) : string := canonical_digest (template_material t).

(** ** Definitions *)
Record WorkflowDefinition := mkDefinition {
  wd_workflow_id : string; wd_template_id : string; wd_template_digest : string;
  wd_version : string; wd_policy_binding : ApprovedBinding; wd_budget : WorkflowBudget;
  wd_policy_budget : WorkflowBudget; wd_steps : list WorkflowStep; wd_summary : string }.

Definition validate_definition (d : WorkflowDefinition) : result () :=
  _ ← raise_if (bool_decide (ab_kind (wd_policy_binding d) ≠ KPolicy))
        (ValueError "workflow_policy_binding_kind_invalid");
  _ ← raise_if (negb (budget_within (wd_budget d) (wd_policy_budget d)))
        (ValueError "budget_escalation");
  let step_ids := map step_id (wd_steps d) in
  _ ← raise_if (has_duplicates step_ids) (ValueError "workflow_step_duplicate");
  _ ← for_each (λ s,
        _ ← raise_if (existsb (λ x, bool_decide (x ∉ step_ids)) (depends_on s))
              (ValueError "workflow_dependency_missing");
        raise_if (match ws_policy_binding s with
                  | Some b => bool_decide (ab_kind b ≠ KPolicy)
                  | None => false
                  end) (ValueError "step_policy_binding_kind_invalid")) (wd_steps d);
  stats ← graph_stats (wd_steps d);
  enforce_graph_bounds stats (wd_budget d).

Definition validate_WorkflowDefinition (d : WorkflowDefinition) : result () :=
  _ ← check_field "workflow_id" (StableId (wd_workflow_id d));
  _ ← check_field "template_id" (StableId (wd_template_id d));
  _ ← check_field "template_digest" (Digest (wd_template_digest d));
  _ ← check_field "version" (SemVer (wd_version d));
  _ ← validate_ApprovedBinding (wd_policy_binding d);
  _ ← validate_WorkflowBudget (wd_budget d);
  _ ← validate_WorkflowBudget (wd_policy_budget d);
  _ ← check_field "steps" (tuple_len 1 (Z.to_nat ABSOLUTE_MAX_STEPS) (wd_steps d));
  _ ← for_each validate_WorkflowStep (wd_steps d);
  _ ← in_validator (validate_summary (wd_summary d));
  in_validator (validate_definition d).

Definition WorkflowDefinition_json (d : WorkflowDefinition) : json :=
  JObj [("workflow_id", JStr (wd_workflow_id d)); ("template_id", JStr (wd_template_id d));
        ("template_digest", JStr (wd_template_digest d)); ("version", JStr (wd_version d));
        ("policy_binding", ApprovedBinding_json (wd_policy_binding d));
        ("budget", WorkflowBudget_json (wd_budget d));
        ("policy_budget", WorkflowBudget_json (wd_policy_budget d));
        ("steps", JArr (map WorkflowStep_json (wd_steps d))); ("summary", JStr (wd_summary d))].

(** [canonical_definition]: a step with its dependencies sorted, and the dump
    of the definition with such steps in the order of their ids. *)
Definition canonical_step (s : WorkflowStep) : WorkflowStep :=
  mkStep (step_id s) (ws_binding s) (ws_contract s) (py_sorted (depends_on s))
    (ws_policy_binding s) (ws_summary s).

Definition ordered_definition (d : WorkflowDefinition) : WorkflowDefinition :=
  mkDefinition (wd_workflow_id d) (wd_template_id d) (wd_template_digest d) (wd_version d)
    (wd_policy_binding d) (wd_budget d) (wd_policy_budget d)
    (sort_by step_id (map canonical_step (wd_steps d))) (wd_summary d).

Definition canonical_definition (d : WorkflowDefinition) : json :=
  canonical (WorkflowDefinition_json (ordered_definition d)).

Definition definition_digest (d : WorkflowDefinition) : string :=
  canonical_digest (canonical_definition d).

Definition wd_identity (d : WorkflowDefinition) : result WorkflowIdentity :=
  let i := mkIdentity (wd_workflow_id d) (wd_template_id d) (wd_version d) in
  _ ← validate_WorkflowIdentity i;
  Ok i.

(** ** Resolutions *)
Definition resolution_material (d : WorkflowDefinition) (channel : string) (pointer_generation : Z) : json :=
  JObj [("workflow_id", JStr (wd_workflow_id d)); ("channel", JStr channel);
        ("pointer_generation", JInt pointer_generation); ("version", JStr (wd_version d));
        ("definition_digest", JStr (definition_digest d))].

Definition resolution_digest (d : WorkflowDefinition) (channel : string) (pointer_generation : Z) : string :=
  canonical_digest (resolution_material d channel pointer_generation).

Record WorkflowResolution := mkResolution {
  wr_definition : WorkflowDefinition; wr_channel : string; wr_pointer_generation : Z;
  wr_resolution_digest : string }.

Definition digest_is_authoritative (r : WorkflowResolution) : result () :=
  raise_if (bool_decide (wr_resolution_digest r ≠
      resolution_digest (wr_definition r) (wr_channel r) (wr_pointer_generation r)))
    (ValueError "resolution_digest_mismatch").

Definition validate_WorkflowResolution (r : WorkflowResolution) : result () :=
  _ ← validate_WorkflowDefinition (wr_definition r);
  _ ← check_field "channel" (ChannelName (wr_channel r));
  _ ← check_field "pointer_generation" (0 <=? wr_pointer_generation r);
  _ ← check_field "resolution_digest" (Digest (wr_resolution_digest r));
  in_validator (digest_is_authoritative r).

Record WorkflowSummary := mkSummary {
  su_workflow_id : string; su_template_id : string; su_version : string;
  su_definition_digest : string; su_channel : option string; su_pointer_generation : option Z;
  su_step_count : Z; su_depth : Z; su_max_fanout : Z; su_binding_kinds : list string }.

Definition validate_WorkflowSummary (s : WorkflowSummary) : result () :=
  _ ← check_field "workflow_id" (StableId (su_workflow_id s));
  _ ← check_field "template_id" (StableId (su_template_id s));
  _ ← check_field "version" (SemVer (su_version s));
  _ ← check_field "definition_digest" (Digest (su_definition_digest s));
  _ ← check_field "channel" (from_option ChannelName true (su_channel s));
  _ ← check_field "pointer_generation" (from_option (Z.leb 0) true (su_pointer_generation s));
  _ ← check_field "step_count" (in_bounds 1 ABSOLUTE_MAX_STEPS (su_step_count s));
  _ ← check_field "depth" (in_bounds 1 ABSOLUTE_MAX_DEPTH (su_depth s));
  _ ← check_field "max_fanout" (in_bounds 0 ABSOLUTE_MAX_FANOUT (su_max_fanout s));
  check_field "binding_kinds"
    (forallb (λ k, bool_decide (k ∈ ["agent"; "skill"; "tool"; "policy"; "delegation"])) (su_binding_kinds s)).

Definition summary_projection (d : WorkflowDefinition) (channel : option string)
    (pointer_generation : option Z) : result WorkflowSummary :=
  stats ← graph_stats (wd_steps d);
  let kinds : gset string :=
    list_to_set (map (λ s, kind_str (ab_kind (ws_binding s))) (wd_steps d)) ∪ {["policy"]} in
  let s := mkSummary (wd_workflow_id d) (wd_template_id d) (wd_version d) (definition_digest d)
    channel pointer_generation (gs_step_count stats) (gs_depth stats) (gs_max_fanout stats)
    (py_sorted (elements kinds)) in
  _ ← validate_WorkflowSummary s;
  Ok s.

(** ** Model equality *)
#[export] Instance ArtifactRef_eq_dec : EqDecision ArtifactRef.
Proof. solve_decision. Defined.
#[export] Instance ApprovedBinding_eq_dec : EqDecision ApprovedBinding.
Proof. solve_decision. Defined.
#[export] Instance StepContract_eq_dec : EqDecision StepContract.
Proof. solve_decision. Defined.
#[export] Instance WorkflowStep_eq_dec : EqDecision WorkflowStep.
Proof. solve_decision. Defined.
#[export] Instance WorkflowBudget_eq_dec : EqDecision WorkflowBudget.
Proof. solve_decision. Defined.
#[export] Instance WorkflowGraphStats_eq_dec : EqDecision WorkflowGraphStats.
Proof. solve_decision. Defined.
#[export] Instance WorkflowDefinition_eq_dec : EqDecision WorkflowDefinition.
Proof. solve_decision. Defined.
#[export] Instance WorkflowResolution_eq_dec : EqDecision WorkflowResolution.
Proof. solve_decision. Defined.
#[export] Instance WorkflowSummary_eq_dec : EqDecision WorkflowSummary.
Proof. solve_decision. Defined.

(** ** Serializers determine their objects *)
#[export] Instance kind_json_inj : CanonicalInj (λ k, JStr (kind_str k)).
Proof. intros x y E. apply (canonical_inj (f := JStr)) in E. by apply (inj kind_str). Qed.
#[export] Instance ArtifactRef_json_inj : CanonicalInj ArtifactRef_json.
Proof. intros [] [] E. by_fields E ["ref"; "digest"]. by simplify_eq. Qed.
#[export] Instance ApprovedBinding_json_inj : CanonicalInj ApprovedBinding_json.
Proof. intros [] [] E. by_fields E ["kind"; "binding_id"; "version"; "digest"]. by simplify_eq. Qed.
#[export] Instance StepContract_json_inj : CanonicalInj StepContract_json.
Proof.
  intros [] [] E. by_fields E ["contract_id"; "input_schema"; "output_schema"; "input_artifacts";
    "output_artifacts"]. by simplify_eq.
Qed.
#[export] Instance WorkflowStep_json_inj : CanonicalInj WorkflowStep_json.
Proof.
  intros [? ? ? ? [] ?] [? ? ? ? [] ?] E; by_fields E ["step_id"; "binding"; "contract"; "depends_on";
    "policy_binding"; "summary"]; by simplify_eq.
Qed.
#[export] Instance WorkflowBudget_json_inj : CanonicalInj WorkflowBudget_json.
Proof.
  intros [] [] E. by_fields E ["max_steps"; "max_depth"; "max_fanout"; "max_tool_calls"; "max_tokens";
    "max_seconds"; "max_cost_micros"]. by simplify_eq.
Qed.
#[export] Instance WorkflowDefinition_json_inj : CanonicalInj WorkflowDefinition_json.
Proof.
  intros [] [] E. by_fields E ["workflow_id"; "template_id"; "template_digest"; "version";
    "policy_binding"; "budget"; "policy_budget"; "steps"; "summary"]. by simplify_eq.
Qed.

(** * The step graph *)
Notation step_deps := (node_deps step_id depends_on).
Notation step_children := (dependents step_id depends_on).
Notation steps_ok := (graph_ok step_id depends_on).

(** The two dicts after a sequence of edges. *)
Lemma add_dependencies es children (indegree : gmap string Z) :
  (∀ e, e ∈ es → is_Some (indegree !! e.1) ∧ is_Some (indegree !! e.2)) →
  ∃ g, for_fold add_dependency es (children, indegree) = Ok g ∧
    (∀ d, g.1 !! d = if decide (filter (λ e, e.1 = d) es = []) then children !! d
                     else Some (default [] (children !! d) ++ (filter (λ e, e.1 = d) es).*2)) ∧
    ∀ v, g.2 !! v = (λ n, n + Z.of_nat (length (filter (λ e, e.2 = v) es))) <$> indegree !! v.
Proof.
  revert children indegree. induction es as [|[d v] es IH]; intros children indegree Hes.
  { exists (children, indegree). split; [done|]. split; [done|]. intros v. cbn.
    destruct (indegree !! v); cbn; [|done]. f_equal. lia. }
  destruct (Hes (d, v)) as [[n Hn] [k Hk]]; [by left|]. cbn in Hn, Hk.
  assert (add_dependency (children, indegree) (d, v) =
    Ok (<[d := default [] (children !! d) ++ [v]]> children, <[v := k + 1]> indegree)) as E.
  { unfold add_dependency, dict_get. by rewrite Hn, Hk. }
  cbn [for_fold]. rewrite E. cbn [mbind result_bind]. clear E.
  destruct (IH (<[d := default [] (children !! d) ++ [v]]> children) (<[v := k + 1]> indegree))
    as (g & -> & Hch & Hdeg).
  { intros e He. destruct (Hes e) as [? ?]; [by right|]. by rewrite !lookup_insert_is_Some'; split; right. }
  exists g. split; [done|]. split.
  - intros d'. rewrite Hch, filter_cons. cbn [fst]. destruct (decide (d = d')) as [->|Hne].
    + rewrite lookup_insert_eq. cbn. case_decide as E; [by rewrite E|]. by rewrite <- app_assoc.
    + by rewrite lookup_insert_ne.
  - intros v'. rewrite Hdeg, filter_cons. cbn [snd]. destruct (decide (v = v')) as [->|Hne].
    + rewrite lookup_insert_eq, Hk. cbn. f_equal. lia.
    + by rewrite lookup_insert_ne.
Qed.

Lemma degree_init ids v :
  (list_to_map (map (λ i, (i, 0)) ids) : gmap string Z) !! v = if decide (v ∈ ids) then Some 0 else None.
Proof.
  induction ids as [|i ids IH]; [done|]. cbn. destruct (decide (i = v)) as [->|Hne].
  - rewrite lookup_insert_eq, decide_True by left. done.
  - rewrite lookup_insert_ne, IH by done. by rewrite (decide_ext (v ∈ i :: ids) (v ∈ ids)) by set_solver.
Qed.

(** What [_graph_adjacency] returns on well-formed steps. *)
Lemma graph_adjacency_ok steps :
  steps_ok steps →
  ∃ children, graph_adjacency steps = Ok (map step_id steps, children,
      map (λ s, (step_id s, Z.of_nat (length (depends_on s)))) steps) ∧
    ∀ d, default [] (children !! d) = py_sorted (step_children steps d).
Proof.
  intros [Hids Hdeps Hknown]. unfold graph_adjacency, fill_dicts.
  rewrite (for_fold_concat add_dependency (λ s, map (λ d, (d, step_id s)) (depends_on s))).
  change (concat _) with (node_edges step_id depends_on steps).
  destruct (add_dependencies (node_edges step_id depends_on steps) ∅
    (list_to_map (map (λ i, (i, 0)) (map step_id steps)))) as (g & -> & Hch & Hdeg).
  { intros [d v] (s & Hs & Hd & ->)%node_edges_in. cbn [fst snd]. rewrite !degree_init.
    assert (d ∈ map step_id steps) by (by apply (Hknown s)).
    assert (step_id s ∈ map step_id steps) by (by apply list_elem_of_fmap_2).
    by rewrite !decide_True. }
  eexists. split.
  - cbn. f_equal. f_equal. rewrite map_map. apply map_ext_in. intros s Hs%list_elem_of_In.
    f_equal. unfold degrees. rewrite Hdeg, degree_init, decide_True by (by apply list_elem_of_fmap_2).
    cbn. by rewrite edges_into.
  - intros d. unfold sort_children. rewrite lookup_fmap, Hch, lookup_empty.
    pose proof (dependents_edges step_id depends_on steps d Hdeps) as E.
    case_decide as En.
    + rewrite En in E. cbn in E. rewrite <- E. done.
    + cbn. by rewrite E.
Qed.

(** [g] measures the graph of [steps]. *)
Record measures (steps : list WorkflowStep) (g : WorkflowGraphStats) : Prop := {
  me_steps : gs_step_count g = Z.of_nat (length steps);
  me_depth : depth_is step_id depends_on steps (gs_depth g);
  me_fanout : fanout_is step_id depends_on steps (gs_max_fanout g);
  me_tools : gs_tool_step_count g =
    Z.of_nat (length (filter (λ s, ab_kind (ws_binding s) = KTool) steps)) }.

Lemma measures_unique steps g g' : measures steps g → measures steps g' → g = g'.
Proof.
  intros [] []. destruct g, g'; cbn in *. f_equal; [congruence| | |congruence].
  - by eapply depth_is_unique.
  - by eapply fanout_is_unique.
Qed.

Lemma filter_bool {A} (P : A → Prop) `{!∀ x, Decision (P x)} l :
  List.filter (λ x, bool_decide (P x)) l = filter P l.
Proof. induction l as [|x l IH]; [done|]. cbn [List.filter]. rewrite filter_cons, IH.
  case_bool_decide; [by rewrite decide_True|by rewrite decide_False]. Qed.

(** [_graph_stats] up to the construction of its model. *)
Lemma graph_stats_cases steps :
  steps_ok steps → steps ≠ [] →
  (acyclic (map step_id steps) (step_deps steps) ∧ ∃ g, measures steps g ∧
     graph_stats steps = (_ ← validate_WorkflowGraphStats g; Ok g)) ∨
  (¬ acyclic (map step_id steps) (step_deps steps) ∧
     graph_stats steps = Raise (ValueError "workflow_cycle")).
Proof.
  intros Hok Hne. destruct (graph_adjacency_ok steps Hok) as (children & Hadj & Hch).
  unfold graph_stats, topological_stats. rewrite Hadj.
  cbn -[kahn_loop kahn_start validate_WorkflowGraphStats]. rewrite length_map.
  destruct (nodes_cases step_id depends_on steps Hok (λ i, Ok (default [] (children !! i))))
    as (st & -> & Hvis & Hdepth); [intros t _; by rewrite Hch|].
  cbn -[validate_WorkflowGraphStats].
  destruct (decide (length (k_visited st) = length steps)) as [Hlen|Hlen]; [left|right].
  2:{ rewrite (bool_decide_eq_true_2 (length (k_visited st) ≠ length steps)) by done. split; [|done]. intros Hac. by apply Hlen, Hvis. }
  rewrite (bool_decide_eq_false_2 (length (k_visited st) ≠ length steps)) by (by intros ?). apply Hvis in Hlen. split; [done|].
  cbn -[validate_WorkflowGraphStats].
  assert ((map_to_list (k_depth st)).*2 ≠ []) as Hd.
  { intros E. destruct (Hdepth Hlen) as [Hmax _]. rewrite E in Hmax. destruct steps as [|s steps]; [done|].
    pose proof (Hmax (step_id s) 1 ltac:(apply chain_one; by left)) as H1. cbn in H1. lia. }
  rewrite (bool_decide_eq_false_2 ((map_to_list (k_depth st)).*2 = [])) by done.
  cbn -[validate_WorkflowGraphStats]. eexists. split; [|reflexivity].
  split; cbn; [done|by apply Hdepth| |by rewrite filter_bool].
  apply nodes_fanout. intros n. rewrite map_map, list_elem_of_fmap.
  setoid_rewrite Hch. split; intros (s & H1 & H2); exists s.
  - split; [done|]. by rewrite H1, py_sorted_perm.
  - split; [|done]. by rewrite py_sorted_perm.
Qed.

(** ** What an accepted definition satisfies *)
Lemma validate_WorkflowStep_kinds s :
  validate_WorkflowStep s = Ok () →
  NoDup (depends_on s) ∧ step_id s ∉ depends_on s ∧ ab_kind (ws_binding s) ≠ KPolicy ∧
  ∀ b, ws_policy_binding s = Some b → ab_kind b = KPolicy.
Proof.
  unfold validate_WorkflowStep, dependencies_are_unique_and_not_self. intros Hok.
  do 6 (apply result_bind_ok in Hok as (? & _ & Hok)). guards.
  split; [by apply has_duplicates_false|]. split; [done|]. split; [done|].
  intros b E. rewrite E in *. by guards.
Qed.

Lemma existsb_not_in (ids xs : list string) :
  existsb (λ x, bool_decide (x ∉ ids)) xs = false → ∀ x, x ∈ xs → x ∈ ids.
Proof.
  intros E x Hx. destruct (decide (x ∈ ids)) as [|Hn]; [done|]. exfalso.
  apply not_true_iff_false in E. apply E, existsb_exists. exists x.
  rewrite <- list_elem_of_In. split; [done|]. by apply bool_decide_eq_true.
Qed.

(** The checks of [_validate_definition] behind the field constraints. *)
Lemma validate_definition_ok d :
  Forall (λ s, validate_WorkflowStep s = Ok ()) (wd_steps d) → validate_definition d = Ok () →
  steps_ok (wd_steps d) ∧ ab_kind (wd_policy_binding d) = KPolicy ∧
  budget_within (wd_budget d) (wd_policy_budget d) = true ∧
  ∃ g, graph_stats (wd_steps d) = Ok g ∧ enforce_graph_bounds g (wd_budget d) = Ok ().
Proof.
  intros Hsteps. rewrite Forall_forall in Hsteps. unfold validate_definition. intros Hok.
  apply result_bind_ok in Hok as ([] & Hk & Hok). apply result_bind_ok in Hok as ([] & Hb & Hok).
  apply result_bind_ok in Hok as ([] & Hdup & Hok). apply result_bind_ok in Hok as ([] & Heach & Hok).
  apply result_bind_ok in Hok as (g & Hg & Hok). guards. rewrite Forall_forall in Heach.
  split; [|split; [done|split; [done|by exists g]]]. split.
  - by apply has_duplicates_false.
  - intros s Hs. by apply validate_WorkflowStep_kinds, Hsteps.
  - intros s x Hs. pose proof (Heach s Hs) as H. cbn in H.
    apply result_bind_ok in H as ([] & H & _). guards. by apply existsb_not_in.
Qed.

Lemma validate_WorkflowDefinition_ok d :
  validate_WorkflowDefinition d = Ok () →
  wd_steps d ≠ [] ∧ Forall (λ s, validate_WorkflowStep s = Ok ()) (wd_steps d) ∧
  validate_definition d = Ok () ∧ validate_WorkflowBudget (wd_budget d) = Ok () ∧
  validate_WorkflowBudget (wd_policy_budget d) = Ok () ∧
  StableId (wd_workflow_id d) = true ∧ SemVer (wd_version d) = true.
Proof.
  unfold validate_WorkflowDefinition. intros Hok.
  do 10 (apply result_bind_ok in Hok as (? & ? & Hok)).
  repeat match goal with x : unit |- _ => destruct x end.
  rewrite in_validator_ok in Hok.
  repeat match goal with H : check_field _ _ = _ |- _ => rewrite check_field_ok in H end.
  match goal with H : tuple_len _ _ _ = true |- _ =>
    apply bool_decide_eq_true in H as [Hlen _] end.
  match goal with H : for_each _ _ = Ok _ |- _ => apply for_each_ok in H end.
  split; [by intros E; rewrite E in Hlen; cbn in Hlen; lia|]. done.
Qed.

Lemma graph_stats_ok steps g :
  steps_ok steps → steps ≠ [] →
  graph_stats steps = Ok g ↔
  acyclic (map step_id steps) (step_deps steps) ∧ measures steps g ∧ validate_WorkflowGraphStats g = Ok ().
Proof.
  intros Hok Hne. destruct (graph_stats_cases steps Hok Hne) as [(Hac & g' & Hm & ->)|[Hc ->]].
  - split.
    + intros E. apply result_bind_ok in E as ([] & Hv & [= ->]). done.
    + intros (_ & Hm' & Hv). rewrite (measures_unique _ _ _ Hm' Hm) in *. by rewrite Hv.
  - split; [done|by intros [? _]].
Qed.

(** The graph, budget and binding promises of an accepted definition. *)
Record within_budget (d : WorkflowDefinition) : Prop := {
  wb_escalation f : f ∈ [max_steps; max_depth; max_fanout; max_tool_calls; max_tokens; max_seconds;
      max_cost_micros] → f (wd_budget d) ≤ f (wd_policy_budget d);
  wb_steps : 1 ≤ Z.of_nat (length (wd_steps d)) ≤ max_steps (wd_budget d);
  wb_acyclic : acyclic (map step_id (wd_steps d)) (step_deps (wd_steps d));
  wb_depth v n : chain (map step_id (wd_steps d)) (step_deps (wd_steps d)) v n → n ≤ max_depth (wd_budget d);
  wb_fanout s : s ∈ wd_steps d →
    Z.of_nat (length (step_children (wd_steps d) (step_id s))) ≤ max_fanout (wd_budget d);
  wb_tools : Z.of_nat (length (filter (λ s, ab_kind (ws_binding s) = KTool) (wd_steps d))) ≤
    max_tool_calls (wd_budget d);
  wb_ceilings : max_steps (wd_budget d) ≤ 256 ∧ max_depth (wd_budget d) ≤ 64 ∧ max_fanout (wd_budget d) ≤ 32;
  wb_policy : ab_kind (wd_policy_binding d) = KPolicy;
  wb_bindings s : s ∈ wd_steps d → ab_kind (ws_binding s) ≠ KPolicy ∧
    ∀ b, ws_policy_binding s = Some b → ab_kind b = KPolicy }.

Lemma accepted_within_budget d : validate_WorkflowDefinition d = Ok () → within_budget d.
Proof.
  intros (Hne & Hsteps & Hdef & Hbudget & _)%validate_WorkflowDefinition_ok.
  destruct (validate_definition_ok d Hsteps Hdef) as (Hok & Hpol & Hb & g & Hg & Hbounds).
  apply graph_stats_ok in Hg as (Hac & [Hn [Hd _] [Hf _] Ht] & _); [|done..].
  unfold enforce_graph_bounds in Hbounds. guards.
  unfold validate_WorkflowBudget, check_field, in_bounds in Hbudget. guards.
  unfold ABSOLUTE_MAX_STEPS, ABSOLUTE_MAX_DEPTH, ABSOLUTE_MAX_FANOUT in *.
  unfold budget_within in Hb. rewrite forallb_forall in Hb. rewrite Forall_forall in Hsteps.
  split; try done.
  - intros f Hf'%list_elem_of_In. by apply Z.leb_le, Hb.
  - rewrite <- Hn. split; [|done]. rewrite Hn. destruct (wd_steps d); [done|cbn; lia].
  - intros v n Hc. etransitivity; [by eapply Hd|done].
  - intros s Hs. etransitivity; [by apply Hf|done].
  - by rewrite <- Ht.
  - intros s Hs. by apply validate_WorkflowStep_kinds, Hsteps.
Qed.

(** ** Identity up to the order of steps and of dependencies *)
Definition step_equiv (s1 s2 : WorkflowStep) : Prop :=
  step_id s1 = step_id s2 ∧ ws_binding s1 = ws_binding s2 ∧ ws_contract s1 = ws_contract s2 ∧
  depends_on s1 ≡ₚ depends_on s2 ∧ ws_policy_binding s1 = ws_policy_binding s2 ∧
  ws_summary s1 = ws_summary s2.

(** The same DAG with the same pins: a reordering of the steps, each with a
    reordering of its dependencies. *)
#[export] Instance definition_equiv : Equiv WorkflowDefinition := λ d1 d2,
  wd_workflow_id d1 = wd_workflow_id d2 ∧ wd_template_id d1 = wd_template_id d2 ∧
  wd_template_digest d1 = wd_template_digest d2 ∧ wd_version d1 = wd_version d2 ∧
  wd_policy_binding d1 = wd_policy_binding d2 ∧ wd_budget d1 = wd_budget d2 ∧
  wd_policy_budget d1 = wd_policy_budget d2 ∧ wd_summary d1 = wd_summary d2 ∧
  ∃ steps, wd_steps d1 ≡ₚ steps ∧ Forall2 step_equiv steps (wd_steps d2).

Lemma canonical_step_equiv s1 s2 : canonical_step s1 = canonical_step s2 ↔ step_equiv s1 s2.
Proof.
  unfold canonical_step, step_equiv. split.
  - intros E. injection E as -> -> -> E -> ->. repeat (split; [done|]). split; [|done].
    by rewrite <- (py_sorted_perm (depends_on s1)), E, py_sorted_perm.
  - intros (-> & -> & -> & E & -> & ->). f_equal. by apply py_sorted_unique.
Qed.

Lemma canonical_steps_equiv l1 l2 :
  map canonical_step l1 = map canonical_step l2 ↔ Forall2 step_equiv l1 l2.
Proof.
  revert l2. induction l1 as [|s l1 IH]; intros [|s' l2]; (split; [intros E|intros E; inv E]); try done.
  - pose proof (f_equal head E) as E1%(inj Some). pose proof (f_equal tail E) as E2.
    constructor; [by apply canonical_step_equiv|by apply IH].
  - apply (f_equal2 cons); [by apply canonical_step_equiv|by apply IH].
Qed.

(** The ordered form decides the equivalence when step ids are distinct. *)
Lemma ordered_definition_equiv d1 d2 :
  NoDup (map step_id (wd_steps d1)) → ordered_definition d1 = ordered_definition d2 ↔ d1 ≡ d2.
Proof.
  intros Hnd. unfold ordered_definition, equiv, definition_equiv. split.
  - intros E. injection E as -> -> -> -> -> -> -> E ->. do 8 (split; [done|]).
    assert (map canonical_step (wd_steps d1) ≡ₚ map canonical_step (wd_steps d2)) as HP.
    { by rewrite <- (sort_by_perm step_id (map canonical_step (wd_steps d1))), E, sort_by_perm. }
    symmetry in HP. apply Permutation_map_inv in HP as (l & E' & HP).
    exists l. split; [done|]. by apply canonical_steps_equiv.
  - intros (-> & -> & -> & -> & -> & -> & -> & -> & l & HP & Hl%canonical_steps_equiv). f_equal.
    rewrite <- Hl. apply sort_by_unique; [|by apply Permutation_map].
    rewrite map_map. exact Hnd.
Qed.

Lemma definition_digest_alt d :
  definition_digest d = canonical_digest (WorkflowDefinition_json (ordered_definition d)).
Proof. apply canonical_digest_ext. unfold canonical_definition. by rewrite canonical_idem. Qed.

(** On definitions with distinct step ids the digest respects the equivalence. *)
Definition same_workflow : relation WorkflowDefinition := λ d1 d2,
  NoDup (map step_id (wd_steps d1)) ∧ d1 ≡ d2.
#[export] Instance definition_digest_proper : Proper (same_workflow ==> (=)) definition_digest.
Proof. intros d1 d2 [Hnd E]. rewrite !definition_digest_alt. by apply ordered_definition_equiv in E as ->. Qed.

(** The texts the two identity digests are over. *)
Definition definition_payload (d : WorkflowDefinition) : string :=
  payload (WorkflowDefinition_json (ordered_definition d)).

Lemma definition_digest_equiv d1 d2 :
  NoDup (map step_id (wd_steps d1)) → definition_digest d1 = definition_digest d2 →
  d1 ≡ d2 ∨ sha256_collision (definition_payload d1) (definition_payload d2).
Proof.
  intros Hnd. rewrite !definition_digest_alt.
  intros [E|Hc]%(digest_binds WorkflowDefinition_json); [left|by right].
  by apply ordered_definition_equiv.
Qed.

Lemma accepted_step_ids d : validate_WorkflowDefinition d = Ok () → NoDup (map step_id (wd_steps d)).
Proof.
  intros (_ & Hs & Hd & _)%validate_WorkflowDefinition_ok.
  by destruct (validate_definition_ok d Hs Hd) as [[? _ _] _].
Qed.

Lemma definition_digest_Digest d : Digest (definition_digest d) = true.
Proof. apply canonical_digest_Digest. Qed.
Lemma resolution_digest_Digest d c n : Digest (resolution_digest d c n) = true.
Proof. apply canonical_digest_Digest. Qed.
#[export] Hint Resolve definition_digest_Digest resolution_digest_Digest : grammar.

(** [resolution_digest] covers what it names. *)
#[export] Instance resolution_material_inj :
  CanonicalInj (λ x : string * string * Z * string * string,
    JObj [("workflow_id", JStr x.1.1.1.1); ("channel", JStr x.1.1.1.2); ("pointer_generation", JInt x.1.1.2);
          ("version", JStr x.1.2); ("definition_digest", JStr x.2)]).
Proof.
  intros [[[[]]]] [[[[]]]] E.
  by_fields E ["workflow_id"; "channel"; "pointer_generation"; "version"; "definition_digest"].
  by simplify_eq/=.
Qed.

(** * Properties *)

(** The step graph is measured exactly: on one or more steps with distinct
    ids and duplicate-free known dependencies, [_graph_stats] returns [g] if
    and only if there is no dependency cycle, [g] has the number of steps, the
    length of the longest dependency chain, the largest number of dependents
    and the number of tool steps, and these are within the absolute ceilings;
    it reports [workflow_cycle] if and only if there is a cycle. *)
Theorem graph_stats_correct steps :
  steps_ok steps → steps ≠ [] →
  (∀ g, graph_stats steps = Ok g ↔
     acyclic (map step_id steps) (step_deps steps) ∧ measures steps g ∧
     validate_WorkflowGraphStats g = Ok ()) ∧
  (graph_stats steps = Raise (ValueError "workflow_cycle") ↔
     ¬ acyclic (map step_id steps) (step_deps steps)).
Proof.
  intros Hok Hne. split; [intros g; by apply graph_stats_ok|].
  destruct (graph_stats_cases steps Hok Hne) as [(Hac & g & Hm & ->)|[Hc ->]]; [|done].
  split; [|done]. unfold validate_WorkflowGraphStats, check_field. intros E.
  do 4 (destruct (in_bounds _ _ _)); discriminate E.
Qed.

(** A definition the model accepts cannot exceed its budget: no requested
    dimension is above the policy's, steps, dependency depth, fanout and tool
    steps stay within the requested ones and the absolute ceilings, the graph
    is acyclic, and policies are bound only where a policy belongs. *)
Theorem accepted_definition_within_budget d :
  validate_WorkflowDefinition d = Ok () → within_budget d.
Proof. apply accepted_within_budget. Qed.

(** The identity digest of an accepted definition is a function of the DAG
    and its pins only: definitions that differ in the order of steps or
    dependencies have the same digest, and conversely equal digests come from
    such definitions, unless their canonical texts collide in SHA-256. *)
Theorem definition_digest_identity d1 d2 :
  validate_WorkflowDefinition d1 = Ok () →
  (d1 ≡ d2 → definition_digest d1 = definition_digest d2) ∧
  (definition_digest d1 = definition_digest d2 →
     d1 ≡ d2 ∨ sha256_collision (definition_payload d1) (definition_payload d2)).
Proof.
  intros Hnd%accepted_step_ids. split; [|by apply definition_digest_equiv].
  intros E. by apply definition_digest_proper.
Qed.

(** A resolution digest fixes the workflow, channel, pointer generation,
    version and, up to reordering, the definition that was resolved, unless
    the resolution texts or the definition texts collide in SHA-256. *)
Theorem resolution_digest_binds d1 c1 n1 d2 c2 n2 :
  validate_WorkflowDefinition d1 = Ok () →
  resolution_digest d1 c1 n1 = resolution_digest d2 c2 n2 →
  (c1 = c2 ∧ n1 = n2 ∧ d1 ≡ d2) ∨
  sha256_collision (payload (resolution_material d1 c1 n1)) (payload (resolution_material d2 c2 n2)) ∨
  sha256_collision (definition_payload d1) (definition_payload d2).
Proof.
  intros Hnd%accepted_step_ids E.
  destruct (digest_binds (λ x : string * string * Z * string * string,
    JObj [("workflow_id", JStr x.1.1.1.1); ("channel", JStr x.1.1.1.2); ("pointer_generation", JInt x.1.1.2);
          ("version", JStr x.1.2); ("definition_digest", JStr x.2)])
    (wd_workflow_id d1, c1, n1, wd_version d1, definition_digest d1)
    (wd_workflow_id d2, c2, n2, wd_version d2, definition_digest d2) E) as [Ex|Hc]; [|right; by left].
  pose proof (f_equal (λ x, x.1.1.1.2) Ex) as Ec. pose proof (f_equal (λ x, x.1.1.2) Ex) as En.
  pose proof (f_equal snd Ex) as Ed. clear Ex E. cbn [fst snd] in Ec, En, Ed.
  apply definition_digest_equiv in Ed as [Ed|Hc]; [left|right; by right|exact Hnd].
  split; [exact Ec|split; [exact En|exact Ed]].
Qed.

(** * A concrete workflow *)
Module WorkflowExample.
Definition digest (s : string) : string := canonical_digest (JStr s).
Definition artifact (s : string) : ArtifactRef := mkArtifact s (digest s).
Definition contract : StepContract := mkContract "contract:text" (artifact "schema:in") (artifact "schema:out") [] [].
Definition tool : ApprovedBinding := mkBinding KTool "tool:search" "1.0.0" (digest "tool").
Definition agent : ApprovedBinding := mkBinding KAgent "agent:writer" "2.1.0" (digest "agent").
Definition policy : ApprovedBinding := mkBinding KPolicy "policy:core" "1.0.0" (digest "policy").
Definition step (id : string) (b : ApprovedBinding) (deps : list string) : WorkflowStep :=
  mkStep id b contract deps None "step".
Definition steps : list WorkflowStep :=
  [step "publish" agent ["draft"; "collect"]; step "draft" agent ["collect"]; step "collect" tool []].
Definition budget (tokens : Z) : WorkflowBudget := mkBudget 4 3 2 4 tokens 60 0.
Definition definition_of (version : string) (steps : list WorkflowStep) : WorkflowDefinition :=
  mkDefinition "workflow:report" "template:report" (digest "template") version policy (budget 1000)
    (budget 2000) steps "weekly report".
Definition definition : WorkflowDefinition := definition_of "1.0.0" steps.
(** The same DAG, listed in another order *)
Definition reordered : WorkflowDefinition :=
  definition_of "1.0.0"
    [step "collect" tool []; step "publish" agent ["collect"; "draft"]; step "draft" agent ["collect"]].

Example stats : graph_stats steps = Ok (mkStats 3 3 2 1).
Proof. by_compute. Qed.
Example step_cycle : graph_stats [step "a" tool ["b"]; step "b" tool ["a"]] = Raise (ValueError "workflow_cycle").
Proof. by_compute. Qed.
Lemma definition_ok : validate_WorkflowDefinition definition = Ok ().
Proof. by_compute. Qed.
Example projected : summary_projection definition (Some "stable") (Some 0) =
  Ok (mkSummary "workflow:report" "template:report" "1.0.0" (definition_digest definition) (Some "stable")
        (Some 0) 3 3 2 ["agent"; "policy"; "tool"]).
Proof. by_compute. Qed.

Lemma steps_graph_ok : steps_ok steps.
Proof.
  destruct (validate_WorkflowDefinition_ok definition definition_ok) as (_ & Hs & Hd & _).
  by destruct (validate_definition_ok definition Hs Hd).
Qed.
End WorkflowExample.

Lemma graph_stats_correct_witness :
  acyclic (map step_id WorkflowExample.steps) (step_deps WorkflowExample.steps) ∧
  measures WorkflowExample.steps (mkStats 3 3 2 1) ∧
  validate_WorkflowGraphStats (mkStats 3 3 2 1) = Ok ().
Proof.
  apply (proj1 (graph_stats_correct WorkflowExample.steps WorkflowExample.steps_graph_ok ltac:(done))).
  exact WorkflowExample.stats.
Defined.

Lemma accepted_definition_within_budget_witness : within_budget WorkflowExample.definition.
Proof. apply accepted_definition_within_budget. exact WorkflowExample.definition_ok. Defined.

Lemma definition_digest_identity_witness :
  definition_digest WorkflowExample.definition = definition_digest WorkflowExample.reordered.
Proof.
  apply (proj1 (definition_digest_identity WorkflowExample.definition WorkflowExample.reordered
    WorkflowExample.definition_ok)).
  repeat (split; [reflexivity|]).
  exists [WorkflowExample.step "collect" WorkflowExample.tool [];
     WorkflowExample.step "publish" WorkflowExample.agent ["draft"; "collect"];
     WorkflowExample.step "draft" WorkflowExample.agent ["collect"]].
  split; [by_compute|].
  repeat constructor; try done; apply Permutation_swap.
Defined.

Lemma resolution_digest_binds_witness :
  let d := WorkflowExample.definition in
  ("stable" = "stable" ∧ 3 = 3 ∧ d ≡ d) ∨
  sha256_collision (payload (resolution_material d "stable" 3)) (payload (resolution_material d "stable" 3)) ∨
  sha256_collision (definition_payload d) (definition_payload d).
Proof.
  apply (resolution_digest_binds WorkflowExample.definition "stable" 3 WorkflowExample.definition "stable" 3);
    [exact WorkflowExample.definition_ok|reflexivity].
Defined.
