(* ===== verification/WorkflowCatalog.v ===== *)
(** Release control for immutable workflows:
    [arbora/control_plane/workflows/repository.py].

    The [WorkflowRepository] and [BindingRegistry] protocols are the classes of
    the same names. [WorkflowRepositoryLaws] states what a repository promises;
    the theorems about [WorkflowCatalog] are proved for any repository that
    keeps it, and [InMemoryWorkflowRepository] is an instance. A method of the
    repository holds the lock for its whole body, so it is one atomic step; the
    theorems about sequences of steps cover every interleaving of callers. *)
From S2P Require Export WorkflowDomain.
From stdpp Require Import lexico.
Local Open Scope Z_scope.

Definition WorkflowDomainError (code : string) : pyexn :=
  PyExn ["WorkflowDomainError"; "ValueError"] code "".
Definition WorkflowConflictError (code : string) : pyexn :=
  PyExn ["WorkflowConflictError"; "WorkflowDomainError"; "ValueError"] code "".
Definition WorkflowNotFoundError (code : string) : pyexn :=
  PyExn ["WorkflowNotFoundError"; "WorkflowDomainError"; "ValueError"] code "".

Record ReleasePointer := mkPointer {
  rp_workflow_id : string; rp_channel : string; rp_version : string;
  rp_definition_digest : string; rp_generation : Z }.
#[export] Instance ReleasePointer_eq_dec : EqDecision ReleasePointer.
Proof. solve_decision. Defined.

Definition validate_ReleasePointer (p : ReleasePointer) : result () :=
  _ ← check_field "workflow_id" (StableId (rp_workflow_id p));
  _ ← check_field "channel" (ChannelName (rp_channel p));
  _ ← check_field "version" (SemVer (rp_version p));
  _ ← check_field "definition_digest" (Digest (rp_definition_digest p));
  check_field "generation" (0 <=? rp_generation p).

(** ** Binding registries *)
Class BindingRegistry (B : Type) := is_approved : B → ApprovedBinding → bool.

Inductive RejectAllBindingRegistry := RejectAll.
#[export] Instance reject_all : BindingRegistry RejectAllBindingRegistry := λ _ _, false.

Record ExactBindingRegistry := mkRegistry { entries : gmap (string * string * string) ApprovedBinding }.

Definition registry_key (b : ApprovedBinding) : string * string * string :=
  (kind_str (ab_kind b), ab_binding_id b, ab_version b).

Definition add_binding (entries : gmap (string * string * string) ApprovedBinding)
    (b : ApprovedBinding) : result (gmap (string * string * string) ApprovedBinding) :=
  _ ← match entries !! registry_key b with
      | Some prior => raise_if (bool_decide (prior ≠ b)) (WorkflowConflictError "binding_identity_conflict")
      | None => mret ()
      end;
  Ok (<[registry_key b := b]> entries).

Definition ExactBindingRegistry_new (bindings : list ApprovedBinding) : result ExactBindingRegistry :=
  entries ← for_fold add_binding bindings ∅;
  Ok (mkRegistry entries).

#[export] Instance exact_registry : BindingRegistry ExactBindingRegistry := λ self binding,
  bool_decide (entries self !! registry_key binding = Some binding).

(** ** The repository protocol *)
Class WorkflowRepository (R : Type) := {
  repo_put_version : WorkflowDefinition → M R ();
  repo_get_version : R → string → string → option WorkflowDefinition;
  repo_read_pointer : R → string → string → option ReleasePointer;
  repo_compare_and_set_pointer :
    string → string → option ReleasePointer → string → string → M R ReleasePointer }.

(** ** The in-memory repository *)
Record InMemoryWorkflowRepository := mkRepository {
  versions : gmap (string * string) WorkflowDefinition;
  pointers : gmap (string * string) ReleasePointer;
  history : gmap (string * string) (list ReleasePointer) }.

Definition InMemoryWorkflowRepository_new : InMemoryWorkflowRepository := mkRepository ∅ ∅ ∅.

Definition put_version (definition : WorkflowDefinition) : M InMemoryWorkflowRepository () :=
  let key := (wd_workflow_id definition, wd_version definition) in
  self ← get_state;
  _ ← match versions self !! key with
      | Some prior => raise_if (bool_decide (definition_digest prior ≠ definition_digest definition))
                        (WorkflowConflictError "immutable_version_conflict")
      | None => mret ()
      end;
  put_state (mkRepository (<[key := definition]> (versions self)) (pointers self) (history self)).

Definition get_version (self : InMemoryWorkflowRepository) (workflow_id version : string) :
    option WorkflowDefinition := versions self !! (workflow_id, version).

Definition read_pointer (self : InMemoryWorkflowRepository) (workflow_id channel : string) :
    option ReleasePointer := pointers self !! (workflow_id, channel).

(** The pointer a successful compare-and-set installs over [current]. *)
Definition next_pointer (workflow_id channel version digest : string) (current : option ReleasePointer) :
    ReleasePointer :=
  mkPointer workflow_id channel version digest
    match current with None => 0 | Some p => rp_generation p + 1 end.

Definition compare_and_set_pointer (workflow_id channel : string) (expected : option ReleasePointer)
    (version digest : string) : M InMemoryWorkflowRepository ReleasePointer :=
  self ← get_state;
  let current := pointers self !! (workflow_id, channel) in
  _ ← raise_if (bool_decide (current ≠ expected)) (WorkflowConflictError "release_pointer_cas_conflict");
  definition ← require (versions self !! (workflow_id, version))
                 (WorkflowNotFoundError "immutable_version_missing");
  _ ← raise_if (bool_decide (definition_digest definition ≠ digest))
        (WorkflowConflictError "release_digest_mismatch");
  let pointer := next_pointer workflow_id channel version digest current in
  _ ← lift (validate_ReleasePointer pointer);
  _ ← put_state (mkRepository (versions self) (<[(workflow_id, channel) := pointer]> (pointers self))
        (<[(workflow_id, channel) := default [] (history self !! (workflow_id, channel)) ++ [pointer]]>
          (history self)));
  mret pointer.

Definition release_history (self : InMemoryWorkflowRepository) (workflow_id channel : string) :
    list ReleasePointer := default [] (history self !! (workflow_id, channel)).

#[export] Instance in_memory_workflow_repository : WorkflowRepository InMemoryWorkflowRepository :=
  {| repo_put_version := put_version; repo_get_version := get_version;
     repo_read_pointer := read_pointer; repo_compare_and_set_pointer := compare_and_set_pointer |}.

(** ** Channels and version order *)
Definition validate_channel (channel : string) : result string :=
  _ ← raise_if (bool_decide (channel = "") || bool_decide (channel ≠ py_strip channel))
        (WorkflowDomainError "channel_invalid");
  let pointer := mkPointer "workflow" channel "0.0.0"
    ("sha256:" +:+ String.string_of_list_ascii (repeat "0"%char 64)) 0 in
  match validate_ReleasePointer pointer with
  | Ok _ => Ok (rp_channel pointer)
  | Raise _ => Raise (WorkflowDomainError "channel_invalid")
  end.

(** [s.partition(c)]: what is before and after the first [c]. *)
Fixpoint partition_chars (c : ascii) (l : list ascii) : list ascii * list ascii :=
  match l with
  | [] => ([], [])
  | x :: l' => if bool_decide (x = c) then ([], l') else
      let '(before, after) := partition_chars c l' in (x :: before, after)
  end.

(** [s.split(c)] *)
Fixpoint split_chars (c : ascii) (l : list ascii) : list (list ascii) :=
  match l with
  | [] => [[]]
  | x :: l' =>
      match split_chars c l' with
      | field :: fields => if bool_decide (x = c) then [] :: field :: fields else (x :: field) :: fields
      | [] => [[x]]
      end
  end.

(** [int(part)] for the digit strings the version grammar leaves; the
    interpreter refuses more than 4300 digits. *)
Definition digit_value (c : ascii) : Z := Z.of_N (N_of_ascii c) - 48.
Definition decimal (l : list ascii) : Z := foldl (λ n c, 10 * n + digit_value c) 0 l.
Definition py_int (l : list ascii) : result Z :=
  _ ← raise_if (bool_decide (l = []) || negb (forallb digit l)) (ValueError "invalid literal for int()");
  _ ← raise_if (bool_decide (4300 < length l)%nat)
        (ValueError "Exceeds the limit (4300 digits) for integer string conversion");
  Ok (decimal l).

Definition version_order_key : Type := Z * (Z * (Z * (Z * list nat))).

Definition version_key (version : string) : result version_order_key :=
  let '(core, suffix) := partition_chars "-" (chars version) in
  let core := (partition_chars "+" core).1 in
  match split_chars "." core with
  | [p1; p2; p3] =>
      major ← py_int p1; minor ← py_int p2; patch ← py_int p3;
      Ok (major, (minor, (patch, (if bool_decide (suffix = []) then 1 else 0, map nat_of_ascii suffix))))
  | _ => Raise (ValueError "not enough values to unpack")
  end.

Definition is_prior_version (candidate current : string) : result bool :=
  if negb (SemVer candidate) || negb (SemVer current) then Ok false else
  k1 ← version_key candidate;
  k2 ← version_key current;
  Ok (bool_decide (lexico k1 k2)).

(** ** The catalog *)
Record WorkflowCatalog (R B : Type) := mkCatalog { repository : R; bindings : B }.
Arguments mkCatalog {R B} _ _.
Arguments repository {R B} _.
Arguments bindings {R B} _.

Section catalog.
Context {R B : Type} `{WorkflowRepository R, BindingRegistry B}.
Implicit Types self : WorkflowCatalog R B.

(** A call of a method of [self.repository] *)
Definition in_repository {A} (m : M R A) : M (WorkflowCatalog R B) A := λ self,
  let '(r, repo) := m (repository self) in (r, mkCatalog repo (bindings self)).

Definition all_bindings (d : WorkflowDefinition) : list ApprovedBinding :=
  wd_policy_binding d :: map ws_binding (wd_steps d) ++ omap ws_policy_binding (wd_steps d).

Definition validate_bindings self (d : WorkflowDefinition) : result () :=
  for_each (λ b, raise_if (negb (is_approved (bindings self) b))
                   (WorkflowDomainError "binding_unresolved_or_unapproved")) (all_bindings d).

Definition publish (definition : WorkflowDefinition) : M (WorkflowCatalog R B) string :=
  self ← get_state;
  _ ← lift (validate_bindings self definition);
  _ ← in_repository (repo_put_version definition);
  mret (definition_digest definition).

Definition release (definition : WorkflowDefinition) (channel : string)
    (expected : option ReleasePointer) : M (WorkflowCatalog R B) ReleasePointer :=
  channel ← lift (validate_channel channel);
  _ ← publish definition;
  in_repository (repo_compare_and_set_pointer (wd_workflow_id definition) channel expected
    (wd_version definition) (definition_digest definition)).

Definition resolve self (workflow_id channel : string) : result WorkflowResolution :=
  channel ← validate_channel channel;
  pointer ← require (repo_read_pointer (repository self) workflow_id channel)
              (WorkflowNotFoundError "release_pointer_missing");
  _ ← raise_if (bool_decide (rp_workflow_id pointer ≠ workflow_id) || bool_decide (rp_channel pointer ≠ channel))
        (WorkflowConflictError "release_pointer_identity_mismatch");
  definition ← require (repo_get_version (repository self) workflow_id (rp_version pointer))
                 (WorkflowNotFoundError "released_immutable_version_missing");
  _ ← raise_if (bool_decide (definition_digest definition ≠ rp_definition_digest pointer))
        (WorkflowConflictError "released_definition_digest_mismatch");
  _ ← validate_bindings self definition;
  let r := mkResolution definition channel (rp_generation pointer)
    (resolution_digest definition channel (rp_generation pointer)) in
  _ ← validate_WorkflowResolution r;
  Ok r.

Definition rollback (workflow_id channel prior_version : string) (expected : option ReleasePointer) :
    M (WorkflowCatalog R B) ReleasePointer :=
  channel ← lift (validate_channel channel);
  self ← get_state;
  let current := repo_read_pointer (repository self) workflow_id channel in
  _ ← raise_if (bool_decide (current ≠ expected)) (WorkflowConflictError "rollback_pointer_cas_conflict");
  pointer ← require current (AttributeError "version");
  prior ← lift (is_prior_version prior_version (rp_version pointer));
  _ ← raise_if (negb prior) (WorkflowConflictError "rollback_target_not_prior");
  target ← require (repo_get_version (repository self) workflow_id prior_version)
             (WorkflowNotFoundError "rollback_version_missing");
  _ ← lift (validate_bindings self target);
  in_repository (repo_compare_and_set_pointer workflow_id channel current (wd_version target)
    (definition_digest target)).

Definition summary self (workflow_id channel : string) : result WorkflowSummary :=
  resolution ← resolve self workflow_id channel;
  summary_projection (wr_definition resolution) (Some (wr_channel resolution))
    (Some (wr_pointer_generation resolution)).
End catalog.

(** * What a repository promises *)
Section laws.
Context {R : Type} `{WorkflowRepository R}.

(** Two states with the same versions and, off one channel, the same pointers. *)
Definition stores (r r' : R) (d : WorkflowDefinition) : Prop :=
  (∀ w v, repo_get_version r' w v =
     if decide (w = wd_workflow_id d ∧ v = wd_version d) then Some d else repo_get_version r w v) ∧
  ∀ w c, repo_read_pointer r' w c = repo_read_pointer r w c.

Definition points (r r' : R) (workflow_id channel : string) (p : ReleasePointer) : Prop :=
  (∀ w v, repo_get_version r' w v = repo_get_version r w v) ∧
  ∀ w c, repo_read_pointer r' w c =
    if decide (w = workflow_id ∧ c = channel) then Some p else repo_read_pointer r w c.

(** When a compare-and-set succeeds, and with which pointer. *)
Definition cas_enabled (r : R) (workflow_id channel : string) (expected : option ReleasePointer)
    (version digest : string) (p : ReleasePointer) : Prop :=
  repo_read_pointer r workflow_id channel = expected ∧
  (∃ d, repo_get_version r workflow_id version = Some d ∧ definition_digest d = digest) ∧
  p = next_pointer workflow_id channel version digest expected ∧
  validate_ReleasePointer p = Ok ().

Class WorkflowRepositoryLaws : Prop := {
  put_refused d r prior :
    repo_get_version r (wd_workflow_id d) (wd_version d) = Some prior →
    definition_digest prior ≠ definition_digest d →
    repo_put_version d r = (Raise (WorkflowConflictError "immutable_version_conflict"), r);
  put_stored d r :
    (∀ prior, repo_get_version r (wd_workflow_id d) (wd_version d) = Some prior →
       definition_digest prior = definition_digest d) →
    ∃ r', repo_put_version d r = (Ok (), r') ∧ stores r r' d;
  cas_ok w c expected v digest p r r' :
    repo_compare_and_set_pointer w c expected v digest r = (Ok p, r') →
    cas_enabled r w c expected v digest p ∧ points r r' w c p;
  cas_succeeds w c expected v digest p r :
    cas_enabled r w c expected v digest p →
    ∃ r', repo_compare_and_set_pointer w c expected v digest r = (Ok p, r');
  cas_raise w c expected v digest e r r' :
    repo_compare_and_set_pointer w c expected v digest r = (Raise e, r') → r' = r }.
End laws.
Arguments WorkflowRepositoryLaws R {_}.

Lemma put_version_run d self :
  put_version d self =
    match versions self !! (wd_workflow_id d, wd_version d) with
    | Some prior =>
        if bool_decide (definition_digest prior ≠ definition_digest d)
        then (Raise (WorkflowConflictError "immutable_version_conflict"), self)
        else (Ok (), mkRepository (<[(wd_workflow_id d, wd_version d) := d]> (versions self))
                       (pointers self) (history self))
    | None => (Ok (), mkRepository (<[(wd_workflow_id d, wd_version d) := d]> (versions self))
                        (pointers self) (history self))
    end.
Proof.
  unfold put_version. run_unfold.
  destruct (versions self !! _) as [prior|]; [|reflexivity]. destruct (bool_decide _); reflexivity.
Qed.

(** A successful compare-and-set of the in-memory repository. *)
Definition pointed (self : InMemoryWorkflowRepository) (p : ReleasePointer) : InMemoryWorkflowRepository :=
  let key := (rp_workflow_id p, rp_channel p) in
  mkRepository (versions self) (<[key := p]> (pointers self))
    (<[key := default [] (history self !! key) ++ [p]]> (history self)).

Lemma cas_run w c expected v digest self :
  (∃ p, compare_and_set_pointer w c expected v digest self = (Ok p, pointed self p) ∧
     cas_enabled self w c expected v digest p) ∨
  (∃ e, compare_and_set_pointer w c expected v digest self = (Raise e, self) ∧
     ∀ p, ¬ cas_enabled self w c expected v digest p).
Proof.
  unfold compare_and_set_pointer, cas_enabled. run_unfold.
  cbn [repo_read_pointer repo_get_version in_memory_workflow_repository].
  unfold read_pointer, get_version. case_bool_decide as Hc.
  { right. eexists. split; [reflexivity|]. by intros p (? & _). }
  rewrite Hc.
  destruct (versions self !! (w, v)) as [d|] eqn:Hd.
  2:{ right. eexists. split; [reflexivity|]. by intros p (_ & (? & ? & _) & _). }
  run_unfold. case_bool_decide as Hdig.
  { right. eexists. split; [reflexivity|]. intros p (_ & (d' & E & E') & _). by simplify_eq. }
  destruct (validate_ReleasePointer (next_pointer w c v digest expected)) as [[]|e] eqn:Hv.
  - left. exists (next_pointer w c v digest expected). split; [reflexivity|]. split; [done|]. split; [by exists d|done].
  - right. eexists. split; [reflexivity|]. intros p (_ & _ & -> & E). by rewrite Hv in E.
Qed.

Lemma lookup_pair_insert {A} (m : gmap (string * string) A) k1 k2 a x y :
  (<[(k1, k2) := a]> m) !! (x, y) = if decide (x = k1 ∧ y = k2) then Some a else m !! (x, y).
Proof.
  case_decide as E; [destruct E as [-> ->]; by rewrite lookup_insert_eq|].
  rewrite lookup_insert_ne; [done|]. intros [= -> ->]. by apply E.
Qed.

#[export] Instance in_memory_laws : WorkflowRepositoryLaws InMemoryWorkflowRepository.
Proof.
  split; cbn [repo_put_version repo_get_version repo_read_pointer repo_compare_and_set_pointer
    in_memory_workflow_repository]; unfold get_version.
  - intros d r prior E Hne. rewrite put_version_run, E. by rewrite bool_decide_eq_true_2.
  - intros d r Hp. rewrite put_version_run.
    assert (stores r (mkRepository (<[(wd_workflow_id d, wd_version d) := d]> (versions r))
                       (pointers r) (history r)) d) as Hs.
    { split; [|done]. intros w v. apply lookup_pair_insert. }
    destruct (versions r !! _) as [prior|] eqn:E; [|by eexists].
    rewrite bool_decide_eq_false_2; [by eexists|]. intros Hne. by apply Hne, Hp.
  - intros w c expected v digest p r r' E.
    destruct (cas_run w c expected v digest r) as [(p' & E' & Hen)|(e & E' & _)];
      rewrite E in E'; [|done]. injection E' as <- ->. split; [done|]. split; [done|].
    destruct Hen as (_ & _ & -> & _). intros w' c'. apply lookup_pair_insert.
  - intros w c expected v digest p r Hen.
    destruct (cas_run w c expected v digest r) as [(p' & -> & Hen')|(e & _ & Hno)]; [|by destruct (Hno p)].
    eexists. destruct Hen as (_ & _ & -> & _), Hen' as (_ & _ & -> & _). done.
  - intros w c expected v digest e r r' E.
    destruct (cas_run w c expected v digest r) as [(p' & E' & _)|(e' & E' & _)]; rewrite E in E'; [done|].
    by injection E'.
Qed.

(** * The catalog against the laws *)
Lemma channel_char_id c : lower c || digit c || one_of "._-" c = true → id_char c = true.
Proof. by destruct c as [[] [] [] [] [] [] [] []]. Qed.

Lemma validate_channel_ok channel c :
  validate_channel channel = Ok c ↔ c = channel ∧ ChannelName channel = true.
Proof.
  unfold validate_channel, validate_ReleasePointer, check_field.
  cbn [rp_workflow_id rp_channel rp_version rp_definition_digest rp_generation].
  assert (StableId "workflow" = true) as -> by by_compute.
  assert (SemVer "0.0.0" = true) as -> by by_compute.
  assert (Digest ("sha256:" +:+ String.string_of_list_ascii (repeat "0"%char 64)) = true) as -> by by_compute.
  split.
  - intros E. apply result_bind_ok in E as ([] & _ & E).
    destruct (ChannelName channel); [|discriminate E]. by injection E as <-.
  - intros [-> Hc]. rewrite Hc. pose proof Hc as (x & l & E & Hx & Hl & _)%class_then_upto.
    rewrite (bool_decide_eq_false_2 (channel = "")) by (by intros ->).
    rewrite (bool_decide_eq_false_2 (channel ≠ py_strip channel)); [reflexivity|].
    intros Hn. apply Hn. symmetry. apply id_chars_strip. rewrite E. constructor.
    + apply channel_char_id. by rewrite Hx.
    + eapply Forall_impl; [exact Hl|]. apply channel_char_id.
Qed.

Section catalog_laws.
Context {R B : Type} `{WorkflowRepository R, BindingRegistry B, !WorkflowRepositoryLaws R}.
Implicit Types self : WorkflowCatalog R B.

(** Every binding of the definition is approved. *)
Definition approved self (d : WorkflowDefinition) : Prop :=
  ∀ b, b ∈ all_bindings d → is_approved (bindings self) b = true.

Lemma catalog_bindings_ok self d : validate_bindings self d = Ok () ↔ approved self d.
Proof.
  unfold validate_bindings, approved. rewrite for_each_ok, Forall_forall.
  split; intros Hb b Hin; specialize (Hb b Hin); destruct (is_approved (bindings self) b); done.
Qed.

(** The version may be (re)published: no other content has its identity. *)
Definition publishable (r : R) (d : WorkflowDefinition) : Prop :=
  ∀ prior, repo_get_version r (wd_workflow_id d) (wd_version d) = Some prior →
    definition_digest prior = definition_digest d.

Lemma publish_cases self d :
  (approved self d ∧ publishable (repository self) d ∧ ∃ r', stores (repository self) r' d ∧
     publish d self = (Ok (definition_digest d), mkCatalog r' (bindings self))) ∨
  (∃ e, publish d self = (Raise e, self) ∧ (approved self d → ¬ publishable (repository self) d)).
Proof.
  unfold publish, in_repository. run_unfold.
  destruct (validate_bindings self d) as [[]|e] eqn:Hb.
  2:{ right. exists e. split; [done|]. intros Ha%catalog_bindings_ok. congruence. }
  apply catalog_bindings_ok in Hb.
  assert ({publishable (repository self) d} + {∃ prior,
    repo_get_version (repository self) (wd_workflow_id d) (wd_version d) = Some prior ∧
    definition_digest prior ≠ definition_digest d}) as [Hp|(prior & Hget & Hne)].
  { unfold publishable. destruct (repo_get_version _ _ _) as [prior|] eqn:E.
    - destruct (decide (definition_digest prior = definition_digest d)); [left|right; by exists prior].
      by intros ? [= <-].
    - by left. }
  - left. destruct (put_stored d (repository self) Hp) as (r' & -> & Hs).
    split; [done|]. split; [done|]. by exists r'.
  - right. rewrite (put_refused d _ prior Hget Hne). destruct self. eexists. split; [done|].
    intros _ Hp. by apply Hne, Hp.
Qed.

(** [release] either installs the pointer that follows [expected], or raises
    and leaves every pointer as it was. *)
Definition released self (self' : WorkflowCatalog R B) (d : WorkflowDefinition) (channel : string)
    (expected : option ReleasePointer) (p : ReleasePointer) : Prop :=
  ChannelName channel = true ∧ approved self d ∧ publishable (repository self) d ∧
  repo_read_pointer (repository self) (wd_workflow_id d) channel = expected ∧
  p = next_pointer (wd_workflow_id d) channel (wd_version d) (definition_digest d) expected ∧
  validate_ReleasePointer p = Ok () ∧ bindings self' = bindings self ∧
  (∀ w v, repo_get_version (repository self') w v =
     if decide (w = wd_workflow_id d ∧ v = wd_version d) then Some d
     else repo_get_version (repository self) w v) ∧
  ∀ w c, repo_read_pointer (repository self') w c =
    if decide (w = wd_workflow_id d ∧ c = channel) then Some p
    else repo_read_pointer (repository self) w c.

Lemma release_cases self d channel expected :
  (∃ p self', release d channel expected self = (Ok p, self') ∧ released self self' d channel expected p) ∨
  (∃ e self', release d channel expected self = (Raise e, self') ∧ bindings self' = bindings self ∧
     (∀ w c, repo_read_pointer (repository self') w c = repo_read_pointer (repository self) w c) ∧
     (self' = self ∨ stores (repository self) (repository self') d) ∧
     ∀ p self'', ¬ released self self'' d channel expected p).
Proof.
  unfold release, mbind, M_bind, lift.
  destruct (validate_channel channel) as [c|e] eqn:Hc.
  2:{ right. exists e, self. repeat (split; [by auto|]). intros p s (Hn & _).
      rewrite (proj2 (validate_channel_ok channel channel)) in Hc; done. }
  apply validate_channel_ok in Hc as [-> Hc]. cbn beta match.
  destruct (publish_cases self d) as [(Ha & Hp & r1 & [Hget Hread] & ->)|(e & -> & Hno)].
  2:{ right. exists e, self. repeat (split; [by auto|]). intros p s (_ & Ha & Hp & _). by apply Hno. }
  unfold in_repository. cbn [repository bindings].
  destruct (repo_compare_and_set_pointer _ _ _ _ _ r1) as [[p|e] r2] eqn:Hcas.
  - left. apply cas_ok in Hcas as [(E & _ & Hp' & Hv) [Hget2 Hread2]]. rewrite Hread in E.
    exists p, (mkCatalog r2 (bindings self)). split; [done|]. repeat (split; [done|]). cbn.
    split; intros x y; [by rewrite Hget2, Hget|by rewrite Hread2, Hread].
  - right. exists e, (mkCatalog r2 (bindings self)). apply cas_raise in Hcas as E. subst r2.
    split; [done|]. split; [done|]. split; [done|]. split; [by right|].
    intros p s (_ & _ & _ & E & Hp' & Hv & _).
    destruct (cas_succeeds (wd_workflow_id d) channel expected (wd_version d) (definition_digest d) p r1)
      as [r' E']; [|congruence].
    split; [by rewrite Hread|]. split; [|done]. exists d. rewrite Hget, decide_True; done.
Qed.

(** What [resolve] returns, and when. *)
Definition resolved self (workflow_id channel : string) (r : WorkflowResolution) : Prop :=
  ChannelName channel = true ∧
  (∃ p, repo_read_pointer (repository self) workflow_id channel = Some p ∧
     rp_workflow_id p = workflow_id ∧ rp_channel p = channel ∧
     repo_get_version (repository self) workflow_id (rp_version p) = Some (wr_definition r) ∧
     definition_digest (wr_definition r) = rp_definition_digest p ∧
     wr_pointer_generation r = rp_generation p) ∧
  approved self (wr_definition r) ∧ wr_channel r = channel ∧
  wr_resolution_digest r = resolution_digest (wr_definition r) channel (wr_pointer_generation r) ∧
  validate_WorkflowResolution r = Ok ().

Lemma catalog_resolve_ok self w c r : resolve self w c = Ok r ↔ resolved self w c r.
Proof.
  unfold resolve, resolved. split.
  - intros Hok. apply result_bind_ok in Hok as (c' & Hc & Hok). apply validate_channel_ok in Hc as [-> Hc].
    apply result_bind_ok in Hok as (p & Hp & Hok). apply result_bind_ok in Hok as ([] & Hid & Hok).
    apply result_bind_ok in Hok as (d & Hd & Hok). apply result_bind_ok in Hok as ([] & Hdig & Hok).
    apply result_bind_ok in Hok as ([] & Hb & Hok). apply result_bind_ok in Hok as ([] & Hv & Hok).
    guards. subst r. split; [done|]. split; [by exists p|].
    split; [by apply catalog_bindings_ok|]. done.
  - destruct r as [d c' n dig]. cbn [wr_definition wr_channel wr_pointer_generation wr_resolution_digest].
    intros (Hc & (p & Hp & Hw & Hch & Hd & Hdig & ->) & Hb & -> & -> & Hv).
    rewrite (proj2 (validate_channel_ok c c)) by done. cbn [mbind result_bind].
    rewrite Hp. cbn [require mbind result_bind mret result_ret].
    rewrite !bool_decide_eq_false_2 by (by intros []). cbn [orb raise_if mbind result_bind mret result_ret].
    rewrite Hd. cbn [require mbind result_bind mret result_ret].
    rewrite bool_decide_eq_false_2 by (by intros []). cbn [raise_if mbind result_bind mret result_ret].
    rewrite (proj2 (catalog_bindings_ok self d)) by done. cbn [mbind result_bind].
    by rewrite Hv.
Qed.
(** The rollback a caller is allowed to make: from the pointer it names, to a
    stored and still approved version that is lower. *)
Definition rolled_back self (self' : WorkflowCatalog R B) (workflow_id channel prior_version : string)
    (expected : option ReleasePointer) (p : ReleasePointer) : Prop :=
  ChannelName channel = true ∧
  (∃ current target, expected = Some current ∧
     repo_read_pointer (repository self) workflow_id channel = Some current ∧
     is_prior_version prior_version (rp_version current) = Ok true ∧
     repo_get_version (repository self) workflow_id prior_version = Some target ∧
     approved self target ∧
     cas_enabled (repository self) workflow_id channel expected (wd_version target)
       (definition_digest target) p) ∧
  bindings self' = bindings self ∧ points (repository self) (repository self') workflow_id channel p.

Lemma rollback_cases self workflow_id channel prior_version expected :
  (∃ p self', rollback workflow_id channel prior_version expected self = (Ok p, self') ∧
     rolled_back self self' workflow_id channel prior_version expected p) ∨
  (∃ e, rollback workflow_id channel prior_version expected self = (Raise e, self) ∧
     ∀ p self', ¬ rolled_back self self' workflow_id channel prior_version expected p).
Proof.
  unfold rollback, rolled_back. run_unfold.
  destruct (validate_channel channel) as [c|e] eqn:Hc.
  2:{ right. exists e. split; [done|]. intros p s (Hn & _).
      rewrite (proj2 (validate_channel_ok channel channel)) in Hc; done. }
  apply validate_channel_ok in Hc as [-> Hc].
  case_bool_decide as Hcur.
  { right. eexists. split; [reflexivity|]. intros p s (_ & (cur & tgt & E & E' & _) & _). congruence. }
  rewrite <- Hcur. destruct (repo_read_pointer (repository self) workflow_id channel) as [current|] eqn:Hp.
  2:{ right. eexists. split; [reflexivity|]. by intros p s (_ & (cur & tgt & E & _) & _). }
  run_unfold.
  destruct (is_prior_version prior_version (rp_version current)) as [[]|e] eqn:Hprior; cbn [negb]; run_unfold.
  2,3: right; eexists; (split; [reflexivity|]);
       intros p s (_ & (cur & tgt & [= <-] & _ & E & _) & _); congruence.
  destruct (repo_get_version (repository self) workflow_id prior_version) as [target|] eqn:Ht.
  2:{ right. eexists. split; [reflexivity|]. intros p s (_ & (cur & tgt & _ & _ & _ & E & _) & _). done. }
  run_unfold. destruct (validate_bindings self target) as [[]|e] eqn:Hb.
  2:{ right. exists e. split; [done|]. intros p s (_ & (cur & tgt & _ & _ & _ & [= <-] & Ha & _) & _).
      apply catalog_bindings_ok in Ha. congruence. }
  apply catalog_bindings_ok in Hb. unfold in_repository.
  destruct (repo_compare_and_set_pointer _ _ _ _ _ (repository self)) as [[p|e] r2] eqn:Hcas.
  - left. apply cas_ok in Hcas as [Hen Hpt]. exists p, (mkCatalog r2 (bindings self)).
    split; [done|]. split; [done|]. split; [by exists current, target|]. done.
  - right. apply cas_raise in Hcas as E. subst r2. exists e. split; [by destruct self|].
    intros p s (_ & (cur & tgt & _ & _ & _ & [= <-] & _ & Hen) & _).
    apply cas_succeeds in Hen as [r' E']. congruence.
Qed.
End catalog_laws.

(** * The in-memory repository over time *)

(** A call made by any of the repository's users; an exception goes to its caller. *)
Inductive repo_op :=
  | OpPut (d : WorkflowDefinition)
  | OpCas (workflow_id channel : string) (expected : option ReleasePointer) (version digest : string).

Definition run_op (r : InMemoryWorkflowRepository) (op : repo_op) : InMemoryWorkflowRepository :=
  match op with
  | OpPut d => (put_version d r).2
  | OpCas w c expected v digest => (compare_and_set_pointer w c expected v digest r).2
  end.
Definition run_ops (ops : list repo_op) (r : InMemoryWorkflowRepository) : InMemoryWorkflowRepository :=
  foldl run_op r ops.

(** The history of every channel is the sequence of its pointers, generation
    by generation, ending in the current one; each names a stored version. *)
Record repo_inv (r : InMemoryWorkflowRepository) : Prop := {
  ri_versions w v d : versions r !! (w, v) = Some d → wd_workflow_id d = w ∧ wd_version d = v;
  ri_pointer w c : read_pointer r w c = last (release_history r w c);
  ri_history w c i p : release_history r w c !! i = Some p →
    rp_generation p = Z.of_nat i ∧ rp_workflow_id p = w ∧ rp_channel p = c ∧
    validate_ReleasePointer p = Ok () ∧
    ∃ d, versions r !! (w, rp_version p) = Some d ∧ definition_digest d = rp_definition_digest p }.

(** Versions keep their content digest and histories only grow. *)
Definition repo_grows : relation InMemoryWorkflowRepository := λ r r',
  (∀ key d, versions r !! key = Some d → ∃ d', versions r' !! key = Some d' ∧ definition_digest d' = definition_digest d) ∧
  ∀ w c, release_history r w c `prefix_of` release_history r' w c.

#[export] Instance repo_grows_preorder : PreOrder repo_grows.
Proof.
  split.
  - intros r. split; [|done]. intros key d E. by exists d.
  - intros r1 r2 r3 [Hv1 Hh1] [Hv2 Hh2]. split; [|intros w c; etransitivity; [apply Hh1|apply Hh2]].
    intros key d (d1 & E1 & D1)%Hv1. destruct (Hv2 _ _ E1) as (d2 & E2 & D2). exists d2.
    split; [exact E2|congruence].
Qed.

Definition stored (r : InMemoryWorkflowRepository) (d : WorkflowDefinition) : InMemoryWorkflowRepository :=
  mkRepository (<[(wd_workflow_id d, wd_version d) := d]> (versions r)) (pointers r) (history r).

Lemma put_version_state r d :
  (put_version d r).2 = r ∨
  (put_version d r).2 = stored r d ∧
  ∀ prior, versions r !! (wd_workflow_id d, wd_version d) = Some prior →
    definition_digest prior = definition_digest d.
Proof.
  rewrite put_version_run. destruct (versions r !! _) as [prior|]; [|by right].
  case_bool_decide as Hd; [by left|right]. split; [done|]. by intros ? [= <-].
Qed.

Lemma stored_versions r d w v d0 :
  (∀ prior, versions r !! (wd_workflow_id d, wd_version d) = Some prior →
    definition_digest prior = definition_digest d) →
  versions r !! (w, v) = Some d0 →
  ∃ d', versions (stored r d) !! (w, v) = Some d' ∧ definition_digest d' = definition_digest d0.
Proof.
  intros Hsame E. cbn. rewrite lookup_pair_insert. case_decide as Hk; [|by exists d0].
  destruct Hk as [-> ->]. exists d. split; [done|]. symmetry. by apply Hsame.
Qed.

Lemma put_version_grows r d : repo_grows r (put_version d r).2.
Proof.
  destruct (put_version_state r d) as [->|[-> Hsame]]; [done|]. split; [|done].
  intros [w v] d0. by apply stored_versions.
Qed.

Lemma put_version_inv r d : repo_inv r → repo_inv (put_version d r).2.
Proof.
  destruct (put_version_state r d) as [->|[-> Hsame]]; [done|]. intros [Hv Hp Hh]. split; [|exact Hp|].
  - intros w v d0. cbn. rewrite lookup_pair_insert. case_decide as Hk; [|apply Hv].
    intros [= <-]. by destruct Hk.
  - intros w c i p (Hgen & Hw & Hc & Hval & d0 & E & Ed)%Hh. repeat (split; [done|]).
    rewrite <- Ed. by apply stored_versions.
Qed.

Lemma pointed_history r p w c :
  release_history (pointed r p) w c =
  if decide (w = rp_workflow_id p ∧ c = rp_channel p)
  then release_history r w c ++ [p] else release_history r w c.
Proof.
  unfold release_history. cbn. rewrite lookup_pair_insert. case_decide as Hk; [|done]. by destruct Hk as [-> ->].
Qed.

(** A compare-and-set leaves the state or appends the next pointer. *)
Lemma cas_state r w c expected v digest :
  (compare_and_set_pointer w c expected v digest r).2 = r ∨
  ∃ p, (compare_and_set_pointer w c expected v digest r).2 = pointed r p ∧
       cas_enabled r w c expected v digest p.
Proof.
  destruct (cas_run w c expected v digest r) as [(p & -> & Hen)|(e & -> & _)]; [right; by exists p|by left].
Qed.

Lemma pointed_grows r p : repo_grows r (pointed r p).
Proof.
  split; [intros key d E; by exists d|]. intros w c. rewrite pointed_history.
  case_decide; [by apply prefix_app_r|done].
Qed.

Lemma pointed_inv r w c expected v digest p :
  repo_inv r → cas_enabled r w c expected v digest p → repo_inv (pointed r p).
Proof.
  intros [Hv Hp Hh] (Hcur & (d & Hd & Hdig) & -> & Hval). split; [exact Hv| |].
  - intros w' c'. rewrite pointed_history. unfold read_pointer. cbn. rewrite lookup_pair_insert.
    case_decide; [by rewrite last_snoc|apply Hp].
  - intros w' c' i p. rewrite pointed_history. case_decide as Hk; [|apply Hh].
    destruct Hk as [-> ->]. cbn. intros E. apply lookup_app_Some in E as [E|[Hi E]]; [by apply Hh|].
    apply list_lookup_singleton_Some in E as [E <-]. cbn. split; [|by repeat (split; [done|]); exists d].
    assert (i = length (release_history r w c)) as -> by (cbn in *; lia). clear E Hi.
    cbn in Hcur. rewrite Hp in Hcur. rewrite <- Hcur.
    destruct (last (release_history r w c)) as [q|] eqn:El.
    + rewrite last_lookup in El. destruct (Hh _ _ _ _ El) as [-> _].
      destruct (release_history r w c); cbn in *; [done|lia].
    + apply last_None in El. by rewrite El.
Qed.

Lemma run_op_inv r op : repo_inv r → repo_inv (run_op r op).
Proof.
  destruct op as [d|w c expected v digest]; cbn; [apply put_version_inv|].
  destruct (cas_state r w c expected v digest) as [->|(p & -> & Hen)]; [done|]. intros Hr. by eapply pointed_inv.
Qed.

Lemma run_op_grows r op : repo_grows r (run_op r op).
Proof.
  destruct op as [d|w c expected v digest]; cbn; [apply put_version_grows|].
  destruct (cas_state r w c expected v digest) as [->|(p & -> & _)]; [done|apply pointed_grows].
Qed.

Lemma run_ops_inv ops r : repo_inv r → repo_inv (run_ops ops r).
Proof. revert r. induction ops as [|op ops IH]; intros r Hr; [done|]. by apply IH, run_op_inv. Qed.
Lemma run_ops_grows ops r : repo_grows r (run_ops ops r).
Proof.
  revert r. induction ops as [|op ops IH]; intros r; [done|].
  etransitivity; [apply (run_op_grows r op)|apply IH].
Qed.

Lemma new_repository_inv : repo_inv InMemoryWorkflowRepository_new.
Proof. split; by intros. Qed.

(** A pointer that was replaced never becomes current again. *)
Lemma pointer_never_returns r r' w c expected v digest p ops :
  repo_inv r → compare_and_set_pointer w c expected v digest r = (Ok p, r') →
  read_pointer (run_ops ops r') w c ≠ expected.
Proof.
  intros Hinv Hcas Heq.
  destruct (cas_run w c expected v digest r) as [(p' & E & Hen)|(e & E & _)]; rewrite Hcas in E; [|done].
  injection E as <- ->. pose proof (pointed_inv _ _ _ _ _ _ _ Hinv Hen) as Hinv1.
  pose proof (run_ops_inv ops _ Hinv1) as Hinv2. destruct (run_ops_grows ops (pointed r p)) as [_ Hg].
  destruct (Hg w c) as [k Hk]. rewrite pointed_history in Hk.
  destruct Hen as (Hcur & _ & -> & _). rewrite decide_True in Hk by done.
  set (r2 := run_ops ops _) in *. rewrite (ri_pointer _ Hinv2), last_lookup in Heq.
  cbn in Hcur. rewrite (ri_pointer _ Hinv), last_lookup in Hcur. rewrite <- Hcur in Heq.
  assert (length (release_history r w c) < length (release_history r2 w c))%nat as Hlen.
  { rewrite Hk, !length_app. cbn. lia. }
  destruct (release_history r2 w c !! pred (length (release_history r2 w c))) as [q|] eqn:E2.
  - symmetry in Heq. destruct (ri_history _ Hinv2 _ _ _ _ E2) as [G2 _].
    destruct (ri_history _ Hinv _ _ _ _ Heq) as [G1 _]. apply lookup_lt_Some in Heq. lia.
  - apply lookup_ge_None in E2. lia.
Qed.

(** * The exact registry *)
(** The conflict [__init__] refuses: one identity, two bindings. *)
Definition consistent (bs : list ApprovedBinding) : Prop :=
  ∀ b1 b2, b1 ∈ bs → b2 ∈ bs → registry_key b1 = registry_key b2 → b1 = b2.

Lemma add_bindings bs m :
  (∀ k b, m !! k = Some b → registry_key b = k) →
  (∃ m', for_fold add_binding bs m = Ok m' ∧
     (∀ k b, m' !! k = Some b → registry_key b = k) ∧
     (∀ b, m' !! registry_key b = Some b ↔ b ∈ bs ∨ m !! registry_key b = Some b)) ∨
  (for_fold add_binding bs m = Raise (WorkflowConflictError "binding_identity_conflict") ∧
     ∃ b1 b2, b1 ∈ bs ∧ (b2 ∈ bs ∨ m !! registry_key b2 = Some b2) ∧
       registry_key b1 = registry_key b2 ∧ b1 ≠ b2).
Proof.
  revert m. induction bs as [|b bs IH]; intros m Hm.
  { left. exists m. split; [done|]. split; [done|]. set_solver. }
  cbn [for_fold].
  assert ({∃ b', m !! registry_key b = Some b' ∧ b' ≠ b} + {∀ b', m !! registry_key b = Some b' → b' = b})
    as [(b' & E & Hne)|Hsame].
  { destruct (m !! registry_key b) as [b'|]; [|by right]. destruct (decide (b' = b)) as [->|].
    - right. by intros ? [= <-].
    - left. by exists b'. }
  - right. assert (add_binding m b = Raise (WorkflowConflictError "binding_identity_conflict")) as ->.
    { unfold add_binding. by rewrite E, bool_decide_eq_true_2. }
    split; [done|]. exists b, b'.
    split; [left|]. pose proof (Hm _ _ E) as Ek. split; [right; by rewrite Ek|]. done.
  - assert (add_binding m b = Ok (<[registry_key b := b]> m)) as ->.
    { unfold add_binding. destruct (m !! registry_key b) as [b'|]; [|done]. rewrite (Hsame b' eq_refl).
      by rewrite bool_decide_eq_false_2 by (by intros []). }
    cbn [mbind result_bind].
    assert (Hins : ∀ b0, <[registry_key b := b]> m !! registry_key b0 = Some b0 ↔
      b0 = b ∨ m !! registry_key b0 = Some b0).
    { intros b0. rewrite lookup_insert_Some. split.
      - intros [[_ ->]|[_ ?]]; auto.
      - intros [->|E]; [by left|]. destruct (decide (registry_key b = registry_key b0)) as [Ek|]; [|by right].
        left. split; [done|]. symmetry. apply Hsame. by rewrite Ek. }
    destruct (IH (<[registry_key b := b]> m)) as [(m' & -> & Hk & Hin)|(-> & b1 & b2 & H1 & H2 & Hk & Hne)].
    + intros k b0 [[<- <-]|[_ ?%Hm]]%lookup_insert_Some; done.
    + left. exists m'. split; [done|]. split; [done|]. intros b0. rewrite Hin, Hins, elem_of_cons. tauto.
    + right. split; [done|]. exists b1, b2. rewrite Hins in H2. rewrite !elem_of_cons. tauto.
Qed.

(** * The version order *)

(** [s] is [a.b.c] followed by [rest], which starts a suffix if it is not empty. *)
Record version_parts (s : string) (a b c rest : list ascii) : Prop := {
  vp_split : chars s = a ++ "."%char :: b ++ "."%char :: c ++ rest;
  vp_digits : ∀ n, n ∈ [a; b; c] → n ≠ [] ∧ is_true_all digit n;
  vp_rest : rest = [] ∨ ∃ x l, rest = x :: l ∧ (x = "-"%char ∨ x = "+"%char) }.

Lemma star_class f l : re_lang (RStar (RClass f)) l → is_true_all f l.
Proof.
  intros H. remember (RStar (RClass f)) as r eqn:E.
  induction H as [| | | | | |r l1 l2 H1 _ H2 IH2| |]; try discriminate E; [constructor|].
  injection E as ->. inv H1. constructor; [done|]. by apply IH2.
Qed.

Lemma numeric_part_digits l : re_lang numeric_part l → l ≠ [] ∧ is_true_all digit l.
Proof.
  intros H. inversion H as [| | |? ? ? H1|? ? ? H1| | | |]; subst.
  - apply (lang_lit (chars "0")) in H1 as ->. split; [done|by repeat constructor].
  - inversion H1 as [| |? ? l1 l2 H2 H3| | | | | |]; subst. inversion H2 as [|? c Hc| | | | | | |]; subst.
    split; [done|]. constructor; [|by apply star_class].
    revert Hc. by destruct c as [[] [] [] [] [] [] [] []].
Qed.

Lemma opt_suffix_head c l :
  re_lang (ROpt (RCat (RLit [c]) dotted_idents)) l → l = [] ∨ ∃ l', l = c :: l'.
Proof.
  intros H. inversion H as [| | |? ? ? H1|? ? ? H1| | | |]; subst; [left; by inv H1|right].
  apply lang_cat_inv in H1 as (l1 & l2 & -> & ->%(lang_lit [c]) & _). by eexists.
Qed.

Lemma SemVer_parts s : SemVer s = true → ∃ a b c rest, version_parts s a b c rest.
Proof.
  intros H%re_match_correct. unfold VERSION_RE in H.
  apply lang_cat_inv in H as (a & l1 & E1 & Ha & H). apply lang_cat_inv in H as (d1 & l2 & E2 & ->%lang_lit & H).
  apply lang_cat_inv in H as (b & l3 & E3 & Hb & H). apply lang_cat_inv in H as (d2 & l4 & E4 & ->%lang_lit & H).
  apply lang_cat_inv in H as (c & l5 & E5 & Hc & H). apply lang_cat_inv in H as (p & q & E6 & Hp & Hq).
  exists a, b, c, l5. split.
  - rewrite E1, E2, E3, E4, E5. done.
  - intros n Hn. rewrite !elem_of_cons in Hn. destruct Hn as [->|[->|[->|[]%not_elem_of_nil]]];
      by apply numeric_part_digits.
  - rewrite E6. apply opt_suffix_head in Hp as [->|[p' ->]]; [|right; by exists "-"%char, (p' ++ q); auto].
    apply opt_suffix_head in Hq as [->|[q' ->]]; [by left|right]. exists "+"%char, q'. auto.
Qed.

Lemma partition_skip c l r : Forall (λ x, x ≠ c) l →
  partition_chars c (l ++ r) = (l ++ (partition_chars c r).1, (partition_chars c r).2).
Proof.
  induction 1 as [|x l Hx _ IH]; cbn; [by destruct (partition_chars c r)|].
  rewrite bool_decide_eq_false_2 by done. by rewrite IH.
Qed.

Lemma split_skip c l r : Forall (λ x, x ≠ c) l → split_chars c (l ++ c :: r) = l :: split_chars c r.
Proof.
  induction 1 as [|x l Hx _ IH]; cbn.
  - destruct (split_chars c r) eqn:E; [|by rewrite bool_decide_eq_true_2].
    exfalso. destruct r as [|x r]; cbn in E; [done|]. destruct (split_chars c r); [done|]. by case_bool_decide.
  - rewrite IH. by rewrite bool_decide_eq_false_2.
Qed.

Lemma split_last c l : Forall (λ x, x ≠ c) l → split_chars c l = [l].
Proof. induction 1 as [|x l Hx _ IH]; cbn; [done|]. rewrite IH. by rewrite bool_decide_eq_false_2. Qed.

Lemma py_int_digits l : l ≠ [] → is_true_all digit l → (length l ≤ 4300)%nat → py_int l = Ok (decimal l).
Proof.
  intros Hne Hd Hlen. unfold py_int. rewrite (bool_decide_eq_false_2 (l = [])) by done.
  assert (forallb digit l = true) as -> by (apply forallb_forall, List.Forall_forall; exact Hd).
  by rewrite (bool_decide_eq_false_2 (4300 < length l)%nat) by lia.
Qed.

Lemma digits_avoid c l : digit c = false → is_true_all digit l → Forall (λ x, x ≠ c) l.
Proof. intros Hc Hl. eapply Forall_impl; [exact Hl|]. intros x Hx ->. by rewrite Hx in Hc. Qed.

(** The key of a version: its numeric fields, releases after prereleases, and
    what follows the first hyphen. *)
Definition order_key (a b c rest : list ascii) : version_order_key :=
  let suffix := (partition_chars "-" rest).2 in
  (decimal a, (decimal b, (decimal c, (if bool_decide (suffix = []) then 1 else 0, map nat_of_ascii suffix)))).

Definition convertible (ns : list (list ascii)) : Prop := Forall (λ n : list ascii, (length n ≤ 4300)%nat) ns.

Lemma version_key_parts s a b c rest :
  version_parts s a b c rest → convertible [a; b; c] → version_key s = Ok (order_key a b c rest).
Proof.
  intros [Hs Hd Hr] Hlen. unfold convertible in Hlen. rewrite !Forall_cons in Hlen. destruct Hlen as (La & Lb & Lc & _).
  destruct (Hd a) as [Na Da]; [by left|]. destruct (Hd b) as [Nb Db]; [by right; left|].
  destruct (Hd c) as [Nc Dc]; [by right; right; left|].
  assert (Hcore : ∀ x, digit x = false → x ≠ "."%char → Forall (λ y, y ≠ x) (a ++ "."%char :: b ++ "."%char :: c)).
  { intros x Hx Hdot. rewrite !Forall_app, !Forall_cons, !Forall_app, !Forall_cons.
    repeat split; try (by apply digits_avoid); by intros <-. }
  assert (chars s = (a ++ "."%char :: b ++ "."%char :: c) ++ rest) as E.
  { rewrite Hs, <- app_assoc. cbn. by rewrite <- app_assoc. }
  unfold version_key. rewrite E, partition_skip by (by apply Hcore).
  rewrite partition_skip by (by apply Hcore). cbn [fst snd].
  assert ((partition_chars "+" (partition_chars "-" rest).1).1 = []) as ->.
  { destruct Hr as [->|(x & l & -> & [->| ->])]; cbn; [done..|].
    destruct (partition_chars "-" l). done. }
  rewrite app_nil_r, !split_skip, split_last by (by apply digits_avoid).
  by rewrite !py_int_digits.
Qed.

Lemma is_prior_version_parts s1 a1 b1 c1 r1 s2 a2 b2 c2 r2 :
  SemVer s1 = true → SemVer s2 = true →
  version_parts s1 a1 b1 c1 r1 → version_parts s2 a2 b2 c2 r2 →
  convertible [a1; b1; c1] → convertible [a2; b2; c2] →
  is_prior_version s1 s2 = Ok (bool_decide (lexico (order_key a1 b1 c1 r1) (order_key a2 b2 c2 r2))).
Proof.
  intros Hs1 Hs2 Hp1 Hp2 Hl1 Hl2. unfold is_prior_version. rewrite Hs1, Hs2. cbn [negb orb].
  by rewrite (version_key_parts _ _ _ _ _ Hp1), (version_key_parts _ _ _ _ _ Hp2).
Qed.

Lemma is_prior_version_true s1 s2 :
  is_prior_version s1 s2 = Ok true ↔
  SemVer s1 = true ∧ SemVer s2 = true ∧
  ∃ k1 k2, version_key s1 = Ok k1 ∧ version_key s2 = Ok k2 ∧ lexico k1 k2.
Proof.
  unfold is_prior_version. destruct (SemVer s1), (SemVer s2); cbn [negb orb];
    [|by split; [|intros (? & ? & _)]..].
  destruct (version_key s1) as [k1|e1]; cbn [mbind result_bind];
    [|split; [done|by intros (_ & _ & ? & ? & ? & _)]].
  destruct (version_key s2) as [k2|e2]; cbn [mbind result_bind];
    [|split; [done|by intros (_ & _ & ? & ? & _ & ? & _)]].
  split.
  - intros [= E%bool_decide_eq_true]. split; [done|]. split; [done|]. by exists k1, k2.
  - intros (_ & _ & ? & ? & [= <-] & [= <-] & Hl). by rewrite bool_decide_eq_true_2.
Qed.

(** * Properties *)

(** Whatever its users do and in whatever order their calls interleave, the
    repository keeps its audit trail: the history of a channel lists its
    pointers with generations 0, 1, 2, ... of that workflow and channel, the
    last one is the current pointer, each names a stored version with the
    recorded digest, versions are stored under their own identity and keep
    their digest, and histories only grow. *)
Theorem repository_history ops ops' :
  let r := run_ops ops InMemoryWorkflowRepository_new in
  let r' := run_ops ops' r in
  repo_inv r ∧ repo_grows r r'.
Proof. split; [apply run_ops_inv, new_repository_inv|apply run_ops_grows]. Qed.

(** Compare-and-set is a fence: once a caller has replaced the pointer
    [expected] of a channel, every later attempt that still expects it raises
    [release_pointer_cas_conflict] and changes nothing, whatever calls of
    other users came in between; of two competing releases or rollbacks at most
    one wins. *)
Theorem cas_fences ops ops' w c expected v digest p r' v2 digest2 :
  compare_and_set_pointer w c expected v digest (run_ops ops InMemoryWorkflowRepository_new) = (Ok p, r') →
  compare_and_set_pointer w c expected v2 digest2 (run_ops ops' r') =
    (Raise (WorkflowConflictError "release_pointer_cas_conflict"), run_ops ops' r').
Proof.
  intros Hcas.
  pose proof (pointer_never_returns _ _ _ _ _ _ _ _ ops' (run_ops_inv ops _ new_repository_inv) Hcas) as Hne.
  unfold compare_and_set_pointer. run_unfold. by rewrite bool_decide_eq_true_2.
Qed.

(** C20: [release] on any lawful repository: it returns exactly when the channel
    name is valid, every binding is approved, the version is new or unchanged
    and the channel's pointer is the expected one; then it stores the version
    and moves that channel only, to the next generation. When it raises, every
    pointer is as before, and at most the version has been stored. *)
Theorem release_spec {R B : Type} `{WorkflowRepository R, BindingRegistry B, !WorkflowRepositoryLaws R}
    (self : WorkflowCatalog R B) d channel expected :
  match release d channel expected self with
  | (Ok p, self') => released self self' d channel expected p
  | (Raise e, self') =>
      (∀ w c, repo_read_pointer (repository self') w c = repo_read_pointer (repository self) w c) ∧
      (self' = self ∨ stores (repository self) (repository self') d) ∧
      ∀ p self'', ¬ released self self'' d channel expected p
  end.
Proof.
  by destruct (release_cases self d channel expected)
    as [(p & self' & -> & Hr)|(e & self' & -> & _ & Hp & Hs & Hn)].
Qed.

(** What is released is what resolves: after a release of an accepted
    definition, the channel resolves to that very definition with the pointer's
    generation, and the resolution carries its digest. *)
Theorem release_resolves {R B : Type} `{WorkflowRepository R, BindingRegistry B, !WorkflowRepositoryLaws R}
    (self self' : WorkflowCatalog R B) d channel expected p :
  validate_WorkflowDefinition d = Ok () →
  release d channel expected self = (Ok p, self') →
  resolve self' (wd_workflow_id d) channel =
    Ok (mkResolution d channel (rp_generation p) (resolution_digest d channel (rp_generation p))).
Proof.
  intros Hd Hrel. destruct (release_cases self d channel expected)
    as [(p0 & s0 & E & Hr)|(e & s0 & E & _)]; rewrite Hrel in E; [injection E as <- <-|discriminate E].
  destruct Hr as (Hc & Ha & _ & Hexp & Hp & Hv & Hb & Hget & Hread).
  apply catalog_resolve_ok. split; [done|]. cbn [wr_definition wr_channel wr_pointer_generation wr_resolution_digest].
  split; [|split; [unfold approved in *; by rewrite Hb|split; [done|split; [done|]]]].
  - exists p. rewrite Hread, Hget, Hp. cbn. rewrite !decide_True by done. done.
  - unfold validate_WorkflowResolution.
    cbn [wr_definition wr_channel wr_pointer_generation wr_resolution_digest]. rewrite Hd, Hc.
    unfold validate_ReleasePointer in Hv. guards. rewrite check_field_ok in Hv. rewrite Hv.
    rewrite resolution_digest_Digest. unfold digest_is_authoritative. cbn -[resolution_digest].
    by rewrite bool_decide_eq_false_2 by (by intros []).
Qed.

(** [resolve] returns exactly the definition the channel's pointer names,
    re-checked: stored under the pointer's version, with the recorded digest,
    all bindings approved now, and with the digest of the resolution. *)
Theorem resolve_spec {R B : Type} `{WorkflowRepository R, BindingRegistry B, !WorkflowRepositoryLaws R}
    (self : WorkflowCatalog R B) workflow_id channel r :
  resolve self workflow_id channel = Ok r ↔ resolved self workflow_id channel r.
Proof. apply catalog_resolve_ok. Qed.

(** [rollback] on any lawful repository: it returns exactly when the
    channel is valid, the caller names the current pointer, the target version
    is prior, stored and still approved, and then it moves that channel only,
    forward by one generation to the stored target; otherwise it raises and
    changes nothing. *)
Theorem rollback_spec {R B : Type} `{WorkflowRepository R, BindingRegistry B, !WorkflowRepositoryLaws R}
    (self : WorkflowCatalog R B) workflow_id channel prior_version expected :
  match rollback workflow_id channel prior_version expected self with
  | (Ok p, self') => rolled_back self self' workflow_id channel prior_version expected p
  | (Raise e, self') => self' = self ∧
      ∀ p self'', ¬ rolled_back self self'' workflow_id channel prior_version expected p
  end.
Proof.
  by destruct (rollback_cases self workflow_id channel prior_version expected)
    as [(p & self' & -> & Hr)|(e & -> & Hn)].
Qed.

(** The exact registry approves exactly the bindings it was built from, and
    is refused with [binding_identity_conflict] exactly when two different
    bindings share kind, id and version. *)
Theorem exact_registry_spec bs :
  match ExactBindingRegistry_new bs with
  | Ok registry => consistent bs ∧ ∀ b, is_approved registry b = true ↔ b ∈ bs
  | Raise e => e = WorkflowConflictError "binding_identity_conflict" ∧ ¬ consistent bs
  end.
Proof.
  unfold ExactBindingRegistry_new.
  destruct (add_bindings bs ∅) as [(m & -> & Hk & Hin)|(-> & b1 & b2 & H1 & H2 & Hk & Hne)]; [done|cbn..].
  - assert (Hb : ∀ b, m !! registry_key b = Some b ↔ b ∈ bs).
    { intros b. rewrite Hin, lookup_empty. naive_solver. }
    split.
    + intros b1 b2 H1%Hb H2%Hb E. rewrite E in H1. congruence.
    + intros b. unfold is_approved, exact_registry. cbn. by rewrite bool_decide_eq_true.
  - split; [done|]. intros Hc. apply Hne, Hc; [done| |done]. destruct H2 as [?|H2]; [done|].
    by rewrite lookup_empty in H2.
Qed.

(** "Prior" is a strict order on versions that follows the numeric fields
    and puts a prerelease before its release: no version is prior to itself,
    the relation is transitive, versions with convertible numeric fields are
    compared without an exception, by those fields first, and equal fields
    make a version with a hyphenated suffix prior to one without. *)
Theorem is_prior_version_order :
  (∀ v, is_prior_version v v ≠ Ok true) ∧
  (∀ u v w, is_prior_version u v = Ok true → is_prior_version v w = Ok true → is_prior_version u w = Ok true) ∧
  ∀ s1 s2, SemVer s1 = true → SemVer s2 = true →
    ∃ a1 b1 c1 r1 a2 b2 c2 r2, version_parts s1 a1 b1 c1 r1 ∧ version_parts s2 a2 b2 c2 r2 ∧
      (convertible [a1; b1; c1] → convertible [a2; b2; c2] →
       let k1 := (decimal a1, (decimal b1, decimal c1)) in
       let k2 := (decimal a2, (decimal b2, decimal c2)) in
       (lexico k1 k2 → is_prior_version s1 s2 = Ok true) ∧
       (lexico k2 k1 → is_prior_version s1 s2 = Ok false) ∧
       (k1 = k2 → (partition_chars "-" r1).2 ≠ [] → (partition_chars "-" r2).2 = [] →
        is_prior_version s1 s2 = Ok true)).
Proof.
  split; [|split].
  - intros v (_ & _ & k1 & k2 & E1 & E2 & Hl)%is_prior_version_true.
    rewrite E1 in E2. injection E2 as <-. by apply (irreflexivity lexico k1).
  - intros u v w (Hu & Hv & k1 & k2 & E1 & E2 & Hl)%is_prior_version_true
      (_ & Hw & k2' & k3 & E2' & E3 & Hl')%is_prior_version_true.
    rewrite E2 in E2'. injection E2' as <-. apply is_prior_version_true.
    split; [done|]. split; [done|]. exists k1, k3. split; [done|]. split; [done|].
    by transitivity k2.
  - intros s1 s2 Hs1 Hs2. destruct (SemVer_parts s1 Hs1) as (a1 & b1 & c1 & r1 & Hp1).
    destruct (SemVer_parts s2 Hs2) as (a2 & b2 & c2 & r2 & Hp2).
    exists a1, b1, c1, r1, a2, b2, c2, r2. split; [done|]. split; [done|]. intros Hl1 Hl2.
    rewrite (is_prior_version_parts _ _ _ _ _ _ _ _ _ _ Hs1 Hs2 Hp1 Hp2 Hl1 Hl2).
    unfold order_key, lexico, prod_lexico, Z_lexico, lexico. cbn [fst snd]. split; [|split].
    + intros Hlt. rewrite bool_decide_eq_true_2; [done|]. tauto.
    + intros Hlt. rewrite bool_decide_eq_false_2; [done|]. intros Hlt'. lia.
    + intros [= -> -> ->] H1 H2. rewrite H2, (bool_decide_eq_false_2 (_ = [])) by done.
      rewrite (bool_decide_eq_true_2 (@nil ascii = [])) by done. rewrite bool_decide_eq_true_2; [done|]. lia.
Qed.

(** * A concrete release history *)
Module CatalogExample.
Import WorkflowExample.
Definition registry : ExactBindingRegistry :=
  match ExactBindingRegistry_new [policy; agent; tool] with Ok r => r | Raise _ => mkRegistry ∅ end.
Notation catalog := (WorkflowCatalog InMemoryWorkflowRepository ExactBindingRegistry).
Definition start : catalog := mkCatalog InMemoryWorkflowRepository_new registry.
Definition v1 : WorkflowDefinition := definition.
Definition v2 : WorkflowDefinition := definition_of "1.1.0" (take 2 (reverse steps)).
Definition pointer1 : ReleasePointer := mkPointer "workflow:report" "stable" "1.0.0" (definition_digest v1) 0.
Definition pointer2 : ReleasePointer := mkPointer "workflow:report" "stable" "1.1.0" (definition_digest v2) 1.
Definition after1 : catalog := (release v1 "stable" None start).2.
Definition after2 : catalog := (release v2 "stable" (Some pointer1) after1).2.

Lemma release1 : release v1 "stable" None start = (Ok pointer1, after1).
Proof. reflexivity. Qed.
Lemma v2_accepted : validate_WorkflowDefinition v2 = Ok ().
Proof. by_compute. Qed.

Definition repo1 : InMemoryWorkflowRepository := repository after1.
Lemma cas1 :
  compare_and_set_pointer "workflow:report" "stable" None "1.0.0" (definition_digest v1)
    (run_ops [OpPut v1] InMemoryWorkflowRepository_new) = (Ok pointer1, repo1).
Proof. vm_compute. reflexivity. Qed.

(** Build metadata is part of the order when it has a hyphen: the comment in
    [_is_prior_version] says it is not. *)
Example build_metadata_is_compared : is_prior_version "1.0.0+a-b" "1.0.0" = Ok true.
Proof. by_compute. Qed.
Example prerelease_first : is_prior_version "1.0.0-rc" "1.0.0" = Ok true.
Proof. by_compute. Qed.
Example numeric_order : is_prior_version "1.9.0" "1.10.0" = Ok true.
Proof. by_compute. Qed.
Example alias_is_not_prior : is_prior_version "latest" "1.0.0" = Ok false.
Proof. by_compute. Qed.
End CatalogExample.

Lemma repository_history_witness :
  repo_inv (run_ops [OpPut CatalogExample.v1] InMemoryWorkflowRepository_new).
Proof. exact (proj1 (repository_history [OpPut CatalogExample.v1] [])). Defined.

Lemma cas_fences_witness :
  let cas := compare_and_set_pointer "workflow:report" "stable" None "1.0.0"
               (definition_digest CatalogExample.v1) in
  cas CatalogExample.repo1 = (Raise (WorkflowConflictError "release_pointer_cas_conflict"), CatalogExample.repo1).
Proof.
  exact (cas_fences [OpPut CatalogExample.v1] [] _ _ _ _ _ _ _ "1.0.0" (definition_digest CatalogExample.v1)
    CatalogExample.cas1).
Defined.

Lemma release_spec_witness :
  released CatalogExample.start CatalogExample.after1 CatalogExample.v1 "stable" None CatalogExample.pointer1.
Proof.
  pose proof (release_spec CatalogExample.start CatalogExample.v1 "stable" None) as H.
  rewrite CatalogExample.release1 in H. exact H.
Defined.

Lemma release_resolves_witness :
  resolve CatalogExample.after1 "workflow:report" "stable" =
    Ok (mkResolution CatalogExample.v1 "stable" 0 (resolution_digest CatalogExample.v1 "stable" 0)).
Proof.
  apply (release_resolves CatalogExample.start CatalogExample.after1 CatalogExample.v1 "stable" None
    CatalogExample.pointer1); [exact WorkflowExample.definition_ok|exact CatalogExample.release1].
Defined.

Lemma resolve_spec_witness :
  resolved CatalogExample.after1 "workflow:report" "stable"
    (mkResolution CatalogExample.v1 "stable" 0 (resolution_digest CatalogExample.v1 "stable" 0)).
Proof. apply resolve_spec. vm_compute. reflexivity. Defined.

Lemma rollback_spec_witness :
  rolled_back CatalogExample.after2
    (rollback "workflow:report" "stable" "1.0.0" (Some CatalogExample.pointer2) CatalogExample.after2).2
    "workflow:report" "stable" "1.0.0" (Some CatalogExample.pointer2)
    (next_pointer "workflow:report" "stable" "1.0.0" (definition_digest CatalogExample.v1)
       (Some CatalogExample.pointer2)).
Proof.
  pose proof (rollback_spec CatalogExample.after2 "workflow:report" "stable" "1.0.0"
    (Some CatalogExample.pointer2)) as H.
  assert (Hrun : rollback "workflow:report" "stable" "1.0.0" (Some CatalogExample.pointer2) CatalogExample.after2 =
    (Ok (next_pointer "workflow:report" "stable" "1.0.0" (definition_digest CatalogExample.v1)
       (Some CatalogExample.pointer2)),
     (rollback "workflow:report" "stable" "1.0.0" (Some CatalogExample.pointer2) CatalogExample.after2).2))
    by (vm_compute; reflexivity).
  rewrite Hrun in H. exact H.
Defined.
