(* ===== verification/MigrationModels.v ===== *)
(** The evidence and plan contracts of controlled data migrations:
    [arbora/control_plane/migrations/models.py] and [errors.py].

    One record per model with its field constraints and validator. A model that
    enters a digest has its JSON dump: [X_json] is the dump without absent
    optional fields ([exclude_none]), [X_data] the plain dump, where they are
    null. Records have no room for extra keys, so the rejection of inline
    payload keys by the base model is not part of the model. *)
From S2P Require Export Grammar.
Local Open Scope Z_scope.

(** * Errors: the class code and the message *)
Definition migration_error (cls code message : string) : pyexn :=
  PyExn [cls; "MigrationDomainError"; "ValueError"] code message.
Definition MigrationCasConflictError (message : string) : pyexn :=
  migration_error "MigrationCasConflictError" "migration_cas_conflict" message.
Definition MigrationConflictError (message : string) : pyexn :=
  migration_error "MigrationConflictError" "migration_conflict" message.
Definition MigrationGateError (message : string) : pyexn :=
  migration_error "MigrationGateError" "migration_gate_blocked" message.
Definition MigrationNotFoundError : pyexn :=
  migration_error "MigrationNotFoundError" "migration_not_found" "migration_not_found".
Definition MigrationPrerequisiteError (message : string) : pyexn :=
  migration_error "MigrationPrerequisiteError" "migration_prerequisite_missing" message.
Definition MigrationReplayError (message : string) : pyexn :=
  migration_error "MigrationReplayError" "migration_replay_drift" message.

(** * Enumerations and scalar fields *)
Definition MAX_SOURCE_FILES : nat := 4096.
Definition MAX_EVIDENCE_ITEMS : nat := Z.to_nat 10000.
Definition MAX_COHORTS : nat := 256.

Definition Version (n : Z) : bool := in_bounds 1 2147483647 n.
Definition Count (n : Z) : bool := in_bounds 0 2147483647 n.

Inductive MigrationStage :=
  | Stage0InventoryFreeze | Stage1ReadOnlyBackfill | Stage2ShadowReconciliation
  | Stage3CohortReadCutover | Stage4WriteCutover | Stage5ProjectionCheckpoint
  | LegacyRetirementStage | RollbackStage.
Inductive MigrationState :=
  | Planned | InventoryFrozen | BackfillObserving | ShadowReconciled | ReadCutover
  | WriteFenced | Checkpointed | Retired | RolledBack.
Inductive SourceDisposition := Accepted | Rejected | Malformed.
Inductive ApprovalState := Unreviewed | Approved | ApprovalRejected.
Inductive InventoryState := Present | Missing | Duplicate | InvRejected | InvMalformed.
Inductive DeltaKind := Add | Update | Delete.
Inductive ReconciliationState := Clean | NeedsReview | Blocked.
Inductive GateDecision := GatePassed | GateBlocked.
Inductive CutoverState := Active | CutoverRolledBack.
Inductive CheckpointState := Complete | RebuildRequired.
Inductive RetirementState := Ready | RetirementRetired | RetirementRolledBack.
Inductive RollbackDecision := Requested | Applied | Failed.

#[export] Instance MigrationStage_eq_dec : EqDecision MigrationStage.
Proof. solve_decision. Defined.
#[export] Instance MigrationState_eq_dec : EqDecision MigrationState.
Proof. solve_decision. Defined.
#[export] Instance SourceDisposition_eq_dec : EqDecision SourceDisposition.
Proof. solve_decision. Defined.
#[export] Instance ApprovalState_eq_dec : EqDecision ApprovalState.
Proof. solve_decision. Defined.
#[export] Instance InventoryState_eq_dec : EqDecision InventoryState.
Proof. solve_decision. Defined.
#[export] Instance DeltaKind_eq_dec : EqDecision DeltaKind.
Proof. solve_decision. Defined.
#[export] Instance ReconciliationState_eq_dec : EqDecision ReconciliationState.
Proof. solve_decision. Defined.
#[export] Instance GateDecision_eq_dec : EqDecision GateDecision.
Proof. solve_decision. Defined.
#[export] Instance CutoverState_eq_dec : EqDecision CutoverState.
Proof. solve_decision. Defined.
#[export] Instance CheckpointState_eq_dec : EqDecision CheckpointState.
Proof. solve_decision. Defined.
#[export] Instance RetirementState_eq_dec : EqDecision RetirementState.
Proof. solve_decision. Defined.
#[export] Instance RollbackDecision_eq_dec : EqDecision RollbackDecision.
Proof. solve_decision. Defined.

Definition stage_str (s : MigrationStage) : string :=
  match s with
  | Stage0InventoryFreeze => "stage_0_inventory_freeze"
  | Stage1ReadOnlyBackfill => "stage_1_read_only_backfill"
  | Stage2ShadowReconciliation => "stage_2_shadow_reconciliation"
  | Stage3CohortReadCutover => "stage_3_cohort_read_cutover"
  | Stage4WriteCutover => "stage_4_write_cutover"
  | Stage5ProjectionCheckpoint => "stage_5_projection_checkpoint"
  | LegacyRetirementStage => "legacy_retirement"
  | RollbackStage => "rollback"
  end.
Definition state_str (s : MigrationState) : string :=
  match s with
  | Planned => "planned" | InventoryFrozen => "inventory_frozen"
  | BackfillObserving => "backfill_observing" | ShadowReconciled => "shadow_reconciled"
  | ReadCutover => "read_cutover" | WriteFenced => "write_fenced"
  | Checkpointed => "checkpointed" | Retired => "retired" | RolledBack => "rolled_back"
  end.
Definition disposition_str (d : SourceDisposition) : string :=
  match d with Accepted => "accepted" | Rejected => "rejected" | Malformed => "malformed" end.
Definition approval_state_str (a : ApprovalState) : string :=
  match a with Unreviewed => "unreviewed" | Approved => "approved" | ApprovalRejected => "rejected" end.
Definition inventory_state_str (s : InventoryState) : string :=
  match s with
  | Present => "present" | Missing => "missing" | Duplicate => "duplicate"
  | InvRejected => "rejected" | InvMalformed => "malformed"
  end.
Definition delta_kind_str (k : DeltaKind) : string :=
  match k with Add => "add" | Update => "update" | Delete => "delete" end.
Definition reconciliation_state_str (s : ReconciliationState) : string :=
  match s with Clean => "clean" | NeedsReview => "needs_review" | Blocked => "blocked" end.
Definition cutover_state_str (s : CutoverState) : string :=
  match s with Active => "active" | CutoverRolledBack => "rolled_back" end.
Definition rollback_decision_str (d : RollbackDecision) : string :=
  match d with Requested => "requested" | Applied => "applied" | Failed => "failed" end.

(** An optional reference *)
Definition OptRef (o : option string) : bool := from_option OpaqueRef true o.
Definition OptDigest (o : option string) : bool := from_option Digest true o.

(** * Source snapshots *)
Record SourceFileSnapshot := mkSourceFile {
  sf_version : Z; sf_digest : string; sf_source_file_ref : string; sf_relative_path : string;
  sf_source_ref : string; sf_revision : string; sf_content_digest : string;
  sf_metadata_digest : string; sf_size_bytes : Z }.
Definition validate_SourceFileSnapshot (f : SourceFileSnapshot) : result () :=
  check_fields [("version", Version (sf_version f)); ("digest", Digest (sf_digest f));
    ("source_file_ref", OpaqueRef (sf_source_file_ref f)); ("relative_path", OpaqueRef (sf_relative_path f));
    ("source_ref", OpaqueRef (sf_source_ref f)); ("revision", OpaqueRef (sf_revision f));
    ("content_digest", Digest (sf_content_digest f)); ("metadata_digest", Digest (sf_metadata_digest f));
    ("size_bytes", Count (sf_size_bytes f))].
Definition SourceFileSnapshot_json (f : SourceFileSnapshot) : json :=
  JObj [("version", JInt (sf_version f)); ("digest", JStr (sf_digest f));
        ("source_file_ref", JStr (sf_source_file_ref f)); ("relative_path", JStr (sf_relative_path f));
        ("source_ref", JStr (sf_source_ref f)); ("revision", JStr (sf_revision f));
        ("content_digest", JStr (sf_content_digest f)); ("metadata_digest", JStr (sf_metadata_digest f));
        ("size_bytes", JInt (sf_size_bytes f))].

Record SourceSnapshot := mkSnapshot {
  ss_version : Z; ss_digest : string; ss_snapshot_ref : string; ss_source_ref : string;
  ss_revision : string; ss_files : list SourceFileSnapshot; ss_snapshot_digest : string }.

(** The material of [snapshot_digest] *)
Definition snapshot_material (source_ref revision : string) (files : list SourceFileSnapshot) : json :=
  JObj [("source_ref", JStr source_ref); ("revision", JStr revision);
        ("files", JArr (map SourceFileSnapshot_json files))].

Definition files_are_unique_and_bound (s : SourceSnapshot) : result () :=
  _ ← raise_if (has_duplicates (map sf_source_file_ref (ss_files s))) (ValueError "source_file_duplicate");
  _ ← raise_if (existsb (λ f, bool_decide (sf_source_ref f ≠ ss_source_ref s) ||
                              bool_decide (sf_revision f ≠ ss_revision s)) (ss_files s))
        (ValueError "source_file_revision_drift");
  raise_if (bool_decide (ss_snapshot_digest s ≠
      canonical_digest (snapshot_material (ss_source_ref s) (ss_revision s) (ss_files s))))
    (ValueError "source_snapshot_digest_mismatch").

Definition validate_SourceSnapshot (s : SourceSnapshot) : result () :=
  _ ← check_fields [("version", Version (ss_version s)); ("digest", Digest (ss_digest s));
        ("snapshot_ref", OpaqueRef (ss_snapshot_ref s)); ("source_ref", OpaqueRef (ss_source_ref s));
        ("revision", OpaqueRef (ss_revision s)); ("files", tuple_len 1 MAX_SOURCE_FILES (ss_files s))];
  _ ← for_each validate_SourceFileSnapshot (ss_files s);
  _ ← check_field "snapshot_digest" (Digest (ss_snapshot_digest s));
  in_validator (files_are_unique_and_bound s).

Definition SourceSnapshot_build (snapshot_ref source_ref revision : string)
    (files : list SourceFileSnapshot) (version : Z) : result SourceSnapshot :=
  let snapshot_digest := canonical_digest (snapshot_material source_ref revision files) in
  construct validate_SourceSnapshot
    (mkSnapshot version
       (canonical_digest (JObj [("snapshot_ref", JStr snapshot_ref);
          ("snapshot_digest", JStr snapshot_digest); ("version", JInt version)]))
       snapshot_ref source_ref revision files snapshot_digest).

(** * Plans *)
Record MigrationPlan := mkPlan {
  mp_version : Z; mp_digest : string; mp_migration_ref : string; mp_plan_ref : string;
  mp_source_snapshot_ref : string; mp_source_snapshot_digest : string;
  mp_target_authority_ref : string; mp_stage : MigrationStage; mp_state : MigrationState;
  mp_inventory_ref : option string; mp_reconciliation_ref : option string;
  mp_cohort_refs : list string; mp_write_fence_ref : option string;
  mp_checkpoint_ref : option string; mp_retirement_ref : option string }.

Definition expected_stage (s : MigrationState) : MigrationStage :=
  match s with
  | Planned | InventoryFrozen => Stage0InventoryFreeze
  | BackfillObserving => Stage1ReadOnlyBackfill
  | ShadowReconciled => Stage2ShadowReconciliation
  | ReadCutover => Stage3CohortReadCutover
  | WriteFenced => Stage4WriteCutover
  | Checkpointed => Stage5ProjectionCheckpoint
  | Retired => LegacyRetirementStage
  | RolledBack => RollbackStage
  end.

Definition stage_state_is_consistent (p : MigrationPlan) : result () :=
  _ ← raise_if (bool_decide (mp_stage p ≠ expected_stage (mp_state p)))
        (ValueError "migration_stage_state_mismatch");
  raise_if (has_duplicates (mp_cohort_refs p)) (ValueError "migration_cohort_duplicate").

Definition validate_MigrationPlan (p : MigrationPlan) : result () :=
  _ ← check_fields [("version", Version (mp_version p)); ("digest", Digest (mp_digest p));
        ("migration_ref", OpaqueRef (mp_migration_ref p)); ("plan_ref", OpaqueRef (mp_plan_ref p));
        ("source_snapshot_ref", OpaqueRef (mp_source_snapshot_ref p));
        ("source_snapshot_digest", Digest (mp_source_snapshot_digest p));
        ("target_authority_ref", OpaqueRef (mp_target_authority_ref p));
        ("inventory_ref", OptRef (mp_inventory_ref p));
        ("reconciliation_ref", OptRef (mp_reconciliation_ref p));
        ("cohort_refs", tuple_len 0 MAX_COHORTS (mp_cohort_refs p) && forallb OpaqueRef (mp_cohort_refs p));
        ("write_fence_ref", OptRef (mp_write_fence_ref p));
        ("checkpoint_ref", OptRef (mp_checkpoint_ref p));
        ("retirement_ref", OptRef (mp_retirement_ref p))];
  in_validator (stage_state_is_consistent p).

(** [model_dump(mode="python")] without the key [digest] *)
Definition MigrationPlan_data (p : MigrationPlan) : json :=
  JObj [("version", JInt (mp_version p)); ("migration_ref", JStr (mp_migration_ref p));
        ("plan_ref", JStr (mp_plan_ref p)); ("source_snapshot_ref", JStr (mp_source_snapshot_ref p));
        ("source_snapshot_digest", JStr (mp_source_snapshot_digest p));
        ("target_authority_ref", JStr (mp_target_authority_ref p));
        ("stage", JStr (stage_str (mp_stage p))); ("state", JStr (state_str (mp_state p)));
        ("inventory_ref", null_or JStr (mp_inventory_ref p));
        ("reconciliation_ref", null_or JStr (mp_reconciliation_ref p));
        ("cohort_refs", JStrs (mp_cohort_refs p)); ("write_fence_ref", null_or JStr (mp_write_fence_ref p));
        ("checkpoint_ref", null_or JStr (mp_checkpoint_ref p));
        ("retirement_ref", null_or JStr (mp_retirement_ref p))].

Definition MigrationPlan_initial (migration_ref plan_ref source_snapshot_ref source_snapshot_digest
    target_authority_ref : string) : result MigrationPlan :=
  construct validate_MigrationPlan
    (mkPlan 1
       (canonical_digest (JObj [("migration_ref", JStr migration_ref); ("plan_ref", JStr plan_ref);
          ("source_snapshot_digest", JStr source_snapshot_digest);
          ("target_authority_ref", JStr target_authority_ref); ("version", JInt 1)]))
       migration_ref plan_ref source_snapshot_ref source_snapshot_digest target_authority_ref
       Stage0InventoryFreeze Planned None None [] None None None).

(** * Inventory *)
Record InventoryItem := mkItem {
  ii_version : Z; ii_digest : string; ii_canonical_ref : string; ii_source_ref : string;
  ii_source_file_ref : option string; ii_source_record_ref : option string;
  ii_source_revision : string; ii_source_digest : string; ii_metadata_digest : string;
  ii_state : InventoryState }.
Definition validate_InventoryItem (i : InventoryItem) : result () :=
  check_fields [("version", Version (ii_version i)); ("digest", Digest (ii_digest i));
    ("canonical_ref", OpaqueRef (ii_canonical_ref i)); ("source_ref", OpaqueRef (ii_source_ref i));
    ("source_file_ref", OptRef (ii_source_file_ref i)); ("source_record_ref", OptRef (ii_source_record_ref i));
    ("source_revision", OpaqueRef (ii_source_revision i)); ("source_digest", Digest (ii_source_digest i));
    ("metadata_digest", Digest (ii_metadata_digest i))].
Definition InventoryItem_json (i : InventoryItem) : json :=
  JObj ([("version", JInt (ii_version i)); ("digest", JStr (ii_digest i));
         ("canonical_ref", JStr (ii_canonical_ref i)); ("source_ref", JStr (ii_source_ref i))]
        ++ opt_field "source_file_ref" JStr (ii_source_file_ref i)
        ++ opt_field "source_record_ref" JStr (ii_source_record_ref i)
        ++ [("source_revision", JStr (ii_source_revision i)); ("source_digest", JStr (ii_source_digest i));
            ("metadata_digest", JStr (ii_metadata_digest i)); ("state", JStr (inventory_state_str (ii_state i)))]).

Record MigrationInventory := mkInventory {
  mi_version : Z; mi_digest : string; mi_inventory_ref : string; mi_migration_ref : string;
  mi_source_snapshot_ref : string; mi_source_snapshot_digest : string; mi_items : list InventoryItem;
  mi_frozen : bool; mi_inventory_digest : string }.

Definition items_digest (items : list InventoryItem) : string :=
  canonical_digest (JArr (map InventoryItem_json items)).

Definition inventory_is_deterministic (i : MigrationInventory) : result () :=
  _ ← raise_if (has_duplicates (map ii_canonical_ref (mi_items i))) (ValueError "inventory_identity_duplicate");
  raise_if (bool_decide (mi_inventory_digest i ≠ items_digest (mi_items i)))
    (ValueError "inventory_digest_mismatch").

Definition validate_MigrationInventory (i : MigrationInventory) : result () :=
  _ ← check_fields [("version", Version (mi_version i)); ("digest", Digest (mi_digest i));
        ("inventory_ref", OpaqueRef (mi_inventory_ref i)); ("migration_ref", OpaqueRef (mi_migration_ref i));
        ("source_snapshot_ref", OpaqueRef (mi_source_snapshot_ref i));
        ("source_snapshot_digest", Digest (mi_source_snapshot_digest i));
        ("items", tuple_len 1 MAX_EVIDENCE_ITEMS (mi_items i))];
  _ ← for_each validate_InventoryItem (mi_items i);
  _ ← check_fields [("frozen", mi_frozen i); ("inventory_digest", Digest (mi_inventory_digest i))];
  in_validator (inventory_is_deterministic i).

Definition MigrationInventory_build (inventory_ref migration_ref source_snapshot_ref
    source_snapshot_digest : string) (items : list InventoryItem) (version : Z) : result MigrationInventory :=
  let inventory_digest := items_digest items in
  construct validate_MigrationInventory
    (mkInventory version
       (canonical_digest (JObj [("inventory_ref", JStr inventory_ref);
          ("inventory_digest", JStr inventory_digest); ("version", JInt version)]))
       inventory_ref migration_ref source_snapshot_ref source_snapshot_digest items true inventory_digest).

(** * Backfill *)
Record BackfillObservation := mkObservation {
  bo_version : Z; bo_digest : string; bo_observation_ref : string; bo_migration_ref : string;
  bo_source_snapshot_digest : string; bo_canonical_ref : string; bo_source_ref : string;
  bo_source_file_ref : option string; bo_source_record_ref : option string;
  bo_source_revision : string; bo_source_digest : string; bo_metadata_digest : string;
  bo_disposition : SourceDisposition; bo_approval_state : ApprovalState;
  bo_approval_ref : option string; bo_approver_ref : option string; bo_observed_at : Z }.

Definition approval_is_explicit (o : BackfillObservation) : result () :=
  if bool_decide (bo_approval_state o = Approved) then
    _ ← raise_if (bool_decide (bo_disposition o ≠ Accepted)) (ValueError "nonaccepted_backfill_cannot_approve");
    raise_if (bool_decide (bo_approval_ref o = None) || bool_decide (bo_approver_ref o = None))
      (ValueError "backfill_approval_evidence_missing")
  else
    raise_if (bool_decide (bo_approval_ref o ≠ None) || bool_decide (bo_approver_ref o ≠ None))
      (ValueError "backfill_approval_evidence_unexpected").

Definition validate_BackfillObservation (o : BackfillObservation) : result () :=
  _ ← check_fields [("version", Version (bo_version o)); ("digest", Digest (bo_digest o));
        ("observation_ref", OpaqueRef (bo_observation_ref o)); ("migration_ref", OpaqueRef (bo_migration_ref o));
        ("source_snapshot_digest", Digest (bo_source_snapshot_digest o));
        ("canonical_ref", OpaqueRef (bo_canonical_ref o)); ("source_ref", OpaqueRef (bo_source_ref o));
        ("source_file_ref", OptRef (bo_source_file_ref o)); ("source_record_ref", OptRef (bo_source_record_ref o));
        ("source_revision", OpaqueRef (bo_source_revision o)); ("source_digest", Digest (bo_source_digest o));
        ("metadata_digest", Digest (bo_metadata_digest o)); ("approval_ref", OptRef (bo_approval_ref o));
        ("approver_ref", OptRef (bo_approver_ref o)); ("observed_at", Timestamp (bo_observed_at o))];
  in_validator (approval_is_explicit o).

Definition BackfillObservation_json (o : BackfillObservation) : json :=
  JObj ([("version", JInt (bo_version o)); ("digest", JStr (bo_digest o));
         ("observation_ref", JStr (bo_observation_ref o)); ("migration_ref", JStr (bo_migration_ref o));
         ("source_snapshot_digest", JStr (bo_source_snapshot_digest o));
         ("canonical_ref", JStr (bo_canonical_ref o)); ("source_ref", JStr (bo_source_ref o))]
        ++ opt_field "source_file_ref" JStr (bo_source_file_ref o)
        ++ opt_field "source_record_ref" JStr (bo_source_record_ref o)
        ++ [("source_revision", JStr (bo_source_revision o)); ("source_digest", JStr (bo_source_digest o));
            ("metadata_digest", JStr (bo_metadata_digest o));
            ("disposition", JStr (disposition_str (bo_disposition o)));
            ("approval_state", JStr (approval_state_str (bo_approval_state o)))]
        ++ opt_field "approval_ref" JStr (bo_approval_ref o)
        ++ opt_field "approver_ref" JStr (bo_approver_ref o)
        ++ [("observed_at", JInt (bo_observed_at o))]).

Record BackfillBatch := mkBatch {
  bb_version : Z; bb_digest : string; bb_batch_ref : string; bb_migration_ref : string;
  bb_source_snapshot_digest : string; bb_observations : list BackfillObservation;
  bb_read_only : bool; bb_batch_digest : string }.

Definition observations_digest (observations : list BackfillObservation) : string :=
  canonical_digest (JArr (map BackfillObservation_json observations)).

Definition observations_are_bound (b : BackfillBatch) : result () :=
  _ ← raise_if (existsb (λ o, bool_decide (bo_migration_ref o ≠ bb_migration_ref b) ||
                              bool_decide (bo_source_snapshot_digest o ≠ bb_source_snapshot_digest b) ||
                              bool_decide (bo_approval_state o ≠ Unreviewed)) (bb_observations b))
        (ValueError "backfill_observation_binding_invalid");
  _ ← raise_if (has_duplicates (map bo_observation_ref (bb_observations b)))
        (ValueError "backfill_observation_duplicate");
  raise_if (bool_decide (bb_batch_digest b ≠ observations_digest (bb_observations b)))
    (ValueError "backfill_batch_digest_mismatch").

Definition validate_BackfillBatch (b : BackfillBatch) : result () :=
  _ ← check_fields [("version", Version (bb_version b)); ("digest", Digest (bb_digest b));
        ("batch_ref", OpaqueRef (bb_batch_ref b)); ("migration_ref", OpaqueRef (bb_migration_ref b));
        ("source_snapshot_digest", Digest (bb_source_snapshot_digest b));
        ("observations", tuple_len 1 MAX_EVIDENCE_ITEMS (bb_observations b))];
  _ ← for_each validate_BackfillObservation (bb_observations b);
  _ ← check_fields [("read_only", bb_read_only b); ("batch_digest", Digest (bb_batch_digest b))];
  in_validator (observations_are_bound b).

Definition BackfillBatch_build (batch_ref migration_ref source_snapshot_digest : string)
    (observations : list BackfillObservation) (version : Z) : result BackfillBatch :=
  let batch_digest := observations_digest observations in
  construct validate_BackfillBatch
    (mkBatch version
       (canonical_digest (JObj [("batch_ref", JStr batch_ref); ("batch_digest", JStr batch_digest);
          ("version", JInt version)]))
       batch_ref migration_ref source_snapshot_digest observations true batch_digest).

(** * Shadow reconciliation *)
Record CanonicalRecord := mkRecord {
  cr_version : Z; cr_digest : string; cr_canonical_ref : string; cr_record_digest : string;
  cr_source_ref : string; cr_source_revision : string; cr_source_file_ref : option string;
  cr_source_record_ref : option string; cr_metadata_digest : string }.
Definition validate_CanonicalRecord (r : CanonicalRecord) : result () :=
  check_fields [("version", Version (cr_version r)); ("digest", Digest (cr_digest r));
    ("canonical_ref", OpaqueRef (cr_canonical_ref r)); ("record_digest", Digest (cr_record_digest r));
    ("source_ref", OpaqueRef (cr_source_ref r)); ("source_revision", OpaqueRef (cr_source_revision r));
    ("source_file_ref", OptRef (cr_source_file_ref r)); ("source_record_ref", OptRef (cr_source_record_ref r));
    ("metadata_digest", Digest (cr_metadata_digest r))].

Record ShadowDelta := mkDelta {
  sd_version : Z; sd_digest : string; sd_canonical_ref : string; sd_kind : DeltaKind;
  sd_source_digest : option string; sd_target_digest : option string; sd_evidence_digest : string }.

Definition delta_has_expected_digests (d : ShadowDelta) : result () :=
  _ ← raise_if (bool_decide (sd_kind d = Add) && bool_decide (sd_source_digest d = None))
        (ValueError "shadow_add_source_missing");
  _ ← raise_if (bool_decide (sd_kind d = Delete) && bool_decide (sd_target_digest d = None))
        (ValueError "shadow_delete_target_missing");
  raise_if (bool_decide (sd_kind d = Update) &&
            (bool_decide (sd_source_digest d = None) || bool_decide (sd_target_digest d = None)))
    (ValueError "shadow_update_digest_missing").

Definition validate_ShadowDelta (d : ShadowDelta) : result () :=
  _ ← check_fields [("version", Version (sd_version d)); ("digest", Digest (sd_digest d));
        ("canonical_ref", OpaqueRef (sd_canonical_ref d)); ("source_digest", OptDigest (sd_source_digest d));
        ("target_digest", OptDigest (sd_target_digest d)); ("evidence_digest", Digest (sd_evidence_digest d))];
  in_validator (delta_has_expected_digests d).

Definition ShadowDelta_json (d : ShadowDelta) : json :=
  JObj ([("version", JInt (sd_version d)); ("digest", JStr (sd_digest d));
         ("canonical_ref", JStr (sd_canonical_ref d)); ("kind", JStr (delta_kind_str (sd_kind d)))]
        ++ opt_field "source_digest" JStr (sd_source_digest d)
        ++ opt_field "target_digest" JStr (sd_target_digest d)
        ++ [("evidence_digest", JStr (sd_evidence_digest d))]).

Definition deltas_digest (deltas : list ShadowDelta) : string :=
  canonical_digest (JArr (map ShadowDelta_json deltas)).

Record ShadowReconciliation := mkReconciliation {
  sr_version : Z; sr_digest : string; sr_reconciliation_ref : string; sr_migration_ref : string;
  sr_source_snapshot_digest : string; sr_target_snapshot_digest : string; sr_deltas : list ShadowDelta;
  sr_delta_count : Z; sr_delta_digest : string; sr_state : ReconciliationState; sr_deterministic : bool }.

Definition delta_summary_is_exact (r : ShadowReconciliation) : result () :=
  _ ← raise_if (bool_decide (sr_delta_count r ≠ Z.of_nat (length (sr_deltas r))))
        (ValueError "shadow_delta_count_mismatch");
  _ ← raise_if (bool_decide (sr_delta_digest r ≠ deltas_digest (sr_deltas r)))
        (ValueError "shadow_delta_digest_mismatch");
  _ ← raise_if (bool_decide (sr_state r = Clean) && bool_decide (sr_deltas r ≠ []))
        (ValueError "shadow_clean_with_deltas");
  raise_if (bool_decide (sr_state r = NeedsReview) && bool_decide (sr_deltas r = []))
    (ValueError "shadow_nonclean_without_deltas").

Definition validate_ShadowReconciliation (r : ShadowReconciliation) : result () :=
  _ ← check_fields [("version", Version (sr_version r)); ("digest", Digest (sr_digest r));
        ("reconciliation_ref", OpaqueRef (sr_reconciliation_ref r)); ("migration_ref", OpaqueRef (sr_migration_ref r));
        ("source_snapshot_digest", Digest (sr_source_snapshot_digest r));
        ("target_snapshot_digest", Digest (sr_target_snapshot_digest r));
        ("deltas", tuple_len 0 MAX_EVIDENCE_ITEMS (sr_deltas r))];
  _ ← for_each validate_ShadowDelta (sr_deltas r);
  _ ← check_fields [("delta_count", Count (sr_delta_count r)); ("delta_digest", Digest (sr_delta_digest r));
        ("deterministic", sr_deterministic r)];
  in_validator (delta_summary_is_exact r).

(** * Gates *)
Record GateCheck := mkGateCheck {
  gc_check_ref : string; gc_passed : bool; gc_evidence_digest : string; gc_failure_code : option string }.

Definition failure_is_consistent (c : GateCheck) : result () :=
  _ ← raise_if (gc_passed c && bool_decide (gc_failure_code c ≠ None))
        (ValueError "passed_gate_check_has_failure");
  raise_if (negb (gc_passed c) && bool_decide (gc_failure_code c = None))
    (ValueError "failed_gate_check_missing_reason").

Definition validate_GateCheck (c : GateCheck) : result () :=
  _ ← check_fields [("check_ref", OpaqueRef (gc_check_ref c));
        ("evidence_digest", Digest (gc_evidence_digest c)); ("failure_code", OptRef (gc_failure_code c))];
  in_validator (failure_is_consistent c).

Record PrerequisiteGate := mkGate {
  pg_version : Z; pg_digest : string; pg_gate_ref : string; pg_migration_ref : string;
  pg_stage : MigrationStage; pg_source_snapshot_digest : string; pg_checks : list GateCheck;
  pg_decision : GateDecision }.

Definition decision_is_fail_closed (g : PrerequisiteGate) : result () :=
  _ ← raise_if (has_duplicates (map gc_check_ref (pg_checks g))) (ValueError "gate_check_duplicate");
  _ ← raise_if (bool_decide (pg_decision g = GatePassed) && negb (forallb gc_passed (pg_checks g)))
        (ValueError "gate_passed_with_failed_check");
  raise_if (bool_decide (pg_decision g = GateBlocked) && forallb gc_passed (pg_checks g))
    (ValueError "gate_blocked_without_failure").

Definition validate_PrerequisiteGate (g : PrerequisiteGate) : result () :=
  _ ← check_fields [("version", Version (pg_version g)); ("digest", Digest (pg_digest g));
        ("gate_ref", OpaqueRef (pg_gate_ref g)); ("migration_ref", OpaqueRef (pg_migration_ref g));
        ("source_snapshot_digest", Digest (pg_source_snapshot_digest g));
        ("checks", tuple_len 1 64 (pg_checks g))];
  _ ← for_each validate_GateCheck (pg_checks g);
  in_validator (decision_is_fail_closed g).

(** * Cutover, fence, checkpoint, retirement and rollback records *)
Record CohortReadCutover := mkCutover {
  rc_version : Z; rc_digest : string; rc_cutover_ref : string; rc_migration_ref : string;
  rc_cohort_ref : string; rc_registry_ref : string; rc_source_snapshot_digest : string;
  rc_gate_ref : string; rc_state : CutoverState }.
Definition validate_CohortReadCutover (c : CohortReadCutover) : result () :=
  check_fields [("version", Version (rc_version c)); ("digest", Digest (rc_digest c));
    ("cutover_ref", OpaqueRef (rc_cutover_ref c)); ("migration_ref", OpaqueRef (rc_migration_ref c));
    ("cohort_ref", OpaqueRef (rc_cohort_ref c)); ("registry_ref", OpaqueRef (rc_registry_ref c));
    ("source_snapshot_digest", Digest (rc_source_snapshot_digest c)); ("gate_ref", OpaqueRef (rc_gate_ref c))].

Record WriteCutoverFence := mkFence {
  wf_version : Z; wf_digest : string; wf_fence_ref : string; wf_migration_ref : string;
  wf_source_snapshot_digest : string; wf_cohort_refs : list string; wf_authority_ref : string;
  wf_fence_epoch : Z; wf_gate_ref : string; wf_single_authority : bool;
  wf_legacy_writes_denied : bool; wf_state : CutoverState }.

Definition cohorts_are_unique (f : WriteCutoverFence) : result () :=
  raise_if (has_duplicates (wf_cohort_refs f)) (ValueError "write_fence_cohort_duplicate").

Definition validate_WriteCutoverFence (f : WriteCutoverFence) : result () :=
  _ ← check_fields [("version", Version (wf_version f)); ("digest", Digest (wf_digest f));
        ("fence_ref", OpaqueRef (wf_fence_ref f)); ("migration_ref", OpaqueRef (wf_migration_ref f));
        ("source_snapshot_digest", Digest (wf_source_snapshot_digest f));
        ("cohort_refs", tuple_len 1 MAX_COHORTS (wf_cohort_refs f) && forallb OpaqueRef (wf_cohort_refs f));
        ("authority_ref", OpaqueRef (wf_authority_ref f)); ("fence_epoch", Count (wf_fence_epoch f));
        ("gate_ref", OpaqueRef (wf_gate_ref f)); ("single_authority", wf_single_authority f);
        ("legacy_writes_denied", wf_legacy_writes_denied f)];
  in_validator (cohorts_are_unique f).

Definition WriteCutoverFence_data (f : WriteCutoverFence) : json :=
  JObj [("version", JInt (wf_version f)); ("fence_ref", JStr (wf_fence_ref f));
        ("migration_ref", JStr (wf_migration_ref f));
        ("source_snapshot_digest", JStr (wf_source_snapshot_digest f));
        ("cohort_refs", JStrs (wf_cohort_refs f)); ("authority_ref", JStr (wf_authority_ref f));
        ("fence_epoch", JInt (wf_fence_epoch f)); ("gate_ref", JStr (wf_gate_ref f));
        ("single_authority", JBool (wf_single_authority f));
        ("legacy_writes_denied", JBool (wf_legacy_writes_denied f));
        ("state", JStr (cutover_state_str (wf_state f)))].

Record ProjectionCheckpoint := mkCheckpoint {
  pc_version : Z; pc_digest : string; pc_checkpoint_ref : string; pc_migration_ref : string;
  pc_source_snapshot_digest : string; pc_projection_digest : string; pc_rebuild_plan_ref : string;
  pc_record_count : Z; pc_sequence : Z; pc_gate_ref : string; pc_state : CheckpointState }.
Definition validate_ProjectionCheckpoint (c : ProjectionCheckpoint) : result () :=
  check_fields [("version", Version (pc_version c)); ("digest", Digest (pc_digest c));
    ("checkpoint_ref", OpaqueRef (pc_checkpoint_ref c)); ("migration_ref", OpaqueRef (pc_migration_ref c));
    ("source_snapshot_digest", Digest (pc_source_snapshot_digest c));
    ("projection_digest", Digest (pc_projection_digest c));
    ("rebuild_plan_ref", OpaqueRef (pc_rebuild_plan_ref c)); ("record_count", Count (pc_record_count c));
    ("sequence", Version (pc_sequence c)); ("gate_ref", OpaqueRef (pc_gate_ref c))].

Record LegacyRetirement := mkRetirement {
  lr_version : Z; lr_digest : string; lr_retirement_ref : string; lr_migration_ref : string;
  lr_source_snapshot_digest : string; lr_write_fence_ref : string; lr_checkpoint_ref : string;
  lr_remaining_consumers : Z; lr_remaining_facades : Z; lr_consumer_inventory_digest : string;
  lr_facade_inventory_digest : string; lr_gate_ref : string; lr_state : RetirementState }.

Definition retirement_is_proven (r : LegacyRetirement) : result () :=
  raise_if (bool_decide (lr_state r = RetirementRetired) &&
            (negb (lr_remaining_consumers r =? 0) || negb (lr_remaining_facades r =? 0)))
    (ValueError "legacy_retirement_with_remaining_consumers").

Definition validate_LegacyRetirement (r : LegacyRetirement) : result () :=
  _ ← check_fields [("version", Version (lr_version r)); ("digest", Digest (lr_digest r));
        ("retirement_ref", OpaqueRef (lr_retirement_ref r)); ("migration_ref", OpaqueRef (lr_migration_ref r));
        ("source_snapshot_digest", Digest (lr_source_snapshot_digest r));
        ("write_fence_ref", OpaqueRef (lr_write_fence_ref r)); ("checkpoint_ref", OpaqueRef (lr_checkpoint_ref r));
        ("remaining_consumers", Count (lr_remaining_consumers r));
        ("remaining_facades", Count (lr_remaining_facades r));
        ("consumer_inventory_digest", Digest (lr_consumer_inventory_digest r));
        ("facade_inventory_digest", Digest (lr_facade_inventory_digest r)); ("gate_ref", OpaqueRef (lr_gate_ref r))];
  in_validator (retirement_is_proven r).

Record MigrationRollback := mkRollback {
  rb_version : Z; rb_digest : string; rb_rollback_ref : string; rb_migration_ref : string;
  rb_from_stage : MigrationStage; rb_to_stage : MigrationStage; rb_source_snapshot_digest : string;
  rb_reason_ref : string; rb_restored_authority_ref : string; rb_fence_ref : option string;
  rb_gate_ref : string; rb_decision : RollbackDecision }.

Definition rollback_direction_is_explicit (r : MigrationRollback) : result () :=
  raise_if (bool_decide (rb_from_stage r = rb_to_stage r)) (ValueError "rollback_stage_unchanged").

Definition validate_MigrationRollback (r : MigrationRollback) : result () :=
  _ ← check_fields [("version", Version (rb_version r)); ("digest", Digest (rb_digest r));
        ("rollback_ref", OpaqueRef (rb_rollback_ref r)); ("migration_ref", OpaqueRef (rb_migration_ref r));
        ("source_snapshot_digest", Digest (rb_source_snapshot_digest r)); ("reason_ref", OpaqueRef (rb_reason_ref r));
        ("restored_authority_ref", OpaqueRef (rb_restored_authority_ref r)); ("fence_ref", OptRef (rb_fence_ref r));
        ("gate_ref", OpaqueRef (rb_gate_ref r))];
  in_validator (rollback_direction_is_explicit r).

Definition MigrationRollback_data (r : MigrationRollback) : json :=
  JObj [("version", JInt (rb_version r)); ("rollback_ref", JStr (rb_rollback_ref r));
        ("migration_ref", JStr (rb_migration_ref r)); ("from_stage", JStr (stage_str (rb_from_stage r)));
        ("to_stage", JStr (stage_str (rb_to_stage r)));
        ("source_snapshot_digest", JStr (rb_source_snapshot_digest r)); ("reason_ref", JStr (rb_reason_ref r));
        ("restored_authority_ref", JStr (rb_restored_authority_ref r));
        ("fence_ref", null_or JStr (rb_fence_ref r)); ("gate_ref", JStr (rb_gate_ref r));
        ("decision", JStr (rollback_decision_str (rb_decision r)))].

(** ** Model equality *)
#[export] Instance SourceFileSnapshot_eq_dec : EqDecision SourceFileSnapshot.
Proof. solve_decision. Defined.
#[export] Instance SourceSnapshot_eq_dec : EqDecision SourceSnapshot.
Proof. solve_decision. Defined.
#[export] Instance MigrationPlan_eq_dec : EqDecision MigrationPlan.
Proof. solve_decision. Defined.
#[export] Instance InventoryItem_eq_dec : EqDecision InventoryItem.
Proof. solve_decision. Defined.
#[export] Instance MigrationInventory_eq_dec : EqDecision MigrationInventory.
Proof. solve_decision. Defined.
#[export] Instance BackfillObservation_eq_dec : EqDecision BackfillObservation.
Proof. solve_decision. Defined.
#[export] Instance BackfillBatch_eq_dec : EqDecision BackfillBatch.
Proof. solve_decision. Defined.
#[export] Instance ShadowDelta_eq_dec : EqDecision ShadowDelta.
Proof. solve_decision. Defined.
#[export] Instance ShadowReconciliation_eq_dec : EqDecision ShadowReconciliation.
Proof. solve_decision. Defined.
#[export] Instance CohortReadCutover_eq_dec : EqDecision CohortReadCutover.
Proof. solve_decision. Defined.
#[export] Instance WriteCutoverFence_eq_dec : EqDecision WriteCutoverFence.
Proof. solve_decision. Defined.
#[export] Instance ProjectionCheckpoint_eq_dec : EqDecision ProjectionCheckpoint.
Proof. solve_decision. Defined.
#[export] Instance LegacyRetirement_eq_dec : EqDecision LegacyRetirement.
Proof. solve_decision. Defined.
#[export] Instance MigrationRollback_eq_dec : EqDecision MigrationRollback.
Proof. solve_decision. Defined.
