(* ===== verification/MigrationAuthority.v ===== *)
(** The staged cutover authority:
    [arbora/control_plane/migrations/authority.py].

    The authority is a record of ten dicts keyed by reference. A method holds
    the lock for its whole body, so it is one atomic step of the state monad;
    its arguments are models that passed their validation. The dicts whose
    values the code iterates over ([_backfills], [_reconciliations]) are read
    only through sorting and membership tests, so their insertion order is not
    kept. *)
From S2P Require Export MigrationModels.
Local Open Scope Z_scope.

Definition MAX_VERSION : Z := 2147483647.

Record InMemoryMigrationAuthority := mkAuthority {
  snapshots : gmap string SourceSnapshot;
  plans : gmap string MigrationPlan;
  inventories : gmap string MigrationInventory;
  backfills : gmap string BackfillBatch;
  reconciliations : gmap string ShadowReconciliation;
  read_cutovers : gmap string CohortReadCutover;
  write_fences : gmap string WriteCutoverFence;
  checkpoints : gmap string ProjectionCheckpoint;
  retirements : gmap string LegacyRetirement;
  rollbacks : gmap string MigrationRollback }.

Definition InMemoryMigrationAuthority_new : InMemoryMigrationAuthority :=
  mkAuthority ∅ ∅ ∅ ∅ ∅ ∅ ∅ ∅ ∅ ∅.
#[export] Instance InMemoryMigrationAuthority_eq_dec : EqDecision InMemoryMigrationAuthority.
Proof. solve_decision. Defined.

Implicit Types self : InMemoryMigrationAuthority.
Notation MA := (M InMemoryMigrationAuthority).

(** [self._x[ref] = value] *)
Definition put_snapshot (x : SourceSnapshot) self : InMemoryMigrationAuthority :=
  let '(mkAuthority s p i b r c f k t o) := self in
  mkAuthority (<[ss_snapshot_ref x := x]> s) p i b r c f k t o.
Definition put_plan (x : MigrationPlan) self : InMemoryMigrationAuthority :=
  let '(mkAuthority s p i b r c f k t o) := self in
  mkAuthority s (<[mp_plan_ref x := x]> p) i b r c f k t o.
Definition put_inventory (x : MigrationInventory) self : InMemoryMigrationAuthority :=
  let '(mkAuthority s p i b r c f k t o) := self in
  mkAuthority s p (<[mi_inventory_ref x := x]> i) b r c f k t o.
Definition put_backfill (x : BackfillBatch) self : InMemoryMigrationAuthority :=
  let '(mkAuthority s p i b r c f k t o) := self in
  mkAuthority s p i (<[bb_batch_ref x := x]> b) r c f k t o.
Definition put_reconciliation (x : ShadowReconciliation) self : InMemoryMigrationAuthority :=
  let '(mkAuthority s p i b r c f k t o) := self in
  mkAuthority s p i b (<[sr_reconciliation_ref x := x]> r) c f k t o.
Definition put_read_cutover (x : CohortReadCutover) self : InMemoryMigrationAuthority :=
  let '(mkAuthority s p i b r c f k t o) := self in
  mkAuthority s p i b r (<[rc_cutover_ref x := x]> c) f k t o.
Definition put_write_fence (x : WriteCutoverFence) self : InMemoryMigrationAuthority :=
  let '(mkAuthority s p i b r c f k t o) := self in
  mkAuthority s p i b r c (<[wf_fence_ref x := x]> f) k t o.
Definition put_checkpoint (x : ProjectionCheckpoint) self : InMemoryMigrationAuthority :=
  let '(mkAuthority s p i b r c f k t o) := self in
  mkAuthority s p i b r c f (<[pc_checkpoint_ref x := x]> k) t o.
Definition put_retirement (x : LegacyRetirement) self : InMemoryMigrationAuthority :=
  let '(mkAuthority s p i b r c f k t o) := self in
  mkAuthority s p i b r c f k (<[lr_retirement_ref x := x]> t) o.
Definition put_rollback (x : MigrationRollback) self : InMemoryMigrationAuthority :=
  let '(mkAuthority s p i b r c f k t o) := self in
  mkAuthority s p i b r c f k t (<[rb_rollback_ref x := x]> o).

(** ** Helpers of the class *)
Definition cas_version (actual expected : Z) : result () :=
  raise_if (bool_decide (expected ≠ actual)) (MigrationCasConflictError "migration_cas_conflict").

(** What a transition changes besides state, stage, version and digest *)
Inductive plan_update :=
  | NoUpdate
  | SetInventory (ref : string)
  | SetReconciliation (ref : string)
  | SetCohorts (refs : list string)
  | SetWriteFence (ref : string)
  | SetCheckpoint (ref : string)
  | SetRetirement (ref : string).

(** [data.update(updates)] on the dump of the plan *)
Definition apply_update (u : plan_update) (p : MigrationPlan) : MigrationPlan :=
  let '(mkPlan v d m pl s sd t st sta i r c w k e) := p in
  match u with
  | NoUpdate => p
  | SetInventory x => mkPlan v d m pl s sd t st sta (Some x) r c w k e
  | SetReconciliation x => mkPlan v d m pl s sd t st sta i (Some x) c w k e
  | SetCohorts x => mkPlan v d m pl s sd t st sta i r x w k e
  | SetWriteFence x => mkPlan v d m pl s sd t st sta i r c (Some x) k e
  | SetCheckpoint x => mkPlan v d m pl s sd t st sta i r c w (Some x) e
  | SetRetirement x => mkPlan v d m pl s sd t st sta i r c w k (Some x)
  end.

(** The updated dump: state, stage and version set; the digest is over it. *)
Definition set_stage (state : MigrationState) (stage : MigrationStage) (version : Z) (digest : string)
    (p : MigrationPlan) : MigrationPlan :=
  let '(mkPlan _ _ m pl s sd t _ _ i r c w k e) := p in
  mkPlan version digest m pl s sd t stage state i r c w k e.

(** [MigrationPlan(state=..., stage=..., version=v + 1, digest=_digest_for(data), ...)] before validation *)
Definition advanced (plan : MigrationPlan) (state : MigrationState) (stage : MigrationStage)
    (u : plan_update) : MigrationPlan :=
  let data := set_stage state stage (mp_version plan + 1) "" (apply_update u plan) in
  set_stage state stage (mp_version plan + 1) (canonical_digest (MigrationPlan_data data)) data.

Definition next_plan (plan : MigrationPlan) (expected_version : Z) (state : MigrationState)
    (stage : MigrationStage) (u : plan_update) : result MigrationPlan :=
  _ ← cas_version (mp_version plan) expected_version;
  _ ← raise_if (MAX_VERSION <=? mp_version plan) (MigrationCasConflictError "migration_version_exhausted");
  construct validate_MigrationPlan (advanced plan state stage u).

Definition same_or_conflict {A} `{EqDecision A} (existing : option A) (incoming : A) (identity : string) :
    result (option A) :=
  match existing with
  | None => Ok None
  | Some x => if bool_decide (x = incoming) then Ok (Some x)
              else Raise (MigrationReplayError (identity +:+ "_replay_drift"))
  end.

Definition require_gate (gate : PrerequisiteGate) (plan : MigrationPlan) (stage : MigrationStage) : result () :=
  _ ← raise_if (bool_decide (pg_migration_ref gate ≠ mp_migration_ref plan) ||
                bool_decide (pg_source_snapshot_digest gate ≠ mp_source_snapshot_digest plan) ||
                bool_decide (pg_stage gate ≠ stage))
        (MigrationGateError "migration_gate_binding_mismatch");
  raise_if (bool_decide (pg_decision gate ≠ GatePassed)) (MigrationGateError "migration_gate_blocked").

Definition get_snapshot self (snapshot_ref digest : string) : result SourceSnapshot :=
  snapshot ← require (snapshots self !! snapshot_ref) (MigrationPrerequisiteError "source_snapshot_missing");
  _ ← raise_if (bool_decide (ss_snapshot_digest snapshot ≠ digest))
        (MigrationConflictError "source_snapshot_digest_drift");
  Ok snapshot.

Definition get_plan self (plan_ref : string) : result MigrationPlan :=
  require (plans self !! plan_ref) MigrationNotFoundError.

(** ** Registration *)
Definition register_snapshot (snapshot : SourceSnapshot) : MA SourceSnapshot :=
  self ← get_state;
  same ← lift (same_or_conflict (snapshots self !! ss_snapshot_ref snapshot) snapshot "source_snapshot");
  match same with
  | Some x => mret x
  | None => _ ← modify (put_snapshot snapshot); mret snapshot
  end.

Definition create_plan (plan : MigrationPlan) (snapshot : SourceSnapshot) : MA MigrationPlan :=
  _ ← raise_if (negb (mp_version plan =? 1) || bool_decide (mp_state plan ≠ Planned))
        (MigrationConflictError "migration_plan_not_initial");
  _ ← raise_if (bool_decide (mp_source_snapshot_ref plan ≠ ss_snapshot_ref snapshot))
        (MigrationConflictError "migration_plan_snapshot_ref_mismatch");
  _ ← raise_if (bool_decide (mp_source_snapshot_digest plan ≠ ss_snapshot_digest snapshot))
        (MigrationConflictError "migration_plan_snapshot_digest_mismatch");
  _ ← register_snapshot snapshot;
  self ← get_state;
  same ← lift (same_or_conflict (plans self !! mp_plan_ref plan) plan "migration_plan");
  match same with
  | Some x => mret x
  | None => _ ← modify (put_plan plan); mret plan
  end.

(** ** Stage 0 *)
Definition inventory_matches_snapshot_binding (inventory : MigrationInventory) (plan : MigrationPlan)
    (snapshot : SourceSnapshot) (source_file_refs : list string) : bool :=
  if bool_decide (mi_migration_ref inventory ≠ mp_migration_ref plan) ||
     bool_decide (mi_source_snapshot_ref inventory ≠ mp_source_snapshot_ref plan) ||
     bool_decide (mi_source_snapshot_digest inventory ≠ mp_source_snapshot_digest plan)
  then false
  else negb (existsb (λ i,
    bool_decide (ii_source_ref i ≠ ss_source_ref snapshot) ||
    bool_decide (ii_source_revision i ≠ ss_revision snapshot) ||
    match ii_source_file_ref i with
    | Some f => bool_decide (f ∉ source_file_refs)
    | None => false
    end) (mi_items inventory)).

Definition freeze_inventory (plan_ref : string) (inventory : MigrationInventory)
    (expected_plan_version : Z) : MA MigrationPlan :=
  self ← get_state;
  plan ← lift (get_plan self plan_ref);
  snapshot ← lift (get_snapshot self (mp_source_snapshot_ref plan) (mp_source_snapshot_digest plan));
  _ ← raise_if (negb (inventory_matches_snapshot_binding inventory plan snapshot
                        (map sf_source_file_ref (ss_files snapshot))))
        (MigrationConflictError "inventory_snapshot_binding_mismatch");
  same ← lift (same_or_conflict (inventories self !! mi_inventory_ref inventory) inventory "migration_inventory");
  match same with
  | Some _ =>
      if bool_decide (mp_inventory_ref plan = Some (mi_inventory_ref inventory)) then mret plan
      else mthrow (MigrationReplayError "inventory_reference_replay_drift")
  | None =>
      _ ← raise_if (bool_decide (mp_state plan ≠ Planned))
            (MigrationPrerequisiteError "inventory_freeze_stage_invalid");
      updated ← lift (next_plan plan expected_plan_version InventoryFrozen Stage0InventoryFreeze
                        (SetInventory (mi_inventory_ref inventory)));
      _ ← modify (put_inventory inventory);
      _ ← modify (put_plan updated);
      mret updated
  end.

(** ** Stage 1 *)
Definition backfill_observation_conflict (batch : BackfillBatch) (inventory_refs : list string)
    (snapshot : SourceSnapshot) : option string :=
  if existsb (λ o, bool_decide (bo_canonical_ref o ∉ inventory_refs)) (bb_observations batch)
  then Some "backfill_identity_not_in_inventory"
  else if existsb (λ o, bool_decide (bo_source_revision o ≠ ss_revision snapshot)) (bb_observations batch)
  then Some "backfill_source_revision_mismatch"
  else None.

Definition record_backfill (plan_ref : string) (batch : BackfillBatch) (expected_plan_version : Z) :
    MA MigrationPlan :=
  self ← get_state;
  plan ← lift (get_plan self plan_ref);
  snapshot ← lift (get_snapshot self (mp_source_snapshot_ref plan) (mp_source_snapshot_digest plan));
  _ ← raise_if (bool_decide (bb_migration_ref batch ≠ mp_migration_ref plan) ||
                bool_decide (bb_source_snapshot_digest batch ≠ mp_source_snapshot_digest plan))
        (MigrationConflictError "backfill_snapshot_binding_mismatch");
  inventory ← require (inventory_ref ← mp_inventory_ref plan; inventories self !! inventory_ref)
                (MigrationPrerequisiteError "frozen_inventory_missing");
  _ ← match backfill_observation_conflict batch (map ii_canonical_ref (mi_items inventory)) snapshot with
      | Some conflict => mthrow (MigrationConflictError conflict)
      | None => mret ()
      end;
  same ← lift (same_or_conflict (backfills self !! bb_batch_ref batch) batch "backfill_batch");
  match same with
  | Some _ => mret plan
  | None =>
      _ ← raise_if (bool_decide (mp_state plan ∉ [InventoryFrozen; BackfillObserving]))
            (MigrationPrerequisiteError "backfill_stage_invalid");
      let next_state := if bool_decide (mp_state plan = InventoryFrozen) then BackfillObserving else mp_state plan in
      updated ← lift (next_plan plan expected_plan_version next_state Stage1ReadOnlyBackfill NoUpdate);
      _ ← modify (put_backfill batch);
      _ ← modify (put_plan updated);
      mret updated
  end.

Definition get_backfill self (batch_ref : string) : result BackfillBatch :=
  require (backfills self !! batch_ref) MigrationNotFoundError.
Definition get_inventory self (inventory_ref : string) : result MigrationInventory :=
  require (inventories self !! inventory_ref) MigrationNotFoundError.

(** ** Stage 2 *)
Definition observations_for self (plan : MigrationPlan) : list BackfillObservation :=
  sort_by bo_canonical_ref (concat (map (λ b,
    if bool_decide (bb_migration_ref b = mp_migration_ref plan) &&
       bool_decide (bb_source_snapshot_digest b = mp_source_snapshot_digest plan)
    then bb_observations b else []) (map_to_list (backfills self)).*2)).

Definition delta (canonical_ref : string) (kind : DeltaKind) (source_digest target_digest : option string) :
    result ShadowDelta :=
  let data := JObj [("canonical_ref", JStr canonical_ref); ("kind", JStr (delta_kind_str kind));
                    ("source_digest", null_or JStr source_digest);
                    ("target_digest", null_or JStr target_digest)] in
  construct validate_ShadowDelta
    (mkDelta 1 (canonical_digest data) canonical_ref kind source_digest target_digest (canonical_digest data)).

Definition build_shadow_record_maps (source_records target_records : list CanonicalRecord) :
    result (gmap string CanonicalRecord * gmap string CanonicalRecord) :=
  let to_map := foldl (λ m r, <[cr_canonical_ref r := r]> m) ∅ in
  let source_map : gmap string CanonicalRecord := to_map source_records in
  let target_map : gmap string CanonicalRecord := to_map target_records in
  _ ← raise_if (bool_decide (size source_map ≠ length source_records) ||
                bool_decide (size target_map ≠ length target_records))
        (MigrationConflictError "shadow_record_duplicate");
  Ok (source_map, target_map).

Definition load_shadow_observations self (plan : MigrationPlan) : result (list BackfillObservation) :=
  let observations := observations_for self plan in
  _ ← raise_if (bool_decide (observations = [])) (MigrationPrerequisiteError "backfill_observations_missing");
  _ ← raise_if (has_duplicates (map bo_canonical_ref observations))
        (MigrationConflictError "backfill_identity_duplicate");
  Ok observations.

Definition load_shadow_inventory self (plan : MigrationPlan) : result MigrationInventory :=
  require (inventories self !! default "" (mp_inventory_ref plan))
    (MigrationPrerequisiteError "frozen_inventory_missing").

Definition validate_shadow_backfill_coverage self (plan : MigrationPlan)
    (source_records : list CanonicalRecord) (snapshot : SourceSnapshot) : result (bool * bool) :=
  _ ← raise_if (existsb (λ r, bool_decide (cr_source_revision r ≠ ss_revision snapshot)) source_records)
        (MigrationConflictError "shadow_source_revision_mismatch");
  observations ← load_shadow_observations self plan;
  inventory ← load_shadow_inventory self plan;
  let accepted := map bo_canonical_ref (filter (λ o, bo_disposition o = Accepted) observations) in
  _ ← raise_if (existsb (λ r, bool_decide (cr_canonical_ref r ∉ accepted)) source_records)
        (MigrationPrerequisiteError "shadow_record_not_backfilled");
  Ok (existsb (λ o, bool_decide (bo_disposition o ≠ Accepted)) observations,
      existsb (λ i, bool_decide (ii_state i ≠ Present)) (mi_items inventory)).

Definition shadow_delta_for (canonical_ref : string) (source target : option CanonicalRecord) :
    result (option ShadowDelta) :=
  match source, target with
  | None, Some t => d ← delta canonical_ref Delete None (Some (cr_record_digest t)); Ok (Some d)
  | Some s, None => d ← delta canonical_ref Add (Some (cr_record_digest s)) None; Ok (Some d)
  | Some s, Some t =>
      if bool_decide (cr_record_digest s ≠ cr_record_digest t) ||
         bool_decide (cr_source_revision s ≠ cr_source_revision t)
      then d ← delta canonical_ref Update (Some (cr_record_digest s)) (Some (cr_record_digest t)); Ok (Some d)
      else Ok None
  | None, None => Ok None
  end.

Definition compute_shadow_deltas (source_map target_map : gmap string CanonicalRecord) :
    result (list ShadowDelta) :=
  for_fold (λ deltas canonical_ref,
      d ← shadow_delta_for canonical_ref (source_map !! canonical_ref) (target_map !! canonical_ref);
      Ok (match d with Some d => deltas ++ [d] | None => deltas end))
    (py_sorted (elements (dom source_map ∪ dom target_map : gset string))) [].

Definition shadow_reconciliation_state (has_rejected has_inventory_reject : bool) (deltas : list ShadowDelta) :
    ReconciliationState :=
  if has_rejected || has_inventory_reject then Blocked
  else if bool_decide (deltas = []) then Clean else NeedsReview.

(** [digest[7:23]] *)
Definition digest_prefix (digest : string) : string := String.substring 7 16 digest.

Definition build_shadow_reconciliation_candidate (plan : MigrationPlan)
    (source_snapshot_digest target_snapshot_digest : string) (deltas : list ShadowDelta)
    (state : ReconciliationState) : result ShadowReconciliation :=
  let reconciliation_ref := "reconcile:" +:+ digest_prefix source_snapshot_digest +:+ ":" +:+
                            digest_prefix target_snapshot_digest in
  let delta_digest := deltas_digest deltas in
  construct validate_ShadowReconciliation
    (mkReconciliation 1
       (canonical_digest (JObj [("reconciliation_ref", JStr reconciliation_ref);
          ("migration_ref", JStr (mp_migration_ref plan));
          ("source_snapshot_digest", JStr source_snapshot_digest);
          ("target_snapshot_digest", JStr target_snapshot_digest); ("delta_digest", JStr delta_digest);
          ("state", JStr (reconciliation_state_str state)); ("version", JInt 1)]))
       reconciliation_ref (mp_migration_ref plan) source_snapshot_digest target_snapshot_digest deltas
       (Z.of_nat (length deltas)) delta_digest state true).

Definition commit_shadow_reconciliation (plan : MigrationPlan) (candidate : ShadowReconciliation)
    (expected_plan_version : Z) : MA ShadowReconciliation :=
  self ← get_state;
  match reconciliations self !! sr_reconciliation_ref candidate with
  | Some existing =>
      if bool_decide (existing = candidate) then mret existing
      else mthrow (MigrationReplayError "shadow_reconciliation_replay_drift")
  | None =>
      _ ← (if bool_decide (sr_state candidate = Clean) && bool_decide (mp_state plan = BackfillObserving) then
             updated ← lift (next_plan plan expected_plan_version ShadowReconciled
                               Stage2ShadowReconciliation
                               (SetReconciliation (sr_reconciliation_ref candidate)));
             modify (put_plan updated)
           else lift (cas_version (mp_version plan) expected_plan_version));
      _ ← modify (put_reconciliation candidate);
      mret candidate
  end.

Definition reconcile_shadow (plan_ref source_snapshot_digest target_snapshot_digest : string)
    (source_records target_records : list CanonicalRecord) (expected_plan_version : Z) :
    MA ShadowReconciliation :=
  self ← get_state;
  plan ← lift (get_plan self plan_ref);
  snapshot ← lift (get_snapshot self (mp_source_snapshot_ref plan) source_snapshot_digest);
  _ ← raise_if (bool_decide (mp_state plan ∉ [BackfillObserving; ShadowReconciled]))
        (MigrationPrerequisiteError "shadow_stage_invalid");
  maps ← lift (build_shadow_record_maps source_records target_records);
  coverage ← lift (validate_shadow_backfill_coverage self plan source_records snapshot);
  deltas ← lift (compute_shadow_deltas maps.1 maps.2);
  let state := shadow_reconciliation_state coverage.1 coverage.2 deltas in
  _ ← raise_if (bool_decide (target_snapshot_digest = source_snapshot_digest) && bool_decide (deltas ≠ []))
        (MigrationConflictError "same_snapshot_nonzero_delta");
  candidate ← lift (build_shadow_reconciliation_candidate plan source_snapshot_digest
                      target_snapshot_digest deltas state);
  commit_shadow_reconciliation plan candidate expected_plan_version.

Definition get_reconciliation self (reconciliation_ref : string) : result ShadowReconciliation :=
  require (reconciliations self !! reconciliation_ref) MigrationNotFoundError.
Definition get_write_fence self (fence_ref : string) : result WriteCutoverFence :=
  require (write_fences self !! fence_ref) MigrationNotFoundError.

(** [sorted(matches, key=reconciliation_ref)[-1]] *)
Definition clean_reconciliation self (plan : MigrationPlan) : result ShadowReconciliation :=
  let matches := filter (λ r,
    sr_migration_ref r = mp_migration_ref plan ∧
    sr_source_snapshot_digest r = mp_source_snapshot_digest plan ∧ sr_state r = Clean)
    (map_to_list (reconciliations self)).*2 in
  require (last (sort_by sr_reconciliation_ref matches)) (MigrationPrerequisiteError "clean_shadow_missing").

(** ** Stage 3 *)
Definition cutover_reads (plan_ref : string) (cutover : CohortReadCutover) (gate : PrerequisiteGate)
    (expected_plan_version : Z) : MA MigrationPlan :=
  self ← get_state;
  plan ← lift (get_plan self plan_ref);
  _ ← lift (require_gate gate plan Stage3CohortReadCutover);
  _ ← lift (clean_reconciliation self plan);
  _ ← raise_if (bool_decide (rc_migration_ref cutover ≠ mp_migration_ref plan) ||
                bool_decide (rc_source_snapshot_digest cutover ≠ mp_source_snapshot_digest plan) ||
                bool_decide (rc_gate_ref cutover ≠ pg_gate_ref gate))
        (MigrationConflictError "read_cutover_binding_mismatch");
  same ← lift (same_or_conflict (read_cutovers self !! rc_cutover_ref cutover) cutover "read_cutover");
  match same with
  | Some _ => mret plan
  | None =>
      _ ← raise_if (bool_decide (mp_state plan ∉ [ShadowReconciled; ReadCutover]))
            (MigrationPrerequisiteError "read_cutover_stage_invalid");
      let cohorts := py_sorted (elements (list_to_set (mp_cohort_refs plan) ∪ {[rc_cohort_ref cutover]} : gset string)) in
      updated ← lift (next_plan plan expected_plan_version ReadCutover Stage3CohortReadCutover
                        (SetCohorts cohorts));
      _ ← modify (put_read_cutover cutover);
      _ ← modify (put_plan updated);
      mret updated
  end.

(** ** Stage 4 *)
Definition fence_writes (plan_ref : string) (fence : WriteCutoverFence) (gate : PrerequisiteGate)
    (expected_plan_version : Z) : MA MigrationPlan :=
  self ← get_state;
  plan ← lift (get_plan self plan_ref);
  _ ← lift (require_gate gate plan Stage4WriteCutover);
  _ ← raise_if (bool_decide (wf_migration_ref fence ≠ mp_migration_ref plan) ||
                bool_decide (wf_source_snapshot_digest fence ≠ mp_source_snapshot_digest plan) ||
                bool_decide (wf_authority_ref fence ≠ mp_target_authority_ref plan) ||
                bool_decide (wf_gate_ref fence ≠ pg_gate_ref gate) ||
                bool_decide ((list_to_set (wf_cohort_refs fence) : gset string) ≠ list_to_set (mp_cohort_refs plan)))
        (MigrationConflictError "write_fence_binding_mismatch");
  same ← lift (same_or_conflict (write_fences self !! wf_fence_ref fence) fence "write_fence");
  match same with
  | Some _ => mret plan
  | None =>
      _ ← raise_if (bool_decide (mp_state plan ≠ ReadCutover))
            (MigrationPrerequisiteError "write_cutover_stage_invalid");
      updated ← lift (next_plan plan expected_plan_version WriteFenced Stage4WriteCutover
                        (SetWriteFence (wf_fence_ref fence)));
      _ ← modify (put_write_fence fence);
      _ ← modify (put_plan updated);
      mret updated
  end.

(** ** Stage 5 *)
Definition checkpoint_projection (plan_ref : string) (checkpoint : ProjectionCheckpoint)
    (gate : PrerequisiteGate) (expected_plan_version : Z) : MA MigrationPlan :=
  self ← get_state;
  plan ← lift (get_plan self plan_ref);
  _ ← lift (require_gate gate plan Stage5ProjectionCheckpoint);
  _ ← raise_if (bool_decide (pc_migration_ref checkpoint ≠ mp_migration_ref plan) ||
                bool_decide (pc_source_snapshot_digest checkpoint ≠ mp_source_snapshot_digest plan) ||
                bool_decide (pc_gate_ref checkpoint ≠ pg_gate_ref gate) ||
                bool_decide (pc_state checkpoint ≠ Complete))
        (MigrationConflictError "projection_checkpoint_binding_mismatch");
  same ← lift (same_or_conflict (checkpoints self !! pc_checkpoint_ref checkpoint) checkpoint
                 "projection_checkpoint");
  match same with
  | Some _ => mret plan
  | None =>
      _ ← raise_if (bool_decide (mp_state plan ≠ WriteFenced) || bool_decide (mp_write_fence_ref plan = None))
            (MigrationPrerequisiteError "projection_checkpoint_stage_invalid");
      fence ← require (fence_ref ← mp_write_fence_ref plan; write_fences self !! fence_ref)
                (MigrationPrerequisiteError "active_write_fence_missing");
      _ ← raise_if (bool_decide (wf_state fence ≠ Active))
            (MigrationPrerequisiteError "active_write_fence_missing");
      updated ← lift (next_plan plan expected_plan_version Checkpointed Stage5ProjectionCheckpoint
                        (SetCheckpoint (pc_checkpoint_ref checkpoint)));
      _ ← modify (put_checkpoint checkpoint);
      _ ← modify (put_plan updated);
      mret updated
  end.

Definition get_checkpoint self (checkpoint_ref : string) : result ProjectionCheckpoint :=
  require (checkpoints self !! checkpoint_ref) MigrationNotFoundError.

(** ** Retirement *)
Definition retirement_proof_invalid (retirement : LegacyRetirement) (plan : MigrationPlan)
    (gate : PrerequisiteGate) : bool :=
  bool_decide (lr_migration_ref retirement ≠ mp_migration_ref plan) ||
  bool_decide (lr_source_snapshot_digest retirement ≠ mp_source_snapshot_digest plan) ||
  bool_decide (Some (lr_write_fence_ref retirement) ≠ mp_write_fence_ref plan) ||
  bool_decide (Some (lr_checkpoint_ref retirement) ≠ mp_checkpoint_ref plan) ||
  bool_decide (lr_gate_ref retirement ≠ pg_gate_ref gate) ||
  bool_decide (lr_state retirement ≠ RetirementRetired) ||
  negb (lr_remaining_consumers retirement =? 0) || negb (lr_remaining_facades retirement =? 0).

Definition retire_legacy (plan_ref : string) (retirement : LegacyRetirement) (gate : PrerequisiteGate)
    (expected_plan_version : Z) : MA MigrationPlan :=
  self ← get_state;
  plan ← lift (get_plan self plan_ref);
  _ ← lift (require_gate gate plan LegacyRetirementStage);
  _ ← raise_if (retirement_proof_invalid retirement plan gate)
        (MigrationConflictError "legacy_retirement_proof_invalid");
  same ← lift (same_or_conflict (retirements self !! lr_retirement_ref retirement) retirement
                 "legacy_retirement");
  match same with
  | Some _ => mret plan
  | None =>
      _ ← raise_if (bool_decide (mp_state plan ≠ Checkpointed))
            (MigrationPrerequisiteError "legacy_retirement_stage_invalid");
      updated ← lift (next_plan plan expected_plan_version Retired LegacyRetirementStage
                        (SetRetirement (lr_retirement_ref retirement)));
      _ ← modify (put_retirement retirement);
      _ ← modify (put_plan updated);
      mret updated
  end.

Definition get_retirement self (retirement_ref : string) : result LegacyRetirement :=
  require (retirements self !! retirement_ref) MigrationNotFoundError.

(** ** Rollback *)
Definition rolled_back_fence (f : WriteCutoverFence) : WriteCutoverFence :=
  let '(mkFence v _ r m s c a e g one deny _) := f in
  let data := mkFence (v + 1) "" r m s c a e g one deny CutoverRolledBack in
  mkFence (v + 1) (canonical_digest (WriteCutoverFence_data data)) r m s c a e g one deny CutoverRolledBack.

Definition rolled_back_fence_for self (plan : MigrationPlan) (rollback : MigrationRollback) :
    result (option WriteCutoverFence) :=
  if bool_decide (mp_state plan ∉ [WriteFenced; Checkpointed]) then Ok None else
  _ ← raise_if (bool_decide (rb_fence_ref rollback ≠ mp_write_fence_ref plan))
        (MigrationConflictError "rollback_fence_binding_invalid");
  fence ← require (write_fences self !! default "" (mp_write_fence_ref plan))
            (MigrationPrerequisiteError "rollback_fence_missing");
  _ ← raise_if (MAX_VERSION <=? wf_version fence) (MigrationCasConflictError "migration_version_exhausted");
  fence' ← construct validate_WriteCutoverFence (rolled_back_fence fence);
  Ok (Some fence').

Definition applied_form (r : MigrationRollback) : MigrationRollback :=
  let '(mkRollback v _ ref m f t s reason auth fence gate _) := r in
  let data := mkRollback v "" ref m f t s reason auth fence gate Applied in
  mkRollback v (canonical_digest (MigrationRollback_data data)) ref m f t s reason auth fence gate Applied.

Definition applied_rollback (r : MigrationRollback) : result MigrationRollback :=
  if bool_decide (rb_decision r ≠ Requested) then Ok r
  else construct validate_MigrationRollback (applied_form r).

Definition rollback (plan_ref : string) (rollback : MigrationRollback) (expected_plan_version : Z) :
    MA MigrationPlan :=
  self ← get_state;
  plan ← lift (get_plan self plan_ref);
  _ ← raise_if (bool_decide (mp_state plan = Retired))
        (MigrationPrerequisiteError "retired_migration_not_rollbackable");
  _ ← raise_if (bool_decide (rb_migration_ref rollback ≠ mp_migration_ref plan) ||
                bool_decide (rb_source_snapshot_digest rollback ≠ mp_source_snapshot_digest plan) ||
                bool_decide (rb_decision rollback ∉ [Requested; Applied]))
        (MigrationConflictError "rollback_binding_invalid");
  match rollbacks self !! rb_rollback_ref rollback with
  | Some existing =>
      if bool_decide (existing = rollback) then mret plan
      else mthrow (MigrationReplayError "rollback_replay_drift")
  | None =>
      fence ← lift (rolled_back_fence_for self plan rollback);
      applied ← lift (applied_rollback rollback);
      updated ← lift (next_plan plan expected_plan_version RolledBack RollbackStage NoUpdate);
      _ ← match fence with Some f => modify (put_write_fence f) | None => mret () end;
      _ ← modify (put_rollback applied);
      _ ← modify (put_plan updated);
      mret updated
  end.

Definition get_rollback self (rollback_ref : string) : result MigrationRollback :=
  require (rollbacks self !! rollback_ref) MigrationNotFoundError.
