(* ===== verification/MigrationProtocol.v ===== *)
(** The staged cutover protocol that [MigrationAuthority] implements.

    [step] is the abstract transition system: what one call may commit, with
    the checks the commit rests on. Every call of the authority is at most two
    such steps ([authority_refines_protocol]); the invariants are proved on the
    transition system by induction over its steps. *)
From S2P Require Export MigrationAuthority.
Local Open Scope Z_scope.

(** * The transition system *)

(** The gate passed for this plan and stage. *)
Definition gate_open (gate : PrerequisiteGate) (plan : MigrationPlan) (stage : MigrationStage) : Prop :=
  pg_migration_ref gate = mp_migration_ref plan ∧
  pg_source_snapshot_digest gate = mp_source_snapshot_digest plan ∧ pg_stage gate = stage ∧
  pg_decision gate = GatePassed.

(** A record about the migration of [plan] and its source snapshot. *)
Definition bound (migration_ref digest : string) (plan : MigrationPlan) : Prop :=
  migration_ref = mp_migration_ref plan ∧ digest = mp_source_snapshot_digest plan.

(** The inventory lists items of the snapshot only. *)
Definition inventory_of (s : SourceSnapshot) (inventory : MigrationInventory) : Prop :=
  ∀ i, i ∈ mi_items inventory → ii_source_ref i = ss_source_ref s ∧ ii_source_revision i = ss_revision s ∧
    ∀ f, ii_source_file_ref i = Some f → f ∈ map sf_source_file_ref (ss_files s).

(** The batch observes items of the inventory at the snapshot's revision. *)
Definition backfill_of (s : SourceSnapshot) (inventory : MigrationInventory) (batch : BackfillBatch) : Prop :=
  ∀ o, o ∈ bb_observations batch → bo_source_revision o = ss_revision s ∧
    bo_canonical_ref o ∈ map ii_canonical_ref (mi_items inventory).

(** The registered snapshot of the plan. *)
Definition plan_snapshot self (plan : MigrationPlan) (s : SourceSnapshot) : Prop :=
  snapshots self !! mp_source_snapshot_ref plan = Some s ∧
  ss_snapshot_digest s = mp_source_snapshot_digest plan.

Definition has_clean self (plan : MigrationPlan) : Prop :=
  ∃ k r, reconciliations self !! k = Some r ∧
    bound (sr_migration_ref r) (sr_source_snapshot_digest r) plan ∧ sr_state r = Clean.

(** The evidence a transition of [plan] records, and the checks it passes:
    [moves self plan state update self1]. *)
Inductive moves self (plan : MigrationPlan) :
    MigrationState → plan_update → InMemoryMigrationAuthority → Prop :=
  | move_freeze inventory s :
      mp_state plan = Planned → inventories self !! mi_inventory_ref inventory = None →
      bound (mi_migration_ref inventory) (mi_source_snapshot_digest inventory) plan →
      plan_snapshot self plan s → inventory_of s inventory →
      moves self plan InventoryFrozen (SetInventory (mi_inventory_ref inventory)) (put_inventory inventory self)
  | move_backfill batch k inventory s :
      mp_state plan ∈ [InventoryFrozen; BackfillObserving] → backfills self !! bb_batch_ref batch = None →
      bound (bb_migration_ref batch) (bb_source_snapshot_digest batch) plan →
      mp_inventory_ref plan = Some k → inventories self !! k = Some inventory →
      plan_snapshot self plan s → backfill_of s inventory batch →
      moves self plan BackfillObserving NoUpdate (put_backfill batch self)
  | move_reconcile r :
      mp_state plan = BackfillObserving → reconciliations self !! sr_reconciliation_ref r = None →
      bound (sr_migration_ref r) (sr_source_snapshot_digest r) plan → sr_state r = Clean →
      moves self plan ShadowReconciled (SetReconciliation (sr_reconciliation_ref r)) (put_reconciliation r self)
  | move_cutover cutover gate cohorts :
      mp_state plan ∈ [ShadowReconciled; ReadCutover] → read_cutovers self !! rc_cutover_ref cutover = None →
      gate_open gate plan Stage3CohortReadCutover → rc_gate_ref cutover = pg_gate_ref gate →
      has_clean self plan → bound (rc_migration_ref cutover) (rc_source_snapshot_digest cutover) plan →
      (∀ c, c ∈ cohorts ↔ c = rc_cohort_ref cutover ∨ c ∈ mp_cohort_refs plan) →
      moves self plan ReadCutover (SetCohorts cohorts) (put_read_cutover cutover self)
  | move_fence fence gate :
      mp_state plan = ReadCutover → write_fences self !! wf_fence_ref fence = None →
      gate_open gate plan Stage4WriteCutover → wf_gate_ref fence = pg_gate_ref gate →
      bound (wf_migration_ref fence) (wf_source_snapshot_digest fence) plan →
      wf_authority_ref fence = mp_target_authority_ref plan →
      (∀ c, c ∈ wf_cohort_refs fence ↔ c ∈ mp_cohort_refs plan) →
      moves self plan WriteFenced (SetWriteFence (wf_fence_ref fence)) (put_write_fence fence self)
  | move_checkpoint checkpoint gate k fence :
      mp_state plan = WriteFenced → checkpoints self !! pc_checkpoint_ref checkpoint = None →
      gate_open gate plan Stage5ProjectionCheckpoint → pc_gate_ref checkpoint = pg_gate_ref gate →
      bound (pc_migration_ref checkpoint) (pc_source_snapshot_digest checkpoint) plan →
      pc_state checkpoint = Complete → mp_write_fence_ref plan = Some k →
      write_fences self !! k = Some fence → wf_state fence = Active →
      moves self plan Checkpointed (SetCheckpoint (pc_checkpoint_ref checkpoint)) (put_checkpoint checkpoint self)
  | move_retire retirement gate :
      mp_state plan = Checkpointed → retirements self !! lr_retirement_ref retirement = None →
      gate_open gate plan LegacyRetirementStage → lr_gate_ref retirement = pg_gate_ref gate →
      bound (lr_migration_ref retirement) (lr_source_snapshot_digest retirement) plan →
      mp_write_fence_ref plan = Some (lr_write_fence_ref retirement) →
      mp_checkpoint_ref plan = Some (lr_checkpoint_ref retirement) →
      lr_state retirement = RetirementRetired → lr_remaining_consumers retirement = 0 →
      lr_remaining_facades retirement = 0 →
      moves self plan Retired (SetRetirement (lr_retirement_ref retirement)) (put_retirement retirement self)
  | move_rollback r self1 :
      mp_state plan ≠ Retired → rollbacks self !! rb_rollback_ref r = None → rb_decision r = Applied →
      bound (rb_migration_ref r) (rb_source_snapshot_digest r) plan →
      (mp_state plan ∉ [WriteFenced; Checkpointed] ∧ self1 = self ∨
       mp_state plan ∈ [WriteFenced; Checkpointed] ∧
       ∃ k fence, mp_write_fence_ref plan = Some k ∧ write_fences self !! k = Some fence ∧
         self1 = put_write_fence (rolled_back_fence fence) self) →
      moves self plan RolledBack NoUpdate (put_rollback r self1).

(** No evidence yet: the plan [MigrationPlan.initial] builds. *)
Definition unstarted (plan : MigrationPlan) : Prop :=
  mp_inventory_ref plan = None ∧ mp_reconciliation_ref plan = None ∧ mp_cohort_refs plan = [] ∧
  mp_write_fence_ref plan = None ∧ mp_checkpoint_ref plan = None ∧ mp_retirement_ref plan = None.

(** One commit. The label is the plan and the version the caller expected of it. *)
Inductive step self : option (string * Z) → InMemoryMigrationAuthority → Prop :=
  | step_snapshot s :
      snapshots self !! ss_snapshot_ref s = None → step self None (put_snapshot s self)
  | step_create plan s :
      plans self !! mp_plan_ref plan = None → mp_version plan = 1 → mp_state plan = Planned →
      plan_snapshot self plan s → validate_MigrationPlan plan = Ok () → unstarted plan →
      step self None (put_plan plan self)
  | step_observe plan_ref plan r :
      plans self !! plan_ref = Some plan → mp_state plan ∈ [BackfillObserving; ShadowReconciled] →
      reconciliations self !! sr_reconciliation_ref r = None →
      bound (sr_migration_ref r) (sr_source_snapshot_digest r) plan →
      step self (Some (plan_ref, mp_version plan)) (put_reconciliation r self)
  | step_move plan_ref plan state update self1 :
      plans self !! plan_ref = Some plan → moves self plan state update self1 →
      mp_version plan < MAX_VERSION →
      validate_MigrationPlan (advanced plan state (expected_stage state) update) = Ok () →
      step self (Some (plan_ref, mp_version plan))
        (put_plan (advanced plan state (expected_stage state) update) self1).

(** * Every call is a step *)
Lemma next_plan_ok plan v state stage u q :
  next_plan plan v state stage u = Ok q ↔
  v = mp_version plan ∧ mp_version plan < MAX_VERSION ∧ q = advanced plan state stage u ∧
  validate_MigrationPlan (advanced plan state stage u) = Ok ().
Proof.
  unfold next_plan, cas_version, construct. split.
  - intros Hok. apply result_bind_ok in Hok as ([] & Hv & Hok). apply result_bind_ok in Hok as ([] & Hm & Hok).
    apply result_bind_ok in Hok as ([] & Hval & Hok). guards. auto.
  - intros (-> & Hm & -> & Hval). rewrite bool_decide_eq_false_2 by (by intros []). cbn [raise_if mbind result_bind mret result_ret].
    rewrite (proj2 (Z.leb_gt _ _)) by done. cbn [raise_if mbind result_bind mret result_ret]. by rewrite Hval.
Qed.

Lemma same_or_conflict_none {A} `{EqDecision A} (o : option A) x id :
  same_or_conflict o x id = Ok None ↔ o = None.
Proof. destruct o as [y|]; cbn; [|done]. by case_bool_decide. Qed.
Lemma same_or_conflict_some {A} `{EqDecision A} (o : option A) x y id :
  same_or_conflict o x id = Ok (Some y) ↔ o = Some x ∧ y = x.
Proof.
  destruct o as [z|]; cbn; [|by split; [|intros [? _]]]. case_bool_decide as E.
  - subst z. split; [by intros [= ->]|by intros [_ ->]].
  - split; [done|]. by intros [[= ->] _].
Qed.

Lemma require_gate_ok gate plan stage :
  require_gate gate plan stage = Ok () ↔ gate_open gate plan stage.
Proof.
  unfold require_gate, gate_open. split.
  - intros Hok. guards. auto.
  - intros (-> & -> & -> & ->). by rewrite !bool_decide_eq_false_2 by (by intros []).
Qed.

Lemma clean_reconciliation_ok self plan r : clean_reconciliation self plan = Ok r → has_clean self plan.
Proof.
  unfold clean_reconciliation. intros Hok. guards.
  assert (r ∈ sort_by sr_reconciliation_ref (filter (λ r, sr_migration_ref r = mp_migration_ref plan ∧
    sr_source_snapshot_digest r = mp_source_snapshot_digest plan ∧ sr_state r = Clean)
    (map_to_list (reconciliations self)).*2)) as Hr.
  { rewrite last_lookup in Hok. by apply list_elem_of_lookup_2 in Hok. }
  apply elem_of_sort_by, list_elem_of_filter in Hr as [(H1 & H2 & H3) Hr].
  apply list_elem_of_fmap in Hr as ([k r'] & -> & Hk%elem_of_map_to_list). by exists k, r'.
Qed.

Lemma get_plan_ok self k p : get_plan self k = Ok p ↔ plans self !! k = Some p.
Proof. apply require_ok. Qed.
Lemma get_snapshot_ok self k d s :
  get_snapshot self k d = Ok s ↔ snapshots self !! k = Some s ∧ ss_snapshot_digest s = d.
Proof.
  unfold get_snapshot. split; [intros Hok; guards; by subst|].
  intros [-> <-]. cbn. by rewrite bool_decide_eq_false_2 by (by intros []).
Qed.

(** [commits_step plan_ref v]: the call commits one step with the version the
    caller expected, and returns the plan it stored. *)
Definition commits_step self (plan_ref : string) (v : Z) (q : MigrationPlan) (self' : InMemoryMigrationAuthority) : Prop :=
  step self (Some (plan_ref, v)) self' ∧ ∃ self1, self' = put_plan q self1.

Lemma commits_move self plan_ref plan v state update self1 q :
  plans self !! plan_ref = Some plan → moves self plan state update self1 →
  next_plan plan v state (expected_stage state) update = Ok q →
  commits_step self plan_ref v q (put_plan q self1).
Proof.
  intros Hp Hm (-> & Hv & -> & Hval)%next_plan_ok. split; [by apply step_move|by exists self1].
Qed.

Lemma inventory_matches_ok inventory plan s :
  inventory_matches_snapshot_binding inventory plan s (map sf_source_file_ref (ss_files s)) = true ↔
  bound (mi_migration_ref inventory) (mi_source_snapshot_digest inventory) plan ∧
  mi_source_snapshot_ref inventory = mp_source_snapshot_ref plan ∧ inventory_of s inventory.
Proof.
  unfold inventory_matches_snapshot_binding, bound, inventory_of. split.
  - intros H. destruct (_ || _ || _) eqn:E; [done|]. guards. split; [done|]. split; [done|].
    rewrite existsb_false in H. intros i Hi%H. guards. split; [done|]. split; [done|].
    intros f E. rewrite E in *. by guards.
  - intros ((-> & ->) & -> & Hi). rewrite !bool_decide_eq_false_2 by (by intros []). cbn [orb].
    apply negb_true_iff, existsb_false. intros i (-> & -> & Hf)%Hi.
    rewrite !bool_decide_eq_false_2 by (by intros []). cbn [orb].
    destruct (ii_source_file_ref i) as [f|]; [|done]. apply bool_decide_eq_false_2. intros Hn. by apply Hn, Hf.
Qed.

(** The facts the checks of a call have left, in the form [moves] wants them. *)
Ltac fact_step :=
  match goal with
  | H : get_plan _ _ = Ok _ |- _ => apply get_plan_ok in H
  | H : get_snapshot _ _ _ = Ok _ |- _ => apply get_snapshot_ok in H
  | H : require_gate _ _ _ = Ok ?x |- _ => destruct x; apply require_gate_ok in H
  | H : same_or_conflict _ _ _ = Ok None |- _ => apply same_or_conflict_none in H
  | H : same_or_conflict _ _ _ = Ok (Some _) |- _ => apply same_or_conflict_some in H
  | H : clean_reconciliation _ _ = Ok _ |- _ => apply clean_reconciliation_ok in H
  | H : inventory_matches_snapshot_binding _ _ _ _ = true |- _ =>
      apply inventory_matches_ok in H as (? & ? & ?)
  end.
Ltac facts := repeat first [fact_step | guard_step].

(** Ends such a walk at the writes: the transition is [rule]. *)
Ltac committed rule :=
  eapply commits_done; [reflexivity|]; eapply commits_move; [done|eapply rule; try done|done].

Lemma freeze_commits self plan_ref inventory v :
  commits (commits_step self plan_ref v) (freeze_inventory plan_ref inventory v) self.
Proof.
  unfold freeze_inventory. repeat commit_step. facts.
  case_match; facts; [case_match; commit_step|]. repeat commit_step. facts.
  committed move_freeze.
Qed.

Lemma backfill_conflict_none batch inventory s :
  backfill_observation_conflict batch (map ii_canonical_ref (mi_items inventory)) s = None ↔
  backfill_of s inventory batch.
Proof.
  unfold backfill_observation_conflict, backfill_of. split.
  - destruct (existsb _ _) eqn:E1; [done|]. destruct (existsb (λ o, bool_decide (bo_source_revision o ≠ _)) _) eqn:E2; [done|].
    intros _ o Ho. rewrite existsb_false in E1, E2. specialize (E1 o Ho). specialize (E2 o Ho). by guards.
  - intros Ho. rewrite !(proj2 (existsb_false _ _)); [done| |];
      intros o [? ?]%Ho; apply bool_decide_eq_false_2; by intros Hn.
Qed.

Lemma backfill_next_state plan :
  mp_state plan ∈ [InventoryFrozen; BackfillObserving] →
  (if bool_decide (mp_state plan = InventoryFrozen) then BackfillObserving else mp_state plan) = BackfillObserving.
Proof. rewrite !elem_of_cons. intros [->|[->|[]%not_elem_of_nil]]; done. Qed.

Lemma backfill_commits self plan_ref batch v :
  commits (commits_step self plan_ref v) (record_backfill plan_ref batch v) self.
Proof.
  unfold record_backfill. repeat commit_step. destruct (backfill_observation_conflict _ _ _) eqn:Hc; [apply commits_fail|].
  apply backfill_conflict_none in Hc. apply commits_skip. repeat commit_step. case_match; facts; [commit_step|].
  repeat commit_step. facts.
  match goal with H : mp_inventory_ref _ ≫= _ = Some _ |- _ => apply bind_Some in H as (k & Hk & Hi) end.
  match goal with H : mp_state ?p ∈ _ |- _ => rewrite (backfill_next_state p) in * by exact H end.
  committed move_backfill.
Qed.

Lemma candidate_ok plan src tgt deltas state r :
  build_shadow_reconciliation_candidate plan src tgt deltas state = Ok r →
  sr_migration_ref r = mp_migration_ref plan ∧ sr_source_snapshot_digest r = src ∧
  sr_target_snapshot_digest r = tgt ∧ sr_deltas r = deltas ∧ sr_state r = state ∧
  sr_reconciliation_ref r = "reconcile:" +:+ digest_prefix src +:+ ":" +:+ digest_prefix tgt ∧
  validate_ShadowReconciliation r = Ok ().
Proof.
  unfold build_shadow_reconciliation_candidate, construct. intros Hok.
  apply result_bind_ok in Hok as ([] & Hv & Hok). injection Hok as <-. done.
Qed.

Lemma put_plan_reconciliation q r self :
  put_reconciliation r (put_plan q self) = put_plan q (put_reconciliation r self).
Proof. by destruct self. Qed.

Definition commits_reconciliation self (plan_ref : string) (v : Z) (r : ShadowReconciliation)
    (self' : InMemoryMigrationAuthority) : Prop :=
  step self (Some (plan_ref, v)) self' ∧ reconciliations self' !! sr_reconciliation_ref r = Some r.

Lemma put_reconciliation_lookup r self :
  reconciliations (put_reconciliation r self) !! sr_reconciliation_ref r = Some r.
Proof. destruct self. apply lookup_insert_eq. Qed.

Lemma commit_reconciliation_commits self plan_ref plan r v :
  plans self !! plan_ref = Some plan → mp_state plan ∈ [BackfillObserving; ShadowReconciled] →
  bound (sr_migration_ref r) (sr_source_snapshot_digest r) plan →
  commits (commits_reconciliation self plan_ref v) (commit_shadow_reconciliation plan r v) self.
Proof.
  intros Hp Hst Hb. unfold commit_shadow_reconciliation. apply commits_get.
  destruct (reconciliations self !! _) as [existing|] eqn:Hr; [case_match; commit_step|].
  intros res self'. unfold modify, lift. cbn [mbind M_bind].
  destruct (bool_decide (sr_state r = Clean) && bool_decide (mp_state plan = BackfillObserving)) eqn:Hc; cbn.
  - guards. destruct (next_plan plan v _ _ _) as [q|e] eqn:Hq; cbn; intros [= <- <-]; [right|by left].
    exists r. split; [done|]. apply next_plan_ok in Hq as (-> & Hv & -> & Hval).
    rewrite put_plan_reconciliation. split; [|by destruct self; apply lookup_insert_eq].
    apply (step_move _ _ _ ShadowReconciled); [done| |done|done]. by apply move_reconcile.
  - destruct (cas_version (mp_version plan) v) as [[]|e] eqn:Hv; cbn; intros [= <- <-]; [right|by left].
    exists r. split; [done|]. unfold cas_version in Hv. guards. subst v.
    split; [by eapply step_observe|apply put_reconciliation_lookup].
Qed.

Lemma reconcile_commits self plan_ref src tgt sources targets v :
  (∀ k p s, plans self !! k = Some p → snapshots self !! mp_source_snapshot_ref p = Some s →
     ss_snapshot_digest s = mp_source_snapshot_digest p) →
  commits (commits_reconciliation self plan_ref v)
    (reconcile_shadow plan_ref src tgt sources targets v) self.
Proof.
  intros Hsnap. unfold reconcile_shadow. repeat commit_step. facts.
  match goal with H : build_shadow_reconciliation_candidate _ _ _ _ _ = Ok _ |- _ =>
    apply candidate_ok in H as (Hm & Hs & _) end.
  apply (commit_reconciliation_commits self plan_ref a); [done|done|]. split; [done|]. rewrite Hs.
  match goal with H : snapshots self !! _ = Some ?s ∧ _ |- _ => destruct H as [Hl <-] end. by eapply Hsnap.
Qed.

Lemma cutover_cohorts plan cutover c :
  c ∈ py_sorted (elements (list_to_set (mp_cohort_refs plan) ∪ {[rc_cohort_ref cutover]} : gset string)) ↔
  c = rc_cohort_ref cutover ∨ c ∈ mp_cohort_refs plan.
Proof. rewrite elem_of_py_sorted, elem_of_elements. set_solver. Qed.

Lemma cutover_commits self plan_ref cutover gate v :
  commits (commits_step self plan_ref v) (cutover_reads plan_ref cutover gate v) self.
Proof.
  unfold cutover_reads. repeat commit_step. facts. case_match; facts; [commit_step|]. repeat commit_step. facts.
  committed move_cutover. intros c. apply cutover_cohorts.
Qed.

Lemma fence_commits self plan_ref fence gate v :
  commits (commits_step self plan_ref v) (fence_writes plan_ref fence gate v) self.
Proof.
  unfold fence_writes. repeat commit_step. facts. case_match; facts; [commit_step|]. repeat commit_step. facts.
  committed move_fence. intros c.
  match goal with H : list_to_set _ = list_to_set _ |- _ =>
    rewrite <- !(elem_of_list_to_set (C := gset string)); by rewrite H end.
Qed.

Lemma checkpoint_commits self plan_ref checkpoint gate v :
  commits (commits_step self plan_ref v) (checkpoint_projection plan_ref checkpoint gate v) self.
Proof.
  unfold checkpoint_projection. repeat commit_step. facts. case_match; facts; [commit_step|]. repeat commit_step. facts.
  match goal with H : mp_write_fence_ref _ ≫= _ = Some _ |- _ => apply bind_Some in H as (k & Hk & Hf) end.
  committed move_checkpoint.
Qed.

Lemma retirement_proof_ok retirement plan gate :
  retirement_proof_invalid retirement plan gate = false ↔
  bound (lr_migration_ref retirement) (lr_source_snapshot_digest retirement) plan ∧
  Some (lr_write_fence_ref retirement) = mp_write_fence_ref plan ∧
  Some (lr_checkpoint_ref retirement) = mp_checkpoint_ref plan ∧
  lr_gate_ref retirement = pg_gate_ref gate ∧ lr_state retirement = RetirementRetired ∧
  lr_remaining_consumers retirement = 0 ∧ lr_remaining_facades retirement = 0.
Proof.
  unfold retirement_proof_invalid, bound. split.
  - intros H. guards. done.
  - intros ((-> & ->) & -> & -> & -> & -> & -> & ->). by rewrite !bool_decide_eq_false_2 by (by intros []).
Qed.

Lemma retire_commits self plan_ref retirement gate v :
  commits (commits_step self plan_ref v) (retire_legacy plan_ref retirement gate v) self.
Proof.
  unfold retire_legacy. repeat commit_step. facts.
  match goal with H : retirement_proof_invalid _ _ _ = false |- _ =>
    apply retirement_proof_ok in H as (? & ? & ? & ? & ? & ? & ?) end.
  case_match; facts; [commit_step|]. repeat commit_step. facts. committed move_retire.
Qed.

Lemma rolled_back_fence_for_ok self plan r o :
  rolled_back_fence_for self plan r = Ok o ↔
  (mp_state plan ∉ [WriteFenced; Checkpointed] ∧ o = None) ∨
  (mp_state plan ∈ [WriteFenced; Checkpointed] ∧ rb_fence_ref r = mp_write_fence_ref plan ∧
   ∃ fence, write_fences self !! default "" (mp_write_fence_ref plan) = Some fence ∧
     wf_version fence < MAX_VERSION ∧ validate_WriteCutoverFence (rolled_back_fence fence) = Ok () ∧
     o = Some (rolled_back_fence fence)).
Proof.
  unfold rolled_back_fence_for. case_bool_decide as Hst.
  - split; [intros [= <-]; by left|]. intros [[_ ->]|[Hin _]]; [done|by destruct Hst].
  - split.
    + intros Hok. apply result_bind_ok in Hok as ([] & Hf & Hok).
      apply result_bind_ok in Hok as (fence & Hl & Hok). apply result_bind_ok in Hok as ([] & Hv & Hok).
      apply result_bind_ok in Hok as (f' & Hc & Hok). apply construct_ok in Hc as [-> Hc]. guards.
      right. split; [done|]. split; [done|]. by exists fence.
    + intros [[Hn _]|(_ & -> & fence & Hl & Hv & Hval & ->)]; [done|].
      rewrite bool_decide_eq_false_2 by (by intros []). cbn [raise_if mbind result_bind mret result_ret].
      rewrite Hl. cbn [require mbind result_bind mret result_ret].
      rewrite (proj2 (Z.leb_gt _ _)) by done. cbn [raise_if mbind result_bind mret result_ret].
      by rewrite (proj2 (construct_ok _ _ _) (conj eq_refl Hval)).
Qed.

Lemma applied_rollback_ok r r' :
  applied_rollback r = Ok r' ↔
  (rb_decision r ≠ Requested ∧ r' = r) ∨
  (rb_decision r = Requested ∧ r' = applied_form r ∧ validate_MigrationRollback (applied_form r) = Ok ()).
Proof.
  unfold applied_rollback. case_bool_decide as Hd.
  - split; [intros [= <-]; by left|]. by intros [[_ ->]|[? _]].
  - rewrite construct_ok. split; [by intros [-> ?]; right|]. by intros [[? _]|(_ & -> & ?)].
Qed.

(** The recorded rollback: the request, marked applied. *)
Lemma applied_form_fields r :
  rb_rollback_ref (applied_form r) = rb_rollback_ref r ∧ rb_migration_ref (applied_form r) = rb_migration_ref r ∧
  rb_source_snapshot_digest (applied_form r) = rb_source_snapshot_digest r ∧ rb_decision (applied_form r) = Applied.
Proof. by destruct r. Qed.

Lemma applied_rollback_fields r r' :
  rb_decision r ∈ [Requested; Applied] → applied_rollback r = Ok r' →
  rb_rollback_ref r' = rb_rollback_ref r ∧ rb_migration_ref r' = rb_migration_ref r ∧
  rb_source_snapshot_digest r' = rb_source_snapshot_digest r ∧ rb_decision r' = Applied.
Proof.
  intros Hd [[Hn ->]|(_ & -> & _)]%applied_rollback_ok; [|apply applied_form_fields].
  rewrite !elem_of_cons in Hd. destruct Hd as [?|[?|[]%not_elem_of_nil]]; done.
Qed.

Lemma rollback_commits self plan_ref r v :
  (∀ k p, plans self !! k = Some p → mp_state p ∈ [WriteFenced; Checkpointed] → is_Some (mp_write_fence_ref p)) →
  commits (commits_step self plan_ref v) (rollback plan_ref r v) self.
Proof.
  intros Hsane. unfold rollback. repeat commit_step. facts.
  destruct (rollbacks self !! rb_rollback_ref r) as [existing|] eqn:Hr; [case_match; commit_step|].
  repeat commit_step. facts.
  match goal with H : applied_rollback _ = Ok ?r' |- _ => rename r' into applied;
    apply applied_rollback_fields in H as (Href & Hmig & Hdig & Hdec); [|done] end.
  match goal with H : rolled_back_fence_for _ _ _ = Ok _ |- _ => apply rolled_back_fence_for_ok in H as Hfence end.
  match goal with H : next_plan ?plan _ _ _ _ = Ok ?q |- _ =>
    assert (Hmove : ∀ self1, (mp_state plan ∉ [WriteFenced; Checkpointed] ∧ self1 = self ∨
       mp_state plan ∈ [WriteFenced; Checkpointed] ∧ ∃ k fence, mp_write_fence_ref plan = Some k ∧
       write_fences self !! k = Some fence ∧ self1 = put_write_fence (rolled_back_fence fence) self) →
       commits_step self plan_ref v q (put_plan q (put_rollback applied self1)))
  end.
  { intros self1 Hs1. eapply commits_move; [done|eapply move_rollback; rewrite ?Href; try done|done].
    by rewrite Hmig, Hdig. }
  destruct Hfence as [[Hst ->]|(Hst & _ & fence & Hl & _ & _ & ->)].
  - eapply commits_done; [reflexivity|]. apply Hmove. by left.
  - eapply commits_done; [reflexivity|]. apply Hmove. right. split; [done|].
    match goal with H : plans self !! plan_ref = Some _ |- _ => destruct (Hsane _ _ H Hst) as [k Ek] end.
    rewrite Ek in Hl |- *. by exists k, fence.
Qed.

(** * What a plan has behind it *)

(** How far a plan that was not rolled back has come. *)
Definition progress (s : MigrationState) : nat :=
  match s with
  | Planned | RolledBack => 0
  | InventoryFrozen => 1
  | BackfillObserving => 2
  | ShadowReconciled => 3
  | ReadCutover => 4
  | WriteFenced => 5
  | Checkpointed => 6
  | Retired => 7
  end.

(** The record that [ref] names in [dict]. *)
Definition recorded {A} (dict : gmap string A) (ref : option string) (P : A → Prop) : Prop :=
  ∃ k x, ref = Some k ∧ dict !! k = Some x ∧ P x.

Lemma recorded_mono {A} (d d' : gmap string A) ref P : d ⊆ d' → recorded d ref P → recorded d' ref P.
Proof. intros Hd (k & x & -> & Hx & HP). exists k, x. split; [done|]. split; [by eapply lookup_weaken|done]. Qed.
Lemma recorded_put {A} (d : gmap string A) k x (P : A → Prop) : P x → recorded (<[k := x]> d) (Some k) P.
Proof. intros HP. exists k, x. by rewrite lookup_insert_eq. Qed.

Definition fence_of (p : MigrationPlan) (f : WriteCutoverFence) : Prop :=
  bound (wf_migration_ref f) (wf_source_snapshot_digest f) p ∧ wf_authority_ref f = mp_target_authority_ref p ∧
  ∀ c, c ∈ wf_cohort_refs f ↔ c ∈ mp_cohort_refs p.

(** The evidence a plan in its state rests on. *)
Record evidence self (p : MigrationPlan) : Prop := {
  ev_unfrozen : mp_state p = Planned → mp_inventory_ref p = None;
  ev_snapshot : ∃ s, plan_snapshot self p s;
  ev_inventory : (1 ≤ progress (mp_state p))%nat →
    recorded (inventories self) (mp_inventory_ref p) (λ i,
      bound (mi_migration_ref i) (mi_source_snapshot_digest i) p ∧ ∃ s, plan_snapshot self p s ∧ inventory_of s i);
  ev_backfill : (2 ≤ progress (mp_state p))%nat →
    ∃ k b, backfills self !! k = Some b ∧ bound (bb_migration_ref b) (bb_source_snapshot_digest b) p;
  ev_clean : (3 ≤ progress (mp_state p))%nat →
    recorded (reconciliations self) (mp_reconciliation_ref p) (λ r,
      bound (sr_migration_ref r) (sr_source_snapshot_digest r) p ∧ sr_state r = Clean);
  ev_cohorts c : c ∈ mp_cohort_refs p →
    ∃ k x, read_cutovers self !! k = Some x ∧ rc_cohort_ref x = c ∧
      bound (rc_migration_ref x) (rc_source_snapshot_digest x) p;
  ev_cut : (4 ≤ progress (mp_state p))%nat → mp_cohort_refs p ≠ [];
  ev_fence_known k : mp_write_fence_ref p = Some k → is_Some (write_fences self !! k);
  ev_fence : (5 ≤ progress (mp_state p))%nat → recorded (write_fences self) (mp_write_fence_ref p) (fence_of p);
  ev_active : (6 ≤ progress (mp_state p))%nat →
    recorded (write_fences self) (mp_write_fence_ref p) (λ f, wf_state f = Active);
  ev_checkpoint : (6 ≤ progress (mp_state p))%nat →
    recorded (checkpoints self) (mp_checkpoint_ref p) (λ c,
      bound (pc_migration_ref c) (pc_source_snapshot_digest c) p ∧ pc_state c = Complete);
  ev_retired : (7 ≤ progress (mp_state p))%nat →
    recorded (retirements self) (mp_retirement_ref p) (λ r,
      bound (lr_migration_ref r) (lr_source_snapshot_digest r) p ∧
      mp_write_fence_ref p = Some (lr_write_fence_ref r) ∧ mp_checkpoint_ref p = Some (lr_checkpoint_ref r) ∧
      lr_remaining_consumers r = 0 ∧ lr_remaining_facades r = 0) }.

(** Everything recorded stays, except that the fence [p] names must not be touched. *)
Record extends self self1 (p : MigrationPlan) : Prop := {
  ex_snapshots : snapshots self ⊆ snapshots self1;
  ex_inventories : inventories self ⊆ inventories self1;
  ex_backfills : backfills self ⊆ backfills self1;
  ex_reconciliations : reconciliations self ⊆ reconciliations self1;
  ex_read_cutovers : read_cutovers self ⊆ read_cutovers self1;
  ex_fences k : mp_write_fence_ref p = Some k → is_Some (write_fences self !! k) →
    write_fences self1 !! k = write_fences self !! k;
  ex_checkpoints : checkpoints self ⊆ checkpoints self1;
  ex_retirements : retirements self ⊆ retirements self1 }.

Lemma recorded_fence self self1 p P :
  extends self self1 p → recorded (write_fences self) (mp_write_fence_ref p) P →
  recorded (write_fences self1) (mp_write_fence_ref p) P.
Proof.
  intros Hex (k & x & Hk & Hx & HP). exists k, x. split; [done|]. split; [|done].
  by rewrite (ex_fences _ _ _ Hex) by done.
Qed.

Lemma plan_snapshot_mono self self1 p s :
  snapshots self ⊆ snapshots self1 → plan_snapshot self p s → plan_snapshot self1 p s.
Proof. intros Hs [Hl Hd]. split; [by eapply lookup_weaken|done]. Qed.

Lemma evidence_mono self self1 p : extends self self1 p → evidence self p → evidence self1 p.
Proof.
  intros Hex [Hu (s & Hs) Hi Hb Hc Hco Hcut Hk Hf Ha Hch Hr]. pose proof Hex as [E1 E2 E3 E4 E5 E6 E7 E8].
  split; try (intros Hp; eapply recorded_mono; [done|by eauto]); try (intros Hp; by eapply recorded_fence; eauto); try done.
  - exists s. by eapply plan_snapshot_mono.
  - intros Hp. destruct (Hi Hp) as (k & x & Hx & Hl & Hbd & s' & Hs' & Ho). exists k, x.
    split; [done|]. split; [by eapply lookup_weaken|]. split; [done|]. exists s'. split; [by eapply plan_snapshot_mono|done].
  - intros (k & b & Hl & Hbd)%Hb. exists k, b. split; [by eapply lookup_weaken|done].
  - intros c (k & x & Hl & Hx)%Hco. exists k, x. split; [by eapply lookup_weaken|done].
  - intros k E. rewrite (E6 k E) by (by apply Hk). by apply Hk.
Qed.

Lemma put_fresh {A} (m : gmap string A) k x : m !! k = None → m ⊆ <[k := x]> m.
Proof. apply insert_subseteq. Qed.

(** A transition without a rollback only adds evidence. *)
Lemma moves_extend self plan state u self1 p :
  moves self plan state u self1 → state ≠ RolledBack → extends self self1 p.
Proof.
  intros Hm Hst. destruct self. destruct Hm; cbn in *; try done;
    split; cbn; auto using put_fresh; try reflexivity.
  intros k Hk [f Hf]. rewrite lookup_insert_ne; [done|]. intros <-. congruence.
Qed.

(** ** The moved plan *)
Section advanced.
Context (plan : MigrationPlan) (state : MigrationState) (stage : MigrationStage) (u : plan_update).
Let q := advanced plan state stage u.

Lemma advanced_identity :
  mp_plan_ref q = mp_plan_ref plan ∧ mp_migration_ref q = mp_migration_ref plan ∧
  mp_source_snapshot_ref q = mp_source_snapshot_ref plan ∧
  mp_source_snapshot_digest q = mp_source_snapshot_digest plan ∧
  mp_target_authority_ref q = mp_target_authority_ref plan ∧
  mp_state q = state ∧ mp_stage q = stage ∧ mp_version q = mp_version plan + 1.
Proof. subst q. by destruct plan, u. Qed.

Lemma advanced_refs :
  mp_inventory_ref q = match u with SetInventory x => Some x | _ => mp_inventory_ref plan end ∧
  mp_reconciliation_ref q = match u with SetReconciliation x => Some x | _ => mp_reconciliation_ref plan end ∧
  mp_cohort_refs q = match u with SetCohorts x => x | _ => mp_cohort_refs plan end ∧
  mp_write_fence_ref q = match u with SetWriteFence x => Some x | _ => mp_write_fence_ref plan end ∧
  mp_checkpoint_ref q = match u with SetCheckpoint x => Some x | _ => mp_checkpoint_ref plan end ∧
  mp_retirement_ref q = match u with SetRetirement x => Some x | _ => mp_retirement_ref plan end.
Proof. subst q. by destruct plan, u. Qed.

Lemma advanced_bound m d : bound m d q ↔ bound m d plan.
Proof. unfold bound. destruct advanced_identity as (_ & -> & _ & -> & _). done. Qed.
Lemma advanced_snapshot self s : plan_snapshot self q s ↔ plan_snapshot self plan s.
Proof. unfold plan_snapshot. destruct advanced_identity as (_ & _ & -> & -> & _). done. Qed.
End advanced.

(** The state a guard [state in {...}] allows, case by case. *)
Ltac state_cases :=
  repeat match goal with
  | H : ?st ∈ _ :: _ |- _ => apply elem_of_cons in H as [H|H]; [subst st|]
  | H : _ ∈ [] |- _ => by apply not_elem_of_nil in H
  end.

(** What is unchanged or not yet due. *)
Ltac keep_evidence :=
  try (intros Hp; discriminate Hp);
  try (intros Hp; exfalso; clear -Hp; lia);
  try assumption;
  try (intros _;
       match goal with H : (_ <= _)%nat → _ |- _ => exact (H ltac:(lia)) end).

(** A cutover record for each cohort of the plan, after one more cutover. *)
Lemma add_cohort (cutovers : gmap string CohortReadCutover) x mig dig (old new : list string) :
  rc_migration_ref x = mig ∧ rc_source_snapshot_digest x = dig →
  (∀ c, c ∈ new ↔ c = rc_cohort_ref x ∨ c ∈ old) →
  (∀ c, c ∈ old → ∃ k y, <[rc_cutover_ref x := x]> cutovers !! k = Some y ∧ rc_cohort_ref y = c ∧
     rc_migration_ref y = mig ∧ rc_source_snapshot_digest y = dig) →
  ∀ c, c ∈ new → ∃ k y, <[rc_cutover_ref x := x]> cutovers !! k = Some y ∧ rc_cohort_ref y = c ∧
     rc_migration_ref y = mig ∧ rc_source_snapshot_digest y = dig.
Proof.
  intros Hx Hin Hold c [->|Hc]%Hin; [|by apply Hold].
  exists (rc_cutover_ref x), x. by rewrite lookup_insert_eq.
Qed.

Lemma in_not_nil {A} (x : A) l : x ∈ l → l ≠ [].
Proof. intros Hx ->. by apply not_elem_of_nil in Hx. Qed.

(** Evidence carries over to a plan that differs only in what a transition sets. *)
Lemma evidence_move self plan state u self1 :
  evidence self plan → moves self plan state u self1 →
  evidence self1 (advanced plan state (expected_stage state) u).
Proof.
  intros Hev Hm. destruct (decide (state = RolledBack)) as [->|Hns].
  - inversion Hm as [| | | | | | |r s1 Hst Hnone Hdec Hb Hs1]; subst.
    destruct Hev as [_ (s & Hs) _ _ _ Hco _ Hk _ _ _ _]. cbn [expected_stage].
    destruct (advanced_identity plan RolledBack RollbackStage NoUpdate) as (_ & Em & Esr & Esd & _ & Est & _).
    destruct (advanced_refs plan RolledBack RollbackStage NoUpdate) as (_ & _ & Eco & Ef & _).
    assert (snapshots (put_rollback r s1) = snapshots self ∧ read_cutovers (put_rollback r s1) = read_cutovers self ∧
      ∀ k, is_Some (write_fences self !! k) → is_Some (write_fences (put_rollback r s1) !! k)) as (E1 & E2 & E3).
    { destruct Hs1 as [[_ ->]|(_ & k & f & _ & _ & ->)]; destruct self; cbn; try done.
      split; [done|]. split; [done|]. intros k' Hk'. by apply lookup_insert_is_Some'; right. }
    split; rewrite ?Est; cbn [progress]; try done; try (by intros ?%Nat.nle_succ_0).
    + exists s. apply advanced_snapshot. unfold plan_snapshot in *. by rewrite E1.
    + intros c. rewrite Eco. intros (k & x & Hx & Hc & Hxb)%Hco. exists k, x. rewrite E2, advanced_bound. done.
    + intros k. rewrite Ef. intros Hk'%Hk. by apply E3.
  - pose proof (moves_extend _ _ _ _ _ plan Hm Hns) as Hex. pose proof (evidence_mono _ _ _ Hex Hev) as Hev1.
    clear Hev Hex. destruct Hev1 as [Hu Hs Hi Hb Hc Hco Hcut Hk Hf Ha Hch Hrt].
    destruct Hm as [inventory s|batch k inventory s|r|cutover gate cohorts Hst Hnone Hg Hgr Hcl Hbd Hin|fence gate
      |checkpoint gate k fence|retirement gate|]; try done;
      destruct self, plan as [ver dig mig pref sref sdig target stg st inv rec coh wf ck rt];
      unfold fence_of, bound, plan_snapshot in *; cbn in *; subst; state_cases; cbn in *;
      split; cbn; keep_evidence; try (intros _; apply recorded_put; done).
    + intros _. apply recorded_put. split; [done|]. by exists s.
    + intros _. exists (bb_batch_ref batch), batch. by rewrite lookup_insert_eq.
    + intros c. exact (add_cohort _ _ _ _ _ _ Hbd Hin Hco c).
    + intros _. by eapply in_not_nil, Hin; left.
    + intros c. exact (add_cohort _ _ _ _ _ _ Hbd Hin Hco c).
    + intros _. by eapply in_not_nil, Hin; left.
    + intros k [= <-]. by rewrite lookup_insert_eq.
    + intros _. by exists k, fence.
Qed.

(** * The invariant *)
Record protocol_inv self : Prop := {
  pi_key k p : plans self !! k = Some p → mp_plan_ref p = k;
  pi_valid k p : plans self !! k = Some p → validate_MigrationPlan p = Ok ();
  pi_evidence k p : plans self !! k = Some p → evidence self p;
  pi_fence_key k f : write_fences self !! k = Some f → wf_fence_ref f = k;
  pi_owner k1 p1 k2 p2 ref : plans self !! k1 = Some p1 → plans self !! k2 = Some p2 →
    mp_write_fence_ref p1 = Some ref → mp_write_fence_ref p2 = Some ref → k1 = k2 }.

Lemma moves_plans self plan state u self1 : moves self plan state u self1 → plans self1 = plans self.
Proof.
  destruct self. intros [| | | | | | |r s1 _ _ _ _ [[_ ->]|(_ & k & f & _ & _ & ->)]]; done.
Qed.

Lemma put_plan_lookup q self k :
  plans (put_plan q self) !! k = if decide (k = mp_plan_ref q) then Some q else plans self !! k.
Proof.
  destruct self. cbn. case_decide as E; [subst k; apply lookup_insert_eq|by apply lookup_insert_ne].
Qed.

Lemma put_plan_fences q self : write_fences (put_plan q self) = write_fences self.
Proof. by destruct self. Qed.

Lemma put_plan_extends q self p : extends self (put_plan q self) p.
Proof. destruct self. by split. Qed.

Lemma rolled_back_fence_ref f : wf_fence_ref (rolled_back_fence f) = wf_fence_ref f.
Proof. by destruct f. Qed.

(** The fences a move leaves behind keep their keys. *)
Lemma moves_fence_key self plan state u self1 :
  (∀ k f, write_fences self !! k = Some f → wf_fence_ref f = k) → moves self plan state u self1 →
  ∀ k f, write_fences self1 !! k = Some f → wf_fence_ref f = k.
Proof.
  intros Hkey Hm k f. destruct self.
  destruct Hm as [| | | |fence gate _ Hn| | |r s1 _ _ _ _ [[_ ->]|(_ & k0 & f0 & _ & Hf0 & ->)]];
    cbn in *; try apply Hkey.
  - rewrite lookup_insert_Some. intros [[<- <-]|[_ Hl]]; [done|by apply Hkey].
  - rewrite rolled_back_fence_ref. rewrite lookup_insert_Some. intros [[<- <-]|[_ Hl]]; [|by apply Hkey].
    apply rolled_back_fence_ref.
Qed.

(** A move of one plan does not touch the evidence of another. *)
Lemma moves_extend_other self k0 plan state u self1 k p :
  protocol_inv self → plans self !! k0 = Some plan → plans self !! k = Some p → k ≠ k0 →
  moves self plan state u self1 → extends self self1 p.
Proof.
  intros Hinv Hplan Hp Hne Hm. destruct (decide (state = RolledBack)) as [->|Hns]; [|by eapply moves_extend].
  inversion Hm as [| | | | | | |r s1 _ _ _ _ Hs1]; subst.
  destruct Hs1 as [[_ ->]|(_ & ref & f & Hw & Hf & ->)]; destruct self; split; cbn in *; try done.
  intros x Hx _. rewrite rolled_back_fence_ref, (pi_fence_key _ Hinv _ _ Hf). rewrite lookup_insert_ne; [done|].
  intros <-. apply Hne. by eapply (pi_owner _ Hinv).
Qed.

Lemma step_observe_inv self r :
  protocol_inv self → reconciliations self !! sr_reconciliation_ref r = None →
  protocol_inv (put_reconciliation r self).
Proof.
  intros [Hk Hv He Hf Ho] Hn.
  assert (Hex : ∀ p, extends self (put_reconciliation r self) p).
  { intros p. destruct self. split; cbn; auto using put_fresh; reflexivity. }
  assert (Hp : plans (put_reconciliation r self) = plans self) by (by destruct self).
  assert (Hw : write_fences (put_reconciliation r self) = write_fences self) by (by destruct self).
  split; rewrite ?Hp, ?Hw; try done. intros k p Hl. eapply evidence_mono; [apply Hex|by eapply He].
Qed.

Lemma step_snapshot_inv self s :
  protocol_inv self → snapshots self !! ss_snapshot_ref s = None → protocol_inv (put_snapshot s self).
Proof.
  intros [Hk Hv He Hf Ho] Hn.
  assert (Hex : ∀ p, extends self (put_snapshot s self) p).
  { intros p. destruct self. split; cbn; auto using put_fresh; reflexivity. }
  assert (Hp : plans (put_snapshot s self) = plans self) by (by destruct self).
  assert (Hw : write_fences (put_snapshot s self) = write_fences self) by (by destruct self).
  split; rewrite ?Hp, ?Hw; try done. intros k p Hl. eapply evidence_mono; [apply Hex|by eapply He].
Qed.

Lemma unstarted_evidence self plan s :
  mp_state plan = Planned → plan_snapshot self plan s → unstarted plan → evidence self plan.
Proof.
  intros Hst Hs (Hi & _ & Hco & Hw & _ & _). split; rewrite ?Hst, ?Hco, ?Hw; cbn [progress]; try done;
    try (by intros ?%Nat.nle_succ_0); [by exists s|by intros c ?%not_elem_of_nil].
Qed.

(** Storing a plan: the others keep their evidence. *)
Lemma put_plan_inv self self1 q :
  (∀ k p, plans self !! k = Some p → k ≠ mp_plan_ref q → extends self self1 p) →
  plans self1 = plans self → protocol_inv self →
  (∀ k f, write_fences self1 !! k = Some f → wf_fence_ref f = k) →
  validate_MigrationPlan q = Ok () → evidence self1 q →
  (∀ k p ref, plans self !! k = Some p → k ≠ mp_plan_ref q → mp_write_fence_ref p = Some ref →
     mp_write_fence_ref q ≠ Some ref) →
  protocol_inv (put_plan q self1).
Proof.
  intros Hex Hpl [Hk Hv He _ Ho] Hf Hval Hev Howner.
  split; try setoid_rewrite put_plan_lookup; rewrite ?put_plan_fences, ?Hpl.
  - intros k p. case_decide as E; [by intros [= <-]|apply Hk].
  - intros k p. case_decide as E; [by intros [= <-]|apply Hv].
  - intros k p. case_decide as E.
    + intros [= <-]. eapply evidence_mono; [apply put_plan_extends|done].
    + intros Hp. eapply evidence_mono; [apply put_plan_extends|].
      eapply evidence_mono; [by eapply Hex|by eapply He].
  - exact Hf.
  - intros k1 p1 k2 p2 ref. case_decide as E1; case_decide as E2; intros H1 H2 Hr1 Hr2.
    + by subst.
    + injection H1 as <-. by destruct (Howner _ _ _ H2 E2 Hr2).
    + injection H2 as <-. by destruct (Howner _ _ _ H1 E1 Hr1).
    + by eapply Ho.
Qed.

(** The fence a moved plan names is new or its own. *)
Lemma moves_owner self k0 plan state u self1 k p ref :
  protocol_inv self → plans self !! k0 = Some plan → plans self !! k = Some p → k ≠ k0 →
  moves self plan state u self1 → mp_write_fence_ref p = Some ref →
  mp_write_fence_ref (advanced plan state (expected_stage state) u) ≠ Some ref.
Proof.
  intros Hinv Hplan Hp Hne Hm Hr. destruct (advanced_refs plan state (expected_stage state) u) as (_ & _ & _ & -> & _).
  assert (mp_write_fence_ref plan ≠ Some ref) as Hown.
  { intros Hr'. apply Hne. by eapply (pi_owner _ Hinv). }
  destruct Hm as [| | | |fence gate Hst Hn| | |]; try done.
  intros [= <-]. destruct (ev_fence_known _ _ (pi_evidence _ Hinv _ _ Hp) _ Hr) as [f Hf]. congruence.
Qed.

Lemma protocol_step_inv self l self' : protocol_inv self → step self l self' → protocol_inv self'.
Proof.
  intros Hinv Hs. destruct Hs as [s Hn|plan s Hn Hver Hst Hsn Hval Hun|k plan r Hp Hst Hn Hb|k plan state u self1 Hp Hm Hver Hval].
  - by apply step_snapshot_inv.
  - eapply put_plan_inv; try done; [exact (pi_fence_key _ Hinv)|by eapply unstarted_evidence|].
    intros k p ref _ _ _. destruct Hun as (_ & _ & _ & -> & _). done.
  - by apply step_observe_inv.
  - destruct (advanced_identity plan state (expected_stage state) u) as (Href & _).
    pose proof (pi_key _ Hinv _ _ Hp) as Hk.
    eapply (put_plan_inv self); try done.
    + rewrite Href, Hk. intros k' p' Hp' Hne. exact (moves_extend_other _ _ _ _ _ _ _ _ Hinv Hp Hp' Hne Hm).
    + by eapply moves_plans.
    + eapply moves_fence_key; [exact (pi_fence_key _ Hinv)|done].
    + eapply evidence_move; [by eapply (pi_evidence _ Hinv)|done].
    + rewrite Href, Hk. intros k' p' ref Hp' Hne Hr. exact (moves_owner _ _ _ _ _ _ _ _ _ Hinv Hp Hp' Hne Hm Hr).
Qed.

(** * Calls *)
Inductive call :=
  | CallRegister (s : SourceSnapshot)
  | CallCreate (plan : MigrationPlan) (s : SourceSnapshot)
  | CallFreeze (plan_ref : string) (inventory : MigrationInventory) (v : Z)
  | CallBackfill (plan_ref : string) (batch : BackfillBatch) (v : Z)
  | CallReconcile (plan_ref src tgt : string) (sources targets : list CanonicalRecord) (v : Z)
  | CallCutover (plan_ref : string) (cutover : CohortReadCutover) (gate : PrerequisiteGate) (v : Z)
  | CallFence (plan_ref : string) (fence : WriteCutoverFence) (gate : PrerequisiteGate) (v : Z)
  | CallCheckpoint (plan_ref : string) (checkpoint : ProjectionCheckpoint) (gate : PrerequisiteGate) (v : Z)
  | CallRetire (plan_ref : string) (retirement : LegacyRetirement) (gate : PrerequisiteGate) (v : Z)
  | CallRollback (plan_ref : string) (r : MigrationRollback) (v : Z).

(** The state after a call; its result goes to the caller. *)
Definition run_call (c : call) self : InMemoryMigrationAuthority :=
  match c with
  | CallRegister s => (register_snapshot s self).2
  | CallCreate plan s => (create_plan plan s self).2
  | CallFreeze k x v => (freeze_inventory k x v self).2
  | CallBackfill k x v => (record_backfill k x v self).2
  | CallReconcile k src tgt xs ys v => (reconcile_shadow k src tgt xs ys v self).2
  | CallCutover k x g v => (cutover_reads k x g v self).2
  | CallFence k x g v => (fence_writes k x g v self).2
  | CallCheckpoint k x g v => (checkpoint_projection k x g v self).2
  | CallRetire k x g v => (retire_legacy k x g v self).2
  | CallRollback k r v => (rollback k r v self).2
  end.
Definition run_calls (cs : list call) self : InMemoryMigrationAuthority := foldl (flip run_call) self cs.

(** The plan and the version a call is about. *)
Definition call_target (c : call) : option (string * Z) :=
  match c with
  | CallRegister _ | CallCreate _ _ => None
  | CallFreeze k _ v | CallBackfill k _ v | CallReconcile k _ _ _ _ v | CallCutover k _ _ v
  | CallFence k _ _ v | CallCheckpoint k _ _ v | CallRetire k _ _ v | CallRollback k _ v => Some (k, v)
  end.

(** Plans are validated and start without evidence, as [MigrationPlan.initial]
    builds them. [create_plan] does not check the latter. *)
Definition well_formed_call (c : call) : Prop :=
  match c with
  | CallCreate plan _ => validate_MigrationPlan plan = Ok () ∧ unstarted plan
  | _ => True
  end.

Definition any_step self self' : Prop := ∃ l, step self l self'.

Lemma commits_run {A} (R : A → InMemoryMigrationAuthority → Prop) (m : MA A) self :
  commits R m self → (m self).2 = self ∨ ∃ a, R a (m self).2.
Proof.
  intros Hc. destruct (m self) as [r self'] eqn:E. destruct (Hc r self' E) as [->|(a & _ & HR)]; cbn; eauto.
Qed.

Lemma plan_snapshot_digest self :
  protocol_inv self → ∀ k p s, plans self !! k = Some p → snapshots self !! mp_source_snapshot_ref p = Some s →
  ss_snapshot_digest s = mp_source_snapshot_digest p.
Proof.
  intros Hinv k p s Hp Hs. destruct (ev_snapshot _ _ (pi_evidence _ Hinv _ _ Hp)) as (s' & Hs' & Hd).
  rewrite Hs in Hs'. by injection Hs' as ->.
Qed.

Lemma plan_fence_named self :
  protocol_inv self → ∀ k p, plans self !! k = Some p → mp_state p ∈ [WriteFenced; Checkpointed] →
  is_Some (mp_write_fence_ref p).
Proof.
  intros Hinv k p Hp Hst. destruct (ev_fence _ _ (pi_evidence _ Hinv _ _ Hp)) as (ref & f & -> & _); [|done].
  rewrite !elem_of_cons in Hst. destruct Hst as [->|[->|[]%not_elem_of_nil]]; cbn; lia.
Qed.

(** A call about a plan commits at most one step, with its target as label. *)
Lemma run_target_step self c t :
  protocol_inv self → call_target c = Some t →
  run_call c self = self ∨ step self (Some t) (run_call c self).
Proof.
  intros Hinv Ht. destruct c as [| |k x v|k x v|k src tgt xs ys v|k x g v|k x g v|k x g v|k x g v|k r v];
    cbn in Ht; try discriminate Ht; injection Ht as <-; cbn [run_call].
  - destruct (commits_run _ _ _ (freeze_commits self k x v)) as [?|(q & ? & _)]; auto.
  - destruct (commits_run _ _ _ (backfill_commits self k x v)) as [?|(q & ? & _)]; auto.
  - destruct (commits_run _ _ _ (reconcile_commits self k src tgt xs ys v (plan_snapshot_digest _ Hinv)))
      as [?|(q & ? & _)]; auto.
  - destruct (commits_run _ _ _ (cutover_commits self k x g v)) as [?|(q & ? & _)]; auto.
  - destruct (commits_run _ _ _ (fence_commits self k x g v)) as [?|(q & ? & _)]; auto.
  - destruct (commits_run _ _ _ (checkpoint_commits self k x g v)) as [?|(q & ? & _)]; auto.
  - destruct (commits_run _ _ _ (retire_commits self k x g v)) as [?|(q & ? & _)]; auto.
  - destruct (commits_run _ _ _ (rollback_commits self k r v (plan_fence_named _ Hinv))) as [?|(q & ? & _)]; auto.
Qed.
