(* ===== verification/MigrationSafety.v ===== *)
(** What [InMemoryMigrationAuthority] promises over any sequence of calls: the
    authority refines the protocol of [MigrationProtocol], a plan changes only
    by its allowed transitions under its version, a plan's state rests on its
    recorded evidence, every stored model is valid, and a plan that is not
    retired can be rolled back while the versions last. All but the validity of
    stored models need plans that are created without evidence. *)
From S2P Require Export MigrationProtocol.
Local Open Scope Z_scope.

(** * Every call, from any reachable state *)
Lemma register_steps s self :
  let self' := (register_snapshot s self).2 in
  (self' = self ∨ step self None self') ∧
  (∀ x, (register_snapshot s self).1 = Ok x → snapshots self' !! ss_snapshot_ref s = Some s).
Proof.
  unfold register_snapshot, same_or_conflict. cbn zeta. run_unfold.
  destruct (snapshots self !! ss_snapshot_ref s) as [y|] eqn:Hs; cbn.
  - case_bool_decide as E; cbn; split; try (by left); [by subst|done].
  - split; [right; by apply step_snapshot|]. intros _ _. destruct self. apply lookup_insert_eq.
Qed.

Lemma M_bind_ret {S A B} (a : A) (k : A → M S B) s : ((mret a : M S A) ≫= k) s = k a s.
Proof. done. Qed.
(** The state after a sequence of two computations *)
Lemma M_bind_state {S A B} (m : M S A) (k : A → M S B) s :
  ((m ≫= k) s).2 = match (m s).1 with Ok a => (k a (m s).2).2 | Raise _ => (m s).2 end.
Proof. unfold mbind, M_bind. by destruct (m s) as [[a|e] s']. Qed.

(** What is left of [create_plan] once the snapshot is registered *)
Lemma create_steps plan s self :
  validate_MigrationPlan plan = Ok () → unstarted plan →
  let self' := (create_plan plan s self).2 in
  self' = self ∨ step self None self' ∨ ∃ self1, step self None self1 ∧ step self1 None self'.
Proof.
  intros Hval Hun. unfold create_plan. cbn zeta.
  destruct (register_steps s self) as [Hr Hreg].
  destruct (_ || bool_decide (mp_state plan ≠ Planned)) eqn:E1; [by left|].
  destruct (bool_decide (mp_source_snapshot_ref plan ≠ _)) eqn:E2; [by left|].
  destruct (bool_decide (mp_source_snapshot_digest plan ≠ _)) eqn:E3; [by left|]. guards.
  unfold raise_if. cbn [mbind]. rewrite !M_bind_ret, M_bind_state.
  destruct (register_snapshot s self).1 as [x|e]; [|tauto]. specialize (Hreg x eq_refl).
  revert Hr Hreg. generalize (register_snapshot s self).2. intros self1 Hr Hreg.
  rewrite M_bind_state. cbn. rewrite M_bind_state. unfold lift, same_or_conflict. cbn.
  destruct (plans self1 !! mp_plan_ref plan) as [p|] eqn:Hp; cbn.
  - case_bool_decide; cbn; tauto.
  - assert (step self1 None (put_plan plan self1)) as Hstep.
    { eapply step_create; try done. split; [|done]. congruence. }
    destruct Hr as [->|Hr]; eauto.
Qed.

(** A call commits nothing, one step of its plan at the version it expects, or
    at most two steps that register a snapshot and a plan. *)
Definition call_steps self (c : call) (self' : InMemoryMigrationAuthority) : Prop :=
  self' = self ∨ step self (call_target c) self' ∨
  call_target c = None ∧ ∃ self1, step self None self1 ∧ step self1 None self'.

Lemma run_call_steps self c :
  protocol_inv self → well_formed_call c → call_steps self c (run_call c self).
Proof.
  intros Hinv Hwf. unfold call_steps. destruct (call_target c) as [t|] eqn:Ht.
  - destruct (run_target_step self c t Hinv Ht); auto.
  - destruct c; try discriminate Ht.
    + destruct (register_steps s self) as [[?|?] _]; auto.
    + destruct Hwf as [Hval Hun]. destruct (create_steps plan s self Hval Hun) as [?|[?|?]]; auto.
Qed.

Lemma call_steps_inv self c self' : protocol_inv self → call_steps self c self' → protocol_inv self'.
Proof. intros Hinv [->|[Hs|(_ & s1 & Hs1 & Hs)]]; eauto using protocol_step_inv. Qed.

Lemma call_steps_rtc self c self' : call_steps self c self' → rtc any_step self self'.
Proof.
  intros [->|[Hs|(_ & s1 & Hs1 & Hs)]]; [done|..].
  - apply rtc_once. by eexists.
  - eapply rtc_l; [by eexists|]. apply rtc_once. by eexists.
Qed.

Lemma new_authority_inv : protocol_inv InMemoryMigrationAuthority_new.
Proof. split; intros *; cbn; rewrite ?lookup_empty; done. Qed.

Lemma run_calls_inv cs self :
  protocol_inv self → Forall well_formed_call cs →
  protocol_inv (run_calls cs self) ∧ rtc any_step self (run_calls cs self).
Proof.
  intros Hinv Hcs. revert self Hinv. induction Hcs as [|c cs Hc _ IH]; intros self Hinv; [done|].
  cbn. pose proof (run_call_steps _ _ Hinv Hc) as Hs.
  destruct (IH _ (call_steps_inv _ _ _ Hinv Hs)) as [Hinv' Hrtc]. split; [done|].
  etransitivity; [by eapply call_steps_rtc|done].
Qed.

Lemma run_calls_app cs1 cs2 self : run_calls (cs1 ++ cs2) self = run_calls cs2 (run_calls cs1 self).
Proof. apply foldl_app. Qed.

Lemma reachable_inv cs :
  Forall well_formed_call cs → protocol_inv (run_calls cs InMemoryMigrationAuthority_new).
Proof. intros Hcs. by apply run_calls_inv; [apply new_authority_inv|]. Qed.

(** C2: The authority refines the staged cutover protocol, for plans created
    without evidence. Every state that calls reach is a state the protocol reaches, and in it every further call
    commits nothing, one protocol step of the plan it names at the version it
    expects, or at most two steps that register a snapshot and a plan. *)
Theorem authority_refines_protocol cs c :
  Forall well_formed_call cs → well_formed_call c →
  let self := run_calls cs InMemoryMigrationAuthority_new in
  rtc any_step InMemoryMigrationAuthority_new self ∧ call_steps self c (run_call c self).
Proof.
  intros Hcs Hc. cbn zeta. split; [by apply run_calls_inv; [apply new_authority_inv|]|].
  apply run_call_steps; [by apply reachable_inv|done].
Qed.

(** * Plan transitions *)
Definition transition (s s' : MigrationState) : Prop :=
  match s, s' with
  | Planned, InventoryFrozen | InventoryFrozen, BackfillObserving | BackfillObserving, BackfillObserving
  | BackfillObserving, ShadowReconciled | ShadowReconciled, ReadCutover | ReadCutover, ReadCutover
  | ReadCutover, WriteFenced | WriteFenced, Checkpointed | Checkpointed, Retired => True
  | Retired, RolledBack => False
  | _, RolledBack => True
  | _, _ => False
  end.

(** Plan [q] is the next version of plan [p]. *)
Record succeeds (p q : MigrationPlan) : Prop := {
  su_version : mp_version q = mp_version p + 1;
  su_bound : mp_version q ≤ MAX_VERSION;
  su_transition : transition (mp_state p) (mp_state q);
  su_stage : mp_stage q = expected_stage (mp_state q);
  su_digest : mp_digest q = canonical_digest (MigrationPlan_data q);
  su_identity : mp_plan_ref q = mp_plan_ref p ∧ mp_migration_ref q = mp_migration_ref p ∧
    mp_source_snapshot_ref q = mp_source_snapshot_ref p ∧
    mp_source_snapshot_digest q = mp_source_snapshot_digest p ∧
    mp_target_authority_ref q = mp_target_authority_ref p }.

Lemma moves_transition self p state u self1 : moves self p state u self1 → transition (mp_state p) state.
Proof.
  intros Hm. destruct Hm; destruct (mp_state p); try done;
    match goal with H : _ ∈ _ :: _ |- _ => clear -H end; set_solver.
Qed.

Lemma advanced_digest p state stage u :
  mp_digest (advanced p state stage u) = canonical_digest (MigrationPlan_data (advanced p state stage u)).
Proof. unfold advanced. by destruct p, u. Qed.

Lemma advanced_succeeds self p state u self1 :
  moves self p state u self1 → mp_version p < MAX_VERSION →
  succeeds p (advanced p state (expected_stage state) u).
Proof.
  intros Hm Hv. pose proof (moves_transition _ _ _ _ _ Hm).
  destruct (advanced_identity p state (expected_stage state) u) as (E1 & E2 & E3 & E4 & E5 & E6 & E7 & E8).
  split; rewrite ?E1, ?E2, ?E3, ?E4, ?E5, ?E6, ?E7, ?E8; try done; [lia|apply advanced_digest].
Qed.

Lemma step_plan self l self' k p :
  protocol_inv self → step self l self' → plans self !! k = Some p →
  ∃ q, plans self' !! k = Some q ∧ (q = p ∨ l = Some (k, mp_version p) ∧ succeeds p q).
Proof.
  intros Hinv Hs Hp. destruct Hs as [s Hn|plan s Hn|k' plan r Hp'|k' plan state u self1 Hp' Hm Hv].
  - exists p. destruct self. by auto.
  - exists p. rewrite put_plan_lookup. case_decide as E; [congruence|auto].
  - exists p. destruct self. by auto.
  - rewrite put_plan_lookup, (moves_plans _ _ _ _ _ Hm).
    destruct (advanced_identity plan state (expected_stage state) u) as (-> & _).
    rewrite (pi_key _ Hinv _ _ Hp'). case_decide as E; [subst k'|by exists p; auto].
    rewrite Hp in Hp'. injection Hp' as <-. eexists. split; [done|]. right.
    split; [done|by eapply advanced_succeeds].
Qed.

Lemma call_plan self c k p :
  protocol_inv self → well_formed_call c → plans self !! k = Some p →
  ∃ q, plans (run_call c self) !! k = Some q ∧ (q = p ∨ call_target c = Some (k, mp_version p) ∧ succeeds p q).
Proof.
  intros Hinv Hc Hp. destruct (run_call_steps _ _ Hinv Hc) as [->|[Hs|(Ht & s1 & Hs1 & Hs)]]; [by exists p; auto|..].
  - by eapply step_plan.
  - destruct (step_plan _ _ _ _ _ Hinv Hs1 Hp) as (q & Hq & [->|[? _]]); [|done].
    destruct (step_plan _ _ _ _ _ (protocol_step_inv _ _ _ Hinv Hs1) Hs Hq) as (q' & Hq' & [->|[? _]]); [|done].
    exists p. auto.
Qed.

(** C33: Plan versions fence concurrent writers. In every state that calls reach
    when plans are created without evidence, a call leaves a stored plan as it is unless it names that plan and exactly
    its current version; then the plan becomes its successor: one version
    higher and within the version bound, in a state the protocol allows next,
    with the stage of that state, a fresh digest, and the same identity,
    source snapshot and target authority. *)
Theorem plan_changes_by_transition cs c k p :
  Forall well_formed_call cs → well_formed_call c →
  let self := run_calls cs InMemoryMigrationAuthority_new in
  plans self !! k = Some p →
  ∃ q, plans (run_call c self) !! k = Some q ∧
    (q = p ∨ call_target c = Some (k, mp_version p) ∧ succeeds p q).
Proof. intros Hcs Hc self Hp. apply call_plan; [by apply reachable_inv|done|done]. Qed.

(** * Evidence *)

(** Every stored plan has the evidence of its state. *)
Definition grounded self : Prop := ∀ k p, plans self !! k = Some p → evidence self p.

(** C9: As long as every plan was created without evidence, the way
    [MigrationPlan.initial] builds it ([create_plan] does not check this),
    whatever other calls were made before, with any arguments, a stored plan
    rests on the recorded evidence of its state: its registered snapshot with the digest it names; a
    frozen inventory of items of that snapshot; an observed backfill batch; a
    clean reconciliation; a read cutover for each of its cohorts; a fence of
    exactly its cohorts and target authority, still active once the projection
    is checkpointed; a complete checkpoint; and, once it is retired, a
    retirement that names this fence and this checkpoint and leaves no
    consumer and no facade. *)
Theorem plan_state_has_evidence cs :
  Forall well_formed_call cs → grounded (run_calls cs InMemoryMigrationAuthority_new).
Proof. intros Hcs k p Hp. by eapply pi_evidence; [apply reachable_inv|]. Qed.

(** * Stored models are valid *)

(** A dict whose values are valid models, each under its own reference. *)
Definition table {A} (key : A → string) (validate : A → result ()) (dict : gmap string A) : Prop :=
  map_Forall (λ k x, key x = k ∧ validate x = Ok ()) dict.

Lemma table_put {A} (key : A → string) validate dict x :
  table key validate dict → validate x = Ok () → table key validate (<[key x := x]> dict).
Proof. intros Hd Hx. by apply map_Forall_insert_2. Qed.

Record typed self : Prop := {
  ty_snapshots : table ss_snapshot_ref validate_SourceSnapshot (snapshots self);
  ty_plans : table mp_plan_ref validate_MigrationPlan (plans self);
  ty_inventories : table mi_inventory_ref validate_MigrationInventory (inventories self);
  ty_backfills : table bb_batch_ref validate_BackfillBatch (backfills self);
  ty_reconciliations : table sr_reconciliation_ref validate_ShadowReconciliation (reconciliations self);
  ty_read_cutovers : table rc_cutover_ref validate_CohortReadCutover (read_cutovers self);
  ty_write_fences : table wf_fence_ref validate_WriteCutoverFence (write_fences self);
  ty_checkpoints : table pc_checkpoint_ref validate_ProjectionCheckpoint (checkpoints self);
  ty_retirements : table lr_retirement_ref validate_LegacyRetirement (retirements self);
  ty_rollbacks : table rb_rollback_ref validate_MigrationRollback (rollbacks self) }.

Ltac typed_put self := intros []; intros; destruct self; split; cbn in *; try done; by apply table_put.
Lemma typed_put_snapshot x self : typed self → validate_SourceSnapshot x = Ok () → typed (put_snapshot x self).
Proof. typed_put self. Qed.
Lemma typed_put_plan x self : typed self → validate_MigrationPlan x = Ok () → typed (put_plan x self).
Proof. typed_put self. Qed.
Lemma typed_put_inventory x self : typed self → validate_MigrationInventory x = Ok () → typed (put_inventory x self).
Proof. typed_put self. Qed.
Lemma typed_put_backfill x self : typed self → validate_BackfillBatch x = Ok () → typed (put_backfill x self).
Proof. typed_put self. Qed.
Lemma typed_put_reconciliation x self :
  typed self → validate_ShadowReconciliation x = Ok () → typed (put_reconciliation x self).
Proof. typed_put self. Qed.
Lemma typed_put_read_cutover x self :
  typed self → validate_CohortReadCutover x = Ok () → typed (put_read_cutover x self).
Proof. typed_put self. Qed.
Lemma typed_put_write_fence x self :
  typed self → validate_WriteCutoverFence x = Ok () → typed (put_write_fence x self).
Proof. typed_put self. Qed.
Lemma typed_put_checkpoint x self :
  typed self → validate_ProjectionCheckpoint x = Ok () → typed (put_checkpoint x self).
Proof. typed_put self. Qed.
Lemma typed_put_retirement x self :
  typed self → validate_LegacyRetirement x = Ok () → typed (put_retirement x self).
Proof. typed_put self. Qed.
Lemma typed_put_rollback x self :
  typed self → validate_MigrationRollback x = Ok () → typed (put_rollback x self).
Proof. typed_put self. Qed.

Lemma next_plan_valid plan v state stage u q : next_plan plan v state stage u = Ok q → validate_MigrationPlan q = Ok ().
Proof. by intros (_ & _ & -> & ?)%next_plan_ok. Qed.
Lemma rolled_back_fence_valid self plan r f :
  rolled_back_fence_for self plan r = Ok (Some f) → validate_WriteCutoverFence f = Ok ().
Proof. by intros [[_ ?]|(_ & _ & fence & _ & _ & Hv & [= ->])]%rolled_back_fence_for_ok. Qed.
Lemma applied_rollback_valid r r' :
  validate_MigrationRollback r = Ok () → applied_rollback r = Ok r' → validate_MigrationRollback r' = Ok ().
Proof. by intros Hv [[_ ->]|(_ & -> & ?)]%applied_rollback_ok. Qed.

Lemma candidate_valid plan src tgt deltas state r :
  build_shadow_reconciliation_candidate plan src tgt deltas state = Ok r → validate_ShadowReconciliation r = Ok ().
Proof. by intros (_ & _ & _ & _ & _ & _ & ?)%candidate_ok. Qed.
Lemma commits_assoc {S A B C} (R : C → S → Prop) (m : M S A) (k1 : A → M S B) (k : B → M S C) s :
  commits R (m ≫= λ a, k1 a ≫= k) s → commits R ((m ≫= k1) ≫= k) s.
Proof. unfold commits, mbind, M_bind. by destruct (m s) as [[a|e] s']. Qed.

Create HintDb typed.
#[export] Hint Resolve typed_put_snapshot typed_put_plan typed_put_inventory typed_put_backfill
  typed_put_reconciliation typed_put_read_cutover typed_put_write_fence typed_put_checkpoint
  typed_put_retirement typed_put_rollback next_plan_valid rolled_back_fence_valid applied_rollback_valid
  candidate_valid : typed.

(** The arguments of a call are validated models. *)
Definition typed_call (c : call) : Prop :=
  match c with
  | CallRegister s => validate_SourceSnapshot s = Ok ()
  | CallCreate plan s => validate_MigrationPlan plan = Ok () ∧ validate_SourceSnapshot s = Ok ()
  | CallFreeze _ x _ => validate_MigrationInventory x = Ok ()
  | CallBackfill _ x _ => validate_BackfillBatch x = Ok ()
  | CallReconcile _ _ _ xs ys _ => Forall (λ r, validate_CanonicalRecord r = Ok ()) (xs ++ ys)
  | CallCutover _ x g _ => validate_CohortReadCutover x = Ok () ∧ validate_PrerequisiteGate g = Ok ()
  | CallFence _ x g _ => validate_WriteCutoverFence x = Ok () ∧ validate_PrerequisiteGate g = Ok ()
  | CallCheckpoint _ x g _ => validate_ProjectionCheckpoint x = Ok () ∧ validate_PrerequisiteGate g = Ok ()
  | CallRetire _ x g _ => validate_LegacyRetirement x = Ok () ∧ validate_PrerequisiteGate g = Ok ()
  | CallRollback _ r _ => validate_MigrationRollback r = Ok ()
  end.

(** A walk through a call to its writes, each of a valid model *)
Ltac typed_walk :=
  repeat first
    [ commit_step
    | lazymatch goal with |- commits _ (mthrow _ ≫= _) _ => apply commits_fail end
    | lazymatch goal with |- commits _ (mret _ ≫= _) _ => apply commits_skip end
    | lazymatch goal with |- commits _ ((_ ≫= _) ≫= _) _ => apply commits_assoc end
    | lazymatch goal with |- commits _ (match ?o with _ => _ end) _ => destruct o eqn:? end
    | lazymatch goal with |- commits _ ((match ?o with _ => _ end) ≫= _) _ => destruct o eqn:? end ];
  try (eapply commits_done; [reflexivity|]; eauto 12 with typed).

Lemma run_typed {A} (m : MA A) self :
  typed self → commits (λ _ s', typed s') m self → typed (m self).2.
Proof. intros Hself [->|(a & Ha)]%commits_run; done. Qed.

Lemma freeze_typed k x v self :
  typed self → validate_MigrationInventory x = Ok () → commits (λ _ s', typed s') (freeze_inventory k x v) self.
Proof. intros. unfold freeze_inventory. typed_walk. Qed.
Lemma backfill_typed k x v self :
  typed self → validate_BackfillBatch x = Ok () → commits (λ _ s', typed s') (record_backfill k x v) self.
Proof. intros. unfold record_backfill. typed_walk. Qed.
Lemma cutover_typed k x g v self :
  typed self → validate_CohortReadCutover x = Ok () → commits (λ _ s', typed s') (cutover_reads k x g v) self.
Proof. intros. unfold cutover_reads. typed_walk. Qed.
Lemma fence_typed k x g v self :
  typed self → validate_WriteCutoverFence x = Ok () → commits (λ _ s', typed s') (fence_writes k x g v) self.
Proof. intros. unfold fence_writes. typed_walk. Qed.
Lemma checkpoint_typed k x g v self :
  typed self → validate_ProjectionCheckpoint x = Ok () →
  commits (λ _ s', typed s') (checkpoint_projection k x g v) self.
Proof. intros. unfold checkpoint_projection. typed_walk. Qed.
Lemma retire_typed k x g v self :
  typed self → validate_LegacyRetirement x = Ok () → commits (λ _ s', typed s') (retire_legacy k x g v) self.
Proof. intros. unfold retire_legacy. typed_walk. Qed.
Lemma rollback_typed k r v self :
  typed self → validate_MigrationRollback r = Ok () → commits (λ _ s', typed s') (rollback k r v) self.
Proof. intros. unfold rollback. typed_walk. Qed.
Lemma reconcile_typed k src tgt xs ys v self :
  typed self → commits (λ _ s', typed s') (reconcile_shadow k src tgt xs ys v) self.
Proof.
  intros. unfold reconcile_shadow, commit_shadow_reconciliation. typed_walk.
Qed.

Lemma register_typed s self :
  typed self → validate_SourceSnapshot s = Ok () → typed (register_snapshot s self).2.
Proof.
  intros Hself Hs. apply run_typed; [done|]. unfold register_snapshot. typed_walk.
Qed.

Lemma create_typed plan s self :
  typed self → validate_MigrationPlan plan = Ok () → validate_SourceSnapshot s = Ok () →
  typed (create_plan plan s self).2.
Proof.
  intros Hself Hplan Hs. unfold create_plan, raise_if.
  do 3 (match goal with |- typed (((if ?b then _ else _) ≫= _) _).2 => destruct b end;
        [exact Hself|rewrite M_bind_ret]).
  rewrite M_bind_state. pose proof (register_typed s self Hself Hs) as Hreg.
  destruct (register_snapshot s self).1 as [x|e]; [|done]. revert Hreg.
  generalize (register_snapshot s self).2. intros self1 Hself1. apply run_typed; [done|]. typed_walk.
Qed.

Lemma run_call_typed self c : typed self → typed_call c → typed (run_call c self).
Proof.
  intros Hself Hc. destruct c; cbn in *;
    eauto using register_typed, run_typed, reconcile_typed, freeze_typed, backfill_typed, rollback_typed;
    destruct Hc;
    eauto using create_typed, run_typed, cutover_typed, fence_typed, checkpoint_typed, retire_typed.
Qed.

Lemma run_calls_typed cs self : typed self → Forall typed_call cs → typed (run_calls cs self).
Proof. intros Hself Hcs. revert self Hself. induction Hcs; cbn; eauto using run_call_typed. Qed.

Lemma new_typed : typed InMemoryMigrationAuthority_new.
Proof. split; apply map_Forall_empty. Qed.

Lemma Version_bounds n : Version n = true ↔ 1 ≤ n ≤ MAX_VERSION.
Proof. unfold Version, in_bounds, MAX_VERSION. lia. Qed.

Lemma plan_version_bounds p : validate_MigrationPlan p = Ok () → 1 ≤ mp_version p ≤ MAX_VERSION.
Proof. unfold validate_MigrationPlan. constraints. rewrite Version_bounds. tauto. Qed.
Lemma fence_version_bounds f : validate_WriteCutoverFence f = Ok () → 1 ≤ wf_version f ≤ MAX_VERSION.
Proof. unfold validate_WriteCutoverFence. constraints. rewrite Version_bounds. tauto. Qed.

(** A rolled back plan or fence, and an applied rollback, are valid. *)
Lemma rolled_back_plan_valid p :
  validate_MigrationPlan p = Ok () → mp_version p < MAX_VERSION →
  validate_MigrationPlan (advanced p RolledBack RollbackStage NoUpdate) = Ok ().
Proof.
  unfold validate_MigrationPlan, stage_state_is_consistent, advanced. destruct p. constraints.
  rewrite !Version_bounds, !bool_decide_not_false. cbn. rewrite !canonical_digest_Digest. intuition lia.
Qed.
Lemma rolled_back_fence_is_valid f :
  validate_WriteCutoverFence f = Ok () → wf_version f < MAX_VERSION →
  validate_WriteCutoverFence (rolled_back_fence f) = Ok ().
Proof.
  unfold validate_WriteCutoverFence, cohorts_are_unique, rolled_back_fence. destruct f. constraints.
  rewrite !Version_bounds. cbn. rewrite !canonical_digest_Digest. intuition lia.
Qed.
Lemma applied_form_valid r :
  validate_MigrationRollback r = Ok () → validate_MigrationRollback (applied_form r) = Ok ().
Proof.
  unfold validate_MigrationRollback, rollback_direction_is_explicit, applied_form. destruct r. constraints. cbn.
  rewrite !canonical_digest_Digest. intuition.
Qed.

(** C39: The ten dicts of the authority hold valid models only: after any calls
    with validated arguments, whatever each of them returned or raised, every
    stored model passes the validation of its class and is stored under its
    own reference; in particular the plans, fences, rollbacks and
    reconciliations the authority itself derives are well formed, and their
    versions stay between 1 and 2147483647. *)
Theorem stored_models_valid cs :
  Forall typed_call cs →
  let self := run_calls cs InMemoryMigrationAuthority_new in
  typed self ∧
  (∀ k p, plans self !! k = Some p → 1 ≤ mp_version p ≤ MAX_VERSION) ∧
  (∀ k f, write_fences self !! k = Some f → 1 ≤ wf_version f ≤ MAX_VERSION).
Proof.
  intros Hcs. cbn zeta. pose proof (run_calls_typed cs _ new_typed Hcs) as Ht.
  split; [done|]. split.
  - intros k p Hp. destruct (ty_plans _ Ht k p Hp) as [_ Hv]. by apply plan_version_bounds.
  - intros k f Hf. destruct (ty_write_fences _ Ht k f Hf) as [_ Hv]. by apply fence_version_bounds.
Qed.

(** * A migration can be abandoned *)
Lemma rolled_back_stays cs k p self :
  protocol_inv self → Forall well_formed_call cs → plans self !! k = Some p → mp_state p = RolledBack →
  ∃ q, plans (run_calls cs self) !! k = Some q ∧ mp_state q = RolledBack.
Proof.
  intros Hinv Hcs. revert self p Hinv. induction Hcs as [|c cs Hc _ IH]; intros self p Hinv Hp Hst; [by exists p|].
  destruct (call_plan _ _ _ _ Hinv Hc Hp) as (q & Hq & Hpq).
  assert (mp_state q = RolledBack) as Hq'.
  { destruct Hpq as [->|[_ Hsu]]; [done|]. pose proof (su_transition _ _ Hsu) as Ht.
    rewrite Hst in Ht. by destruct (mp_state q). }
  apply (IH _ q); [|done|done]. by eapply call_steps_inv, run_call_steps.
Qed.

(** A version that a rollback would have to count up is at the bound: that of the
    plan, or that of the fence it takes down. *)
Definition fence_exhausted self (p : MigrationPlan) : Prop :=
  mp_state p ∈ [WriteFenced; Checkpointed] ∧
  ∃ ref f, mp_write_fence_ref p = Some ref ∧ write_fences self !! ref = Some f ∧ wf_version f = MAX_VERSION.
Definition exhausted self (p : MigrationPlan) : Prop := mp_version p = MAX_VERSION ∨ fence_exhausted self p.
Notation version_exhausted := (MigrationCasConflictError "migration_version_exhausted").

(** The fence a fenced plan stands behind can be taken down, unless its version is
    at the bound. *)
Lemma rolled_back_fence_decided self k p r :
  protocol_inv self → typed self → plans self !! k = Some p →
  (mp_state p ∈ [WriteFenced; Checkpointed] → rb_fence_ref r = mp_write_fence_ref p) →
  fence_exhausted self p ∧ rolled_back_fence_for self p r = Raise version_exhausted ∨
  ¬ fence_exhausted self p ∧ ∃ o, rolled_back_fence_for self p r = Ok o.
Proof.
  intros Hinv Hty Hp Hfence. destruct (decide (mp_state p ∈ [WriteFenced; Checkpointed])) as [Hin|Hn].
  - specialize (Hfence Hin). destruct (plan_fence_named _ Hinv _ _ Hp Hin) as [ref Eref].
    destruct (ev_fence_known _ _ (pi_evidence _ Hinv _ _ Hp) _ Eref) as [f Hf].
    destruct (ty_write_fences _ Hty _ _ Hf) as [_ Hval]. pose proof (fence_version_bounds f Hval) as Hb.
    destruct (decide (wf_version f = MAX_VERSION)) as [Hv|Hv]; [left|right]; split.
    + split; [done|]. by exists ref, f.
    + unfold rolled_back_fence_for. rewrite (bool_decide_eq_false_2 (mp_state p ∉ _)) by tauto. cbn.
      rewrite (bool_decide_eq_false_2 (rb_fence_ref r ≠ _)) by tauto. rewrite Eref. cbn. rewrite Hf. cbn. by rewrite Hv.
    + intros (_ & ref' & f' & E & Hf' & Hv'). congruence.
    + eexists. apply rolled_back_fence_for_ok. right. rewrite Eref in *. split; [done|]. split; [done|].
      exists f. split; [done|]. split; [lia|]. split; [|done]. apply rolled_back_fence_is_valid; [done|lia].
  - right. split; [by intros []|]. exists None. apply rolled_back_fence_for_ok. by left.
Qed.

Lemma applied_rollback_total r : validate_MigrationRollback r = Ok () → ∃ r', applied_rollback r = Ok r'.
Proof.
  intros Hv. destruct (decide (rb_decision r = Requested)) as [Hd|Hd].
  - exists (applied_form r). apply applied_rollback_ok. right. auto using applied_form_valid.
  - exists r. apply applied_rollback_ok. by left.
Qed.

Lemma next_plan_exhausted p state stage u :
  mp_version p = MAX_VERSION → next_plan p (mp_version p) state stage u = Raise version_exhausted.
Proof.
  intros Hv. unfold next_plan, cas_version. rewrite bool_decide_eq_false_2 by (by intros []). cbn. by rewrite Hv.
Qed.

(** What is left of [rollback] for a fresh record bound to the plan *)
Lemma rollback_fresh self k p r v :
  plans self !! k = Some p → mp_state p ≠ Retired → bound (rb_migration_ref r) (rb_source_snapshot_digest r) p →
  rb_decision r ∈ [Requested; Applied] → rollbacks self !! rb_rollback_ref r = None →
  rollback k r v self =
  match (fence ← rolled_back_fence_for self p r;
         applied ← applied_rollback r;
         updated ← next_plan p v RolledBack RollbackStage NoUpdate;
         Ok (fence, applied, updated)) with
  | Raise e => (Raise e, self)
  | Ok (fence, applied, updated) =>
      (Ok updated, put_plan updated (put_rollback applied
         match fence with Some f => put_write_fence f self | None => self end))
  end.
Proof.
  intros Hp Hst [Hm Hd] Hdec Hr. unfold rollback, get_plan. run_unfold. cbn.
  rewrite Hp. cbn. rewrite (bool_decide_eq_false_2 (mp_state p = Retired)) by done. cbn. rewrite Hm, Hd.
  rewrite !bool_decide_eq_false_2 by (by intros Hn; apply Hn). cbn. rewrite Hr. cbn.
  destruct (rolled_back_fence_for self p r) as [o|e]; [cbn|done].
  destruct (applied_rollback r) as [r'|e]; [cbn|done].
  destruct (next_plan p v RolledBack RollbackStage NoUpdate) as [q|e]; [cbn|done]. by destruct o.
Qed.

(** C37: In any state that calls reach whose plans were created without evidence, a
    migration that is not retired can be abandoned exactly as long as the versions
    last. Submit a fresh, valid rollback record for the plan's migration and
    snapshot, requested or applied, naming its fence once it is fenced, with the
    current version. If the version of the plan or of the fence to take down is
    2147483647, which [fence_writes] accepts from its caller, the call raises
    [migration_version_exhausted] and changes nothing. Otherwise it is accepted: the
    plan becomes rolled back and, whatever is called afterwards, stays rolled back. *)
Theorem rollback_available cs k p r later :
  Forall well_formed_call cs → Forall typed_call cs → Forall well_formed_call later →
  let self := run_calls cs InMemoryMigrationAuthority_new in
  plans self !! k = Some p → mp_state p ≠ Retired →
  validate_MigrationRollback r = Ok () → bound (rb_migration_ref r) (rb_source_snapshot_digest r) p →
  rb_decision r ∈ [Requested; Applied] → rollbacks self !! rb_rollback_ref r = None →
  (mp_state p ∈ [WriteFenced; Checkpointed] → rb_fence_ref r = mp_write_fence_ref p) →
  let q := advanced p RolledBack RollbackStage NoUpdate in
  let '(returned, after) := rollback k r (mp_version p) self in
  (exhausted self p → returned = Raise version_exhausted ∧ after = self) ∧
  (¬ exhausted self p → returned = Ok q ∧ plans after !! k = Some q ∧
     ∃ q', plans (run_calls later after) !! k = Some q' ∧ mp_state q' = RolledBack).
Proof.
  intros Hwf Hty Hlater self Hp Hst Hval Hb Hdec Hfresh Hfence q.
  pose proof (reachable_inv _ Hwf) as Hinv. pose proof (run_calls_typed _ _ new_typed Hty) as Htyped.
  destruct (ty_plans _ Htyped _ _ Hp) as [Hkey Hpv]. pose proof (plan_version_bounds p Hpv) as Hpb.
  destruct (rollback k r (mp_version p) self) as [returned after] eqn:Hrun.
  pose proof (rollback_fresh self k p r (mp_version p) Hp Hst Hb Hdec Hfresh) as Hfr. rewrite Hrun in Hfr.
  destruct (applied_rollback_total r Hval) as (r' & Hr').
  destruct (rolled_back_fence_decided self k p r Hinv Htyped Hp Hfence) as [[Hex Hf]|[Hnex [o Hf]]];
    rewrite Hf in Hfr; cbn in Hfr.
  { injection Hfr as -> ->. split; [done|]. intros []. by right. }
  rewrite Hr' in Hfr. cbn in Hfr. destruct (decide (mp_version p = MAX_VERSION)) as [Hv|Hv].
  - rewrite (next_plan_exhausted p RolledBack RollbackStage NoUpdate Hv) in Hfr. injection Hfr as -> ->.
    split; [done|]. intros []. by left.
  - assert (next_plan p (mp_version p) RolledBack RollbackStage NoUpdate = Ok q) as Hq.
    { apply next_plan_ok. split_and!; [done|lia|done|]. apply rolled_back_plan_valid; [done|lia]. }
    rewrite Hq in Hfr. injection Hfr as -> Hafter. split; [by intros [?|?]|intros _].
    destruct (advanced_identity p RolledBack RollbackStage NoUpdate) as (Eref & _ & _ & _ & _ & Est & _).
    assert (plans after !! k = Some q) as Hk.
    { rewrite Hafter, put_plan_lookup. subst q. rewrite Eref, Hkey. by rewrite decide_True. }
    pose proof (run_call_steps self (CallRollback k r (mp_version p)) Hinv I) as Hsteps.
    apply call_steps_inv in Hsteps; [|done]. cbn [run_call] in Hsteps. rewrite Hrun in Hsteps.
    split; [done|]. split; [done|]. by apply (rolled_back_stays later k q).
Qed.
