(* ===== verification/MigrationReplay.v ===== *)
(** Replaying calls of [InMemoryMigrationAuthority]: a stage call that was
    accepted can be delivered again at any later time, and a rollback cannot. *)
From S2P Require Export MigrationSafety.
Local Open Scope Z_scope.

(** * What later steps keep *)

(** Plan [q] is plan [p] or a later version: what was settled stays. *)
Record keeps (p q : MigrationPlan) : Prop := {
  kp_identity : mp_migration_ref q = mp_migration_ref p ∧ mp_source_snapshot_ref q = mp_source_snapshot_ref p ∧
    mp_source_snapshot_digest q = mp_source_snapshot_digest p ∧
    mp_target_authority_ref q = mp_target_authority_ref p;
  kp_unfrozen : mp_state q = Planned → mp_state p = Planned;
  kp_inventory : mp_state p ≠ Planned → mp_inventory_ref q = mp_inventory_ref p;
  kp_fence : mp_state p ∈ [WriteFenced; Checkpointed; Retired; RolledBack] →
    mp_state q ∈ [WriteFenced; Checkpointed; Retired; RolledBack] ∧
    mp_cohort_refs q = mp_cohort_refs p ∧ mp_write_fence_ref q = mp_write_fence_ref p;
  kp_checkpoint : mp_state p ∈ [Checkpointed; Retired; RolledBack] →
    mp_state q ∈ [Checkpointed; Retired; RolledBack] ∧ mp_checkpoint_ref q = mp_checkpoint_ref p;
  kp_rolled_back : mp_state p = RolledBack → mp_state q = RolledBack }.

#[global] Instance keeps_refl : Reflexive keeps.
Proof. intros p. by split. Qed.

Lemma moves_keeps self p state u self1 :
  moves self p state u self1 → keeps p (advanced p state (expected_stage state) u).
Proof.
  intros Hm. destruct (advanced_identity p state (expected_stage state) u) as (_ & E2 & E3 & E4 & E5 & E6 & _).
  destruct (advanced_refs p state (expected_stage state) u) as (R1 & _ & R3 & R4 & R5 & _).
  split; rewrite ?E2, ?E3, ?E4, ?E5, ?E6, ?R1, ?R3, ?R4, ?R5; try done;
    destruct Hm; destruct (mp_state p); try done; try (intros Hin; exfalso; clear -Hin; set_solver);
    try (match goal with H : _ ∈ _ :: _ |- _ => exfalso; clear -H; set_solver end);
    intros _; split; try done; set_solver.
Qed.

(** Records that are never overwritten *)
Record keeps_records self self' : Prop := {
  kr_snapshots : snapshots self ⊆ snapshots self';
  kr_inventories : inventories self ⊆ inventories self';
  kr_backfills : backfills self ⊆ backfills self';
  kr_reconciliations : reconciliations self ⊆ reconciliations self';
  kr_read_cutovers : read_cutovers self ⊆ read_cutovers self';
  kr_checkpoints : checkpoints self ⊆ checkpoints self';
  kr_retirements : retirements self ⊆ retirements self';
  kr_rollbacks : rollbacks self ⊆ rollbacks self' }.

#[global] Instance keeps_records_preorder : PreOrder keeps_records.
Proof.
  split; [by intros s; split|]. intros s1 s2 s3 [] []. split; by etransitivity.
Qed.

Lemma keeps_records_plan q self : keeps_records self (put_plan q self).
Proof. by destruct self. Qed.
Lemma keeps_records_snapshot s self :
  snapshots self !! ss_snapshot_ref s = None → keeps_records self (put_snapshot s self).
Proof. destruct self. split; cbn; auto using put_fresh. Qed.
Lemma keeps_records_reconciliation r self :
  reconciliations self !! sr_reconciliation_ref r = None → keeps_records self (put_reconciliation r self).
Proof. destruct self. split; cbn; auto using put_fresh. Qed.
Lemma moves_records self p state u self1 : moves self p state u self1 → keeps_records self self1.
Proof.
  destruct self. intros [| | | | | | |r s1 _ Hn _ _ [[_ ->]|(_ & k & f & _ & _ & ->)]]; cbn in *;
    split; cbn; auto using put_fresh.
Qed.

Notation fenced_states := [WriteFenced; Checkpointed; Retired; RolledBack].

(** Plan [p] of one state has become plan [q] of a later one. *)
Record continues (k : string) self (p : MigrationPlan) self' (q : MigrationPlan) : Prop := {
  co_before : plans self !! k = Some p;
  co_after : plans self' !! k = Some q;
  co_keeps : keeps p q;
  co_records : keeps_records self self';
  co_fence ref : mp_state p ∈ fenced_states → mp_state q ≠ RolledBack → mp_write_fence_ref p = Some ref →
    write_fences self' !! ref = write_fences self !! ref }.

Lemma continues_refl k self p : plans self !! k = Some p → continues k self p self p.
Proof. by split. Qed.

Lemma keeps_trans p q r : keeps p q → keeps q r → keeps p r.
Proof.
  intros [(I1 & I2 & I3 & I4) U1 V1 F1 C1 B1] [(J1 & J2 & J3 & J4) U2 V2 F2 C2 B2].
  split; auto; [by rewrite J1, J2, J3, J4|..].
  - intros Hp. rewrite V2, V1; auto.
  - intros Hp. destruct (F1 Hp) as (Hq & <- & <-). auto.
  - intros Hp. destruct (C1 Hp) as (Hq & <-). auto.
Qed.

Lemma continues_trans k s1 p1 s2 p2 s3 p3 :
  continues k s1 p1 s2 p2 → continues k s2 p2 s3 p3 → continues k s1 p1 s3 p3.
Proof.
  intros [B1 A1 K1 R1 F1] [B2 A2 K2 R2 F2]. split; [done|done|by eapply keeps_trans|by etransitivity|].
  intros ref Hst Hq Href. destruct (kp_fence _ _ K1 Hst) as (Hst2 & _ & Href2).
  rewrite F2; [|done|done|by rewrite Href2]. apply F1; [done| |done].
  intros Hr. by apply Hq, (kp_rolled_back _ _ K2).
Qed.

Lemma step_continues self l self' k p :
  protocol_inv self → step self l self' → plans self !! k = Some p → ∃ q, continues k self p self' q.
Proof.
  intros Hinv Hs Hp. destruct Hs as [s Hn|plan s Hn|k' plan r Hp' Hst Hn Hb|k' plan state u self1 Hp' Hm Hv].
  - exists p. split; try done; [by destruct self|by apply keeps_records_snapshot|by destruct self].
  - exists p. split; try done; [|apply keeps_records_plan|by rewrite put_plan_fences].
    rewrite put_plan_lookup. case_decide; [congruence|done].
  - exists p. split; try done; [by destruct self|by apply keeps_records_reconciliation|by destruct self].
  - assert (keeps_records self (put_plan (advanced plan state (expected_stage state) u) self1)) as Hr.
    { etransitivity; [by eapply moves_records|apply keeps_records_plan]. }
    pose proof (put_plan_lookup (advanced plan state (expected_stage state) u) self1 k) as Hl.
    rewrite (moves_plans _ _ _ _ _ Hm) in Hl.
    destruct (advanced_identity plan state (expected_stage state) u) as (Eref & _ & _ & _ & _ & Est & _).
    rewrite Eref, (pi_key _ Hinv _ _ Hp') in Hl. case_decide as E.
    + subst k'. rewrite Hp in Hp'. injection Hp' as <-.
      eexists. split; [done|done|by eapply moves_keeps|done|]. rewrite put_plan_fences, Est.
      intros ref _ Hns Href. destruct (ev_fence_known _ _ (pi_evidence _ Hinv _ _ Hp) _ Href) as [f Hf].
      by apply (ex_fences _ _ _ (moves_extend _ _ _ _ _ p Hm Hns)).
    + rewrite Hp in Hl. exists p. split; try done. rewrite put_plan_fences. intros ref _ _ Href.
      pose proof (moves_extend_other _ _ _ _ _ _ _ _ Hinv Hp' Hp E Hm) as Hex.
      apply (ex_fences _ _ _ Hex _ Href). by eapply (ev_fence_known _ _ (pi_evidence _ Hinv _ _ Hp)).
Qed.

Lemma call_continues self c k p :
  protocol_inv self → well_formed_call c → plans self !! k = Some p → ∃ q, continues k self p (run_call c self) q.
Proof.
  intros Hinv Hc Hp. destruct (run_call_steps _ _ Hinv Hc) as [->|[Hs|(_ & s1 & Hs1 & Hs)]].
  - exists p. by apply continues_refl.
  - by eapply step_continues.
  - destruct (step_continues _ _ _ _ _ Hinv Hs1 Hp) as (q & Hq).
    destruct (step_continues _ _ _ k q (protocol_step_inv _ _ _ Hinv Hs1) Hs (co_after _ _ _ _ _ Hq)) as (r & Hr).
    exists r. by eapply continues_trans.
Qed.

Lemma calls_continue cs self k p :
  protocol_inv self → Forall well_formed_call cs → plans self !! k = Some p →
  ∃ q, continues k self p (run_calls cs self) q.
Proof.
  intros Hinv Hcs. revert self p Hinv. induction Hcs as [|c cs Hc _ IH]; intros self p Hinv Hp.
  { exists p. by apply continues_refl. }
  destruct (call_continues _ _ _ _ Hinv Hc Hp) as (q & Hq).
  destruct (IH (run_call c self) q) as (r & Hr).
  - by eapply call_steps_inv, run_call_steps.
  - apply Hq.
  - exists r. by eapply continues_trans.
Qed.

(** * Stage calls *)

(** The six calls that advance a plan and return it *)
Definition stage_call (c : call) : option (string * MA MigrationPlan) :=
  match c with
  | CallFreeze k x v => Some (k, freeze_inventory k x v)
  | CallBackfill k x v => Some (k, record_backfill k x v)
  | CallCutover k x g v => Some (k, cutover_reads k x g v)
  | CallFence k x g v => Some (k, fence_writes k x g v)
  | CallCheckpoint k x g v => Some (k, checkpoint_projection k x g v)
  | CallRetire k x g v => Some (k, retire_legacy k x g v)
  | _ => None
  end.

(** The checks a repeated call passes before it finds its own record *)
Definition replayable (c : call) self (p : MigrationPlan) : Prop :=
  match c with
  | CallFreeze _ x _ =>
      mp_state p ≠ Planned ∧ mp_inventory_ref p = Some (mi_inventory_ref x) ∧
      inventories self !! mi_inventory_ref x = Some x ∧ ∃ s, plan_snapshot self p s ∧
      inventory_matches_snapshot_binding x p s (map sf_source_file_ref (ss_files s)) = true
  | CallBackfill _ x _ =>
      mp_state p ≠ Planned ∧ bound (bb_migration_ref x) (bb_source_snapshot_digest x) p ∧
      backfills self !! bb_batch_ref x = Some x ∧ ∃ s ref i, plan_snapshot self p s ∧
      mp_inventory_ref p = Some ref ∧ inventories self !! ref = Some i ∧
      backfill_observation_conflict x (map ii_canonical_ref (mi_items i)) s = None
  | CallCutover _ x g _ =>
      gate_open g p Stage3CohortReadCutover ∧ (∃ r, clean_reconciliation self p = Ok r) ∧
      bound (rc_migration_ref x) (rc_source_snapshot_digest x) p ∧ rc_gate_ref x = pg_gate_ref g ∧
      read_cutovers self !! rc_cutover_ref x = Some x
  | CallFence _ x g _ =>
      mp_state p ∈ fenced_states ∧ gate_open g p Stage4WriteCutover ∧
      bound (wf_migration_ref x) (wf_source_snapshot_digest x) p ∧
      wf_authority_ref x = mp_target_authority_ref p ∧ wf_gate_ref x = pg_gate_ref g ∧
      (list_to_set (wf_cohort_refs x) : gset string) = list_to_set (mp_cohort_refs p) ∧
      mp_write_fence_ref p = Some (wf_fence_ref x) ∧ write_fences self !! wf_fence_ref x = Some x
  | CallCheckpoint _ x g _ =>
      gate_open g p Stage5ProjectionCheckpoint ∧ bound (pc_migration_ref x) (pc_source_snapshot_digest x) p ∧
      pc_gate_ref x = pg_gate_ref g ∧ pc_state x = Complete ∧ checkpoints self !! pc_checkpoint_ref x = Some x
  | CallRetire _ x g _ =>
      mp_state p ∈ [Checkpointed; Retired; RolledBack] ∧ gate_open g p LegacyRetirementStage ∧
      retirement_proof_invalid x p g = false ∧ retirements self !! lr_retirement_ref x = Some x
  | _ => False
  end.

(** ** Replayable calls stay replayable *)
Section continues.
Context (k : string) (self self' : InMemoryMigrationAuthority) (p q : MigrationPlan).
Context (Hco : continues k self p self' q).

Lemma continues_bound m d : bound m d p → bound m d q.
Proof. destruct (kp_identity _ _ (co_keeps _ _ _ _ _ Hco)) as (E1 & _ & E3 & _). unfold bound. by rewrite E1, E3. Qed.
Lemma continues_gate g stage : gate_open g p stage → gate_open g q stage.
Proof. destruct (kp_identity _ _ (co_keeps _ _ _ _ _ Hco)) as (E1 & _ & E3 & _). unfold gate_open. by rewrite E1, E3. Qed.
Lemma continues_snapshot s : plan_snapshot self p s → plan_snapshot self' q s.
Proof.
  destruct (kp_identity _ _ (co_keeps _ _ _ _ _ Hco)) as (_ & E2 & E3 & _).
  intros [Hl Hd]. unfold plan_snapshot. rewrite E2, E3. split; [|done].
  eapply lookup_weaken; [done|]. apply (co_records _ _ _ _ _ Hco).
Qed.

Lemma clean_matches_some (p0 : MigrationPlan) self0 : has_clean self0 p0 → ∃ r, clean_reconciliation self0 p0 = Ok r.
Proof.
  intros (k0 & r0 & Hl & [Hm Hd] & Hs). unfold clean_reconciliation.
  destruct (last (sort_by _ _)) as [r|] eqn:E; [by exists r|]. exfalso.
  rewrite last_None in E. apply (not_elem_of_nil r0). rewrite <- E, elem_of_sort_by, list_elem_of_filter.
  split; [done|]. apply list_elem_of_fmap. exists (k0, r0). split; [done|]. by apply elem_of_map_to_list.
Qed.
Lemma continues_clean : has_clean self p → has_clean self' q.
Proof.
  intros (k0 & r & Hl & Hb & Hs). exists k0, r. split; [|by auto using continues_bound].
  eapply lookup_weaken; [done|]. apply (co_records _ _ _ _ _ Hco).
Qed.

Lemma continues_unplanned : mp_state p ≠ Planned → mp_state q ≠ Planned ∧ mp_inventory_ref q = mp_inventory_ref p.
Proof.
  intros Hp. pose proof (co_keeps _ _ _ _ _ Hco) as Hk. split; [|by apply (kp_inventory _ _ Hk)].
  intros Hq. by apply Hp, (kp_unfrozen _ _ Hk).
Qed.

Lemma replayable_mono c :
  (∀ k0 x g v, c = CallFence k0 x g v → mp_state q ≠ RolledBack) →
  replayable c self p → replayable c self' q.
Proof.
  intros Hnr. pose proof (co_records _ _ _ _ _ Hco) as [R1 R2 R3 R4 R5 R6 R7 _].
  pose proof (co_keeps _ _ _ _ _ Hco) as Hk. destruct (kp_identity _ _ Hk) as (E1 & E2 & E3 & E4).
  destruct c as [| |k0 x v|k0 x v| |k0 x g v|k0 x g v|k0 x g v|k0 x g v|]; try done; cbn [replayable].
  - intros ((Hst & Hi)%continues_unplanned & Href & Hl & s & Hs%continues_snapshot & Hm).
    rewrite Hi. split; [done|]. split; [done|]. split; [by eapply lookup_weaken|]. exists s. split; [done|].
    unfold inventory_matches_snapshot_binding. by rewrite E1, E2, E3.
  - intros ((Hst & Hi)%continues_unplanned & Hb%continues_bound & Hl & s & ref & i & Hs%continues_snapshot & Hr & Hil & Hc).
    split; [done|]. split; [done|]. split; [by eapply lookup_weaken|]. exists s, ref, i. rewrite Hi.
    split; [done|]. split; [done|]. split; [by eapply lookup_weaken|done].
  - intros (Hg%continues_gate & (r & Hr%clean_reconciliation_ok%continues_clean) & Hb%continues_bound & Hgr & Hl).
    split; [done|]. split; [by apply clean_matches_some|]. split; [done|]. split; [done|by eapply lookup_weaken].
  - intros (Hst & Hg%continues_gate & Hb%continues_bound & Ha & Hgr & Hcoh & Href & Hl).
    destruct (kp_fence _ _ Hk Hst) as (Hst' & -> & ->). rewrite E4. do 7 (split; [done|]).
    rewrite (co_fence _ _ _ _ _ Hco); [done|done|by eapply Hnr|done].
  - intros (Hg%continues_gate & Hb%continues_bound & Hgr & Hc & Hl). do 4 (split; [done|]). by eapply lookup_weaken.
  - intros (Hst & Hg%continues_gate & Hv & Hl). destruct (kp_checkpoint _ _ Hk Hst) as (Hst' & Hck).
    destruct (kp_fence _ _ Hk) as (_ & _ & Hwf); [clear -Hst; set_solver|].
    split; [done|]. split; [done|]. split; [|by eapply lookup_weaken].
    unfold retirement_proof_invalid. by rewrite E1, E3, Hck, Hwf.
Qed.
End continues.

(** ** A replayable call returns the plan as it is *)
Lemma same_record {A} `{EqDecision A} (x : A) id : same_or_conflict (Some x) x id = Ok (Some x).
Proof. by apply same_or_conflict_some. Qed.

Lemma replay_runs c k m self p :
  stage_call c = Some (k, m) → plans self !! k = Some p → replayable c self p → m self = (Ok p, self).
Proof.
  intros Hc Hp. pose proof (proj2 (get_plan_ok self k p) Hp) as Hget.
  assert (Hsnap : ∀ s, plan_snapshot self p s →
    get_snapshot self (mp_source_snapshot_ref p) (mp_source_snapshot_digest p) = Ok s) by (intros s; apply get_snapshot_ok).
  destruct c as [| |k0 x v|k0 x v| |k0 x g v|k0 x g v|k0 x g v|k0 x g v|]; try discriminate Hc;
    injection Hc as <- <-; cbn [replayable].
  - intros (_ & Href & Hl & s & Hs%Hsnap & Hm). unfold freeze_inventory. run_unfold.
    rewrite Hget, Hs, Hm. cbn. rewrite Hl, same_record, Href. cbn. by rewrite bool_decide_eq_true_2.
  - intros (_ & [Hb1 Hb2] & Hl & s & ref & i & Hs%Hsnap & Hr & Hi & Hcf). unfold record_backfill. run_unfold.
    rewrite Hget, Hs, Hb1, Hb2, !bool_decide_eq_false_2 by (by intros Hn; apply Hn). cbn. rewrite Hr. cbn.
    rewrite Hi. cbn. rewrite Hcf. cbn. by rewrite Hl, same_record.
  - intros (Hg%require_gate_ok & (r & Hr) & [Hb1 Hb2] & Hgr & Hl). unfold cutover_reads. run_unfold.
    rewrite Hget, Hg, Hr, Hb1, Hb2, Hgr, !bool_decide_eq_false_2 by (by intros Hn; apply Hn). cbn.
    by rewrite Hl, same_record.
  - intros (_ & Hg%require_gate_ok & [Hb1 Hb2] & Ha & Hgr & Hcoh & _ & Hl). unfold fence_writes. run_unfold.
    rewrite Hget, Hg, Hb1, Hb2, Ha, Hgr, Hcoh, !bool_decide_eq_false_2 by (by intros Hn; apply Hn). cbn.
    by rewrite Hl, same_record.
  - intros (Hg%require_gate_ok & [Hb1 Hb2] & Hgr & Hst & Hl). unfold checkpoint_projection. run_unfold.
    rewrite Hget, Hg, Hb1, Hb2, Hgr, Hst, !bool_decide_eq_false_2 by (by intros Hn; apply Hn). cbn.
    by rewrite Hl, same_record.
  - intros (_ & Hg%require_gate_ok & Hv & Hl). unfold retire_legacy. run_unfold.
    rewrite Hget, Hg, Hv. cbn. by rewrite Hl, same_record.
Qed.

(** ** An accepted stage call is replayable *)

(** What the moved plan [q] has of the plan [p] before *)
Definition moved (p q : MigrationPlan) (state : MigrationState) (u : plan_update) : Prop :=
  mp_plan_ref q = mp_plan_ref p ∧ mp_migration_ref q = mp_migration_ref p ∧
  mp_source_snapshot_ref q = mp_source_snapshot_ref p ∧
  mp_source_snapshot_digest q = mp_source_snapshot_digest p ∧
  mp_target_authority_ref q = mp_target_authority_ref p ∧ mp_state q = state ∧
  mp_inventory_ref q = match u with SetInventory x => Some x | _ => mp_inventory_ref p end ∧
  mp_cohort_refs q = match u with SetCohorts x => x | _ => mp_cohort_refs p end ∧
  mp_write_fence_ref q = match u with SetWriteFence x => Some x | _ => mp_write_fence_ref p end ∧
  mp_checkpoint_ref q = match u with SetCheckpoint x => Some x | _ => mp_checkpoint_ref p end.

Lemma next_plan_moved p v state stage u q : next_plan p v state stage u = Ok q → moved p q state u.
Proof.
  intros (_ & _ & -> & _)%next_plan_ok. unfold moved.
  destruct (advanced_identity p state stage u) as (-> & -> & -> & -> & -> & -> & _).
  destruct (advanced_refs p state stage u) as (-> & _ & -> & -> & -> & _). tauto.
Qed.

Lemma moved_stored p q state u k self1 : mp_plan_ref p = k → moved p q state u → plans (put_plan q self1) !! k = Some q.
Proof. intros <- [E _]. rewrite put_plan_lookup, E. by rewrite decide_True. Qed.

(** At the writes of a call: the plan is stored, the rest is about the fields
    of the moved plan. *)
Ltac stored_replayable inv :=
  eapply commits_done; [reflexivity|];
  match goal with
  | Hp : plans ?s !! ?k = Some ?p, H : next_plan ?p _ _ _ _ = Ok ?q |- _ =>
      pose proof (pi_key _ inv _ _ Hp); apply next_plan_moved in H; split; [by eapply moved_stored|];
      destruct H as (_ & E1 & E2 & E3 & E4 & E5 & E6 & E7 & E8 & E9); cbn [replayable];
      unfold gate_open, bound, plan_snapshot, retirement_proof_invalid;
      rewrite ?E1, ?E2, ?E3, ?E4, ?E5, ?E6, ?E7, ?E8, ?E9; destruct s; cbn in *; rewrite ?lookup_insert_eq
  end.

Lemma stage_commits c k m self :
  protocol_inv self → stage_call c = Some (k, m) →
  commits (λ q s', plans s' !! k = Some q ∧ replayable c s' q) m self.
Proof.
  intros Hinv Hc. destruct c as [| |k0 x v|k0 x v| |k0 x g v|k0 x g v|k0 x g v|k0 x g v|]; try discriminate Hc;
    injection Hc as <- <-.
  - unfold freeze_inventory. repeat commit_step. facts.
    case_match; [case_match; commit_step|]. repeat commit_step. facts. stored_replayable Hinv.
    split; [done|]. split; [done|]. split; [done|]. eexists; split; [done|].
    apply inventory_matches_ok. unfold bound. by rewrite E1, E2, E3.
  - unfold record_backfill. repeat commit_step. destruct (backfill_observation_conflict _ _ _) eqn:Hcf; [apply commits_fail|].
    apply commits_skip. repeat commit_step. facts. case_match; [commit_step|]. repeat commit_step. facts.
    match goal with H : mp_inventory_ref _ ≫= _ = Some _ |- _ => apply bind_Some in H as (ref & Hr & Hi) end.
    match goal with H : mp_state ?p ∈ _ |- _ => rewrite (backfill_next_state p) in * by exact H end.
    stored_replayable Hinv. split; [done|]. split; [done|]. split; [done|]. by do 3 eexists.
  - unfold cutover_reads. repeat commit_step. facts. case_match; [commit_step|]. repeat commit_step. facts.
    stored_replayable Hinv. split; [done|]. split; [|done]. apply clean_matches_some.
    match goal with H : has_clean _ _ |- _ => destruct H as (k' & r & Hr & Hb & Hs) end.
    exists k', r. unfold bound in *. by rewrite E1, E3.
  - unfold fence_writes. repeat commit_step. facts. case_match; [commit_step|]. repeat commit_step. facts.
    stored_replayable Hinv. split; [set_solver|]. done.
  - unfold checkpoint_projection. repeat commit_step. facts. case_match; [commit_step|]. repeat commit_step. facts.
    stored_replayable Hinv. done.
  - unfold retire_legacy. repeat commit_step.
    match goal with H : retirement_proof_invalid _ _ _ = false |- _ =>
      pose proof (proj1 (retirement_proof_ok _ _ _) H) as Hpr end.
    facts. case_match; [commit_step|]. repeat commit_step. facts.
    stored_replayable Hinv. split; [set_solver|]. done.
Qed.

(** * Replaying *)

(** The same stage call with another expected version *)
Definition with_version (v : Z) (c : call) : call :=
  match c with
  | CallFreeze k x _ => CallFreeze k x v
  | CallBackfill k x _ => CallBackfill k x v
  | CallCutover k x g _ => CallCutover k x g v
  | CallFence k x g _ => CallFence k x g v
  | CallCheckpoint k x g _ => CallCheckpoint k x g v
  | CallRetire k x g _ => CallRetire k x g v
  | _ => c
  end.
Definition is_fence (c : call) : bool := match c with CallFence _ _ _ _ => true | _ => false end.

Lemma replayable_version v c self p : replayable c self p → replayable (with_version v c) self p.
Proof. by destruct c. Qed.
Lemma run_stage_call c k m self : stage_call c = Some (k, m) → (m self).2 = run_call c self.
Proof. destruct c; cbn; intros H; try discriminate H; by injection H as <- <-. Qed.
Lemma stage_call_well_formed c k m : stage_call c = Some (k, m) → well_formed_call c.
Proof. by destruct c. Qed.

(** An accepted stage call can be delivered again. If a freeze, backfill,
    cutover, fence, checkpoint or retire call changed the authority, then the
    same call, whatever was called in between and whatever version it expects
    now, returns the current plan and changes nothing; for a fence as long as
    the migration was not rolled back, which withdraws the recorded fence. *)
Theorem accepted_stage_call_replays cs c k m later v m' :
  Forall well_formed_call cs → Forall well_formed_call later →
  stage_call c = Some (k, m) → stage_call (with_version v c) = Some (k, m') →
  let self := run_calls cs InMemoryMigrationAuthority_new in
  let self' := run_calls later (m self).2 in
  (m self).2 ≠ self →
  ∃ q, plans self' !! k = Some q ∧
    ((is_fence c = true → mp_state q ≠ RolledBack) → m' self' = (Ok q, self')).
Proof.
  intros Hcs Hlater Hc Hc' self self' Hne. pose proof (reachable_inv _ Hcs) as Hinv.
  destruct (commits_run _ _ _ (stage_commits c k m self Hinv Hc)) as [?|(p & Hp & Hrep)]; [done|].
  assert (protocol_inv (m self).2) as Hinv1.
  { rewrite (run_stage_call _ _ _ _ Hc). eapply call_steps_inv; [done|]. apply run_call_steps; [done|].
    by eapply stage_call_well_formed. }
  destruct (calls_continue later _ k p Hinv1 Hlater Hp) as (q & Hq).
  exists q. split; [apply Hq|]. intros Hf.
  apply (replay_runs (with_version v c) k m' _ q Hc'); [apply Hq|]. apply replayable_version.
  apply (replayable_mono _ _ _ _ _ Hq); [|done]. intros k0 x g v0 ->. by apply Hf.
Qed.

(** * A rollback does not replay *)

(** The call is refused as replay drift and changes nothing. *)
Definition drifts {A} (m : MA A) self : Prop :=
  m self = (Raise (MigrationReplayError "rollback_replay_drift"), self).

Lemma rollback_recorded k r v self :
  protocol_inv self → rb_decision r = Requested →
  commits (λ q s', plans s' !! k = Some q ∧ mp_state q = RolledBack ∧
    bound (rb_migration_ref r) (rb_source_snapshot_digest r) q ∧
    ∃ r', rollbacks s' !! rb_rollback_ref r = Some r' ∧ rb_decision r' = Applied) (rollback k r v) self.
Proof.
  intros Hinv Hd. unfold rollback. repeat commit_step. facts.
  destruct (rollbacks self !! rb_rollback_ref r) as [existing|] eqn:Hr; [case_match; commit_step|].
  repeat commit_step. facts.
  match goal with H : applied_rollback _ = Ok ?r' |- _ => rename r' into applied;
    apply applied_rollback_fields in H as (Href & _ & _ & Hdec); [|done] end.
  assert (∀ s1 q, plans s1 = plans self → next_plan a v RolledBack RollbackStage NoUpdate = Ok q →
    plans (put_plan q (put_rollback applied s1)) !! k = Some q ∧ mp_state q = RolledBack ∧
    bound (rb_migration_ref r) (rb_source_snapshot_digest r) q ∧
    ∃ r', rollbacks (put_plan q (put_rollback applied s1)) !! rb_rollback_ref r = Some r' ∧ rb_decision r' = Applied)
    as Hstored.
  { intros s1 q Hs1 Hq%next_plan_moved. split; [eapply moved_stored; [by eapply (pi_key _ Hinv)|done]|].
    destruct Hq as (_ & E1 & _ & E3 & _ & Est & _). unfold bound. rewrite E1, E3. split; [done|]. split; [done|].
    exists applied. rewrite <- Href. destruct s1. cbn. by rewrite lookup_insert_eq. }
  case_match; (eapply commits_done; [reflexivity|]; apply Hstored; [by destruct self|done]).
Qed.

Lemma rollback_drifts self k p r' r v :
  get_plan self k = Ok p → mp_state p ≠ Retired → rb_migration_ref r = mp_migration_ref p →
  rb_source_snapshot_digest r = mp_source_snapshot_digest p → rb_decision r = Requested →
  rollbacks self !! rb_rollback_ref r = Some r' → r' ≠ r →
  rollback k r v self = (Raise (MigrationReplayError "rollback_replay_drift"), self).
Proof.
  intros Hget Hst Hm Hd Hdec Hr Hne. unfold rollback. run_unfold. rewrite Hget, Hm, Hd, Hdec.
  rewrite (bool_decide_eq_false_2 (mp_state p = Retired)) by done.
  rewrite (bool_decide_eq_false_2 (_ ∉ _)) by (intros Hn; apply Hn; by left).
  rewrite !bool_decide_eq_false_2 by (by intros Hn; apply Hn). cbn. rewrite Hr.
  rewrite bool_decide_eq_false_2 by exact Hne. done.
Qed.

(** A rollback is not replayable. Once a requested rollback was accepted,
    the authority holds it as applied, so delivering the accepted request
    again, at once or after any later calls and with any version, is refused
    as drift and changes nothing. *)
Theorem requested_rollback_drifts cs k r v later v' :
  Forall well_formed_call cs → Forall well_formed_call later → rb_decision r = Requested →
  let self := run_calls cs InMemoryMigrationAuthority_new in
  let self' := run_calls later (rollback k r v self).2 in
  (rollback k r v self).2 ≠ self →
  drifts (rollback k r v') self'.
Proof.
  intros Hcs Hlater Hd self self' Hne. pose proof (reachable_inv _ Hcs) as Hinv.
  destruct (commits_run _ _ _ (rollback_recorded k r v self Hinv Hd))
    as [?|(p & Hp & Hst & Hb & r' & Hr' & Hd')]; [done|].
  pose proof (run_call_steps self (CallRollback k r v) Hinv I) as Hsteps.
  apply call_steps_inv in Hsteps; [|done]. cbn [run_call] in Hsteps.
  destruct (calls_continue later _ k p Hsteps Hlater Hp) as (q & Hq).
  pose proof (kp_rolled_back _ _ (co_keeps _ _ _ _ _ Hq) Hst) as Hstq.
  apply (continues_bound _ _ _ _ _ Hq) in Hb as [Hm Hdig].
  pose proof (lookup_weaken _ _ _ _ Hr' (kr_rollbacks _ _ (co_records _ _ _ _ _ Hq))) as Hrec.
  pose proof (proj2 (get_plan_ok _ _ _) (co_after _ _ _ _ _ Hq)) as Hget.
  fold self' in Hrec, Hget.
  apply (rollback_drifts _ _ q r'); try done; congruence.
Qed.
