(* ===== verification/MigrationShadow.v ===== *)
(** The shadow reconciliation of [InMemoryMigrationAuthority.reconcile_shadow]
    against its specification: the difference of two record sets. *)
From S2P Require Export MigrationSafety.
Local Open Scope Z_scope.

(** * The specification *)

(** A difference between source and target records: the reference it is at,
    its kind and the digests on either side. *)
Inductive shadow_difference (xs ys : list CanonicalRecord) :
    string → DeltaKind → option string → option string → Prop :=
  | difference_add x :
      x ∈ xs → (∀ y, y ∈ ys → cr_canonical_ref y ≠ cr_canonical_ref x) →
      shadow_difference xs ys (cr_canonical_ref x) Add (Some (cr_record_digest x)) None
  | difference_delete y :
      y ∈ ys → (∀ x, x ∈ xs → cr_canonical_ref x ≠ cr_canonical_ref y) →
      shadow_difference xs ys (cr_canonical_ref y) Delete None (Some (cr_record_digest y))
  | difference_update x y :
      x ∈ xs → y ∈ ys → cr_canonical_ref x = cr_canonical_ref y →
      cr_record_digest x ≠ cr_record_digest y ∨ cr_source_revision x ≠ cr_source_revision y →
      shadow_difference xs ys (cr_canonical_ref x) Update (Some (cr_record_digest x)) (Some (cr_record_digest y)).

(** An observation of the plan's backfill batches *)
Definition observed self (p : MigrationPlan) (o : BackfillObservation) : Prop :=
  ∃ k b, backfills self !! k = Some b ∧ bound (bb_migration_ref b) (bb_source_snapshot_digest b) p ∧
    o ∈ bb_observations b.

(** Evidence that blocks: a source item was not accepted or not present. *)
Definition blocking self (p : MigrationPlan) : Prop :=
  (∃ o, observed self p o ∧ bo_disposition o ≠ Accepted) ∨
  ∃ inventory i, inventories self !! default "" (mp_inventory_ref p) = Some inventory ∧
    i ∈ mi_items inventory ∧ ii_state i ≠ Present.

(** * Record maps *)
Definition record_map (rs : list CanonicalRecord) : gmap string CanonicalRecord :=
  foldl (λ m r, <[cr_canonical_ref r := r]> m) ∅ rs.

Lemma NoDup_map_inj {A B} (f : A → B) l x y : NoDup (map f l) → x ∈ l → y ∈ l → f x = f y → x = y.
Proof.
  induction l as [|z l IH]; cbn; intros Hnd Hx Hy E; [by apply not_elem_of_nil in Hx|].
  apply NoDup_cons in Hnd as [Hz Hnd]. apply elem_of_cons in Hx as [->|Hx], Hy as [->|Hy]; [done| | |by apply IH].
  - destruct Hz. rewrite E. by apply (list_elem_of_fmap_2 f).
  - destruct Hz. rewrite <- E. by apply (list_elem_of_fmap_2 f).
Qed.

Lemma foldl_record_map rs (m : gmap string CanonicalRecord) k r :
  foldl (λ m r, <[cr_canonical_ref r := r]> m) m rs !! k = Some r →
  (r ∈ rs ∧ cr_canonical_ref r = k) ∨ m !! k = Some r.
Proof.
  revert m. induction rs as [|x rs IH]; intros m; cbn; [by right|]. intros [[Hr Hk]|Hm]%IH; [left; set_solver|].
  rewrite lookup_insert_Some in Hm. destruct Hm as [[<- <-]|[_ Hm]]; [left; set_solver|by right].
Qed.

Lemma foldl_record_dom rs (m : gmap string CanonicalRecord) :
  dom (foldl (λ m r, <[cr_canonical_ref r := r]> m) m rs) =
  list_to_set (map cr_canonical_ref rs) ∪ (dom m : gset string).
Proof.
  revert m. induction rs as [|x rs IH]; intros m; cbn; [set_solver|].
  rewrite IH, dom_insert_L. set_solver.
Qed.
Lemma record_map_dom rs : dom (record_map rs) = (list_to_set (map cr_canonical_ref rs) : gset string).
Proof. unfold record_map. rewrite foldl_record_dom, dom_empty_L. set_solver. Qed.

Lemma record_map_size rs : size (record_map rs) = length rs → NoDup (map cr_canonical_ref rs).
Proof.
  rewrite <- size_dom, record_map_dom. intros E. apply list_to_set_size_NoDup. by rewrite length_map.
Qed.

Lemma record_map_lookup rs k r :
  size (record_map rs) = length rs → record_map rs !! k = Some r ↔ r ∈ rs ∧ cr_canonical_ref r = k.
Proof.
  intros Hnd%record_map_size. split.
  - intros [?|H]%foldl_record_map; [done|]. by rewrite lookup_empty in H.
  - intros [Hr <-]. assert (is_Some (record_map rs !! cr_canonical_ref r)) as [r' Hr'].
    { apply elem_of_dom. rewrite record_map_dom. apply elem_of_list_to_set. by apply list_elem_of_fmap_2. }
    rewrite Hr'. apply foldl_record_map in Hr' as [[Hin E]|H]; [|by rewrite lookup_empty in H].
    f_equal. by apply (NoDup_map_inj cr_canonical_ref rs).
Qed.

(** * Deltas *)
Lemma delta_fields k kind a b d :
  delta k kind a b = Ok d →
  sd_canonical_ref d = k ∧ sd_kind d = kind ∧ sd_source_digest d = a ∧ sd_target_digest d = b.
Proof. by intros [-> _]%construct_ok. Qed.

(** The delta of one reference: the code's case analysis as an option. *)
Definition delta_fields_for (source target : option CanonicalRecord) :
    option (DeltaKind * option string * option string) :=
  match source, target with
  | None, Some t => Some (Delete, None, Some (cr_record_digest t))
  | Some s, None => Some (Add, Some (cr_record_digest s), None)
  | Some s, Some t =>
      if bool_decide (cr_record_digest s ≠ cr_record_digest t) ||
         bool_decide (cr_source_revision s ≠ cr_source_revision t)
      then Some (Update, Some (cr_record_digest s), Some (cr_record_digest t)) else None
  | None, None => None
  end.

(** What a delta says *)
Definition delta_key (d : ShadowDelta) : string * (DeltaKind * option string * option string) :=
  (sd_canonical_ref d, (sd_kind d, sd_source_digest d, sd_target_digest d)).

Lemma shadow_delta_for_ok k a b o :
  shadow_delta_for k a b = Ok o → delta_key <$> o = pair k <$> delta_fields_for a b.
Proof.
  assert (∀ kind s t (d : ShadowDelta), delta k kind s t = Ok d → delta_key d = (k, (kind, s, t))) as Hd.
  { intros kind s t d (E1 & E2 & E3 & E4)%delta_fields. unfold delta_key. by rewrite E1, E2, E3, E4. }
  unfold shadow_delta_for, delta_fields_for. destruct a as [s|], b as [t|]; [|..|by intros [= <-]].
  - destruct (_ || _); [|by intros [= <-]]. intros (d & E%Hd & [= <-])%result_bind_ok. cbn. by rewrite E.
  - intros (d & E%Hd & [= <-])%result_bind_ok. cbn. by rewrite E.
  - intros (d & E%Hd & [= <-])%result_bind_ok. cbn. by rewrite E.
Qed.

Definition expected_deltas (sm tm : gmap string CanonicalRecord) (ks : list string) :=
  omap (λ k, pair k <$> delta_fields_for (sm !! k) (tm !! k)) ks.

Lemma deltas_loop_ok (sm tm : gmap string CanonicalRecord) ks acc ds :
  for_fold (λ deltas canonical_ref,
      d ← shadow_delta_for canonical_ref (sm !! canonical_ref) (tm !! canonical_ref);
      Ok (match d with Some d => deltas ++ [d] | None => deltas end)) ks acc = Ok ds →
  map delta_key ds = map delta_key acc ++ expected_deltas sm tm ks.
Proof.
  revert acc. induction ks as [|k ks IH]; intros acc; cbn; [intros [= <-]; by rewrite app_nil_r|].
  intros (acc' & (o & Ho%shadow_delta_for_ok & [= <-])%result_bind_ok & Hks%IH)%result_bind_ok.
  rewrite Hks. clear IH Hks.
  destruct o as [d|], (delta_fields_for (sm !! k) (tm !! k)) as [f|]; try discriminate Ho; [|done].
  apply (inj Some) in Ho. cbn. by rewrite map_app, <- Ho, <- app_assoc.
Qed.

Lemma compute_shadow_deltas_ok sm tm ds :
  compute_shadow_deltas sm tm = Ok ds →
  map delta_key ds = expected_deltas sm tm (py_sorted (elements (dom sm ∪ dom tm : gset string))).
Proof. apply (deltas_loop_ok sm tm _ []). Qed.

Lemma elem_of_expected_deltas sm tm ks k f :
  (k, f) ∈ expected_deltas sm tm ks ↔ k ∈ ks ∧ delta_fields_for (sm !! k) (tm !! k) = Some f.
Proof.
  unfold expected_deltas. rewrite list_elem_of_omap. split.
  - intros (k' & Hk' & E). destruct (delta_fields_for (sm !! k') (tm !! k')) as [f'|] eqn:Ef; [|done].
    injection E as <- <-. done.
  - intros [Hk E]. exists k. by rewrite E.
Qed.

(** One delta per reference, in the order of the references *)
Lemma expected_deltas_sublist sm tm ks : sublist (map fst (expected_deltas sm tm ks)) ks.
Proof.
  induction ks as [|k ks IH]; cbn; [constructor|]. destruct (delta_fields_for (sm !! k) (tm !! k)); by constructor.
Qed.

Lemma StronglySorted_sublist {A} (R : relation A) l k : sublist l k → StronglySorted R k → StronglySorted R l.
Proof.
  induction 1 as [|x l k Hl IH|x l k Hl IH]; intros Hs; [constructor|..]; apply StronglySorted_inv in Hs as [Hs Hx].
  - constructor; [by apply IH|]. eapply Forall_forall. intros y Hy. rewrite Forall_forall in Hx.
    apply Hx. by eapply elem_of_sublist.
  - by apply IH.
Qed.

Section difference.
Context (xs ys : list CanonicalRecord).
Context (Hxs : size (record_map xs) = length xs) (Hys : size (record_map ys) = length ys).

Lemma record_map_none rs k :
  size (record_map rs) = length rs → record_map rs !! k = None ↔ ∀ r, r ∈ rs → cr_canonical_ref r ≠ k.
Proof.
  intros Hrs. split.
  - intros Hn r Hr E. pose proof (proj2 (record_map_lookup rs k r Hrs) (conj Hr E)) as Hl. congruence.
  - intros Hr. destruct (record_map rs !! k) as [r|] eqn:E; [|done].
    apply record_map_lookup in E as [Hin Hk]; [|done]. by destruct (Hr r Hin).
Qed.

Lemma delta_fields_difference k kind a b :
  delta_fields_for (record_map xs !! k) (record_map ys !! k) = Some (kind, a, b) ↔
  shadow_difference xs ys k kind a b.
Proof.
  split.
  - unfold delta_fields_for.
    destruct (record_map xs !! k) as [x|] eqn:Ex, (record_map ys !! k) as [y|] eqn:Ey;
      first [apply (proj1 (record_map_lookup xs _ _ Hxs)) in Ex|pose proof (proj1 (record_map_none xs _ Hxs) Ex) as Ex'];
      first [apply (proj1 (record_map_lookup ys _ _ Hys)) in Ey|pose proof (proj1 (record_map_none ys _ Hys) Ey) as Ey'].
    + destruct (_ || _) eqn:E; [|done]. destruct Ex as [Hx <-], Ey as [Hy Hk]. intros [= <- <- <-].
      apply difference_update; try done. apply orb_true_iff in E as [E|E]; apply bool_decide_eq_true in E; auto.
    + destruct Ex as [Hx <-]. intros [= <- <- <-]. by apply difference_add.
    + destruct Ey as [Hy <-]. intros [= <- <- <-]. by apply difference_delete.
    + done.
  - intros [x Hx Hn|y Hy Hn|x y Hx Hy Hk Hd].
    + rewrite (proj2 (record_map_lookup xs _ x Hxs)) by done. rewrite (proj2 (record_map_none ys _ Hys)) by done. done.
    + rewrite (proj2 (record_map_lookup ys _ y Hys)) by done. rewrite (proj2 (record_map_none xs _ Hxs)) by done. done.
    + rewrite (proj2 (record_map_lookup xs _ x Hxs)), (proj2 (record_map_lookup ys _ y Hys)) by done. cbn.
      destruct (_ || _) eqn:E; [done|]. guards. by destruct Hd.
Qed.

Lemma deltas_exact ds k kind a b :
  compute_shadow_deltas (record_map xs) (record_map ys) = Ok ds →
  (∃ d, d ∈ ds ∧ sd_canonical_ref d = k ∧ sd_kind d = kind ∧ sd_source_digest d = a ∧ sd_target_digest d = b) ↔
  shadow_difference xs ys k kind a b.
Proof.
  intros Hds%compute_shadow_deltas_ok. rewrite <- delta_fields_difference.
  transitivity ((k, (kind, a, b)) ∈ map delta_key ds).
  - rewrite list_elem_of_fmap. unfold delta_key. split.
    + intros (d & Hd & <- & <- & <- & <-). by exists d.
    + intros (d & [= -> -> -> ->] & Hd). by exists d.
  - rewrite Hds, elem_of_expected_deltas. split; [by intros [_ ?]|]. intros Hf. split; [|done].
    rewrite elem_of_py_sorted, elem_of_elements, elem_of_union, !elem_of_dom.
    destruct (record_map xs !! k), (record_map ys !! k); try done; eauto.
Qed.

Lemma deltas_sorted ds :
  compute_shadow_deltas (record_map xs) (record_map ys) = Ok ds →
  StronglySorted String.le (map sd_canonical_ref ds) ∧ NoDup (map sd_canonical_ref ds).
Proof.
  intros Hds%compute_shadow_deltas_ok.
  assert (map sd_canonical_ref ds = map fst (map delta_key ds)) as -> by (by rewrite map_map).
  rewrite Hds. split; [eapply StronglySorted_sublist|eapply sublist_NoDup]; try apply expected_deltas_sublist.
  - apply (sort_by_sorted id).
  - rewrite py_sorted_perm. apply NoDup_elements.
Qed.
End difference.

(** * Coverage *)
Lemma elem_of_observations_for self p o : o ∈ observations_for self p ↔ observed self p o.
Proof.
  unfold observations_for, observed, bound. rewrite elem_of_sort_by, elem_of_concat. split.
  - intros (l & Ho & (b & -> & Hb)%list_elem_of_fmap).
    apply list_elem_of_fmap in Hb as ([k b'] & -> & Hb%elem_of_map_to_list). cbn in *.
    destruct (_ && _) eqn:E; [|by apply not_elem_of_nil in Ho]. guards. by exists k, b'.
  - intros (k & b & Hb & [Hm Hd] & Ho). exists (bb_observations b). split; [done|].
    apply list_elem_of_fmap. exists b. rewrite !bool_decide_eq_true_2 by done. split; [done|].
    apply list_elem_of_fmap. exists (k, b). split; [done|]. by apply elem_of_map_to_list.
Qed.

Lemma existsb_true {A} (f : A → bool) l : existsb f l = true ↔ ∃ x, x ∈ l ∧ f x = true.
Proof. rewrite existsb_exists. by setoid_rewrite <- list_elem_of_In. Qed.

(** Every source record was backfilled, accepted, at the snapshot's revision. *)
Definition covered self (p : MigrationPlan) (s : SourceSnapshot) (xs : list CanonicalRecord) : Prop :=
  ∀ x, x ∈ xs → cr_source_revision x = ss_revision s ∧
    ∃ o, observed self p o ∧ bo_canonical_ref o = cr_canonical_ref x ∧ bo_disposition o = Accepted.

Lemma coverage_ok self p xs s c :
  validate_shadow_backfill_coverage self p xs s = Ok c →
  covered self p s xs ∧ (c.1 || c.2 = true ↔ blocking self p).
Proof.
  unfold validate_shadow_backfill_coverage, load_shadow_observations, load_shadow_inventory. intros Hok.
  repeat guard_step. subst. cbn. split.
  - intros x Hx. rewrite existsb_false in *.
    match goal with H : ∀ x, x ∈ xs → bool_decide (cr_source_revision x ≠ _) = false |- _ => specialize (H x Hx) end.
    match goal with H : ∀ x, x ∈ xs → bool_decide (cr_canonical_ref x ∉ _) = false |- _ => specialize (H x Hx) end.
    guards. split; [done|].
    match goal with H : cr_canonical_ref x ∈ map _ _ |- _ => apply list_elem_of_fmap in H as (o & Ho & Hin) end.
    apply list_elem_of_filter in Hin as [Hacc Hin]. exists o. by rewrite <- elem_of_observations_for.
  - rewrite orb_true_iff, !existsb_true. unfold blocking. setoid_rewrite bool_decide_eq_true.
    setoid_rewrite elem_of_observations_for. split; (intros [?|H]; [by left|right]).
    + destruct H as (i & Hi). by do 2 eexists.
    + destruct H as (inventory & i & Hinv & Hi). simplify_eq. by exists i.
Qed.

(** * The reconciliation *)
Lemma reconciliation_state_spec (b1 b2 : bool) ds :
  match shadow_reconciliation_state b1 b2 ds with
  | Blocked => b1 || b2 = true
  | Clean => b1 || b2 = false ∧ ds = []
  | NeedsReview => b1 || b2 = false ∧ ds ≠ []
  end.
Proof. unfold shadow_reconciliation_state. destruct (b1 || b2); [done|]. by case_bool_decide. Qed.

(** What a reconciliation of the plan with these records is. *)
Record reconciles self (p : MigrationPlan) (s : SourceSnapshot) (xs ys : list CanonicalRecord)
    (r : ShadowReconciliation) : Prop := {
  rs_bound : bound (sr_migration_ref r) (sr_source_snapshot_digest r) p;
  rs_unique : NoDup (map cr_canonical_ref xs) ∧ NoDup (map cr_canonical_ref ys);
  rs_covered : covered self p s xs;
  rs_deltas k kind a b :
    (∃ d, d ∈ sr_deltas r ∧ sd_canonical_ref d = k ∧ sd_kind d = kind ∧ sd_source_digest d = a ∧
       sd_target_digest d = b) ↔ shadow_difference xs ys k kind a b;
  rs_sorted : StronglySorted String.le (map sd_canonical_ref (sr_deltas r)) ∧
    NoDup (map sd_canonical_ref (sr_deltas r));
  rs_count : sr_delta_count r = Z.of_nat (length (sr_deltas r));
  rs_state :
    match sr_state r with
    | Blocked => blocking self p
    | Clean => ¬ blocking self p ∧ sr_deltas r = []
    | NeedsReview => ¬ blocking self p ∧ sr_deltas r ≠ []
    end }.

Lemma candidate_count p src tgt deltas state r :
  build_shadow_reconciliation_candidate p src tgt deltas state = Ok r →
  sr_delta_count r = Z.of_nat (length (sr_deltas r)).
Proof. by intros [-> _]%construct_ok. Qed.

Lemma commit_returns_candidate p r v self r' self' :
  commit_shadow_reconciliation p r v self = (Ok r', self') → r' = r.
Proof.
  unfold commit_shadow_reconciliation. intros Hok. repeat guard_step. subst.
  destruct (reconciliations _ !! _) as [existing|].
  - case_bool_decide as E; [|discriminate Hok]. subst existing. by injection Hok as <- _.
  - by repeat guard_step.
Qed.


(** What a successful reconciliation establishes *)
Lemma reconcile_shadow_ok k src tgt xs ys v self r self' :
  protocol_inv self → reconcile_shadow k src tgt xs ys v self = (Ok r, self') →
  ∃ p s, plans self !! k = Some p ∧ plan_snapshot self p s ∧ sr_source_snapshot_digest r = src ∧
    sr_target_snapshot_digest r = tgt ∧ (src = tgt → sr_deltas r = []) ∧ reconciles self p s xs ys r.
Proof.
  intros Hinv. unfold reconcile_shadow, build_shadow_record_maps. fold (record_map xs) (record_map ys).
  intros Hok. repeat guard_step. repeat fact_step.
  repeat match goal with H : raise_if _ _ _ = (Ok _, _) |- _ => apply raise_if_run in H as [? ?]; guards end.
  subst. cbn [fst snd] in *.
  match goal with H : commit_shadow_reconciliation ?p0 _ _ _ = _ |- _ => rename p0 into p; apply commit_returns_candidate in H as -> end.
  match goal with H : build_shadow_reconciliation_candidate _ _ _ ?d0 _ = Ok ?r0 |- _ =>
    pose proof (candidate_count _ _ _ _ _ _ H) as Hcount; pose proof (candidate_ok _ _ _ _ _ _ H) as (Hm & Hs & Ht & Hd & Hst & _);
    rename d0 into ds, r0 into candidate end.
  match goal with H : validate_shadow_backfill_coverage _ _ _ ?s0 = Ok ?c0 |- _ =>
    apply coverage_ok in H as [Hcov Hblock]; rename s0 into s, c0 into c end.
  match goal with H : _ ∧ _ |- _ => destruct H as [Hl Hdig] end.
  exists p, s. pose proof (plan_snapshot_digest _ Hinv _ _ s ltac:(eassumption) Hl) as Hbound.
  split; [done|]. split; [done|]. split; [done|]. split; [done|]. split.
  - intros E. rewrite Hd.
    match goal with H : _ && _ = false |- _ => apply andb_false_iff in H as [H|H]; guards end; [by subst|done].
  - split; rewrite ?Hd; try done.
    + split; [done|]. by rewrite Hs, <- Hdig.
    + split; apply record_map_size; done.
    + intros k' kind a b. by apply deltas_exact.
    + by apply (deltas_sorted xs ys).
    + by rewrite Hcount, Hd.
    + rewrite Hst. pose proof (reconciliation_state_spec c.1 c.2 ds) as Hspec.
      destruct (shadow_reconciliation_state c.1 c.2 ds); rewrite <- Hblock; rewrite ?not_true_iff_false; done.
Qed.

(** C25: A shadow reconciliation is exactly the difference of its records. In
    any state that calls reach when plans are created without evidence, a
    reconciliation that is returned is bound to the
    plan; every source record in it was backfilled and accepted at the
    snapshot's revision; its deltas are, one per reference and in the order of
    the references, the additions, deletions and updates between the two
    record sets; and it is blocked exactly when an observation was not
    accepted or an inventory item not present, otherwise clean exactly when
    the record sets agree. *)
Theorem reconciliation_is_difference cs k src tgt xs ys v r self' :
  Forall well_formed_call cs →
  let self := run_calls cs InMemoryMigrationAuthority_new in
  reconcile_shadow k src tgt xs ys v self = (Ok r, self') →
  ∃ p s, plans self !! k = Some p ∧ plan_snapshot self p s ∧ sr_source_snapshot_digest r = src ∧
    sr_target_snapshot_digest r = tgt ∧ (src = tgt → sr_deltas r = []) ∧ reconciles self p s xs ys r.
Proof. intros Hcs self. apply reconcile_shadow_ok. by apply reachable_inv. Qed.
