(* ===== verification/MigrationExample.v ===== *)
(** A migration run from its registration to the retirement of the legacy
    system, every stage gated, and the concrete instances of the migration
    theorems on it. *)
From S2P Require Export MigrationSafety MigrationReplay MigrationShadow.
Local Open Scope Z_scope.

(** The model a constructor returns, for arguments it accepts *)
Definition built {A} (r : result A) (default : A) : A := match r with Ok x => x | Raise _ => default end.

Module MigrationExample.
Definition digest (s : string) : string := canonical_digest (JStr s).

Definition file : SourceFileSnapshot :=
  mkSourceFile 1 (digest "file") "file:users" "data/users.json" "source:legacy" "rev:1"
    (digest "content") (digest "meta") 42.
Definition files_digest : string := canonical_digest (snapshot_material "source:legacy" "rev:1" [file]).
Definition snapshot : SourceSnapshot :=
  mkSnapshot 1 (digest "snapshot") "snapshot:1" "source:legacy" "rev:1" [file] files_digest.
Definition plan : MigrationPlan :=
  mkPlan 1 (digest "plan") "migration:users" "plan:users" "snapshot:1" files_digest "authority:new"
    Stage0InventoryFreeze Planned None None [] None None None.

Definition item : InventoryItem :=
  mkItem 1 (digest "item") "user:1" "source:legacy" (Some "file:users") None "rev:1"
    (digest "row") (digest "meta") Present.
Definition inventory : MigrationInventory :=
  mkInventory 1 (digest "inventory") "inventory:1" "migration:users" "snapshot:1" files_digest [item] true
    (items_digest [item]).
Definition observation : BackfillObservation :=
  mkObservation 1 (digest "observation") "observation:1" "migration:users" files_digest "user:1"
    "source:legacy" (Some "file:users") None "rev:1" (digest "row") (digest "meta") Accepted Unreviewed
    None None 1700000000.
Definition batch : BackfillBatch :=
  mkBatch 1 (digest "batch") "batch:1" "migration:users" files_digest [observation] true
    (observations_digest [observation]).
Definition record : CanonicalRecord :=
  mkRecord 1 (digest "record") "user:1" (digest "row") "source:legacy" "rev:1" (Some "file:users") None
    (digest "meta").

Definition gate (ref : string) (stage : MigrationStage) : PrerequisiteGate :=
  mkGate 1 (digest ref) ref "migration:users" stage files_digest
    [mkGateCheck "check:1" true (digest "evidence") None] GatePassed.
Definition cutover (cohort : string) : CohortReadCutover :=
  mkCutover 1 (digest "cutover") ("cutover:" +:+ cohort) "migration:users" cohort "registry:1" files_digest
    "gate:read" Active.
Definition fence : WriteCutoverFence :=
  mkFence 1 (digest "fence") "fence:1" "migration:users" files_digest ["cohort:a"; "cohort:b"]
    "authority:new" 1 "gate:write" true true Active.
Definition checkpoint : ProjectionCheckpoint :=
  mkCheckpoint 1 (digest "checkpoint") "checkpoint:1" "migration:users" files_digest (digest "projection")
    "rebuild:1" 1 1 "gate:projection" Complete.
Definition retirement : LegacyRetirement :=
  mkRetirement 1 (digest "retirement") "retirement:1" "migration:users" files_digest "fence:1" "checkpoint:1"
    0 0 (digest "consumers") (digest "facades") "gate:legacy" RetirementRetired.
Definition abandon (fence_ref : option string) (decision : RollbackDecision) : MigrationRollback :=
  mkRollback 1 (digest "rollback") "rollback:1" "migration:users" Stage4WriteCutover RollbackStage
    files_digest "reason:1" "authority:legacy" fence_ref "gate:rollback" decision.

(** The calls of a complete migration *)
Definition read_gate : PrerequisiteGate := gate "gate:read" Stage3CohortReadCutover.
Definition calls : list call :=
  [CallCreate plan snapshot;
   CallFreeze "plan:users" inventory 1;
   CallBackfill "plan:users" batch 2;
   CallReconcile "plan:users" files_digest (digest "target") [record] [record] 3;
   CallCutover "plan:users" (cutover "cohort:a") read_gate 4;
   CallCutover "plan:users" (cutover "cohort:b") read_gate 5;
   CallFence "plan:users" fence (gate "gate:write" Stage4WriteCutover) 6;
   CallCheckpoint "plan:users" checkpoint (gate "gate:projection" Stage5ProjectionCheckpoint) 7;
   CallRetire "plan:users" retirement (gate "gate:legacy" LegacyRetirementStage) 8].
Notation after n := (run_calls (take n calls) InMemoryMigrationAuthority_new).

Lemma calls_well_formed n : Forall well_formed_call (take n calls).
Proof.
  apply Forall_take. repeat (apply Forall_cons; split); try exact I; [|apply Forall_nil_2].
  split; [by_compute|]. repeat split.
Qed.
Lemma calls_typed n : Forall typed_call (take n calls).
Proof.
  apply Forall_take. repeat (apply Forall_cons; split); try apply Forall_nil_2; by_compute.
Qed.

(** State and version of the plan after each call *)
Example run_states :
  map (λ n, (λ p, (mp_state p, mp_version p)) <$> (plans (after n) !! "plan:users")) (seq 0 10) =
  [None; Some (Planned, 1); Some (InventoryFrozen, 2); Some (BackfillObserving, 3); Some (ShadowReconciled, 4);
   Some (ReadCutover, 5); Some (ReadCutover, 6); Some (WriteFenced, 7); Some (Checkpointed, 8); Some (Retired, 9)].
Proof. by_compute. Qed.

(** The plan after [n] calls *)
Definition stored (n : nat) : MigrationPlan := default plan (plans (after n) !! "plan:users").
Lemma stored_fenced : plans (after 7) !! "plan:users" = Some (stored 7).
Proof. by_compute. Qed.
Lemma stored_retired : plans (after 9) !! "plan:users" = Some (stored 9).
Proof. by_compute. Qed.
Lemma fenced_state : mp_state (stored 7) = WriteFenced ∧ mp_version (stored 7) = 7 ∧
  mp_write_fence_ref (stored 7) = Some "fence:1".
Proof. by_compute. Qed.
Lemma fenced_version : wf_version <$> (write_fences (after 7) !! "fence:1") = Some 1.
Proof. by_compute. Qed.

Definition changed (n : nat) (ref : string) (self : InMemoryMigrationAuthority) : Prop :=
  plans self !! ref ≠ plans (after n) !! ref.
Lemma changed_state n ref self : changed n ref self → self ≠ after n.
Proof. intros Hc ->. by apply Hc. Qed.

(** ** What the model shows *)

(** [create_plan] accepts a plan that lists a cohort already. The cohort is fenced
    with the others, although its reads were never cut over. *)
Definition preset_plan : MigrationPlan :=
  mkPlan 1 (digest "plan") "migration:users" "plan:users" "snapshot:1" files_digest "authority:new"
    Stage0InventoryFreeze Planned None None ["cohort:b"] None None None.
Definition preset_calls : list call :=
  CallCreate preset_plan snapshot :: take 4 (drop 1 calls) ++
  [CallFence "plan:users" fence (gate "gate:write" Stage4WriteCutover) 5].
Definition preset : InMemoryMigrationAuthority := run_calls preset_calls InMemoryMigrationAuthority_new.
Lemma preset_typed : Forall typed_call preset_calls.
Proof. repeat (apply Forall_cons; split); try apply Forall_nil_2; by_compute. Qed.
Example preset_cohort_never_cut_over :
  Forall typed_call preset_calls ∧
  (λ p, (mp_state p, mp_cohort_refs p)) <$> (plans preset !! "plan:users") =
    Some (WriteFenced, ["cohort:a"; "cohort:b"]) ∧
  map (λ kv, rc_cohort_ref kv.2) (map_to_list (read_cutovers preset)) = ["cohort:a"].
Proof. split; [exact preset_typed|]. split; by_compute. Qed.

(** A fence at the version bound is accepted; the migration cannot be rolled back
    behind it. *)
Definition last_fence : WriteCutoverFence :=
  mkFence MAX_VERSION (digest "fence") "fence:1" "migration:users" files_digest ["cohort:a"; "cohort:b"]
    "authority:new" 1 "gate:write" true true Active.
Definition last_calls : list call :=
  take 6 calls ++ [CallFence "plan:users" last_fence (gate "gate:write" Stage4WriteCutover) 6].
Notation last := (run_calls last_calls InMemoryMigrationAuthority_new).
Lemma last_well_formed : Forall well_formed_call last_calls.
Proof. apply Forall_app. split; [apply calls_well_formed|by apply Forall_singleton]. Qed.
Lemma last_typed : Forall typed_call last_calls.
Proof. apply Forall_app. split; [apply calls_typed|apply Forall_singleton; by_compute]. Qed.
Definition last_plan : MigrationPlan := default plan (plans last !! "plan:users").
Lemma last_stored : plans last !! "plan:users" = Some last_plan.
Proof. by_compute. Qed.
Lemma last_exhausted : fence_exhausted last last_plan ∧ mp_version last_plan = 7 ∧
  mp_write_fence_ref last_plan = Some "fence:1".
Proof.
  split; [|by_compute]. split; [by_compute|]. exists "fence:1", last_fence. split_and!; by_compute.
Qed.

(** A target record set with one changed and one new record *)
Definition drifted : list CanonicalRecord :=
  [mkRecord 1 (digest "record") "user:1" (digest "changed") "source:legacy" "rev:1" None None (digest "meta");
   mkRecord 1 (digest "record") "user:2" (digest "row") "source:legacy" "rev:1" None None (digest "meta")].
Definition reconcile (ys : list CanonicalRecord) (n : nat) :=
  reconcile_shadow "plan:users" files_digest (digest "target") [record] ys 3 (after n).
Definition reconciled : ShadowReconciliation :=
  built (reconcile drifted 3).1
    (mkReconciliation 0 "" "" "" "" "" [] 0 "" Blocked false).
Example drifted_deltas :
  (sr_state reconciled, map (λ d, (sd_canonical_ref d, sd_kind d)) (sr_deltas reconciled)) =
  (NeedsReview, [("user:1", Update); ("user:2", Delete)]).
Proof. by_compute. Qed.
Lemma reconcile_runs : reconcile drifted 3 = (Ok reconciled, (reconcile drifted 3).2).
Proof. by_compute. Qed.
End MigrationExample.

Lemma authority_refines_protocol_witness :
  rtc any_step InMemoryMigrationAuthority_new (MigrationExample.after 9) ∧
  call_steps (MigrationExample.after 9) (CallRegister MigrationExample.snapshot)
    (run_call (CallRegister MigrationExample.snapshot) (MigrationExample.after 9)).
Proof.
  exact (authority_refines_protocol (take 9 MigrationExample.calls) (CallRegister MigrationExample.snapshot)
    (MigrationExample.calls_well_formed 9) I).
Defined.

Lemma plan_changes_by_transition_witness :
  let c := CallRollback "plan:users" (MigrationExample.abandon (Some "fence:1") Applied) 7 in
  ∃ q, plans (run_call c (MigrationExample.after 7)) !! "plan:users" = Some q ∧
    (q = MigrationExample.stored 7 ∨
     call_target c = Some ("plan:users", mp_version (MigrationExample.stored 7)) ∧
     succeeds (MigrationExample.stored 7) q).
Proof.
  exact (plan_changes_by_transition (take 7 MigrationExample.calls)
    (CallRollback "plan:users" (MigrationExample.abandon (Some "fence:1") Applied) 7) "plan:users"
    (MigrationExample.stored 7) (MigrationExample.calls_well_formed 7) I MigrationExample.stored_fenced).
Defined.

Lemma plan_state_has_evidence_witness : evidence (MigrationExample.after 9) (MigrationExample.stored 9).
Proof.
  exact (plan_state_has_evidence (take 9 MigrationExample.calls) (MigrationExample.calls_well_formed 9)
    "plan:users" (MigrationExample.stored 9) MigrationExample.stored_retired).
Defined.

Lemma stored_models_valid_witness : typed (MigrationExample.after 9).
Proof.
  exact (proj1 (stored_models_valid (take 9 MigrationExample.calls) (MigrationExample.calls_typed 9))).
Defined.

(** The fenced plan is rolled back; behind a fence at the version bound it is not. *)
Lemma rollback_available_witness :
  let r := MigrationExample.abandon (Some "fence:1") Requested in
  (rollback "plan:users" r 7 (MigrationExample.after 7)).1 =
    Ok (advanced (MigrationExample.stored 7) RolledBack RollbackStage NoUpdate) ∧
  (rollback "plan:users" r 7 (run_calls MigrationExample.last_calls InMemoryMigrationAuthority_new)).1 =
    Raise (MigrationCasConflictError "migration_version_exhausted").
Proof.
  split.
  - destruct MigrationExample.fenced_state as (Hst & Hv & Hw).
    pose proof (rollback_available (take 7 MigrationExample.calls) "plan:users" (MigrationExample.stored 7)
      (MigrationExample.abandon (Some "fence:1") Requested) []
      (MigrationExample.calls_well_formed 7) (MigrationExample.calls_typed 7) (Forall_nil_2 _)
      MigrationExample.stored_fenced ltac:(by rewrite Hst) ltac:(by_compute) ltac:(by_compute) ltac:(by_compute)
      ltac:(by_compute) (λ _, eq_sym Hw)) as H.
    rewrite Hv in H. destruct (rollback _ _ _ _) as [x y]. cbn. refine (proj1 (proj2 H _)).
    intros [E|(_ & ref & f & Er & Hl & E)]; [rewrite Hv in E; discriminate E|].
    rewrite Hw in Er. injection Er as <-. pose proof MigrationExample.fenced_version as Hver.
    rewrite Hl in Hver. injection Hver as Hver. rewrite Hver in E. discriminate E.
  - destruct MigrationExample.last_exhausted as (Hex & Hv & Hw). pose proof (proj1 Hex) as Hst.
    pose proof (rollback_available MigrationExample.last_calls "plan:users" MigrationExample.last_plan
      (MigrationExample.abandon (Some "fence:1") Requested) []
      MigrationExample.last_well_formed MigrationExample.last_typed (Forall_nil_2 _)
      MigrationExample.last_stored ltac:(by_compute) ltac:(by_compute) ltac:(by_compute) ltac:(by_compute)
      ltac:(by_compute) (λ _, eq_sym Hw)) as H.
    rewrite Hv in H. destruct (rollback _ _ _ _) as [x y]. exact (proj1 (proj1 H (or_intror Hex))).
Defined.

Lemma reconciliation_is_difference_witness :
  ∃ p s, plans (run_calls (take 3 MigrationExample.calls) InMemoryMigrationAuthority_new) !! "plan:users" = Some p ∧
    reconciles (run_calls (take 3 MigrationExample.calls) InMemoryMigrationAuthority_new) p s
      [MigrationExample.record] MigrationExample.drifted MigrationExample.reconciled.
Proof.
  destruct (reconciliation_is_difference (take 3 MigrationExample.calls) "plan:users"
    MigrationExample.files_digest (MigrationExample.digest "target") [MigrationExample.record]
    MigrationExample.drifted 3 MigrationExample.reconciled _ (MigrationExample.calls_well_formed 3)
    MigrationExample.reconcile_runs) as (p & s & Hp & _ & _ & _ & _ & Hr).
  exists p, s. split; [exact Hp|exact Hr].
Defined.

(** The second cutover, delivered again after the migration was completed *)
Lemma accepted_stage_call_replays_witness :
  let c := CallCutover "plan:users" (MigrationExample.cutover "cohort:b") MigrationExample.read_gate 5 in
  let self := run_calls (take 5 MigrationExample.calls) InMemoryMigrationAuthority_new in
  let self' := run_calls (drop 6 MigrationExample.calls)
    (cutover_reads "plan:users" (MigrationExample.cutover "cohort:b") MigrationExample.read_gate 5 self).2 in
  ∃ q, plans self' !! "plan:users" = Some q ∧
    ((is_fence c = true → mp_state q ≠ RolledBack) →
     cutover_reads "plan:users" (MigrationExample.cutover "cohort:b") MigrationExample.read_gate 9 self' =
       (Ok q, self')).
Proof.
  apply (accepted_stage_call_replays (take 5 MigrationExample.calls)
    (CallCutover "plan:users" (MigrationExample.cutover "cohort:b") MigrationExample.read_gate 5) "plan:users"
    (cutover_reads "plan:users" (MigrationExample.cutover "cohort:b") MigrationExample.read_gate 5)
    (drop 6 MigrationExample.calls) 9
    (cutover_reads "plan:users" (MigrationExample.cutover "cohort:b") MigrationExample.read_gate 9)
    (MigrationExample.calls_well_formed 5) (Forall_drop _ 6 _ (MigrationExample.calls_well_formed 9))
    eq_refl eq_refl).
  apply (MigrationExample.changed_state 5 "plan:users"). by_compute.
Defined.

Lemma requested_rollback_drifts_witness :
  let r := MigrationExample.abandon (Some "fence:1") Requested in
  let self' := run_calls []
    (rollback "plan:users" r 7 (run_calls (take 7 MigrationExample.calls) InMemoryMigrationAuthority_new)).2 in
  rollback "plan:users" r 8 self' = (Raise (MigrationReplayError "rollback_replay_drift"), self').
Proof.
  apply (requested_rollback_drifts (take 7 MigrationExample.calls) "plan:users"
    (MigrationExample.abandon (Some "fence:1") Requested) 7 [] 8 (MigrationExample.calls_well_formed 7)
    (Forall_nil_2 _) eq_refl).
  apply (MigrationExample.changed_state 7 "plan:users"). by_compute.
Defined.
