(* ===== verification/EconomicsTime.v ===== *)
(** Aware UTC datetimes as [arbora/control_plane/economics] uses them: the
    [datetime] and [timedelta] arithmetic of the Python standard library.

    A datetime is the number of microseconds since 1970-01-01T00:00:00Z; two
    aware datetimes are compared by instant, and the contracts normalize every
    stored one to UTC ([_ensure_utc]). Naive datetimes, which the contracts
    reject, have no representation. *)
From S2P Require Export Grammar.
From stdpp Require Import pretty.
Local Open Scope Z_scope.

Notation datetime := Z (only parsing).

Definition MICROS : Z := 1000000.
Definition HOUR : Z := 3600 * MICROS.
Definition DAY : Z := 24 * HOUR.

(** * The civil calendar *)

(** The year of the 400-year cycle, counted from March, of a day of the cycle,
    and its day of that year *)
Definition yoe (doe : Z) : Z := (doe - doe / 1460 + doe / 36524 - doe / 146096) / 365.
Definition doy (doe : Z) : Z := doe - (365 * yoe doe + yoe doe / 4 - yoe doe / 100).

(** [(year, month, day)] of the day number [n] (day 0 is 1970-01-01), in the
    proleptic Gregorian calendar: the year is counted from March, so that the
    leap day is its last. *)
Definition civil (n : Z) : Z * Z * Z :=
  let z := n + 719468 in
  let era := z / 146097 in
  let doe := z mod 146097 in
  let doy := doy doe in
  let mp := (5 * doy + 2) / 153 in
  let day := doy - (153 * mp + 2) / 5 + 1 in
  let month := if mp <? 10 then mp + 3 else mp - 9 in
  (yoe doe + era * 400 + (if month <=? 2 then 1 else 0), month, day).

Definition year (t : datetime) : Z := (civil (t / DAY)).1.1.
Definition hour (t : datetime) : Z := t mod DAY / HOUR.
(** [minute], [second] and [microsecond] together: what is past the hour *)
Definition past_hour (t : datetime) : Z := t mod HOUR.

(** [t.replace(minute=0, second=0, microsecond=0)], and with [hour=0] too *)
Definition floor_hour (t : datetime) : datetime := t - t mod HOUR.
Definition floor_day (t : datetime) : datetime := t - t mod DAY.

(** ** [isoformat] *)

(** A non-negative number in [width] digits *)
Fixpoint digits (width : nat) (n : Z) : list ascii :=
  match width with
  | O => []
  | S w => digits w (n / 10) ++ [ascii_of_N (Z.to_N (48 + n mod 10))]
  end.

Definition iso_date (n : Z) : list ascii :=
  let '(y, m, d) := civil n in
  digits 4 y ++ "-"%char :: digits 2 m ++ "-"%char :: digits 2 d.

(** The time of day; the fraction only if it is not zero *)
Definition iso_time (t : datetime) : list ascii :=
  let s := t mod DAY / MICROS in
  let micros := t mod MICROS in
  digits 2 (s / 3600) ++ ":"%char :: digits 2 (s / 60 mod 60) ++ ":"%char :: digits 2 (s mod 60) ++
  (if micros =? 0 then [] else "."%char :: digits 6 micros).

Definition iso_local (t : datetime) : list ascii := iso_date (t / DAY) ++ "T"%char :: iso_time t.

(** [t.isoformat()] *)
Definition isoformat (t : datetime) : string := String.string_of_list_ascii (iso_local t ++ chars "+00:00").
(** The JSON form of a dump, with the suffix [Z] for UTC *)
Definition json_datetime (t : datetime) : json :=
  JStr (String.string_of_list_ascii (iso_local t ++ chars "Z")).

(** [_ensure_utc]: the supported range *)
Definition in_supported_years (t : datetime) : bool := (2000 <=? year t) && (year t <=? 2300).

Module TimeExamples.
Example epoch : isoformat 0 = "1970-01-01T00:00:00+00:00".
Proof. by_compute. Qed.
Example leap_day : isoformat (1709210096 * MICROS + 789) = "2024-02-29T12:34:56.000789+00:00".
Proof. by_compute. Qed.
Example first_supported : year (946684800 * MICROS) = 2000 ∧ year (946684800 * MICROS - 1) = 1999.
Proof. by_compute. Qed.
End TimeExamples.

(** * Hours and days *)
Lemma floor_hour_le t : floor_hour t <= t < floor_hour t + HOUR.
Proof. unfold floor_hour. pose proof (Z.mod_pos_bound t HOUR ltac:(done)). lia. Qed.
Lemma floor_day_le t : floor_day t <= t < floor_day t + DAY.
Proof. unfold floor_day. pose proof (Z.mod_pos_bound t DAY ltac:(done)). lia. Qed.
Lemma floor_hour_aligned t : floor_hour t mod HOUR = 0.
Proof. unfold floor_hour. rewrite Zminus_mod_idemp_r, Z.sub_diag. done. Qed.
Lemma floor_day_aligned t : floor_day t mod DAY = 0.
Proof. unfold floor_day. rewrite Zminus_mod_idemp_r, Z.sub_diag. done. Qed.

(** * The order of [isoformat]

    Page cursors compare keys that begin with an [isoformat] as text. For
    hour-aligned instants of four-digit years that is the order of time. *)

Fixpoint compare_chars (l1 l2 : list ascii) : comparison :=
  match l1, l2 with
  | [], [] => Eq
  | [], _ :: _ => Lt
  | _ :: _, [] => Gt
  | a :: l1', b :: l2' => then_cmp (Ascii.compare a b) (compare_chars l1' l2')
  end.

Lemma string_compare_chars s1 s2 : String.compare s1 s2 = compare_chars (chars s1) (chars s2).
Proof.
  revert s2. induction s1 as [|a s1 IH]; intros [|b s2]; cbn; [done..|].
  destruct (Ascii.compare a b); cbn; [apply IH|done|done].
Qed.

Lemma then_cmp_assoc c d e : then_cmp (then_cmp c d) e = then_cmp c (then_cmp d e).
Proof. by destruct c. Qed.

Lemma compare_chars_app a b x y :
  length a = length b → compare_chars (a ++ x) (b ++ y) = then_cmp (compare_chars a b) (compare_chars x y).
Proof.
  revert b. induction a as [|c a IH]; intros [|d b]; cbn; [done..|].
  intros [= E]. by rewrite then_cmp_assoc, IH.
Qed.

Lemma compare_char_refl c : Ascii.compare c c = Eq.
Proof. apply N.compare_refl. Qed.
Lemma compare_chars_refl l : compare_chars l l = Eq.
Proof. induction l as [|c l IH]; cbn; [done|]. by rewrite compare_char_refl. Qed.

(** ** Numbers of a fixed width *)
Lemma digits_length w n : length (digits w n) = w.
Proof. revert n. induction w as [|w IH]; intros n; cbn; [done|]. rewrite length_app, IH. cbn. lia. Qed.

Lemma digit_compare n m : 0 ≤ n < 10 → 0 ≤ m < 10 →
  Ascii.compare (ascii_of_N (Z.to_N (48 + n))) (ascii_of_N (Z.to_N (48 + m))) = (n ?= m).
Proof.
  intros Hn Hm. unfold Ascii.compare. rewrite !N_ascii_embedding by lia.
  rewrite <- N2Z.inj_compare, !Z2N.id by lia. destruct (Z.compare_spec n m); destruct (Z.compare_spec (48 + n) (48 + m)); lia || done.
Qed.

Lemma digits_compare w n m : 0 ≤ n < 10 ^ Z.of_nat w → 0 ≤ m < 10 ^ Z.of_nat w →
  compare_chars (digits w n) (digits w m) = (n ?= m).
Proof.
  revert n m. induction w as [|w IH]; intros n m Hn Hm.
  - cbn in *. assert (n = m) as -> by lia. by rewrite Z.compare_refl.
  - rewrite Nat2Z.inj_succ, Z.pow_succ_r in Hn, Hm by lia. cbn [digits].
    rewrite compare_chars_app by (by rewrite !digits_length). cbn.
    rewrite digit_compare by (apply Z.mod_pos_bound; lia).
    rewrite IH by (split; [apply Z.div_pos; lia|apply Z.div_lt_upper_bound; lia]).
    pose proof (Z.div_mod n 10). pose proof (Z.div_mod m 10).
    pose proof (Z.mod_pos_bound n 10). pose proof (Z.mod_pos_bound m 10).
    destruct (Z.compare_spec (n / 10) (m / 10)); cbn;
      destruct (Z.compare_spec (n mod 10) (m mod 10)); cbn; symmetry;
      rewrite ?Z.compare_eq_iff, ?Z.compare_lt_iff, ?Z.compare_gt_iff; lia.
Qed.

(** ** The calendar is monotone *)
Definition date_cmp (a b : Z * Z * Z) : comparison :=
  then_cmp (a.1.1 ?= b.1.1) (then_cmp (a.1.2 ?= b.1.2) (a.2 ?= b.2)).

Section calendar.
Local Ltac Zify.zify_post_hook ::= Z.div_mod_to_equations.

Lemma yoe_mono a b : 0 ≤ a ≤ b → b < 146097 → yoe a ≤ yoe b.
Proof. intros ? ?. unfold yoe. apply Z.div_le_mono; lia. Qed.
Lemma yoe_range a : 0 ≤ a < 146097 → 0 ≤ yoe a < 400.
Proof. intros ?. unfold yoe. lia. Qed.
Lemma doy_range a : 0 ≤ a < 146097 → 0 ≤ doy a ≤ 365.
Proof. intros ?. unfold doy, yoe. lia. Qed.

Lemma year_day_mono n1 n2 (k1 := n1 + 719468) (k2 := n2 + 719468) : n1 < n2 →
  let Y k := yoe (k mod 146097) + k / 146097 * 400 in
  Y k1 < Y k2 ∨ Y k1 = Y k2 ∧ doy (k1 mod 146097) < doy (k2 mod 146097).
Proof.
  intros Hn. cbn zeta.
  pose proof (Z.mod_pos_bound k1 146097 ltac:(lia)) as B1. pose proof (Z.mod_pos_bound k2 146097 ltac:(lia)) as B2.
  pose proof (yoe_range _ B1). pose proof (yoe_range _ B2).
  destruct (Z.eq_dec (k1 / 146097) (k2 / 146097)) as [E|E].
  - assert (k1 mod 146097 < k2 mod 146097) as Hlt by (subst k1 k2; lia).
    pose proof (yoe_mono _ _ ltac:(split; [apply B1|apply Z.lt_le_incl, Hlt]) (proj2 B2)) as Hy.
    destruct (Z.eq_dec (yoe (k1 mod 146097)) (yoe (k2 mod 146097))) as [Ey|Ey]; [right|left; lia].
    unfold doy. rewrite Ey. lia.
  - left. subst k1 k2. lia.
Qed.

Lemma civil_mono n1 n2 : n1 < n2 → date_cmp (civil n1) (civil n2) = Lt.
Proof.
  intros Hn. pose proof (year_day_mono n1 n2 Hn) as Hmono.
  pose proof (doy_range _ (Z.mod_pos_bound (n1 + 719468) 146097 ltac:(lia))) as D1.
  pose proof (doy_range _ (Z.mod_pos_bound (n2 + 719468) 146097 ltac:(lia))) as D2.
  unfold civil.
  cbn zeta in *. unfold date_cmp. cbn [fst snd].
  revert Hmono D1 D2. generalize (doy ((n1 + 719468) mod 146097)) (doy ((n2 + 719468) mod 146097)).
  generalize (yoe ((n1 + 719468) mod 146097) + (n1 + 719468) / 146097 * 400).
  generalize (yoe ((n2 + 719468) mod 146097) + (n2 + 719468) / 146097 * 400).
  intros Y2 Y1 d1 d2 Hmono D1 D2.
  assert (0 ≤ (5 * d1 + 2) / 153 ≤ 11 ∧ 0 ≤ (5 * d2 + 2) / 153 ≤ 11) as [M1 M2] by lia.
  assert (d1 < d2 → (5 * d1 + 2) / 153 < (5 * d2 + 2) / 153 ∨ (5 * d1 + 2) / 153 = (5 * d2 + 2) / 153) as HM by lia.
  revert Hmono M1 M2 HM. generalize ((5 * d1 + 2) / 153) as m1, ((5 * d2 + 2) / 153) as m2. intros m1 m2 Hmono M1 M2 HM.
  assert (m1 = m2 → d1 < d2 → d1 - (153 * m1 + 2) / 5 + 1 < d2 - (153 * m2 + 2) / 5 + 1) as HD by (intros ->; lia).
  destruct (m1 <? 10) eqn:E1, (m2 <? 10) eqn:E2;
    rewrite ?Z.ltb_lt, ?Z.ltb_ge in E1, E2;
    repeat match goal with |- context [?a <=? 2] => destruct (Z.leb_spec a 2); [try lia|try lia] end;
    unfold then_cmp;
    repeat match goal with |- context [?a ?= ?b] => destruct (Z.compare_spec a b); try lia end; done.
Qed.

Lemma civil_range n : let '(y, m, d) := civil n in 1 ≤ m ≤ 12 ∧ 1 ≤ d ≤ 31.
Proof.
  pose proof (doy_range _ (Z.mod_pos_bound (n + 719468) 146097 ltac:(lia))) as D.
  unfold civil.
  cbn zeta. revert D. generalize (doy ((n + 719468) mod 146097)). intros d D.
  destruct ((5 * d + 2) / 153 <? 10) eqn:E; rewrite ?Z.ltb_lt, ?Z.ltb_ge in E; lia.
Qed.
End calendar.

Lemma then_cmp_opp c d : CompOpp (then_cmp c d) = then_cmp (CompOpp c) (CompOpp d).
Proof. by destruct c. Qed.
Lemma date_cmp_opp a b : date_cmp a b = CompOpp (date_cmp b a).
Proof. unfold date_cmp. rewrite !then_cmp_opp. by rewrite <- !Z.compare_antisym. Qed.

Lemma civil_compare n1 n2 : date_cmp (civil n1) (civil n2) = (n1 ?= n2).
Proof.
  destruct (Z.compare_spec n1 n2) as [->|Hlt|Hgt].
  - unfold date_cmp. by rewrite !Z.compare_refl.
  - by apply civil_mono.
  - rewrite date_cmp_opp. by rewrite civil_mono.
Qed.

(** ** The text of an aligned instant *)
Lemma iso_date_compare n1 n2 :
  0 ≤ (civil n1).1.1 < 10000 → 0 ≤ (civil n2).1.1 < 10000 →
  compare_chars (iso_date n1) (iso_date n2) = (n1 ?= n2) ∧ length (iso_date n1) = length (iso_date n2).
Proof.
  rewrite <- civil_compare. unfold iso_date. pose proof (civil_range n1) as R1. pose proof (civil_range n2) as R2.
  destruct (civil n1) as [[y1 m1] d1], (civil n2) as [[y2 m2] d2]. cbn [fst snd]. intros Y1 Y2.
  split; [|rewrite !length_app; cbn [length]; rewrite !length_app; cbn [length]; by rewrite !digits_length].
  rewrite compare_chars_app by (by rewrite !digits_length). cbn [compare_chars].
  rewrite compare_char_refl, compare_chars_app by (by rewrite !digits_length). cbn [compare_chars then_cmp].
  rewrite compare_char_refl. cbn [then_cmp]. by rewrite !digits_compare by (cbn; lia).
Qed.

Definition aligned (t : datetime) : Prop := t mod HOUR = 0.

Lemma aligned_parts t : aligned t → t mod MICROS = 0 ∧ t mod DAY / MICROS = 3600 * hour t ∧ t = t / DAY * DAY + hour t * HOUR ∧ 0 ≤ hour t < 24.
Proof. unfold aligned, hour, DAY, HOUR, MICROS. intros Ha. Z.div_mod_to_equations. lia. Qed.

Lemma aligned_iso_time t : aligned t → iso_time t = digits 2 (hour t) ++ chars ":00:00".
Proof.
  intros (Hm & Hs & _ & _)%aligned_parts. unfold iso_time. rewrite Hm, Hs. clear. generalize (hour t). intros h.
  replace (3600 * h / 3600) with h by (Z.div_mod_to_equations; lia).
  replace (3600 * h / 60 mod 60) with 0 by (Z.div_mod_to_equations; lia).
  replace (3600 * h mod 60) with 0 by (Z.div_mod_to_equations; lia).
  f_equal; vm_compute; reflexivity.
Qed.

Lemma iso_local_compare t1 t2 : aligned t1 → aligned t2 →
  0 ≤ year t1 < 10000 → 0 ≤ year t2 < 10000 →
  compare_chars (iso_local t1) (iso_local t2) = (t1 ?= t2) ∧ length (iso_local t1) = length (iso_local t2).
Proof.
  intros A1 A2 Y1 Y2. destruct (iso_date_compare _ _ Y1 Y2) as [Ec El].
  unfold iso_local. rewrite !aligned_iso_time by assumption.
  split; [|rewrite !length_app, El; cbn [length]; by rewrite !length_app, !digits_length].
  rewrite compare_chars_app, Ec by done. cbn [compare_chars]. rewrite compare_char_refl. cbn [then_cmp].
  apply aligned_parts in A1 as (_ & _ & E1 & H1), A2 as (_ & _ & E2 & H2).
  rewrite compare_chars_app, digits_compare, compare_chars_refl by (rewrite ?digits_length; cbn; lia).
  rewrite E1, E2 at 3. clear E1 E2. unfold HOUR in *. revert H1 H2.
  generalize (t1 / DAY) (t2 / DAY) (hour t1) (hour t2). unfold DAY, HOUR, MICROS. intros d1 d2 h1 h2 H1 H2.
  destruct (Z.compare_spec d1 d2); cbn [then_cmp];
    destruct (Z.compare_spec h1 h2); cbn [then_cmp]; symmetry;
    rewrite ?Z.compare_eq_iff, ?Z.compare_lt_iff, ?Z.compare_gt_iff; lia.
Qed.

Lemma isoformat_compare t1 t2 x y : aligned t1 → aligned t2 →
  0 ≤ year t1 < 10000 → 0 ≤ year t2 < 10000 →
  String.compare (isoformat t1 +:+ x) (isoformat t2 +:+ y) = then_cmp (t1 ?= t2) (String.compare x y).
Proof.
  intros A1 A2 Y1 Y2. destruct (iso_local_compare _ _ A1 A2 Y1 Y2) as [Ec El].
  rewrite !string_compare_chars, !chars_app. unfold isoformat. unfold chars at 1 3.
  rewrite !String.list_ascii_of_string_of_list_ascii, <- !app_assoc.
  rewrite compare_chars_app, Ec, compare_chars_app, compare_chars_refl by done. done.
Qed.
