(* ===== verification/EconomicsModels.v ===== *)
(** The append-only usage, pricing and SLO contracts of
    [arbora/control_plane/economics/models.py].

    One record per model. A model whose identity is derived from its content
    ([fact_id], [card_id], ...) is built by [X_new], which takes the identity
    the caller supplied, if any, and the other fields: it checks them, derives
    the identity, refuses a supplied one that differs, and returns the stored
    model. The other models have [validate_X]. A nested model is an
    instance that passed its own validation and is not validated again.
    Datetimes are UTC instants; the schema version is the literal ["1"]. *)
From S2P Require Export EconomicsTime.
From S2P Require Import Sha256.
Local Open Scope Z_scope.

Definition MAX_REF_LENGTH : nat := 256.
Definition MAX_DIMENSIONS : nat := 16.
Definition MAX_FACT_QUANTITY : Z := 10 ^ 15.
Definition MAX_PAGE_SIZE : Z := 500.
Definition MAX_FACT_IDS_PER_AGGREGATE : Z := 100000.
Definition MAX_LATE_EVENT_SECONDS : Z := 7 * 24 * 60 * 60.
Definition MAX_RETENTION_SECONDS : Z := 366 * 24 * 60 * 60.
Definition MAX_RECONCILIATION_ITEMS : Z := 10000.
Definition MAX_METRIC_KINDS : nat := 8.
Definition MAX_MICROS : Z := 1000000.

Definition EconomicsContractError (code : string) : pyexn :=
  PyExn ["EconomicsContractError"; "ValueError"] code "".
Definition EconomicsConflict (code : string) : pyexn :=
  PyExn ["EconomicsConflict"; "EconomicsContractError"; "ValueError"] code "".
Definition TenantScopeError (code : string) : pyexn :=
  PyExn ["TenantScopeError"; "EconomicsContractError"; "ValueError"] code "".

(** * Identity digests *)
Definition content_digest (value : json) : string := "sha256:" +:+ hexdigest (json_dumps value).
(** [hashlib.sha256(_canonical(identity)).hexdigest()[:32]] *)
Definition identity_hash (identity : json) : string := String.substring 0 32 (hexdigest (json_dumps identity)).
#[global] Arguments content_digest : simpl never.
#[global] Arguments identity_hash : simpl never.

(** [content_digest({"kind": kind, "identity": identity})] *)
Definition kind_digest (kind : string) (identity : json) : string :=
  content_digest (JObj [("kind", JStr kind); ("identity", identity)]).

(** [if self.id and self.id != expected: raise] for an id that may be omitted *)
Definition check_identity (supplied : option string) (expected code : string) : result () :=
  raise_if (match supplied with Some s => bool_decide (s ≠ expected) | None => false end) (EconomicsConflict code).

(** * References *)
Definition REF_RE' : regex := RCat (RClass alnum) (RUpTo (RClass (λ c, alnum c || one_of "._:/@+-" c)) 255).
Definition DIMENSION_KEY_RE : regex :=
  RCat (RClass lower) (RUpTo (RClass (λ c, lower c || digit c || one_of "_.-" c)) 63).
Definition CURRENCY_RE : regex := RTimes (RClass upper) 3.

Definition SENSITIVE_RE : regex :=
  RAlts [RWord "authorization"; RWord "bearer"; RWord "cookie"; RWord "password"; RWord "passwd";
    RCat (RWord "private") (RCat RSep (RWord "key")); RWord "secret";
    RCat (RWord "token") (RClass (one_of "=:")); RCat (RWord "api") (RCat RSep (RWord "key"));
    RCat (RWord "raw") (RCat RSep (RAlts [RWord "body"; RWord "span"; RWord "log"]))].
Definition sensitive (s : string) : bool := re_search SENSITIVE_RE s.

(** [_ensure_ref] *)
Definition ensure_ref (value : string) : bool :=
  bool_decide (String.length value ≤ MAX_REF_LENGTH)%nat && re_match REF_RE' value && negb (sensitive value).

(** A reference field of bounded length *)
Definition RefField (max : nat) (s : string) : bool := str_len 1 max s && ensure_ref s.
Definition Ref : string → bool := RefField MAX_REF_LENGTH.
Definition nonneg (hi n : Z) : bool := in_bounds 0 hi n.

(** * Enumerations *)
Inductive MetricKind :=
  | Tokens | Requests | LatencyMs | ComputeMs | StorageBytes | Errors | QueueMs | IngestRows.
Inductive WindowGranularity := Hourly | Daily.
Inductive SliKind := Availability | ErrorRate | SliLatencyMs | QueueAgeMs | FreshnessMs | Throughput.

Definition metric_str (m : MetricKind) : string :=
  match m with
  | Tokens => "tokens" | Requests => "requests" | LatencyMs => "latency_ms" | ComputeMs => "compute_ms"
  | StorageBytes => "storage_bytes" | Errors => "errors" | QueueMs => "queue_ms" | IngestRows => "ingest_rows"
  end.
Definition granularity_str (g : WindowGranularity) : string :=
  match g with Hourly => "hour" | Daily => "day" end.
Definition sli_str (s : SliKind) : string :=
  match s with
  | Availability => "availability" | ErrorRate => "error_rate" | SliLatencyMs => "latency_ms"
  | QueueAgeMs => "queue_age_ms" | FreshnessMs => "freshness_ms" | Throughput => "throughput"
  end.
#[export] Instance MetricKind_eq_dec : EqDecision MetricKind.
Proof. solve_decision. Defined.
#[export] Instance WindowGranularity_eq_dec : EqDecision WindowGranularity.
Proof. solve_decision. Defined.
#[export] Instance SliKind_eq_dec : EqDecision SliKind.
Proof. solve_decision. Defined.

Definition metric_kinds : list MetricKind :=
  [Tokens; Requests; LatencyMs; ComputeMs; StorageBytes; Errors; QueueMs; IngestRows].
Definition parse_metric (s : string) : option MetricKind :=
  list_find (λ m, metric_str m = s) metric_kinds ≫= λ x, Some x.2.
Lemma parse_metric_str m : parse_metric (metric_str m) = Some m.
Proof. by destruct m. Qed.
#[export] Instance metric_str_inj : Inj (=) (=) metric_str.
Proof. intros m1 m2 E. pose proof (parse_metric_str m1) as H. rewrite E, parse_metric_str in H. by injection H. Qed.
#[export] Instance MetricKind_countable : Countable MetricKind :=
  inj_countable metric_str parse_metric parse_metric_str.

(** * Usage facts *)
Record DimensionRef := mkDimension { di_key : string; di_value : string }.
Definition validate_DimensionRef (d : DimensionRef) : result () :=
  check_fields [("key", str_len 1 64 (di_key d) && re_match DIMENSION_KEY_RE (di_key d) && negb (sensitive (di_key d)));
    ("value", str_len 1 256 (di_value d) && bool_decide (py_strip (di_value d) ≠ "") &&
              negb (sensitive (di_value d)))].
Definition DimensionRef_json (d : DimensionRef) : json :=
  JObj [("key", JStr (di_key d)); ("value", JStr (di_value d))].

Record AllocationRef := mkAllocation {
  al_tenant_id : string; al_project_ref : string; al_cost_center_ref : string; al_workload_ref : option string }.
Definition validate_AllocationRef (a : AllocationRef) : result () :=
  check_fields [("tenant_id", Ref (al_tenant_id a)); ("project_ref", Ref (al_project_ref a));
    ("cost_center_ref", Ref (al_cost_center_ref a)); ("workload_ref", OptField Ref (al_workload_ref a))].
Definition AllocationRef_json (a : AllocationRef) : json :=
  JObj ([("tenant_id", JStr (al_tenant_id a)); ("project_ref", JStr (al_project_ref a));
         ("cost_center_ref", JStr (al_cost_center_ref a))] ++ opt_field "workload_ref" JStr (al_workload_ref a)).
#[export] Instance AllocationRef_eq_dec : EqDecision AllocationRef.
Proof. solve_decision. Defined.
#[export] Instance DimensionRef_eq_dec : EqDecision DimensionRef.
Proof. solve_decision. Defined.

Record UsageFact := mkUsageFact {
  uf_fact_id : string; uf_fact_digest : string; uf_tenant_id : string; uf_allocation : AllocationRef;
  uf_source_ref : string; uf_source_digest : string; uf_occurred_at : datetime; uf_metric : MetricKind;
  uf_quantity : Z; uf_input_quantity : option Z; uf_output_quantity : option Z; uf_service_ref : string;
  uf_meter_ref : string; uf_sample_sequence : option Z; uf_dimensions : list DimensionRef }.
#[export] Instance UsageFact_eq_dec : EqDecision UsageFact.
Proof. solve_decision. Defined.

Definition fact_check_coherence (f : UsageFact) : result () :=
  _ ← raise_if (bool_decide (al_tenant_id (uf_allocation f) ≠ uf_tenant_id f))
        (TenantScopeError "allocation tenant_id must match usage tenant_id");
  _ ← raise_if (has_duplicates (map di_key (uf_dimensions f)))
        (ValueError "usage dimensions must have unique keys");
  if bool_decide (uf_metric f = Tokens) then
    match uf_input_quantity f, uf_output_quantity f with
    | None, None => Ok ()
    | Some i, Some o =>
        raise_if (negb (uf_quantity f =? i + o)) (ValueError "token quantity must equal input plus output")
    | _, _ => Raise (ValueError "token input/output quantities must be supplied together")
    end
  else raise_if (bool_decide (uf_input_quantity f ≠ None) || bool_decide (uf_output_quantity f ≠ None))
         (ValueError "input/output quantities are valid only for token facts").

Definition fact_identity_payload (f : UsageFact) : json :=
  JObj [("schema_version", JStr "1"); ("tenant_id", JStr (uf_tenant_id f));
        ("allocation", AllocationRef_json (uf_allocation f)); ("source_ref", JStr (uf_source_ref f));
        ("source_digest", JStr (uf_source_digest f)); ("occurred_at", JStr (isoformat (uf_occurred_at f)));
        ("metric", JStr (metric_str (uf_metric f))); ("quantity", JInt (uf_quantity f));
        ("input_quantity", null_or JInt (uf_input_quantity f));
        ("output_quantity", null_or JInt (uf_output_quantity f)); ("service_ref", JStr (uf_service_ref f));
        ("meter_ref", JStr (uf_meter_ref f)); ("sample_sequence", null_or JInt (uf_sample_sequence f));
        ("dimensions", JArr (map DimensionRef_json (uf_dimensions f)))].

(** [object.__setattr__] on the two identity fields *)
Definition fact_with_identity (id digest : string) (f : UsageFact) : UsageFact :=
  let '(mkUsageFact _ _ t a sr sd oc m q iq oq sv mr ss ds) := f in
  mkUsageFact id digest t a sr sd oc m q iq oq sv mr ss ds.

Definition fact_id_of (f : UsageFact) : string := "usage:" +:+ identity_hash (fact_identity_payload f).
Definition fact_digest_of (f : UsageFact) : string := kind_digest "usage_fact" (fact_identity_payload f).

Definition validate_fact_fields (f : UsageFact) : result () :=
  check_fields [("tenant_id", Ref (uf_tenant_id f)); ("source_ref", Ref (uf_source_ref f)); ("source_digest", Digest (uf_source_digest f));
        ("occurred_at", in_supported_years (uf_occurred_at f)); ("quantity", nonneg MAX_FACT_QUANTITY (uf_quantity f));
        ("input_quantity", OptField (nonneg MAX_FACT_QUANTITY) (uf_input_quantity f));
        ("output_quantity", OptField (nonneg MAX_FACT_QUANTITY) (uf_output_quantity f));
        ("service_ref", Ref (uf_service_ref f)); ("meter_ref", Ref (uf_meter_ref f));
        ("sample_sequence", OptField (nonneg (2 ^ 63 - 1)) (uf_sample_sequence f));
        ("dimensions", tuple_len 0 MAX_DIMENSIONS (uf_dimensions f))].

Definition UsageFact_new (fact_id fact_digest : option string) (f : UsageFact) : result UsageFact :=
  _ ← check_fields [("fact_id", OptField (str_len 1 80) fact_id); ("fact_digest", OptField Digest fact_digest)];
  _ ← validate_fact_fields f;
  in_validator (
    _ ← fact_check_coherence f;
    _ ← check_identity fact_id (fact_id_of f) "fact_id does not match the immutable fact identity";
    _ ← check_identity fact_digest (fact_digest_of f) "fact_digest does not match the immutable fact identity";
    Ok (fact_with_identity (fact_id_of f) (fact_digest_of f) f)).

(** * Prices *)
Record PriceRate := mkRate { pr_metric : MetricKind; pr_micros_per_unit : Z }.
Definition validate_PriceRate (r : PriceRate) : result () :=
  check_fields [("micros_per_unit", nonneg (10 ^ 12) (pr_micros_per_unit r))].
Definition PriceRate_json (r : PriceRate) : json :=
  JObj [("metric", JStr (metric_str (pr_metric r))); ("micros_per_unit", JInt (pr_micros_per_unit r))].

Record PriceCard := mkPriceCard {
  pc_card_id : string; pc_card_digest : string; pc_provider_ref : string; pc_service_ref : string;
  pc_currency : string; pc_version : Z; pc_effective_from : datetime; pc_effective_to : option datetime;
  pc_rates : list PriceRate; pc_source_ref : string; pc_source_digest : string }.

#[export] Instance PriceRate_eq_dec : EqDecision PriceRate.
Proof. solve_decision. Defined.
#[export] Instance PriceCard_eq_dec : EqDecision PriceCard.
Proof. solve_decision. Defined.

Definition card_identity_payload (c : PriceCard) : json :=
  JObj [("schema_version", JStr "1"); ("provider_ref", JStr (pc_provider_ref c));
        ("service_ref", JStr (pc_service_ref c)); ("currency", JStr (pc_currency c)); ("version", JInt (pc_version c));
        ("effective_from", JStr (isoformat (pc_effective_from c)));
        ("effective_to", null_or (λ t, JStr (isoformat t)) (pc_effective_to c));
        ("rates", JArr (map PriceRate_json (sort_by (λ r, metric_str (pr_metric r)) (pc_rates c))));
        ("source_ref", JStr (pc_source_ref c)); ("source_digest", JStr (pc_source_digest c))].
Definition card_id_of (c : PriceCard) : string := "price:" +:+ identity_hash (card_identity_payload c).
Definition card_digest_of (c : PriceCard) : string := kind_digest "price_card" (card_identity_payload c).
Definition card_with_identity (id digest : string) (c : PriceCard) : PriceCard :=
  let '(mkPriceCard _ _ p s cu v ef et r sr sd) := c in mkPriceCard id digest p s cu v ef et r sr sd.

Definition PriceCard_new (card_id card_digest : option string) (c : PriceCard) : result PriceCard :=
  _ ← check_fields [("card_id", OptField (str_len 1 100) card_id); ("card_digest", OptField Digest card_digest);
        ("provider_ref", Ref (pc_provider_ref c)); ("service_ref", Ref (pc_service_ref c));
        ("currency", re_match CURRENCY_RE (pc_currency c)); ("version", in_bounds 1 (2 ^ 31 - 1) (pc_version c));
        ("effective_from", in_supported_years (pc_effective_from c));
        ("effective_to", OptField in_supported_years (pc_effective_to c));
        ("rates", tuple_len 1 MAX_METRIC_KINDS (pc_rates c)); ("source_ref", Ref (pc_source_ref c));
        ("source_digest", Digest (pc_source_digest c))];
  in_validator (
    _ ← raise_if (match pc_effective_to c with Some t => t <=? pc_effective_from c | None => false end)
          (ValueError "price card effective_to must follow effective_from");
    _ ← raise_if (has_duplicates (map pr_metric (pc_rates c)))
          (ValueError "price card rates must contain each metric at most once");
    _ ← check_identity card_id (card_id_of c) "card_id does not match immutable pricing identity";
    _ ← check_identity card_digest (card_digest_of c) "card_digest does not match immutable pricing identity";
    Ok (card_with_identity (card_id_of c) (card_digest_of c) c)).

(** * Windows and aggregates *)
Record UsageWindow := mkWindow {
  uw_granularity : WindowGranularity; uw_window_start : datetime; uw_window_end : option datetime;
  uw_window_id : string }.
#[export] Instance UsageWindow_eq_dec : EqDecision UsageWindow.
Proof. solve_decision. Defined.

Definition window_duration (g : WindowGranularity) : Z := match g with Hourly => HOUR | Daily => DAY end.

Definition aligned_window_end (start : datetime) (g : WindowGranularity) (window_end : option datetime) :
    result datetime :=
  _ ← raise_if (negb (past_hour start =? 0)) (ValueError "window_start must be aligned to an hour");
  _ ← raise_if (bool_decide (g = Daily) && negb (hour start =? 0))
        (ValueError "daily window_start must be aligned to UTC midnight");
  let expected_end := start + window_duration g in
  _ ← raise_if (match window_end with Some e => negb (e =? expected_end) | None => false end)
        (ValueError "window_end does not match granularity");
  Ok expected_end.

Definition window_id_of (g : WindowGranularity) (start : datetime) : string :=
  "window:" +:+ granularity_str g +:+ ":" +:+ isoformat start.

Definition UsageWindow_new (g : WindowGranularity) (window_start : datetime) (window_end : option datetime)
    (window_id : option string) : result UsageWindow :=
  _ ← check_fields [("window_start", in_supported_years window_start);
        ("window_end", OptField in_supported_years window_end); ("window_id", OptField (str_len 1 80) window_id)];
  in_validator (
    expected_end ← aligned_window_end window_start g window_end;
    _ ← check_identity window_id (window_id_of g window_start) "window_id does not match aligned window";
    Ok (mkWindow g window_start (Some expected_end) (window_id_of g window_start))).

Definition UsageWindow_json (w : UsageWindow) : json :=
  JObj ([("schema_version", JStr "1"); ("granularity", JStr (granularity_str (uw_granularity w)));
         ("window_start", json_datetime (uw_window_start w))]
        ++ opt_field "window_end" json_datetime (uw_window_end w)
        ++ [("window_id", JStr (uw_window_id w))]).

Record MetricTotal := mkTotal { mt_metric : MetricKind; mt_quantity : Z; mt_cost_micros : Z }.
#[export] Instance MetricTotal_eq_dec : EqDecision MetricTotal.
Proof. solve_decision. Defined.
Definition validate_MetricTotal (t : MetricTotal) : result () :=
  check_fields [("quantity", nonneg (MAX_FACT_QUANTITY * MAX_FACT_IDS_PER_AGGREGATE) (mt_quantity t));
    ("cost_micros", nonneg (10 ^ 18) (mt_cost_micros t))].
Definition MetricTotal_json (t : MetricTotal) : json :=
  JObj [("metric", JStr (metric_str (mt_metric t))); ("quantity", JInt (mt_quantity t));
        ("cost_micros", JInt (mt_cost_micros t))].

Record WindowAggregate := mkAggregate {
  wa_aggregate_id : string; wa_aggregate_digest : string; wa_tenant_id : string; wa_allocation : AllocationRef;
  wa_window : UsageWindow; wa_fact_ids : list string; wa_price_card_id : string; wa_price_card_digest : string;
  wa_totals : list MetricTotal }.
#[export] Instance WindowAggregate_eq_dec : EqDecision WindowAggregate.
Proof. solve_decision. Defined.

Definition sort_totals : list MetricTotal → list MetricTotal := sort_by (λ t, metric_str (mt_metric t)).

Definition aggregate_identity (a : WindowAggregate) : json :=
  JObj [("schema_version", JStr "1"); ("tenant_id", JStr (wa_tenant_id a));
        ("allocation", AllocationRef_json (wa_allocation a)); ("window", UsageWindow_json (wa_window a));
        ("fact_ids", JArr (map JStr (py_sorted (wa_fact_ids a)))); ("price_card_id", JStr (wa_price_card_id a));
        ("price_card_digest", JStr (wa_price_card_digest a));
        ("totals", JArr (map MetricTotal_json (sort_totals (wa_totals a))))].
Definition aggregate_id_of (a : WindowAggregate) : string := "aggregate:" +:+ identity_hash (aggregate_identity a).
Definition aggregate_digest_of (a : WindowAggregate) : string := kind_digest "window_aggregate" (aggregate_identity a).
(** [object.__setattr__] on the identity and the two sorted tuples *)
Definition aggregate_with_identity (a : WindowAggregate) : WindowAggregate :=
  let '(mkAggregate _ _ t al w f pi pd tot) := a in
  mkAggregate (aggregate_id_of a) (aggregate_digest_of a) t al w (py_sorted f) pi pd (sort_totals tot).

Definition WindowAggregate_new (aggregate_id aggregate_digest : option string) (a : WindowAggregate) :
    result WindowAggregate :=
  _ ← check_fields [("aggregate_id", OptField (str_len 1 100) aggregate_id);
        ("aggregate_digest", OptField Digest aggregate_digest); ("tenant_id", Ref (wa_tenant_id a));
        ("fact_ids", in_bounds 1 MAX_FACT_IDS_PER_AGGREGATE (Z.of_nat (length (wa_fact_ids a))));
        ("price_card_id", RefField 100 (wa_price_card_id a));
        ("price_card_digest", Digest (wa_price_card_digest a));
        ("totals", tuple_len 1 MAX_METRIC_KINDS (wa_totals a))];
  in_validator (
    _ ← raise_if (bool_decide (al_tenant_id (wa_allocation a) ≠ wa_tenant_id a))
          (TenantScopeError "aggregate allocation crosses tenant scope");
    _ ← raise_if (has_duplicates (wa_fact_ids a)) (ValueError "aggregate fact_ids must be unique");
    _ ← raise_if (has_duplicates (map mt_metric (wa_totals a))) (ValueError "aggregate metrics must be unique");
    _ ← check_identity aggregate_id (aggregate_id_of a) "aggregate_id does not match aggregate identity";
    _ ← check_identity aggregate_digest (aggregate_digest_of a)
          "aggregate_digest does not match aggregate identity";
    Ok (aggregate_with_identity a)).

(** * Watermarks, corrections and retention *)
Inductive LateEventMode := RejectLate | CorrectLate.
#[export] Instance LateEventMode_eq_dec : EqDecision LateEventMode.
Proof. solve_decision. Defined.
Record WatermarkPolicy := mkWatermarkPolicy {
  wp_policy_version : string; wp_allowed_lateness_seconds : Z; wp_max_correction_age_seconds : Z;
  wp_late_event_mode : LateEventMode; wp_close_delay_seconds : Z }.
Definition validate_WatermarkPolicy (p : WatermarkPolicy) : result () :=
  _ ← check_fields [("policy_version", RefField 64 (wp_policy_version p));
        ("allowed_lateness_seconds", nonneg MAX_LATE_EVENT_SECONDS (wp_allowed_lateness_seconds p));
        ("max_correction_age_seconds", nonneg MAX_LATE_EVENT_SECONDS (wp_max_correction_age_seconds p));
        ("close_delay_seconds", nonneg MAX_LATE_EVENT_SECONDS (wp_close_delay_seconds p))];
  in_validator (raise_if (wp_max_correction_age_seconds p <? wp_allowed_lateness_seconds p)
    (ValueError "correction age cannot be shorter than allowed lateness")).

Record Watermark := mkWatermark {
  wm_tenant_id : string; wm_source_ref : string; wm_watermark_at : datetime; wm_observed_at : datetime;
  wm_policy_version : string }.
#[export] Instance Watermark_eq_dec : EqDecision Watermark.
Proof. solve_decision. Defined.
Definition validate_Watermark (w : Watermark) : result () :=
  _ ← check_fields [("tenant_id", Ref (wm_tenant_id w)); ("source_ref", Ref (wm_source_ref w));
        ("watermark_at", in_supported_years (wm_watermark_at w));
        ("observed_at", in_supported_years (wm_observed_at w));
        ("policy_version", RefField 64 (wm_policy_version w))];
  in_validator (raise_if (wm_observed_at w <? wm_watermark_at w)
    (ValueError "observed_at cannot precede watermark_at")).
Definition Watermark_json (w : Watermark) : json :=
  JObj [("tenant_id", JStr (wm_tenant_id w)); ("source_ref", JStr (wm_source_ref w));
        ("watermark_at", json_datetime (wm_watermark_at w)); ("observed_at", json_datetime (wm_observed_at w));
        ("policy_version", JStr (wm_policy_version w))].

Inductive CorrectionReason := LateEvent | SourceCorrection | PrivacyRetraction | Reconciliation.
Definition correction_reason_str (r : CorrectionReason) : string :=
  match r with
  | LateEvent => "late_event" | SourceCorrection => "source_correction"
  | PrivacyRetraction => "privacy_retraction" | Reconciliation => "reconciliation"
  end.
Record UsageCorrection := mkCorrection {
  uc_correction_id : string; uc_tenant_id : string; uc_original_fact_id : string;
  uc_original_fact_digest : string; uc_replacement_fact_id : option string;
  uc_replacement_fact_digest : option string; uc_reason : CorrectionReason; uc_created_at : datetime }.
Definition correction_identity (c : UsageCorrection) : json :=
  JObj [("schema_version", JStr "1"); ("tenant_id", JStr (uc_tenant_id c));
        ("original_fact_id", JStr (uc_original_fact_id c)); ("original_fact_digest", JStr (uc_original_fact_digest c));
        ("replacement_fact_id", null_or JStr (uc_replacement_fact_id c));
        ("replacement_fact_digest", null_or JStr (uc_replacement_fact_digest c));
        ("reason", JStr (correction_reason_str (uc_reason c)))].
Definition correction_id_of (c : UsageCorrection) : string := "correction:" +:+ identity_hash (correction_identity c).
Definition correction_with_identity (id : string) (c : UsageCorrection) : UsageCorrection :=
  let '(mkCorrection _ t o od r rd re cr) := c in mkCorrection id t o od r rd re cr.
Definition UsageCorrection_new (correction_id : option string) (c : UsageCorrection) : result UsageCorrection :=
  _ ← check_fields [("correction_id", OptField (str_len 1 100) correction_id); ("tenant_id", Ref (uc_tenant_id c));
        ("original_fact_id", RefField 80 (uc_original_fact_id c));
        ("original_fact_digest", Digest (uc_original_fact_digest c));
        ("replacement_fact_id", OptField (RefField 80) (uc_replacement_fact_id c));
        ("replacement_fact_digest", OptField Digest (uc_replacement_fact_digest c));
        ("created_at", in_supported_years (uc_created_at c))];
  in_validator (
    _ ← raise_if (xorb (bool_decide (uc_replacement_fact_id c = None))
                       (bool_decide (uc_replacement_fact_digest c = None)))
          (ValueError "replacement fact id and digest must be supplied together");
    _ ← raise_if (bool_decide (uc_replacement_fact_id c = Some (uc_original_fact_id c)))
          (ValueError "a correction cannot replace a fact with itself");
    _ ← check_identity correction_id (correction_id_of c)
          "correction_id does not match immutable correction identity";
    Ok (correction_with_identity (correction_id_of c) c)).

Record RetentionPolicy := mkRetention {
  rp_policy_version : string; rp_usage_retention_seconds : Z; rp_aggregate_retention_seconds : Z;
  rp_tombstone_after_seconds : Z; rp_legal_hold : bool }.
Definition validate_RetentionPolicy (p : RetentionPolicy) : result () :=
  check_fields [("policy_version", RefField 64 (rp_policy_version p));
    ("usage_retention_seconds", in_bounds 1 MAX_RETENTION_SECONDS (rp_usage_retention_seconds p));
    ("aggregate_retention_seconds", in_bounds 1 MAX_RETENTION_SECONDS (rp_aggregate_retention_seconds p));
    ("tombstone_after_seconds", in_bounds 1 MAX_RETENTION_SECONDS (rp_tombstone_after_seconds p))].

Inductive TombstoneTarget := TargetFact | TargetAggregate | TargetRollup.
Inductive TombstoneReason := ForRetention | ForPrivacy | ForLegalRequest.
Definition target_str (t : TombstoneTarget) : string :=
  match t with TargetFact => "usage_fact" | TargetAggregate => "window_aggregate" | TargetRollup => "slo_rollup" end.
Definition tombstone_reason_str (r : TombstoneReason) : string :=
  match r with ForRetention => "retention" | ForPrivacy => "privacy_retraction" | ForLegalRequest => "legal_request" end.
Record UsageTombstone := mkTombstone {
  ut_tombstone_id : string; ut_tenant_id : string; ut_target_kind : TombstoneTarget; ut_target_id : string;
  ut_target_digest : string; ut_reason : TombstoneReason; ut_effective_at : datetime; ut_policy_version : string }.
Definition tombstone_identity (t : UsageTombstone) : json :=
  JObj [("schema_version", JStr "1"); ("tenant_id", JStr (ut_tenant_id t));
        ("target_kind", JStr (target_str (ut_target_kind t))); ("target_id", JStr (ut_target_id t));
        ("target_digest", JStr (ut_target_digest t)); ("reason", JStr (tombstone_reason_str (ut_reason t)));
        ("effective_at", JStr (isoformat (ut_effective_at t))); ("policy_version", JStr (ut_policy_version t))].
Definition tombstone_id_of (t : UsageTombstone) : string := "tombstone:" +:+ identity_hash (tombstone_identity t).
Definition tombstone_with_identity (id : string) (t : UsageTombstone) : UsageTombstone :=
  let '(mkTombstone _ te k ti td r e p) := t in mkTombstone id te k ti td r e p.
Definition UsageTombstone_new (tombstone_id : option string) (t : UsageTombstone) : result UsageTombstone :=
  _ ← check_fields [("tombstone_id", OptField (str_len 1 100) tombstone_id); ("tenant_id", Ref (ut_tenant_id t));
        ("target_id", RefField 100 (ut_target_id t)); ("target_digest", Digest (ut_target_digest t));
        ("effective_at", in_supported_years (ut_effective_at t)); ("policy_version", RefField 64 (ut_policy_version t))];
  in_validator (
    _ ← check_identity tombstone_id (tombstone_id_of t) "tombstone_id does not match immutable identity";
    Ok (tombstone_with_identity (tombstone_id_of t) t)).

(** * Objectives and rollups *)
Inductive Comparison := Gte | Lte.
Definition comparison_str (c : Comparison) : string := match c with Gte => "gte" | Lte => "lte" end.
#[export] Instance Comparison_eq_dec : EqDecision Comparison.
Proof. solve_decision. Defined.
Record SloObjective := mkObjective {
  so_objective_id : string; so_tenant_id : string; so_service_ref : string; so_sli : SliKind;
  so_window_granularity : WindowGranularity; so_version : Z; so_target_micros : Z; so_comparison : Comparison;
  so_latency_threshold_ms : option Z; so_percentile_micros : option Z }.

#[export] Instance SloObjective_eq_dec : EqDecision SloObjective.
Proof. solve_decision. Defined.

Definition check_target_shape (o : SloObjective) : result () :=
  _ ← raise_if (bool_decide (so_sli o = SliLatencyMs) && bool_decide (so_latency_threshold_ms o = None))
        (ValueError "latency SLO requires latency_threshold_ms");
  _ ← raise_if (bool_decide (so_sli o ≠ SliLatencyMs) && bool_decide (so_latency_threshold_ms o ≠ None))
        (ValueError "latency_threshold_ms is valid only for latency SLOs");
  _ ← raise_if (bool_decide (so_percentile_micros o ≠ None) && bool_decide (so_sli o ≠ SliLatencyMs))
        (ValueError "percentile is valid only for latency SLOs");
  let expected_comparison := if bool_decide (so_sli o ∈ [Availability; Throughput]) then Gte else Lte in
  raise_if (bool_decide (so_comparison o ≠ expected_comparison))
    (ValueError (sli_str (so_sli o) +:+ " SLOs must use " +:+ comparison_str expected_comparison +:+ " comparison")).

Definition objective_identity (o : SloObjective) : json :=
  JObj [("schema_version", JStr "1"); ("tenant_id", JStr (so_tenant_id o)); ("service_ref", JStr (so_service_ref o));
        ("sli", JStr (sli_str (so_sli o))); ("window_granularity", JStr (granularity_str (so_window_granularity o)));
        ("version", JInt (so_version o)); ("target_micros", JInt (so_target_micros o));
        ("comparison", JStr (comparison_str (so_comparison o)));
        ("latency_threshold_ms", null_or JInt (so_latency_threshold_ms o));
        ("percentile_micros", null_or JInt (so_percentile_micros o))].
Definition objective_id_of (o : SloObjective) : string := "slo:" +:+ identity_hash (objective_identity o).
Definition objective_with_identity (id : string) (o : SloObjective) : SloObjective :=
  let '(mkObjective _ t s k g v tm c l p) := o in mkObjective id t s k g v tm c l p.
Definition SloObjective_new (objective_id : option string) (o : SloObjective) : result SloObjective :=
  _ ← check_fields [("objective_id", OptField (str_len 1 100) objective_id); ("tenant_id", Ref (so_tenant_id o));
        ("service_ref", Ref (so_service_ref o)); ("version", in_bounds 1 (2 ^ 31 - 1) (so_version o));
        ("target_micros", nonneg MAX_MICROS (so_target_micros o));
        ("latency_threshold_ms", OptField (in_bounds 1 86400000) (so_latency_threshold_ms o));
        ("percentile_micros", OptField (nonneg MAX_MICROS) (so_percentile_micros o))];
  in_validator (
    _ ← check_target_shape o;
    _ ← check_identity objective_id (objective_id_of o) "objective_id does not match immutable SLO identity";
    Ok (objective_with_identity (objective_id_of o) o)).

Inductive SloStatus := Met | Breached | InsufficientData.
Definition slo_status_str (s : SloStatus) : string :=
  match s with Met => "met" | Breached => "breached" | InsufficientData => "insufficient_data" end.
#[export] Instance SloStatus_eq_dec : EqDecision SloStatus.
Proof. solve_decision. Defined.
Record SloWindowRollup := mkRollup {
  sw_rollup_id : string; sw_rollup_digest : string; sw_tenant_id : string; sw_objective_id : string;
  sw_window : UsageWindow; sw_good_events : Z; sw_total_events : Z; sw_bad_events : Z;
  sw_measured_micros : option Z; sw_source_fact_digests : list string; sw_status : SloStatus }.
#[export] Instance SloWindowRollup_eq_dec : EqDecision SloWindowRollup.
Proof. solve_decision. Defined.

Definition check_rollup_status (r : SloWindowRollup) : result () :=
  _ ← raise_if ((sw_total_events r <? sw_good_events r) || (sw_total_events r <? sw_bad_events r))
        (ValueError "SLO good/bad events cannot exceed total events");
  if sw_total_events r =? 0 then
    raise_if (bool_decide (sw_status r ≠ InsufficientData) || bool_decide (sw_measured_micros r ≠ None))
      (ValueError "empty SLO rollup must be explicitly insufficient_data")
  else raise_if (bool_decide (sw_status r = InsufficientData) || bool_decide (sw_measured_micros r = None))
         (ValueError "populated SLO rollup requires a bounded measurement").

Definition rollup_identity (r : SloWindowRollup) : json :=
  JObj [("schema_version", JStr "1"); ("tenant_id", JStr (sw_tenant_id r)); ("objective_id", JStr (sw_objective_id r));
        ("window", UsageWindow_json (sw_window r)); ("good_events", JInt (sw_good_events r));
        ("total_events", JInt (sw_total_events r)); ("bad_events", JInt (sw_bad_events r));
        ("measured_micros", null_or JInt (sw_measured_micros r));
        ("source_fact_digests", JArr (map JStr (py_sorted (sw_source_fact_digests r))));
        ("status", JStr (slo_status_str (sw_status r)))].
Definition rollup_id_of (r : SloWindowRollup) : string := "slo-rollup:" +:+ identity_hash (rollup_identity r).
Definition rollup_digest_of (r : SloWindowRollup) : string := kind_digest "slo_rollup" (rollup_identity r).
(** The identity, and the digests as their validator returns them *)
Definition rollup_with_identity (r : SloWindowRollup) : SloWindowRollup :=
  let '(mkRollup _ _ t o w g to b m s st) := r in
  mkRollup (rollup_id_of r) (rollup_digest_of r) t o w g to b m (py_sorted s) st.

Definition MAX_EVENTS : Z := MAX_FACT_QUANTITY * MAX_FACT_IDS_PER_AGGREGATE.
Definition validate_source_digests (values : list string) : result () :=
  _ ← raise_if (negb (forallb Digest values)) (ValueError "source_fact_digest");
  raise_if (has_duplicates values) (ValueError "source fact digests must be unique").

Definition SloWindowRollup_new (rollup_id rollup_digest : option string) (r : SloWindowRollup) :
    result SloWindowRollup :=
  _ ← check_fields [("rollup_id", OptField (str_len 1 100) rollup_id); ("rollup_digest", OptField Digest rollup_digest);
        ("tenant_id", Ref (sw_tenant_id r)); ("objective_id", RefField 100 (sw_objective_id r));
        ("good_events", nonneg MAX_EVENTS (sw_good_events r)); ("total_events", nonneg MAX_EVENTS (sw_total_events r));
        ("bad_events", nonneg MAX_EVENTS (sw_bad_events r));
        ("measured_micros", OptField (nonneg MAX_MICROS) (sw_measured_micros r));
        ("source_fact_digests",
           in_bounds 0 MAX_FACT_IDS_PER_AGGREGATE (Z.of_nat (length (sw_source_fact_digests r))))];
  _ ← in_validator (validate_source_digests (sw_source_fact_digests r));
  in_validator (
    _ ← check_rollup_status r;
    _ ← check_identity rollup_id (rollup_id_of r) "rollup_id does not match immutable rollup identity";
    _ ← check_identity rollup_digest (rollup_digest_of r) "rollup_digest does not match immutable rollup identity";
    Ok (rollup_with_identity r)).

Inductive LateStatus := LateAccepted | CorrectionRequired | LateRejected.
Inductive LateReason := OnTime | WithinLateness | OutsideLateness | CorrectionWindowExpired.
Record LateEventDecision := mkLateDecision {
  ld_fact_id : string; ld_status : LateStatus; ld_reason : LateReason; ld_watermark_at : datetime }.
#[export] Instance LateStatus_eq_dec : EqDecision LateStatus.
Proof. solve_decision. Defined.
#[export] Instance LateReason_eq_dec : EqDecision LateReason.
Proof. solve_decision. Defined.
#[export] Instance LateEventDecision_eq_dec : EqDecision LateEventDecision.
Proof. solve_decision. Defined.
Definition validate_LateEventDecision (d : LateEventDecision) : result () :=
  check_fields [("fact_id", RefField 80 (ld_fact_id d)); ("watermark_at", in_supported_years (ld_watermark_at d))].

(** * Read requests and pages *)
Record TenantReadScope := mkScope { rs_tenant_id : string; rs_principal_ref : string }.
Definition validate_TenantReadScope (s : TenantReadScope) : result () :=
  check_fields [("tenant_id", Ref (rs_tenant_id s)); ("principal_ref", Ref (rs_principal_ref s))].

Record KeysetCursor := mkCursor { kc_tenant_id : string; kc_query_digest : string; kc_last_key : string }.
#[export] Instance KeysetCursor_eq_dec : EqDecision KeysetCursor.
Proof. solve_decision. Defined.
Definition validate_KeysetCursor (c : KeysetCursor) : result () :=
  check_fields [("tenant_id", Ref (kc_tenant_id c)); ("query_digest", Digest (kc_query_digest c));
    ("last_key", Ref (kc_last_key c))].

Record UsageReadRequest := mkUsageRequest {
  ur_scope : TenantReadScope; ur_granularity : option WindowGranularity;
  ur_allocation_project_ref : option string; ur_allocation_cost_center_ref : option string;
  ur_limit : Z; ur_after : option KeysetCursor }.
(** [validate_cursor_scope] and [validate_page]: a cursor of the scope's tenant *)
Definition cursor_in_scope (c : option KeysetCursor) (s : TenantReadScope) (code : string) : result () :=
  raise_if (match c with Some c => bool_decide (kc_tenant_id c ≠ rs_tenant_id s) | None => false end)
    (TenantScopeError code).
Definition validate_UsageReadRequest (r : UsageReadRequest) : result () :=
  _ ← check_fields [("allocation_project_ref", OptField Ref (ur_allocation_project_ref r));
        ("allocation_cost_center_ref", OptField Ref (ur_allocation_cost_center_ref r));
        ("limit", in_bounds 1 MAX_PAGE_SIZE (ur_limit r))];
  in_validator (cursor_in_scope (ur_after r) (ur_scope r) "cursor tenant does not match read scope").
Definition usage_query_digest (r : UsageReadRequest) : string :=
  content_digest (JObj [("tenant_id", JStr (rs_tenant_id (ur_scope r)));
    ("principal_ref", JStr (rs_principal_ref (ur_scope r)));
    ("granularity", null_or (λ g, JStr (granularity_str g)) (ur_granularity r));
    ("project_ref", null_or JStr (ur_allocation_project_ref r));
    ("cost_center_ref", null_or JStr (ur_allocation_cost_center_ref r))]).

Record SloReadRequest := mkSloRequest {
  sq_scope : TenantReadScope; sq_objective_id : option string; sq_limit : Z; sq_after : option KeysetCursor }.
Definition validate_SloReadRequest (r : SloReadRequest) : result () :=
  _ ← check_fields [("objective_id", OptField (RefField 100) (sq_objective_id r));
        ("limit", in_bounds 1 MAX_PAGE_SIZE (sq_limit r))];
  in_validator (cursor_in_scope (sq_after r) (sq_scope r) "cursor tenant does not match SLO read scope").
Definition slo_query_digest (r : SloReadRequest) : string :=
  content_digest (JObj [("tenant_id", JStr (rs_tenant_id (sq_scope r)));
    ("principal_ref", JStr (rs_principal_ref (sq_scope r)));
    ("objective_id", null_or JStr (sq_objective_id r))]).

(** [UsageReadPage] and [SloReadPage] differ in their rows only. *)
Record ReadPage (Row : Type) := mkPage {
  pg_scope : TenantReadScope; pg_rows : list Row; pg_next_cursor : option KeysetCursor; pg_exhausted : bool }.
Arguments mkPage {Row} _ _ _ _.
Arguments pg_scope {Row} _.
Arguments pg_rows {Row} _.
Arguments pg_next_cursor {Row} _.
Arguments pg_exhausted {Row} _.
Definition validate_page {Row} (tenant_of : Row → string) (p : ReadPage Row) : result () :=
  _ ← check_fields [("rows", bool_decide (Z.of_nat (length (pg_rows p)) ≤ MAX_PAGE_SIZE)%Z)];
  in_validator (
    _ ← raise_if (existsb (λ row, bool_decide (tenant_of row ≠ rs_tenant_id (pg_scope p))) (pg_rows p))
          (TenantScopeError "read page contains a foreign tenant row");
    cursor_in_scope (pg_next_cursor p) (pg_scope p) "next cursor contains a foreign tenant").

(** * Reconciliation *)
Record SampleRef := mkSample { sm_source_ref : string; sm_source_digest : string; sm_sample_sequence : option Z }.
#[export] Instance SampleRef_eq_dec : EqDecision SampleRef.
Proof. solve_decision. Defined.
#[export] Instance SampleRef_countable : Countable SampleRef :=
  inj_countable' (λ s, (sm_source_ref s, sm_source_digest s, sm_sample_sequence s))
    (λ x, mkSample x.1.1 x.1.2 x.2) ltac:(by intros []).
Definition validate_SampleRef (s : SampleRef) : result () :=
  check_fields [("source_ref", Ref (sm_source_ref s)); ("source_digest", Digest (sm_source_digest s));
    ("sample_sequence", OptField (nonneg (2 ^ 63 - 1)) (sm_sample_sequence s))].
Definition SampleRef_json (s : SampleRef) : json :=
  JObj ([("source_ref", JStr (sm_source_ref s)); ("source_digest", JStr (sm_source_digest s))]
        ++ opt_field "sample_sequence" JInt (sm_sample_sequence s)).

Inductive ReconciliationStatus := Complete | Gap | Drift.
Definition reconciliation_status_str (s : ReconciliationStatus) : string :=
  match s with Complete => "complete" | Gap => "gap" | Drift => "drift" end.
#[export] Instance ReconciliationStatus_eq_dec : EqDecision ReconciliationStatus.
Proof. solve_decision. Defined.

Record ReconciliationReport := mkReport {
  rr_report_digest : string; rr_expected_count : Z; rr_observed_count : Z; rr_missing : list SampleRef;
  rr_unexpected : list SampleRef; rr_duplicate_samples : list SampleRef; rr_duplicate_fact_ids : list string;
  rr_status : ReconciliationStatus }.

(** The sort key of a sample: an absent sequence (and 0) counts as -1. *)
Definition sample_order (a b : SampleRef) : Prop :=
  let seq s := match sm_sample_sequence s with Some n => if n =? 0 then -1 else n | None => -1 end in
  sm_source_ref a ≠ sm_source_ref b ∧ String.le (sm_source_ref a) (sm_source_ref b) ∨
  sm_source_ref a = sm_source_ref b ∧
    (sm_source_digest a ≠ sm_source_digest b ∧ String.le (sm_source_digest a) (sm_source_digest b) ∨
     sm_source_digest a = sm_source_digest b ∧ seq a ≤ seq b).
#[export] Instance sample_order_dec a b : Decision (sample_order a b).
Proof. unfold sample_order. cbn zeta. apply _. Defined.

Definition check_status_shape (r : ReconciliationReport) : result () :=
  match rr_status r with
  | Complete =>
      raise_if (bool_decide (rr_missing r ≠ []) || bool_decide (rr_unexpected r ≠ []) ||
                bool_decide (rr_duplicate_samples r ≠ []) || bool_decide (rr_duplicate_fact_ids r ≠ []))
        (ValueError "complete reconciliation cannot contain gaps or drift")
  | Gap => raise_if (bool_decide (rr_missing r = [])) (ValueError "gap reconciliation must expose missing samples")
  | Drift =>
      raise_if (bool_decide (rr_unexpected r = []) && bool_decide (rr_duplicate_samples r = []) &&
                bool_decide (rr_duplicate_fact_ids r = []))
        (ValueError "drift reconciliation must expose unexpected or duplicate samples")
  end.

Definition report_identity (r : ReconciliationReport) : json :=
  JObj [("schema_version", JStr "1"); ("expected_count", JInt (rr_expected_count r));
        ("observed_count", JInt (rr_observed_count r)); ("missing", JArr (map SampleRef_json (rr_missing r)));
        ("unexpected", JArr (map SampleRef_json (rr_unexpected r)));
        ("duplicate_samples", JArr (map SampleRef_json (rr_duplicate_samples r)));
        ("duplicate_fact_ids", JArr (map JStr (py_sorted (rr_duplicate_fact_ids r))));
        ("status", JStr (reconciliation_status_str (rr_status r)))].
(** The report with its two sorted tuples, as the field validators return them *)
Definition report_sorted (r : ReconciliationReport) : ReconciliationReport :=
  let '(mkReport d e o m u ds df s) := r in
  mkReport d e o m u (merge_sort sample_order ds) (py_sorted (remove_dups df)) s.
Definition report_with_digest (r : ReconciliationReport) : ReconciliationReport :=
  let '(mkReport _ e o m u ds df s) := r in
  mkReport (kind_digest "sample_reconciliation" (report_identity r)) e o m u ds df s.
Definition items_within (n : nat) : bool := in_bounds 0 MAX_RECONCILIATION_ITEMS (Z.of_nat n).

Definition ReconciliationReport_new (report_digest : option string) (r : ReconciliationReport) :
    result ReconciliationReport :=
  _ ← check_fields [("report_digest", OptField Digest report_digest);
        ("expected_count", nonneg MAX_RECONCILIATION_ITEMS (rr_expected_count r));
        ("observed_count", nonneg MAX_RECONCILIATION_ITEMS (rr_observed_count r));
        ("missing", items_within (length (rr_missing r))); ("unexpected", items_within (length (rr_unexpected r)));
        ("duplicate_samples", items_within (length (rr_duplicate_samples r)));
        ("duplicate_fact_ids", items_within (length (rr_duplicate_fact_ids r)))];
  _ ← in_validator (raise_if (has_duplicates (rr_duplicate_samples r))
        (ValueError "duplicate sample references must be unique"));
  _ ← in_validator (raise_if (negb (forallb ensure_ref (rr_duplicate_fact_ids r))) (ValueError "duplicate_fact_id"));
  let r := report_sorted r in
  in_validator (
    _ ← check_status_shape r;
    let expected_digest := kind_digest "sample_reconciliation" (report_identity r) in
    _ ← check_identity report_digest expected_digest "report_digest does not match reconciliation identity";
    Ok (report_with_digest r)).
