(* ===== verification/EconomicsService.v ===== *)
(** The deterministic economics operations of
    [arbora/control_plane/economics/service.py]: windows, late events, usage
    aggregation, SLO rollups and sample reconciliation. They are pure functions
    of validated models; iterables are lists. *)
From S2P Require Export EconomicsModels.
Local Open Scope Z_scope.

Definition TypeError (code : string) : pyexn := PyExn ["TypeError"] code "".

(** * Windows and late events *)
Definition window_for (occurred_at : datetime) (g : WindowGranularity) : result UsageWindow :=
  let start := match g with Hourly => floor_hour occurred_at | Daily => floor_day occurred_at end in
  UsageWindow_new g start None None.

Definition late_decision (f : UsageFact) (s : LateStatus) (r : LateReason) (t : datetime) : result LateEventDecision :=
  construct validate_LateEventDecision (mkLateDecision (uf_fact_id f) s r t).

(** [age_seconds] is kept in microseconds: [total_seconds] is compared with
    whole numbers of at most seven days only, where a float decides exactly. *)
Definition decide_late_event (f : UsageFact) (watermark : option Watermark) (policy : WatermarkPolicy) :
    result LateEventDecision :=
  match watermark with
  | None => late_decision f LateAccepted OnTime (uf_occurred_at f)
  | Some w =>
      _ ← raise_if (bool_decide (wm_tenant_id w ≠ uf_tenant_id f) || bool_decide (wm_source_ref w ≠ uf_source_ref f))
            (EconomicsContractError "watermark scope does not match fact source");
      let age := wm_watermark_at w - uf_occurred_at f in
      if age <=? 0 then late_decision f LateAccepted OnTime (wm_watermark_at w)
      else if age <=? wp_allowed_lateness_seconds policy * MICROS then
        if bool_decide (wp_late_event_mode policy = CorrectLate)
        then late_decision f CorrectionRequired WithinLateness (wm_watermark_at w)
        else late_decision f LateRejected WithinLateness (wm_watermark_at w)
      else if bool_decide (wp_late_event_mode policy = CorrectLate) &&
              (age <=? wp_max_correction_age_seconds policy * MICROS)
      then late_decision f CorrectionRequired OutsideLateness (wm_watermark_at w)
      else late_decision f LateRejected CorrectionWindowExpired (wm_watermark_at w)
  end.

(** * Aggregation *)

(** A [defaultdict(int)] keyed by metric *)
Notation tally := (gmap MetricKind Z).
Definition tally_add (m : MetricKind) (n : Z) (t : tally) : tally := <[m := default 0 (t !! m) + n]> t.

(** [for metric in sorted(totals)]: one total per metric *)
Fixpoint metric_totals (metrics : list MetricKind) (quantities costs : tally) : result (list MetricTotal) :=
  match metrics with
  | [] => Ok []
  | m :: ms =>
      t ← construct validate_MetricTotal (mkTotal m (default 0 (quantities !! m)) (default 0 (costs !! m)));
      ts ← metric_totals ms quantities costs;
      Ok (t :: ts)
  end.
Definition sorted_metrics (quantities : tally) : list MetricKind :=
  sort_by metric_str (elements (dom quantities)).

Definition validate_aggregate_scope (first : UsageFact) (window : UsageWindow) (card : PriceCard) :
    result (string * AllocationRef * datetime) :=
  _ ← raise_if (bool_decide (al_tenant_id (uf_allocation first) ≠ uf_tenant_id first))
        (ValueError "usage allocation crosses tenant scope");
  window_end ← require (uw_window_end window) (EconomicsContractError "aggregate window is missing its end boundary");
  _ ← raise_if ((uw_window_start window <? pc_effective_from card) ||
                match pc_effective_to card with Some t => t <? window_end | None => false end)
        (ValueError "price card does not cover the full aggregate window");
  Ok (uf_tenant_id first, uf_allocation first, window_end).

Definition check_fact_scope (f : UsageFact) (tenant_id : string) (allocation : AllocationRef) : result () :=
  raise_if (bool_decide (uf_tenant_id f ≠ tenant_id) || bool_decide (uf_allocation f ≠ allocation))
    (EconomicsContractError "aggregate cannot mix tenants or allocations").

Definition check_fact_window_and_price (f : UsageFact) (card : PriceCard) (rates : gmap MetricKind Z)
    (window : UsageWindow) (window_end : datetime) : result () :=
  _ ← raise_if (bool_decide (uf_service_ref f ≠ pc_service_ref card))
        (EconomicsContractError "price card service does not match usage fact");
  _ ← raise_if (negb ((uw_window_start window <=? uf_occurred_at f) && (uf_occurred_at f <? window_end)))
        (EconomicsContractError "aggregate input contains an out-of-window fact");
  raise_if (bool_decide (rates !! uf_metric f = None)) (EconomicsContractError "price card has no rate").

Definition rates_of (card : PriceCard) : gmap MetricKind Z :=
  foldl (λ m r, <[pr_metric r := pr_micros_per_unit r]> m) ∅ (pc_rates card).

Record Accounts := mkAccounts { ac_seen : gset string; ac_totals : tally; ac_costs : tally }.
Definition no_accounts : Accounts := mkAccounts ∅ ∅ ∅.

Definition account_fact (card : PriceCard) (window : UsageWindow) (scope : string * AllocationRef * datetime)
    (st : Accounts) (f : UsageFact) : result Accounts :=
  let '(tenant_id, allocation, window_end) := scope in
  _ ← raise_if (bool_decide (uf_fact_id f ∈ ac_seen st))
        (EconomicsContractError "duplicate fact would double count an aggregate");
  _ ← check_fact_scope f tenant_id allocation;
  _ ← check_fact_window_and_price f card (rates_of card) window window_end;
  rate ← require (rates_of card !! uf_metric f) (KeyError (metric_str (uf_metric f)));
  Ok (mkAccounts ({[uf_fact_id f]} ∪ ac_seen st) (tally_add (uf_metric f) (uf_quantity f) (ac_totals st))
       (tally_add (uf_metric f) (uf_quantity f * rate) (ac_costs st))).

Definition aggregate_usage (facts : list UsageFact) (window : UsageWindow) (card : PriceCard) :
    result WindowAggregate :=
  first ← require (head facts) (ValueError "an accounting aggregate requires at least one usage fact");
  scope ← validate_aggregate_scope first window card;
  st ← for_fold (account_fact card window scope) facts no_accounts;
  metrics ← metric_totals (sorted_metrics (ac_totals st)) (ac_totals st) (ac_costs st);
  WindowAggregate_new None None
    (mkAggregate "" "" scope.1.1 scope.1.2 window (py_sorted (elements (ac_seen st)))
       (pc_card_id card) (pc_card_digest card) metrics).

(** * Daily composition *)
Definition validate_daily_completeness (day : UsageWindow) (hours : list WindowAggregate) : result () :=
  let expected : gset Z := list_to_set (map (λ i, uw_window_start day + i * HOUR) (seqZ 0 24)) in
  let actual : gset Z := list_to_set (map (λ a, uw_window_start (wa_window a)) hours) in
  raise_if (bool_decide (actual ≠ expected) || bool_decide (length hours ≠ 24%nat))
    (EconomicsContractError "daily aggregate requires all 24 hourly windows").

Definition validate_daily_scope_consistency (hours : list WindowAggregate) : result WindowAggregate :=
  first ← require (head hours) (PyExn ["IndexError"] "" "");
  _ ← raise_if (existsb (λ a, bool_decide (wa_tenant_id a ≠ wa_tenant_id first) ||
                              bool_decide (wa_allocation a ≠ wa_allocation first) ||
                              bool_decide (wa_price_card_id a ≠ wa_price_card_id first) ||
                              bool_decide (wa_price_card_digest a ≠ wa_price_card_digest first)) hours)
        (EconomicsContractError "daily aggregate cannot mix allocation or price-card scope");
  Ok first.

Definition validate_daily_fact_ids (hours : list WindowAggregate) : result (list string) :=
  let fact_ids := concat (map wa_fact_ids hours) in
  _ ← raise_if (has_duplicates fact_ids) (EconomicsContractError "hourly inputs overlap and would double count");
  Ok fact_ids.

Definition sum_totals (q : MetricTotal → Z) (totals : list MetricTotal) (t : tally) : tally :=
  foldl (λ t x, tally_add (mt_metric x) (q x) t) t totals.
Definition sum_daily_totals (hours : list WindowAggregate) : result (list MetricTotal) :=
  let totals := concat (map wa_totals hours) in
  let quantities := sum_totals mt_quantity totals ∅ in
  metric_totals (sorted_metrics quantities) quantities (sum_totals mt_cost_micros totals ∅).

Definition aggregate_daily_from_hours (hours : list WindowAggregate) (day : UsageWindow) : result WindowAggregate :=
  _ ← raise_if (bool_decide (uw_granularity day ≠ Daily)) (ValueError "daily composition requires a day window");
  _ ← validate_daily_completeness day hours;
  first ← validate_daily_scope_consistency hours;
  fact_ids ← validate_daily_fact_ids hours;
  totals ← sum_daily_totals hours;
  WindowAggregate_new None None
    (mkAggregate "" "" (wa_tenant_id first) (wa_allocation first) day (py_sorted fact_ids)
       (wa_price_card_id first) (wa_price_card_digest first) totals).

(** * SLO rollups *)
Definition validate_slo_counts (o : SloObjective) (good total bad : Z) : result () :=
  _ ← raise_if ((good <? 0) || (total <? 0) || (bad <? 0)) (ValueError "SLO counts must be non-negative");
  _ ← raise_if ((total <? good) || (total <? bad)) (ValueError "SLO good/bad counts cannot exceed total");
  raise_if (bool_decide (so_sli o ∈ [Availability; ErrorRate]) && negb (good + bad =? total))
    (ValueError "availability/error-rate rollup must account for every event").

Definition resolve_slo_measurement (o : SloObjective) (good total bad : Z) (measured : option Z) :
    result (option Z * SloStatus) :=
  if total =? 0 then
    _ ← raise_if (bool_decide (measured ≠ None)) (ValueError "missing SLO measurements cannot be represented as zero");
    Ok (None, InsufficientData)
  else
    m ← match so_sli o with
        | Availability => Ok (good * MAX_MICROS / total)
        | ErrorRate => Ok (bad * MAX_MICROS / total)
        | _ => require measured (ValueError "latency/queue/freshness/throughput rollup requires a measurement")
        end;
    _ ← raise_if ((m <? 0) || (MAX_MICROS <? m)) (ValueError "SLO measurement must be in bounded micros");
    let met := match so_comparison o with Gte => so_target_micros o <=? m | Lte => m <=? so_target_micros o end in
    Ok (Some m, if met then Met else Breached).

Definition validated_slo_digests (supplied : list string) : result (list string) :=
  let digests := py_sorted (remove_dups supplied) in
  _ ← raise_if (bool_decide (length digests ≠ length supplied))
        (EconomicsContractError "SLO source digests must be unique");
  _ ← raise_if (100000 <? Z.of_nat (length digests))
        (ValueError "SLO source digest set exceeds the bounded read model");
  _ ← for_each (λ d, raise_if (negb (py_startswith d "sha256:") || bool_decide (String.length d ≠ 71%nat))
        (ValueError "SLO source facts must be opaque sha256 digests")) digests;
  Ok digests.

Definition build_slo_rollup (o : SloObjective) (window : UsageWindow) (good total bad : Z) (measured : option Z)
    (source_fact_digests : list string) : result SloWindowRollup :=
  _ ← raise_if (bool_decide (so_window_granularity o ≠ uw_granularity window))
        (ValueError "SLO objective and rollup windows have different granularities");
  _ ← validate_slo_counts o good total bad;
  m ← resolve_slo_measurement o good total bad measured;
  digests ← validated_slo_digests source_fact_digests;
  SloWindowRollup_new None None
    (mkRollup "" "" (so_tenant_id o) (so_objective_id o) window good total bad m.1 digests m.2).

(** * Sample reconciliation *)

(** Sorting sample keys, tuples of two strings and an optional integer: [None]
    and an integer have no order, and keys that agree up to there are compared. *)
Definition unordered_keys (a b : SampleRef) : bool :=
  bool_decide (sm_source_ref a = sm_source_ref b) && bool_decide (sm_source_digest a = sm_source_digest b) &&
  xorb (bool_decide (sm_sample_sequence a = None)) (bool_decide (sm_sample_sequence b = None)).
Definition key_order (a b : SampleRef) : Prop :=
  sm_source_ref a ≠ sm_source_ref b ∧ String.le (sm_source_ref a) (sm_source_ref b) ∨
  sm_source_ref a = sm_source_ref b ∧
    (sm_source_digest a ≠ sm_source_digest b ∧ String.le (sm_source_digest a) (sm_source_digest b) ∨
     sm_source_digest a = sm_source_digest b ∧
       default (-1) (sm_sample_sequence a) ≤ default (-1) (sm_sample_sequence b)).
#[export] Instance key_order_dec a b : Decision (key_order a b).
Proof. unfold key_order. apply _. Defined.
Definition sorted_keys (keys : gset SampleRef) : result (list SampleRef) :=
  let ks := elements keys in
  _ ← raise_if (existsb (λ a, existsb (unordered_keys a) ks) ks) (TypeError "'<' not supported");
  Ok (merge_sort key_order ks).

Definition count_of `{EqDecision A} (x : A) (l : list A) : nat := length (filter (λ y, y = x) l).
Definition repeated `{Countable A} (l : list A) : gset A := list_to_set (filter (λ x, 1 < count_of x l)%nat l).

Definition sample_of (f : UsageFact) : SampleRef := mkSample (uf_source_ref f) (uf_source_digest f) (uf_sample_sequence f).

(** The first occurrences of observed keys that were not expected *)
Fixpoint unexpected_samples (expected : gset SampleRef) (seen : list SampleRef) (observed : list SampleRef) :
    list SampleRef :=
  match observed with
  | [] => []
  | k :: ks =>
      (if bool_decide (k ∉ expected) && bool_decide (k ∉ seen) then [k] else [])
        ++ unexpected_samples expected (seen ++ [k]) ks
  end.

Definition reconcile_samples (expected : list SampleRef) (observed : list UsageFact) : result ReconciliationReport :=
  _ ← raise_if ((10000 <? Z.of_nat (length expected)) || (10000 <? Z.of_nat (length observed)))
        (ValueError "sample reconciliation exceeds its bounded input size");
  let observed_refs := map sample_of observed in
  let expected_keys : gset SampleRef := list_to_set expected in
  keys ← sorted_keys expected_keys;
  let missing := filter (λ k, k ∉ observed_refs) keys in
  let unexpected := unexpected_samples expected_keys [] observed_refs in
  duplicate_samples ← sorted_keys (repeated expected ∪ repeated observed_refs);
  let duplicate_fact_ids := elements (repeated (map uf_fact_id observed)) in
  let status :=
    if bool_decide (missing ≠ []) then Gap
    else if bool_decide (unexpected ≠ []) || bool_decide (duplicate_samples ≠ []) ||
            bool_decide (duplicate_fact_ids ≠ []) then Drift
    else Complete in
  ReconciliationReport_new None
    (mkReport "" (Z.of_nat (length expected)) (Z.of_nat (length observed)) missing unexpected
       duplicate_samples duplicate_fact_ids status).
