(* ===== verification/EconomicsLedger.v ===== *)
(** The append-only economics repository of
    [arbora/control_plane/economics/repository.py]: idempotent appends, price
    cards that do not overlap, monotone watermarks, and keyset pages over a
    tenant's aggregates and rollups.

    [InMemoryEconomicsRepository] keeps a dict per kind of entry. The order of
    its dicts is never observed: reads sort by a key that is unique to an entry,
    and the overlap check raises the same error whichever card it meets. *)
From S2P Require Export EconomicsModels.
Local Open Scope Z_scope.

Inductive AppendDisposition := Inserted | Replayed.
#[export] Instance AppendDisposition_eq_dec : EqDecision AppendDisposition.
Proof. solve_decision. Defined.
Record AppendReceipt := mkReceipt { ar_identity : string; ar_digest : string; ar_disposition : AppendDisposition }.
#[export] Instance AppendReceipt_eq_dec : EqDecision AppendReceipt.
Proof. solve_decision. Defined.
Definition validate_AppendReceipt (r : AppendReceipt) : result () :=
  check_fields [("identity", str_len 1 100 (ar_identity r)); ("digest", Digest (ar_digest r))].
Definition replayed (r : AppendReceipt) : bool := bool_decide (ar_disposition r = Replayed).

(** * Appends *)
Notation store T := (gmap string (string * T)).

Definition append_entry {T} (identity digest : string) (value : T) : M (store T) AppendReceipt :=
  self ← get_state;
  match self !! identity with
  | Some (previous_digest, _) =>
      _ ← raise_if (bool_decide (previous_digest ≠ digest))
            (EconomicsConflict "append-only identity already exists with a different digest");
      lift (construct validate_AppendReceipt (mkReceipt identity digest Replayed))
  | None =>
      _ ← put_state (<[identity := (digest, value)]> self);
      lift (construct validate_AppendReceipt (mkReceipt identity digest Inserted))
  end.

Record Repository := mkRepository {
  er_facts : store UsageFact; er_corrections : store UsageCorrection; er_aggregates : store WindowAggregate;
  er_rollups : store SloWindowRollup; er_cards : store PriceCard; er_tombstones : store UsageTombstone;
  er_watermarks : gmap (string * string) Watermark;
  er_watermark_history : gmap (string * string) (gmap string Watermark) }.
Definition new_repository : Repository := mkRepository ∅ ∅ ∅ ∅ ∅ ∅ ∅ ∅.

(** One attribute of the repository *)
Record field (F : Type) := Field { get_field : Repository → F; set_field : F → Repository → Repository }.
Arguments Field {F} _ _.
Arguments get_field {F} _ _.
Arguments set_field {F} _ _ _.
Definition facts_field : field (store UsageFact) :=
  Field er_facts (λ x '(mkRepository f c a r p t w h), mkRepository x c a r p t w h).
Definition corrections_field : field (store UsageCorrection) :=
  Field er_corrections (λ x '(mkRepository f c a r p t w h), mkRepository f x a r p t w h).
Definition aggregates_field : field (store WindowAggregate) :=
  Field er_aggregates (λ x '(mkRepository f c a r p t w h), mkRepository f c x r p t w h).
Definition rollups_field : field (store SloWindowRollup) :=
  Field er_rollups (λ x '(mkRepository f c a r p t w h), mkRepository f c a x p t w h).
Definition cards_field : field (store PriceCard) :=
  Field er_cards (λ x '(mkRepository f c a r p t w h), mkRepository f c a r x t w h).
Definition tombstones_field : field (store UsageTombstone) :=
  Field er_tombstones (λ x '(mkRepository f c a r p t w h), mkRepository f c a r p x w h).

(** [_append(self._facts, ...)]: a computation on one attribute *)
Definition on_field {F A} (fl : field F) (m : M F A) : M Repository A := λ self,
  let '(r, x) := m (get_field fl self) in (r, set_field fl x self).

Definition append_usage_fact (f : UsageFact) : M Repository AppendReceipt :=
  on_field facts_field (append_entry (uf_fact_id f) (uf_fact_digest f) f).
Definition append_correction (c : UsageCorrection) : M Repository AppendReceipt :=
  on_field corrections_field (append_entry (uc_correction_id c) (uc_original_fact_digest c) c).
Definition append_window_aggregate (a : WindowAggregate) : M Repository AppendReceipt :=
  on_field aggregates_field (append_entry (wa_aggregate_id a) (wa_aggregate_digest a) a).
Definition append_slo_rollup (r : SloWindowRollup) : M Repository AppendReceipt :=
  on_field rollups_field (append_entry (sw_rollup_id r) (sw_rollup_digest r) r).
Definition append_tombstone (t : UsageTombstone) : M Repository AppendReceipt :=
  on_field tombstones_field (append_entry (ut_tombstone_id t) (ut_target_digest t) t).

Definition intervals_overlap (first second : PriceCard) : bool :=
  match pc_effective_to first with None => true | Some first_end => pc_effective_from second <? first_end end &&
  match pc_effective_to second with None => true | Some second_end => pc_effective_from first <? second_end end.

(** The loop body of [put_price_card]: does a stored card refuse the new one? *)
Definition refuses_card (previous card : PriceCard) : bool :=
  bool_decide (pc_card_id previous ≠ pc_card_id card) &&
  bool_decide (pc_provider_ref previous = pc_provider_ref card) &&
  bool_decide (pc_service_ref previous = pc_service_ref card) &&
  bool_decide (pc_version previous = pc_version card) && intervals_overlap previous card.

Definition put_price_card (card : PriceCard) : M Repository AppendReceipt :=
  self ← get_state;
  _ ← raise_if (existsb (λ entry, refuses_card entry.2.2 card) (map_to_list (er_cards self)))
        (EconomicsConflict "price-card versions may not overlap with a different digest");
  on_field cards_field (append_entry (pc_card_id card) (pc_card_digest card) card).

(** * Watermarks *)
Definition watermark_digest (w : Watermark) : string := content_digest (Watermark_json w).

Definition set_watermark (key : string * string) (w : Watermark) (self : Repository) : Repository :=
  let '(mkRepository f c a r p t ws h) := self in mkRepository f c a r p t (<[key := w]> ws) h.
Definition set_history (key : string * string) (history : gmap string Watermark) (self : Repository) : Repository :=
  let '(mkRepository f c a r p t ws h) := self in mkRepository f c a r p t ws (<[key := history]> h).

(** [setdefault] writes the empty history before any check can raise. *)
Definition advance_watermark (w : Watermark) : M Repository AppendReceipt :=
  let key := (wm_tenant_id w, wm_source_ref w) in
  let digest := watermark_digest w in
  self ← get_state;
  let history := default ∅ (er_watermark_history self !! key) in
  _ ← modify (set_history key history);
  let receipt disposition :=
    lift (construct validate_AppendReceipt (mkReceipt ("watermark:" +:+ digest) digest disposition)) in
  if bool_decide (is_Some (history !! digest)) then receipt Replayed
  else
    _ ← match er_watermarks self !! key with
        | Some previous =>
            _ ← raise_if (bool_decide (wm_policy_version previous ≠ wm_policy_version w))
                  (EconomicsConflict "watermark policy cannot change in place");
            _ ← raise_if (wm_watermark_at w <? wm_watermark_at previous)
                  (EconomicsConflict "watermark cannot move backwards");
            raise_if (wm_watermark_at w =? wm_watermark_at previous)
              (EconomicsConflict "same watermark requires exact replay")
        | None => mret ()
        end;
    _ ← modify (set_history key (<[digest := w]> history));
    _ ← modify (set_watermark key w);
    receipt Inserted.

Definition get_watermark (tenant_id source_ref : string) (self : Repository) : option Watermark :=
  er_watermarks self !! (tenant_id, source_ref).

(** * Pages *)

(** What [read_usage_windows] and [read_slo_rollups] use of a row *)
Record RowView (Row : Type) := mkView { view_id : Row → string; view_window : Row → UsageWindow; view_tenant : Row → string }.
Arguments mkView {Row} _ _ _.
Arguments view_id {Row} _ _.
Arguments view_window {Row} _ _.
Arguments view_tenant {Row} _ _.
Definition aggregate_view : RowView WindowAggregate := mkView wa_aggregate_id wa_window wa_tenant_id.
Definition rollup_view : RowView SloWindowRollup := mkView sw_rollup_id sw_window sw_tenant_id.

Section pages.
Context {Row : Type} (v : RowView Row).

Definition row_start (row : Row) : datetime := uw_window_start (view_window v row).
(** [_aggregate_key] and [_rollup_key] *)
Definition row_key (row : Row) : string := isoformat (row_start row) +:+ "/" +:+ view_id v row.
(** [rows.sort(key=lambda row: (row.window.window_start, row_id))] *)
Definition row_order (a b : Row) : Prop :=
  row_start a < row_start b ∨ row_start a = row_start b ∧ String.le (view_id v a) (view_id v b).
#[export] Instance row_order_dec a b : Decision (row_order a b).
Proof. unfold row_order. apply _. Defined.

Definition stored_rows (entries : store Row) : list Row := map (λ e, e.2.2) (map_to_list entries).
Definition rows_after (cursor : option KeysetCursor) (rows : list Row) : list Row :=
  match cursor with
  | None => rows
  | Some c => filter (λ row, ¬ String.le (row_key row) (kc_last_key c)) rows
  end.

Definition read_page (scope : TenantReadScope) (limit : Z) (after : option KeysetCursor) (query_digest foreign_cursor : string)
    (matches : Row → bool) (entries : store Row) : result (ReadPage Row) :=
  _ ← raise_if (match after with Some c => bool_decide (kc_query_digest c ≠ query_digest) | None => false end)
        (TenantScopeError foreign_cursor);
  let rows := merge_sort row_order (filter (λ row, matches row) (stored_rows entries)) in
  let rows := rows_after after rows in
  let page_rows := take (Z.to_nat limit) rows in
  let exhausted := Z.of_nat (length rows) <=? limit in
  next_cursor ←
    (if exhausted then Ok None
     else match last page_rows with
          | None => Ok None
          | Some row =>
              c ← construct validate_KeysetCursor (mkCursor (rs_tenant_id scope) query_digest (row_key row));
              Ok (Some c)
          end);
  construct (validate_page (view_tenant v)) (mkPage scope page_rows next_cursor exhausted).
End pages.

Definition matches_usage_window (r : UsageReadRequest) (a : WindowAggregate) : bool :=
  bool_decide (wa_tenant_id a = rs_tenant_id (ur_scope r)) &&
  match ur_granularity r with None => true | Some g => bool_decide (uw_granularity (wa_window a) = g) end &&
  match ur_allocation_project_ref r with None => true | Some p => bool_decide (al_project_ref (wa_allocation a) = p) end &&
  match ur_allocation_cost_center_ref r with
  | None => true | Some c => bool_decide (al_cost_center_ref (wa_allocation a) = c)
  end.
Definition matches_slo_rollup (r : SloReadRequest) (row : SloWindowRollup) : bool :=
  bool_decide (sw_tenant_id row = rs_tenant_id (sq_scope r)) &&
  match sq_objective_id r with None => true | Some o => bool_decide (sw_objective_id row = o) end.

Definition read_usage_windows (r : UsageReadRequest) (self : Repository) : result (ReadPage WindowAggregate) :=
  read_page aggregate_view (ur_scope r) (ur_limit r) (ur_after r) (usage_query_digest r)
    "cursor is bound to a different usage query" (matches_usage_window r) (er_aggregates self).
Definition read_slo_rollups (r : SloReadRequest) (self : Repository) : result (ReadPage SloWindowRollup) :=
  read_page rollup_view (sq_scope r) (sq_limit r) (sq_after r) (slo_query_digest r)
    "cursor is bound to a different SLO query" (matches_slo_rollup r) (er_rollups self).

Definition iter_facts (tenant_id : string) (self : Repository) : list UsageFact :=
  filter (λ f, uf_tenant_id f = tenant_id) (sort_by uf_fact_id (stored_rows (er_facts self))).
