(* ===== verification/EconomicsIdentity.v ===== *)
(** Derived identities of the economics contracts: they are valid references,
    and what the models built by their constructors satisfy. *)
From S2P Require Export EconomicsModels.
From S2P Require Import Sha256.
Local Open Scope Z_scope.

(** * Texts without sensitive words *)
Definition sensitive_words : list string :=
  ["authorization"; "bearer"; "cookie"; "password"; "passwd"; "private"; "secret"; "token"; "api"; "raw"].

Lemma lang_void l : ¬ re_lang RVoid l.
Proof. intros H. inv H. Qed.
Lemma lang_alts_cons r rs l : re_lang (RAlts (r :: rs)) l → re_lang r l ∨ re_lang (RAlts rs) l.
Proof. cbn. intros H. inv H; auto. Qed.
Lemma lang_word_head w r l : re_lang (RCat (RLit w) r) l → ∃ l', l = w ++ l'.
Proof. intros H. inversion H as [| |? ? l1 l2 H1 H2| | | | | |]; subst. apply lang_lit in H1 as ->. by eexists. Qed.

Lemma sensitive_contains s : sensitive s = true →
  ∃ w l1 l2, w ∈ sensitive_words ∧ chars (casefold s) = l1 ++ chars w ++ l2.
Proof.
  unfold sensitive, re_search. rewrite re_match_correct. intros H.
  apply lang_cat_inv in H as (l1 & l2 & E & _ & H2). apply lang_cat_inv in H2 as (l3 & l4 & -> & H3 & _).
  assert (∃ w l', w ∈ sensitive_words ∧ l3 = chars w ++ l') as (w & l' & Hw & ->).
  { clear -H3. unfold SENSITIVE_RE, RWord in H3.
    repeat (apply lang_alts_cons in H3 as [H3|H3];
      [match type of H3 with
       | re_lang (RLit (chars (casefold ?w))) _ => apply lang_lit in H3 as ->; exists w, []; rewrite app_nil_r
       | re_lang (RCat (RLit (chars (casefold ?w))) _) _ => apply lang_word_head in H3 as (l' & ->); exists w, l'
       end; split; [by_compute|reflexivity]|]).
    by apply lang_void in H3. }
  exists w, l1, (l' ++ l4). split; [done|]. by rewrite E, <- !app_assoc.
Qed.

(** A word cannot occur in [p ++ h] if some character of it is not in [p] and
    one from there on is not in [h]. *)
Fixpoint excluded (in_p in_h : ascii → bool) (w : list ascii) : bool :=
  match w with
  | [] => false
  | a :: w' => negb (in_p a) && existsb (λ b, negb (in_h b)) w || excluded in_p in_h w'
  end.

Lemma excluded_not_in in_p in_h p h w l1 l2 :
  is_true_all in_p p → is_true_all in_h h → excluded in_p in_h w = true → p ++ h ≠ l1 ++ w ++ l2.
Proof.
  intros Hp Hh. revert l1. induction w as [|a w IH]; intros l1; [done|].
  intros [Hx|Hx]%orb_true_iff E.
  - apply andb_true_iff in Hx as [Ha Hb]. apply negb_true_iff in Ha.
    apply existsb_exists in Hb as (b & Hb & Hn). apply negb_true_iff in Hn. apply list_elem_of_In in Hb.
    assert (∀ k, is_true_all in_h (k ++ (a :: w) ++ l2) → False) as Hno.
    { intros k Hk. apply Forall_app in Hk as [_ Hk]. apply Forall_app in Hk as [Hk _].
      rewrite Forall_forall in Hk. by rewrite (Hk b Hb) in Hn. }
    apply app_eq_inv in E as [(k & -> & E)|(k & -> & E)].
    + destruct k as [|c k]; cbn in E.
      * subst h. by apply (Hno []).
      * injection E as <- _. apply Forall_app in Hp as [_ Hk]. inv Hk. congruence.
    + subst h. by apply (Hno k).
  - apply (IH (l1 ++ [a])); [done|]. by rewrite <- app_assoc.
Qed.

Lemma chars_casefold s : chars (casefold s) = map ascii_lower (chars s).
Proof. induction s as [|c s IH]; [done|]. cbn. by f_equal. Qed.

Lemma not_sensitive s p h in_p in_h :
  chars s = p ++ h → Forall (λ c, in_p (ascii_lower c) = true) p → Forall (λ c, in_h (ascii_lower c) = true) h →
  forallb (λ w, excluded in_p in_h (chars w)) sensitive_words = true → sensitive s = false.
Proof.
  intros E Hp Hh Hw. apply not_true_iff_false. intros (w & l1 & l2 & Hin & Es)%sensitive_contains.
  rewrite chars_casefold, E, map_app in Es. rewrite forallb_forall in Hw.
  revert Es. apply (excluded_not_in in_p in_h); [by apply Forall_map|by apply Forall_map|].
  apply Hw. by apply list_elem_of_In.
Qed.

(** * Derived identities *)
Lemma chars_substring n s : chars (String.substring 0 n s) = take n (chars s).
Proof.
  revert s. induction n as [|n IH]; intros [|c s]; cbn; [done..|]. by f_equal.
Qed.

(** Characters of a prefix that goes before hexadecimal digits *)
Definition ref_char (c : ascii) : bool := alnum c || one_of "._:/@+-" c.
(** An admissible prefix: it begins like a reference, and no sensitive word can
    begin in it *)
Definition ref_prefix (in_p : ascii → bool) (p : list ascii) : Prop :=
  (∃ c l, p = c :: l ∧ alnum c = true) ∧ is_true_all ref_char p ∧
  Forall (λ c, in_p (ascii_lower c) = true) p ∧
  forallb (λ w, excluded in_p is_hex (chars w)) sensitive_words = true.

Lemma hex_is_ref_char c : is_hex c = true → ref_char c = true.
Proof. by destruct c as [[] [] [] [] [] [] [] []]. Qed.
Lemma hex_is_lower c : is_hex c = true → is_hex (ascii_lower c) = true.
Proof. by destruct c as [[] [] [] [] [] [] [] []]. Qed.

Lemma prefixed_Ref in_p p h s :
  ref_prefix in_p p → is_true_all is_hex h → chars s = p ++ h → (length p + length h ≤ 256)%nat →
  ensure_ref s = true.
Proof.
  intros ((c & l & -> & Hc) & Hp & Hl & Hw) Hh E Hlen. unfold ensure_ref. rewrite !andb_true_iff. split; [split|].
  - apply bool_decide_eq_true. rewrite <- chars_length, E, length_app. unfold MAX_REF_LENGTH. lia.
  - apply class_then_upto. eexists c, (l ++ h). split; [done|]. split; [done|].
    rewrite length_app. cbn in Hlen. split; [|lia]. inv Hp. apply Forall_app. split; [done|].
    eapply Forall_impl; [exact Hh|]. exact hex_is_ref_char.
  - apply negb_true_iff. eapply (not_sensitive s (c :: l) h); [done|exact Hl| |exact Hw].
    eapply Forall_impl; [exact Hh|]. exact hex_is_lower.
Qed.

(** The 32 hexadecimal digits of an identity hash *)
Lemma identity_hash_hex v : is_true_all is_hex (chars (identity_hash v)) ∧ length (chars (identity_hash v)) = 32%nat.
Proof.
  unfold identity_hash. rewrite chars_substring. split.
  - apply Forall_take. apply hexdigest_hex.
  - rewrite length_take. unfold chars. by rewrite hexdigest_length.
Qed.

Lemma derived_id_RefField in_p p v hi :
  ref_prefix in_p (chars p) → (length (chars p) + 32 ≤ hi ≤ 256)%nat → RefField hi (p +:+ identity_hash v) = true.
Proof.
  intros Hp Hhi. destruct (identity_hash_hex v) as [Hh Hl]. unfold RefField. apply andb_true_iff. split.
  - rewrite str_len_chars, chars_app, length_app, Hl. lia.
  - eapply prefixed_Ref; [exact Hp|exact Hh|apply chars_app|lia].
Qed.

Lemma content_digest_Digest v : Digest (content_digest v) = true.
Proof.
  apply re_match_correct. unfold content_digest. rewrite chars_app.
  apply lang_cat; [by apply lang_lit|]. apply lang_times_class.
  split; [apply hexdigest_lower|apply hexdigest_length].
Qed.
Lemma kind_digest_Digest k v : Digest (kind_digest k v) = true.
Proof. apply content_digest_Digest. Qed.

(** * Models as their constructors return them

    [genuine_X x]: a call of the constructor returned [x], and so for the models
    nested in it. *)
Definition genuine_fact (f : UsageFact) : Prop :=
  validate_AllocationRef (uf_allocation f) = Ok () ∧
  Forall (λ d, validate_DimensionRef d = Ok ()) (uf_dimensions f) ∧
  ∃ id digest f0, UsageFact_new id digest f0 = Ok f.
Definition genuine_card (c : PriceCard) : Prop :=
  Forall (λ r, validate_PriceRate r = Ok ()) (pc_rates c) ∧
  ∃ id digest c0, PriceCard_new id digest c0 = Ok c.
Definition genuine_window (w : UsageWindow) : Prop :=
  ∃ g start window_end id, UsageWindow_new g start window_end id = Ok w.
Definition genuine_aggregate (a : WindowAggregate) : Prop :=
  genuine_window (wa_window a) ∧ validate_AllocationRef (wa_allocation a) = Ok () ∧
  Forall (λ t, validate_MetricTotal t = Ok ()) (wa_totals a) ∧
  ∃ id digest a0, WindowAggregate_new id digest a0 = Ok a.
Definition genuine_objective (o : SloObjective) : Prop := ∃ id o0, SloObjective_new id o0 = Ok o.
Definition genuine_rollup (r : SloWindowRollup) : Prop :=
  genuine_window (sw_window r) ∧ ∃ id digest r0, SloWindowRollup_new id digest r0 = Ok r.
Definition genuine_correction (c : UsageCorrection) : Prop := ∃ id c0, UsageCorrection_new id c0 = Ok c.
Definition genuine_tombstone (t : UsageTombstone) : Prop := ∃ id t0, UsageTombstone_new id t0 = Ok t.
Definition genuine_watermark (w : Watermark) : Prop := validate_Watermark w = Ok ().

Lemma genuine_fact_ok f : genuine_fact f →
  uf_fact_id f = fact_id_of f ∧ uf_fact_digest f = fact_digest_of f ∧
  validate_fact_fields f = Ok () ∧ fact_check_coherence f = Ok ().
Proof.
  intros (_ & _ & id & digest & f0 & H). unfold UsageFact_new in H. guards.
  rewrite <- H. by destruct f0.
Qed.

Lemma fact_fields_ok f : validate_fact_fields f = Ok () →
  Ref (uf_tenant_id f) = true ∧ 0 ≤ uf_quantity f ≤ MAX_FACT_QUANTITY ∧
  in_supported_years (uf_occurred_at f) = true.
Proof.
  unfold validate_fact_fields. constraints. intros (? & _ & _ & ? & Hq & _).
  apply andb_true_iff in Hq as [?%Z.leb_le ?%Z.leb_le]. done.
Qed.
Lemma fact_tenant f : fact_check_coherence f = Ok () → al_tenant_id (uf_allocation f) = uf_tenant_id f.
Proof. unfold fact_check_coherence. intros H. guards. done. Qed.

Lemma genuine_card_ok c : genuine_card c →
  pc_card_id c = card_id_of c ∧ pc_card_digest c = card_digest_of c ∧
  NoDup (map pr_metric (pc_rates c)) ∧ Forall (λ r, 0 ≤ pr_micros_per_unit r) (pc_rates c) ∧
  match pc_effective_to c with Some t => pc_effective_from c < t | None => True end.
Proof.
  intros (Hr & id & digest & c0 & H). unfold PriceCard_new in H. guards.
  assert (Forall (λ r, 0 ≤ pr_micros_per_unit r) (pc_rates c)) as Hpos.
  { eapply Forall_impl; [exact Hr|]. intros r. unfold validate_PriceRate. constraints.
    intros ([?%Z.leb_le _]%andb_true_iff & _). done. }
  revert Hpos. rewrite <- H. destruct c0 as [? ? ? ? ? ? ? [t|] ? ? ?]; cbn in *; guards;
    rewrite has_duplicates_false in *; done.
Qed.

Lemma genuine_window_ok w : genuine_window w →
  aligned (uw_window_start w) ∧ 2000 ≤ year (uw_window_start w) ≤ 2300 ∧
  uw_window_end w = Some (uw_window_start w + window_duration (uw_granularity w)) ∧
  uw_window_id w = window_id_of (uw_granularity w) (uw_window_start w) ∧
  (uw_granularity w = Daily → uw_window_start w mod DAY = 0).
Proof.
  intros (g & start & e & id & H). unfold UsageWindow_new, aligned_window_end in H. guards.
  rewrite check_fields_ok, !Forall_cons in *. rewrite <- H. cbn [uw_window_start uw_granularity uw_window_end uw_window_id fst snd] in *.
  repeat match goal with H : _ ∧ _ |- _ => destruct H end. unfold in_supported_years in *. guards. unfold aligned.
  split_and!; try done; [by subst|]. intros ->. rewrite bool_decide_eq_true_2 in Hok3 by done. cbn in Hok3. guards.
  unfold hour, past_hour, DAY, HOUR, MICROS in *. Z.div_mod_to_equations. lia.
Qed.
