(* ===== verification/EconomicsAccounts.v ===== *)
(** Usage accounting: [aggregate_usage] accounts for every fact exactly once
    and exactly when the facts are accountable, and the daily aggregate of the
    hourly aggregates is the aggregate of all their facts. *)
From S2P Require Export EconomicsService EconomicsIdentity.
Local Open Scope Z_scope.

(** * Sums *)
Definition sum_over {A} (q : A → Z) (l : list A) : Z := foldr (λ x n, q x + n) 0 l.

Lemma sum_over_app {A} (q : A → Z) l1 l2 : sum_over q (l1 ++ l2) = sum_over q l1 + sum_over q l2.
Proof. induction l1 as [|x l1 IH]; cbn; [done|]. fold (sum_over q (l1 ++ l2)) (sum_over q l1). lia. Qed.
Lemma sum_over_perm {A} (q : A → Z) l1 l2 : l1 ≡ₚ l2 → sum_over q l1 = sum_over q l2.
Proof. unfold sum_over. induction 1; cbn [foldr]; lia. Qed.
Lemma sum_over_ext {A} (q1 q2 : A → Z) l : (∀ x, x ∈ l → q1 x = q2 x) → sum_over q1 l = sum_over q2 l.
Proof.
  induction l as [|x l IH]; intros Hq; cbn; [done|]. fold (sum_over q1 l) (sum_over q2 l).
  rewrite Hq, IH; set_solver.
Qed.
Lemma sum_over_nonneg {A} (q : A → Z) l : (∀ x, x ∈ l → 0 ≤ q x) → 0 ≤ sum_over q l.
Proof.
  induction l as [|x l IH]; intros Hq; cbn; [done|]. fold (sum_over q l).
  pose proof (Hq x ltac:(set_solver)). pose proof (IH ltac:(set_solver)). lia.
Qed.
Lemma sum_over_bound {A} (q : A → Z) l b : (∀ x, x ∈ l → q x ≤ b) → sum_over q l ≤ Z.of_nat (length l) * b.
Proof.
  induction l as [|x l IH]; intros Hq; cbn; [done|]. fold (sum_over q l).
  pose proof (Hq x ltac:(set_solver)). pose proof (IH ltac:(set_solver)). lia.
Qed.
Lemma sum_over_single {A} (q : A → Z) l x : NoDup l → x ∈ l → (∀ y, y ∈ l → y ≠ x → q y = 0) → sum_over q l = q x.
Proof.
  induction 1 as [|y l Hy Hnd IH]; intros Hx Hq; [set_solver|]. cbn. fold (sum_over q l).
  apply elem_of_cons in Hx as [->|Hx].
  - assert (sum_over q l = 0) as ->; [|lia]. clear IH Hnd.
    induction l as [|z l IH]; cbn; [done|]. fold (sum_over q l). rewrite (Hq z) by set_solver.
    rewrite IH by set_solver. done.
  - rewrite (Hq y) by set_solver. rewrite IH by set_solver. lia.
Qed.

(** ** Tallies *)
Section tally.
Context {A : Type} (metric : A → MetricKind) (q : A → Z).

Definition metric_sum (m : MetricKind) (xs : list A) : Z := sum_over q (filter (λ x, metric x = m) xs).
Definition tally_of (xs : list A) (t : tally) : tally := foldl (λ t x, tally_add (metric x) (q x) t) t xs.

Lemma metric_sum_cons m x xs : metric_sum m (x :: xs) = (if decide (metric x = m) then q x else 0) + metric_sum m xs.
Proof. unfold metric_sum. rewrite filter_cons. by case_decide. Qed.
Lemma metric_sum_app m xs ys : metric_sum m (xs ++ ys) = metric_sum m xs + metric_sum m ys.
Proof. unfold metric_sum. by rewrite filter_app, sum_over_app. Qed.

Lemma metric_sum_absent m xs : m ∉ map metric xs → metric_sum m xs = 0.
Proof.
  induction xs as [|x xs IH]; intros Hm; [done|]. rewrite metric_sum_cons, decide_False by set_solver.
  rewrite IH by set_solver. done.
Qed.

Lemma tally_of_lookup xs t m :
  tally_of xs t !! m =
    if decide (m ∈ map metric xs) then Some (default 0 (t !! m) + metric_sum m xs) else t !! m.
Proof.
  revert t. induction xs as [|x xs IH]; intros t; [done|]. cbn [tally_of foldl map].
  fold (tally_of xs (tally_add (metric x) (q x) t)). rewrite IH, metric_sum_cons. clear IH.
  unfold tally_add. destruct (decide (metric x = m)) as [E|E].
  - rewrite <- E, lookup_insert_eq, (decide_True (P := _ ∈ _ :: _)) by set_solver. cbn.
    case_decide as Hin; f_equal; [lia|].
    rewrite (metric_sum_absent (metric x)) by done. lia.
  - rewrite lookup_insert_ne by done. rewrite (decide_ext (m ∈ metric x :: map metric xs) (m ∈ map metric xs)) by set_solver.
    by rewrite Z.add_0_l.
Qed.

Lemma tally_of_dom xs : dom (tally_of xs ∅) = list_to_set (map metric xs).
Proof.
  apply set_eq. intros m. rewrite elem_of_dom, elem_of_list_to_set, tally_of_lookup, lookup_empty.
  case_decide; split; [done|by eexists|by intros []|done].
Qed.

Lemma tally_of_sum xs m : default 0 (tally_of xs ∅ !! m) = metric_sum m xs.
Proof.
  rewrite tally_of_lookup, lookup_empty. case_decide as Hin; cbn; [lia|]. by rewrite metric_sum_absent.
Qed.
End tally.

(** ** The totals of a tally *)
Lemma metric_totals_ok ms quantities costs ts :
  metric_totals ms quantities costs = Ok ts ↔
  ts = map (λ m, mkTotal m (default 0 (quantities !! m)) (default 0 (costs !! m))) ms ∧
  Forall (λ t, validate_MetricTotal t = Ok ()) ts.
Proof.
  revert ts. induction ms as [|m ms IH]; intros ts; cbn [metric_totals map].
  - split; [intros [= <-]; by split|by intros [-> _]].
  - rewrite result_bind_ok. split.
    + intros (t & Ht & Hts). apply construct_ok in Ht as [-> Ht]. guards.
      apply IH in Hok as [-> Hv]. rewrite <- Hts. split; [done|by constructor].
    + intros [-> Hv]. inv Hv. eexists. split; [by apply construct_ok|].
      rewrite result_bind_ok. eexists. split; [by apply IH|done].
Qed.

Definition metrics_of (metrics : list MetricKind) : list MetricKind := sort_by metric_str (remove_dups metrics).

Lemma metrics_of_NoDup ms : NoDup (metrics_of ms).
Proof. unfold metrics_of. rewrite sort_by_perm. apply NoDup_remove_dups. Qed.
Lemma elem_of_metrics_of m ms : m ∈ metrics_of ms ↔ m ∈ ms.
Proof. unfold metrics_of. by rewrite elem_of_sort_by, elem_of_remove_dups. Qed.
Lemma metrics_of_ext ms1 ms2 : (∀ m, m ∈ ms1 ↔ m ∈ ms2) → metrics_of ms1 = metrics_of ms2.
Proof.
  intros E. apply (sort_by_unique metric_str).
  - apply NoDup_fmap_2; [apply _|]. apply NoDup_remove_dups.
  - apply NoDup_Permutation; try apply NoDup_remove_dups. intros m. by rewrite !elem_of_remove_dups.
Qed.
Lemma metrics_of_length ms : (length (metrics_of ms) ≤ MAX_METRIC_KINDS)%nat.
Proof.
  change MAX_METRIC_KINDS with (length metric_kinds). apply submseteq_length, NoDup_submseteq; [apply metrics_of_NoDup|].
  intros [] _; by_compute.
Qed.
Lemma sorted_metrics_dom (t : tally) ms : dom t = list_to_set ms → sorted_metrics t = metrics_of ms.
Proof.
  intros E. unfold sorted_metrics. apply (sort_by_unique metric_str).
  - apply NoDup_fmap_2; [apply _|]. apply NoDup_elements.
  - apply NoDup_Permutation; [apply NoDup_elements|apply NoDup_remove_dups|]. intros m.
    rewrite elem_of_elements, E, elem_of_remove_dups. by rewrite elem_of_list_to_set.
Qed.

(** The totals of two quantities over the same items *)
Definition totals_over {A} (metric : A → MetricKind) (q c : A → Z) (xs : list A) : list MetricTotal :=
  map (λ m, mkTotal m (metric_sum metric q m xs) (metric_sum metric c m xs)) (metrics_of (map metric xs)).

Lemma tally_totals {A} (metric : A → MetricKind) (q c : A → Z) xs ts :
  metric_totals (sorted_metrics (tally_of metric q xs ∅)) (tally_of metric q xs ∅) (tally_of metric c xs ∅) = Ok ts ↔
  ts = totals_over metric q c xs ∧ Forall (λ t, validate_MetricTotal t = Ok ()) ts.
Proof.
  rewrite metric_totals_ok, (sorted_metrics_dom _ (map metric xs)) by apply tally_of_dom.
  unfold totals_over. rewrite (map_ext _ (λ m, mkTotal m (metric_sum metric q m xs) (metric_sum metric c m xs)));
    [done|]. intros m. by rewrite !tally_of_sum.
Qed.

(** * The accounting loop *)
Lemma rates_of_foldl rates (m0 : gmap MetricKind Z) m :
  is_Some (foldl (λ d r, <[pr_metric r := pr_micros_per_unit r]> d) m0 rates !! m) ↔
  is_Some (m0 !! m) ∨ m ∈ map pr_metric rates.
Proof.
  revert m0. induction rates as [|r rates IH]; intros m0; cbn [foldl map]; [set_solver|].
  rewrite IH, lookup_insert_is_Some, elem_of_cons.
  destruct (decide (pr_metric r = m)) as [->|]; [tauto|]. split; intros [|]; tauto || (intuition congruence).
Qed.
Lemma rates_of_is_Some card m : is_Some (rates_of card !! m) ↔ m ∈ map pr_metric (pc_rates card).
Proof. unfold rates_of. rewrite rates_of_foldl, lookup_empty. split; [intros [[? ?]|]; done|by right]. Qed.

Lemma rates_of_nonneg card m : Forall (λ r, 0 ≤ pr_micros_per_unit r) (pc_rates card) → 0 ≤ default 0 (rates_of card !! m).
Proof.
  intros Hr. assert (map_Forall (λ _ n, 0 ≤ n) (rates_of card)) as Hall.
  { unfold rates_of. generalize (map_Forall_empty (M := gmap MetricKind) (λ _ n, 0 ≤ n)). generalize (∅ : gmap MetricKind Z).
    induction Hr as [|r rs Hr _ IH]; intros d Hd; cbn [foldl]; [done|]. apply IH. by apply map_Forall_insert_2. }
  destruct (rates_of card !! m) as [n|] eqn:E; cbn; [exact (Hall _ _ E)|done].
Qed.

(** The cost of a fact, once its metric has a rate *)
Definition fact_cost (card : PriceCard) (f : UsageFact) : Z := uf_quantity f * default 0 (rates_of card !! uf_metric f).

Section accounting.
Variables (card : PriceCard) (window : UsageWindow) (tenant : string) (allocation : AllocationRef) (window_end : datetime).

Definition accepts (f : UsageFact) : Prop :=
  uf_tenant_id f = tenant ∧ uf_allocation f = allocation ∧ uf_service_ref f = pc_service_ref card ∧
  (uw_window_start window ≤ uf_occurred_at f ∧ uf_occurred_at f < window_end) ∧ uf_metric f ∈ map pr_metric (pc_rates card).

Lemma account_fact_ok st f st' :
  account_fact card window (tenant, allocation, window_end) st f = Ok st' ↔
  uf_fact_id f ∉ ac_seen st ∧ accepts f ∧
  st' = mkAccounts ({[uf_fact_id f]} ∪ ac_seen st) (tally_add (uf_metric f) (uf_quantity f) (ac_totals st))
          (tally_add (uf_metric f) (fact_cost card f) (ac_costs st)).
Proof.
  unfold accepts. rewrite <- rates_of_is_Some. unfold account_fact, check_fact_scope, check_fact_window_and_price, fact_cost. split.
  - intros H. guards. match goal with E : rates_of card !! _ = Some ?r |- _ => rewrite E in * end.
    cbn [default]. split; [done|]. split; [|done]. by split_and!; [..|eexists].
  - intros (Hs & (Ht & Ha & Hv & [Hlo Hhi] & r & Er) & ->). rewrite Er.
    rewrite (bool_decide_eq_false_2 (_ ∈ _)) by done. rewrite (bool_decide_eq_false_2 (uf_tenant_id f ≠ _)) by auto.
    rewrite (bool_decide_eq_false_2 (uf_allocation f ≠ _)) by auto. rewrite (bool_decide_eq_false_2 (uf_service_ref f ≠ _)) by auto.
    rewrite (proj2 (Z.leb_le _ _)), (proj2 (Z.ltb_lt _ _)) by lia.
    by rewrite (bool_decide_eq_false_2 (Some r = None)) by done.
Qed.

Lemma account_facts_ok facts st st' :
  for_fold (account_fact card window (tenant, allocation, window_end)) facts st = Ok st' ↔
  Forall accepts facts ∧ NoDup (map uf_fact_id facts) ∧ Forall (λ f, uf_fact_id f ∉ ac_seen st) facts ∧
  st' = mkAccounts (list_to_set (map uf_fact_id facts) ∪ ac_seen st) (tally_of uf_metric uf_quantity facts (ac_totals st))
          (tally_of uf_metric (fact_cost card) facts (ac_costs st)).
Proof.
  revert st. induction facts as [|f facts IH]; intros st; cbn [for_fold map].
  - split; [intros [= <-]|intros (_ & _ & _ & ->)]; destruct st as [s t c]; cbn;
      rewrite (left_id_L ∅ (∪)); [by repeat constructor|done].
  - rewrite result_bind_ok, Forall_cons, NoDup_cons, Forall_cons. split.
    + intros (st1 & (Hs & Ha & ->)%account_fact_ok & H%IH). cbn [ac_seen ac_totals ac_costs] in H.
      destruct H as (Hall & Hnd & Hseen & ->). split; [done|]. split; [|split].
      * split; [|done]. intros (g & Eg & Hg)%list_elem_of_fmap. rewrite Forall_forall in Hseen.
        apply Hseen in Hg. set_solver.
      * split; [done|]. eapply Forall_impl; [exact Hseen|]. set_solver.
      * f_equal. cbn [list_to_set]. set_solver.
    + intros ((Ha & Hall) & (Hf & Hnd) & (Hs & Hseen) & ->). eexists. split; [by apply account_fact_ok|].
      apply IH. cbn [ac_seen ac_totals ac_costs]. split; [done|]. split; [done|]. split.
      * rewrite Forall_forall in *. intros g Hg. apply Hseen in Hg as Hg'. intros Hin. apply Hf.
        assert (uf_fact_id g = uf_fact_id f) as <- by set_solver. by apply list_elem_of_fmap_2.
      * f_equal. cbn [list_to_set]. set_solver.
Qed.
End accounting.

(** * Accountable facts *)

(** What [aggregate_usage] asks of the facts of one window *)
Record accountable (facts : list UsageFact) (window : UsageWindow) (card : PriceCard) : Prop := {
  acc_count : 1 ≤ Z.of_nat (length facts) ≤ MAX_FACT_IDS_PER_AGGREGATE;
  acc_once : NoDup (map uf_fact_id facts);
  acc_scope : ∀ f g, f ∈ facts → g ∈ facts → uf_tenant_id f = uf_tenant_id g ∧ uf_allocation f = uf_allocation g;
  acc_service : ∀ f, f ∈ facts → uf_service_ref f = pc_service_ref card;
  acc_window : ∀ f, f ∈ facts → uw_window_start window ≤ uf_occurred_at f ∧
    uf_occurred_at f < uw_window_start window + window_duration (uw_granularity window);
  acc_rated : ∀ f, f ∈ facts → uf_metric f ∈ map pr_metric (pc_rates card);
  acc_priced : pc_effective_from card ≤ uw_window_start window ∧
    match pc_effective_to card with
    | Some t => uw_window_start window + window_duration (uw_granularity window) ≤ t | None => True
    end;
  acc_costs : ∀ m, metric_sum uf_metric (fact_cost card) m facts ≤ 10 ^ 18 }.

(** The aggregate of the facts: their ids and, per metric, their exact sums *)
Definition usage_aggregate (first : UsageFact) (facts : list UsageFact) (window : UsageWindow) (card : PriceCard) :
    WindowAggregate :=
  aggregate_with_identity (mkAggregate "" "" (uf_tenant_id first) (uf_allocation first) window
    (py_sorted (map uf_fact_id facts)) (pc_card_id card) (pc_card_digest card)
    (totals_over uf_metric uf_quantity (fact_cost card) facts)).

Definition price_char (c : ascii) : bool := one_of "price:" c.
Lemma card_id_Ref c : RefField 100 (card_id_of c) = true.
Proof.
  apply (derived_id_RefField price_char); [|cbn; lia]. split; [by eexists _, _|].
  split; [by repeat constructor|]. split; [by repeat constructor|]. vm_compute. done.
Qed.

Lemma card_digest_Digest c : Digest (card_digest_of c) = true.
Proof. unfold card_digest_of. apply kind_digest_Digest. Qed.

(** A new aggregate of checked parts *)
Lemma new_aggregate_ok a b :
  Ref (wa_tenant_id a) = true → RefField 100 (wa_price_card_id a) = true → Digest (wa_price_card_digest a) = true →
  al_tenant_id (wa_allocation a) = wa_tenant_id a → NoDup (wa_fact_ids a) →
  (1 ≤ length (wa_totals a) ≤ MAX_METRIC_KINDS)%nat → NoDup (map mt_metric (wa_totals a)) →
  WindowAggregate_new None None a = Ok b ↔
  1 ≤ Z.of_nat (length (wa_fact_ids a)) ≤ MAX_FACT_IDS_PER_AGGREGATE ∧ b = aggregate_with_identity a.
Proof.
  intros Ht Hp Hd Ha Hf Hl Hm. unfold WindowAggregate_new. rewrite bind_unit_ok, in_validator_ok.
  rewrite (bool_decide_eq_false_2 (al_tenant_id _ ≠ _)) by auto. rewrite (proj2 (has_duplicates_false _) Hf), (proj2 (has_duplicates_false _) Hm).
  rewrite check_fields_ok, !Forall_cons, Forall_nil. cbn [fst snd OptField from_option raise_if check_identity].
  rewrite Ht, Hp, Hd. unfold tuple_len. rewrite (bool_decide_eq_true_2 _ Hl). unfold in_bounds. rewrite andb_true_iff, !Z.leb_le.
  split; [intros [? [= <-]]; tauto|]. intros [? ->]. tauto.
Qed.

Lemma totals_over_metrics {A} (metric : A → MetricKind) q c xs :
  map mt_metric (totals_over metric q c xs) = metrics_of (map metric xs).
Proof. unfold totals_over. rewrite map_map. cbn. apply map_id. Qed.
Lemma totals_over_length {A} (metric : A → MetricKind) q c xs :
  xs ≠ [] → (1 ≤ length (totals_over metric q c xs) ≤ MAX_METRIC_KINDS)%nat.
Proof.
  intros Hx. unfold totals_over. rewrite length_map. split; [|apply metrics_of_length].
  destruct (metrics_of (map metric xs)) as [|m ms] eqn:E; [|cbn; lia]. destruct xs as [|x xs]; [done|].
  assert (metric x ∈ metrics_of (map metric (x :: xs))) as Hin by (apply elem_of_metrics_of; set_solver).
  rewrite E in Hin. set_solver.
Qed.

Lemma metric_sum_le {A} (metric : A → MetricKind) q m xs b :
  0 ≤ b → (∀ x, x ∈ xs → q x ≤ b) → metric_sum metric q m xs ≤ Z.of_nat (length xs) * b.
Proof.
  intros Hb Hq. unfold metric_sum. etransitivity; [apply (sum_over_bound _ _ b)|].
  - intros x [_ Hx]%list_elem_of_filter. by apply Hq.
  - apply Z.mul_le_mono_nonneg_r; [done|]. apply Nat2Z.inj_le, length_filter.
Qed.
Lemma metric_sum_nonneg {A} (metric : A → MetricKind) q m xs :
  (∀ x, x ∈ xs → 0 ≤ q x) → 0 ≤ metric_sum metric q m xs.
Proof. intros Hq. apply sum_over_nonneg. intros x [_ Hx]%list_elem_of_filter. by apply Hq. Qed.

(** Quantities never overflow a total; costs may. *)
Lemma totals_valid facts card :
  Forall genuine_fact facts → genuine_card card → Z.of_nat (length facts) ≤ MAX_FACT_IDS_PER_AGGREGATE →
  Forall (λ t, validate_MetricTotal t = Ok ()) (totals_over uf_metric uf_quantity (fact_cost card) facts) ↔
  ∀ m, metric_sum uf_metric (fact_cost card) m facts ≤ 10 ^ 18.
Proof.
  intros Hf (_ & _ & _ & Hrates & _)%genuine_card_ok Hlen. unfold totals_over. rewrite Forall_map, Forall_forall.
  assert (∀ f, f ∈ facts → 0 ≤ uf_quantity f ≤ MAX_FACT_QUANTITY) as Hq.
  { intros f Hin. rewrite Forall_forall in Hf. apply Hf, genuine_fact_ok in Hin as (_ & _ & H & _).
    by apply fact_fields_ok in H as (_ & ? & _). }
  assert (∀ m, 0 ≤ metric_sum uf_metric (fact_cost card) m facts) as Hc.
  { intros m. apply metric_sum_nonneg. intros f Hin. unfold fact_cost.
    pose proof (rates_of_nonneg card (uf_metric f) Hrates). pose proof (Hq f Hin). nia. }
  assert (∀ m, 0 ≤ metric_sum uf_metric uf_quantity m facts ≤ MAX_FACT_QUANTITY * MAX_FACT_IDS_PER_AGGREGATE) as Hs.
  { intros m. split; [apply metric_sum_nonneg; intros f Hin; by apply Hq|].
    etransitivity; [apply (metric_sum_le _ _ _ _ MAX_FACT_QUANTITY); [done|intros f Hin; by apply Hq]|].
    unfold MAX_FACT_QUANTITY in *. nia. }
  unfold validate_MetricTotal. setoid_rewrite check_fields_ok. split; intros H m.
  - destruct (decide (m ∈ map uf_metric facts)) as [Hin|Hin].
    + apply elem_of_metrics_of, H in Hin. rewrite !Forall_cons in Hin. unfold nonneg, in_bounds in Hin. cbn [fst snd mt_cost_micros] in Hin.
      destruct Hin as (_ & [_ ?%Z.leb_le]%andb_true_iff & _). done.
    + by rewrite metric_sum_absent.
  - intros _. rewrite !Forall_cons. unfold nonneg, in_bounds. cbn [fst snd mt_cost_micros mt_quantity].
    pose proof (Hc m). pose proof (H m). pose proof (Hs m). rewrite !andb_true_iff, !Z.leb_le. split_and!; try tauto. constructor.
Qed.

Definition priced (window : UsageWindow) (card : PriceCard) (window_end : datetime) : Prop :=
  pc_effective_from card ≤ uw_window_start window ∧
  match pc_effective_to card with Some t => window_end ≤ t | None => True end.

Lemma aggregate_scope_ok first window card tenant allocation window_end :
  validate_aggregate_scope first window card = Ok (tenant, allocation, window_end) ↔
  al_tenant_id (uf_allocation first) = uf_tenant_id first ∧ uw_window_end window = Some window_end ∧
  priced window card window_end ∧ tenant = uf_tenant_id first ∧ allocation = uf_allocation first.
Proof.
  unfold validate_aggregate_scope, priced. split.
  - intros H. guards. simplify_eq/=. split_and!; try done. destruct (pc_effective_to card); [by guards|done].
  - intros (Ha & -> & [Hlo Hhi] & -> & ->). rewrite bool_decide_eq_false_2 by auto. cbn.
    rewrite (proj2 (Z.ltb_ge _ _)) by lia. cbn.
    destruct (pc_effective_to card); [by rewrite (proj2 (Z.ltb_ge _ _))|done].
Qed.

Lemma seen_ids (ids : list string) : NoDup ids → py_sorted (elements (list_to_set ids ∪ ∅ : gset string)) = py_sorted ids.
Proof.
  intros Hnd. apply py_sorted_unique. rewrite (right_id_L ∅ (∪)).
  apply NoDup_Permutation; [apply NoDup_elements|done|]. intros x. by rewrite elem_of_elements, elem_of_list_to_set.
Qed.

(** The last step of the aggregation *)
Lemma finish_aggregate facts window card first a :
  Forall genuine_fact facts → genuine_card card → first ∈ facts → NoDup (map uf_fact_id facts) →
  (totals ← metric_totals (sorted_metrics (tally_of uf_metric uf_quantity facts ∅)) (tally_of uf_metric uf_quantity facts ∅)
              (tally_of uf_metric (fact_cost card) facts ∅);
   WindowAggregate_new None None
     (mkAggregate "" "" (uf_tenant_id first) (uf_allocation first) window
        (py_sorted (elements (list_to_set (map uf_fact_id facts) ∪ ∅ : gset string)))
        (pc_card_id card) (pc_card_digest card) totals)) = Ok a ↔
  Z.of_nat (length facts) ≤ MAX_FACT_IDS_PER_AGGREGATE ∧
  (∀ m, metric_sum uf_metric (fact_cost card) m facts ≤ 10 ^ 18) ∧ a = usage_aggregate first facts window card.
Proof.
  intros Hf Hc Hfirst Hnd. rewrite result_bind_ok, seen_ids by done. setoid_rewrite tally_totals.
  pose proof (genuine_card_ok _ Hc) as (Eid & Edig & _). rewrite Forall_forall in Hf.
  assert (facts ≠ []) as Hne by (intros ->; by apply not_elem_of_nil in Hfirst).
  destruct (genuine_fact_ok _ (Hf _ Hfirst)) as (_ & _ & (Ht & _)%fact_fields_ok & Ha%fact_tenant).
  assert (∀ b, WindowAggregate_new None None
     (mkAggregate "" "" (uf_tenant_id first) (uf_allocation first) window (py_sorted (map uf_fact_id facts))
        (pc_card_id card) (pc_card_digest card) (totals_over uf_metric uf_quantity (fact_cost card) facts)) = Ok b ↔
     1 ≤ Z.of_nat (length facts) ≤ MAX_FACT_IDS_PER_AGGREGATE ∧ b = usage_aggregate first facts window card) as Hnew.
  { intros b. rewrite new_aggregate_ok; cbn [wa_tenant_id wa_allocation wa_fact_ids wa_price_card_id wa_price_card_digest wa_totals].
    - assert (length (py_sorted (map uf_fact_id facts)) = length facts) as -> by (by rewrite py_sorted_perm, length_map).
      unfold usage_aggregate. reflexivity.
    - done.
    - rewrite Eid. apply card_id_Ref.
    - rewrite Edig. apply card_digest_Digest.
    - done.
    - by rewrite py_sorted_perm.
    - by apply totals_over_length.
    - rewrite totals_over_metrics. apply metrics_of_NoDup. }
  rewrite <- Forall_forall in Hf. split.
  - intros (ts & [-> Hv] & [[_ Hl] ->]%Hnew). split; [done|]. split; [|done]. by apply (proj1 (totals_valid _ _ Hf Hc Hl)).
  - intros (Hl & Hcost & ->). eexists. split; [split; [done|by apply (proj2 (totals_valid _ _ Hf Hc Hl))]|]. apply Hnew. split; [|done].
    destruct facts; [done|cbn in *; lia].
Qed.

(** C19: [aggregate_usage] returns exactly when the facts are accountable: between
    1 and 100,000 distinct facts of one tenant, allocation and service, all
    inside the window, every metric priced by a card that covers the window,
    and no cost above 10^18 micros. The aggregate then lists every fact once
    and holds, for every metric that occurs, the exact sums of quantities and
    of quantities times rates. *)
Theorem aggregate_usage_spec facts window card a :
  Forall genuine_fact facts → genuine_window window → genuine_card card →
  aggregate_usage facts window card = Ok a ↔
  accountable facts window card ∧ ∃ first, head facts = Some first ∧ a = usage_aggregate first facts window card.
Proof.
  intros Hf (_ & _ & Hend & _)%genuine_window_ok Hc. unfold aggregate_usage. rewrite result_bind_ok. split.
  - intros (first & Hhead%require_ok & H). guard_step. destruct x as [[tenant allocation] e].
    apply aggregate_scope_ok in Hok as (Ha & He & Hp & -> & ->). guard_step.
    apply account_facts_ok in Hok as (Hall & Hnd & _ & ->). cbn [ac_seen ac_totals ac_costs no_accounts fst snd] in H.
    assert (first ∈ facts) as Hin by (destruct facts; simplify_eq/=; set_solver).
    apply (finish_aggregate facts) in H as (Hl & Hcost & ->); [|done..].
    rewrite Hend in He. injection He as <-. unfold accepts in Hall. rewrite Forall_forall in Hall.
    split; [|by exists first]. split; try done; try (intros f Hx; apply Hall in Hx; tauto).
    + destruct facts; [done|]. cbn in *. lia.
    + intros f g Hx%Hall Hy%Hall. intuition congruence.
  - intros [Hacc (first & Hhead & ->)]. exists first. split; [by apply require_ok|].
    assert (first ∈ facts) as Hin by (destruct facts; simplify_eq/=; set_solver).
    rewrite Forall_forall in Hf. pose proof (genuine_fact_ok _ (Hf _ Hin)) as (_ & _ & _ & Ht%fact_tenant).
    rewrite <- Forall_forall in Hf. rewrite result_bind_ok.
    exists (uf_tenant_id first, uf_allocation first, uw_window_start window + window_duration (uw_granularity window)).
    split; [apply aggregate_scope_ok; split_and!; [done..|apply (acc_priced _ _ _ Hacc)|done|done]|].
    rewrite result_bind_ok. eexists. split.
    { apply account_facts_ok. split; [|split; [apply (acc_once _ _ _ Hacc)|split; [|done]]].
      - apply Forall_forall. intros f Hx. unfold accepts. destruct (acc_scope _ _ _ Hacc f first Hx Hin) as [-> ->].
        pose proof (acc_service _ _ _ Hacc f Hx). pose proof (acc_window _ _ _ Hacc f Hx). pose proof (acc_rated _ _ _ Hacc f Hx). tauto.
      - apply Forall_forall. intros f _. cbn. set_solver. }
    cbn [ac_seen ac_totals ac_costs no_accounts fst snd]. apply (finish_aggregate facts); [done..|apply (acc_once _ _ _ Hacc)|].
    split; [apply (acc_count _ _ _ Hacc)|]. split; [apply (acc_costs _ _ _ Hacc)|done].
Qed.

(** * The day from its hours *)
Lemma metric_sum_perm {A} (metric : A → MetricKind) q m xs ys :
  xs ≡ₚ ys → metric_sum metric q m xs = metric_sum metric q m ys.
Proof. intros HP. unfold metric_sum. apply sum_over_perm. by rewrite HP. Qed.
Lemma metric_sum_concat {A} (metric : A → MetricKind) q m xss :
  metric_sum metric q m (concat xss) = sum_over (metric_sum metric q m) xss.
Proof.
  induction xss as [|xs xss IH]; [done|]. cbn [concat]. rewrite metric_sum_app, IH. done.
Qed.

(** The totals of the totals are the sums over the items. *)
Lemma metric_sum_totals (v : MetricTotal → Z) (s : MetricKind → Z) (mk : MetricKind → MetricTotal) m ms :
  NoDup ms → (∀ k, mt_metric (mk k) = k ∧ v (mk k) = s k) →
  metric_sum mt_metric v m (map mk ms) = if decide (m ∈ ms) then s m else 0.
Proof.
  intros Hnd Hmk. induction Hnd as [|k ms Hk Hnd IH]; [done|]. cbn [map]. rewrite metric_sum_cons, IH.
  destruct (Hmk k) as [-> ->]. destruct (decide (k = m)) as [->|Hne].
  - rewrite (decide_False (P := _ ∈ ms)), (decide_True (P := _ ∈ _ :: _)) by set_solver. lia.
  - rewrite (decide_ext (m ∈ k :: ms) (m ∈ ms)) by set_solver. lia.
Qed.

Section composed.
Context {A : Type} (metric : A → MetricKind) (q c : A → Z) (xss : list (list A)) (tss : list (list MetricTotal)).
Hypothesis Htss : Forall2 (λ xs ts, ts ≡ₚ totals_over metric q c xs) xss tss.

Lemma composed_sum (v : MetricTotal → Z) (f : A → Z) m :
  (∀ xs k, v (mkTotal k (metric_sum metric q k xs) (metric_sum metric c k xs)) = metric_sum metric f k xs) →
  metric_sum mt_metric v m (concat tss) = metric_sum metric f m (concat xss).
Proof.
  intros Hv. rewrite !metric_sum_concat. induction Htss as [|xs ts xss' tss' Hts Hrest IH]; [done|].
  cbn. fold (sum_over (metric_sum mt_metric v m) tss') (sum_over (metric_sum metric f m) xss'). rewrite (IH Hrest). f_equal.
  rewrite (metric_sum_perm _ _ _ _ _ Hts). unfold totals_over.
  rewrite (metric_sum_totals v (λ k, metric_sum metric f k xs)); [|apply metrics_of_NoDup|intros k; split; [done|apply Hv]].
  case_decide as Hm; [done|]. rewrite elem_of_metrics_of in Hm. by rewrite metric_sum_absent.
Qed.

Lemma composed_totals : totals_over mt_metric mt_quantity mt_cost_micros (concat tss) = totals_over metric q c (concat xss).
Proof.
  unfold totals_over. rewrite (metrics_of_ext (map mt_metric (concat tss)) (map metric (concat xss))).
  - apply map_ext. intros m. by rewrite (composed_sum mt_quantity q), (composed_sum mt_cost_micros c).
  - intros m. clear -Htss. induction Htss as [|xs ts xss' tss' Hts Hrest IH]; [done|]. cbn [concat].
    rewrite !map_app, !elem_of_app, (IH Hrest). assert (m ∈ map mt_metric ts ↔ m ∈ map metric xs) as ->; [|done].
    rewrite <- (elem_of_metrics_of m (map metric xs)), <- (totals_over_metrics metric q c xs). by rewrite Hts.
Qed.
End composed.

Lemma sort_totals_perm ts : sort_totals ts ≡ₚ ts.
Proof. apply sort_by_perm. Qed.

Definition hours_of (day : UsageWindow) : list datetime := map (λ i, uw_window_start day + i * HOUR) (seqZ 0 24).

Lemma hours_of_NoDup day : NoDup (hours_of day).
Proof.
  unfold hours_of. apply NoDup_fmap_2; [|apply NoDup_seqZ]. intros i j. unfold HOUR, MICROS. lia.
Qed.

Lemma daily_completeness_ok day hours :
  validate_daily_completeness day hours = Ok () ↔ map (λ a, uw_window_start (wa_window a)) hours ≡ₚ hours_of day.
Proof.
  unfold validate_daily_completeness. fold (hours_of day). rewrite raise_if_ok, orb_false_iff, !bool_decide_not_false.
  assert (length (hours_of day) = 24%nat) as Hl by done.
  set (starts := map _ hours). assert (length starts = length hours) as El by apply length_map. split.
  - intros [Es E24]. assert (NoDup starts) as Hnd.
    { apply list_to_set_size_NoDup. rewrite Es, <- (proj2 (list_to_set_size_NoDup _) (hours_of_NoDup day)). lia. }
    apply NoDup_Permutation; [done|apply hours_of_NoDup|]. intros x.
    by rewrite <- !(elem_of_list_to_set (C := gset Z)), Es.
  - intros HP. split; [by rewrite HP|]. rewrite <- El, HP. done.
Qed.

(** An hour of the day: the facts it was aggregated from and its aggregate *)
Definition hour_part (card : PriceCard) (p : list UsageFact * WindowAggregate) : Prop :=
  Forall genuine_fact p.1 ∧ genuine_window (wa_window p.2) ∧ uw_granularity (wa_window p.2) = Hourly ∧
  aggregate_usage p.1 (wa_window p.2) card = Ok p.2.

Lemma hour_part_ok card p : genuine_card card → hour_part card p →
  accountable p.1 (wa_window p.2) card ∧
  ∃ first, head p.1 = Some first ∧ p.2 = usage_aggregate first p.1 (wa_window p.2) card.
Proof. intros Hc (Hf & Hw & _ & H). by apply aggregate_usage_spec in H. Qed.

Lemma usage_aggregate_fields first facts window card :
  let a := usage_aggregate first facts window card in
  wa_tenant_id a = uf_tenant_id first ∧ wa_allocation a = uf_allocation first ∧
  wa_price_card_id a = pc_card_id card ∧ wa_price_card_digest a = pc_card_digest card ∧
  wa_fact_ids a ≡ₚ map uf_fact_id facts ∧ wa_totals a ≡ₚ totals_over uf_metric uf_quantity (fact_cost card) facts.
Proof.
  cbn. split_and!; try done; [by rewrite !py_sorted_perm|apply sort_totals_perm].
Qed.

Lemma daily_scope_ok hours h :
  validate_daily_scope_consistency hours = Ok h ↔
  head hours = Some h ∧ ∀ a, a ∈ hours → wa_tenant_id a = wa_tenant_id h ∧ wa_allocation a = wa_allocation h ∧
    wa_price_card_id a = wa_price_card_id h ∧ wa_price_card_digest a = wa_price_card_digest h.
Proof.
  unfold validate_daily_scope_consistency. rewrite result_bind_ok. split.
  - intros (x & Hh%require_ok & H). guards. subst x. split; [done|]. intros a Ha.
    match goal with E : existsb _ _ = false |- _ => rewrite existsb_false in E; specialize (E _ Ha) end. guards. done.
  - intros [Hh Hall]. exists h. split; [by apply require_ok|]. rewrite bind_unit_ok, raise_if_ok. split; [|done].
    apply existsb_false. intros a (-> & -> & -> & ->)%Hall. rewrite !orb_false_iff, !bool_decide_not_false. done.
Qed.

Lemma sum_daily_totals_ok hours ts :
  sum_daily_totals hours = Ok ts ↔
  ts = totals_over mt_metric mt_quantity mt_cost_micros (concat (map wa_totals hours)) ∧
  Forall (λ t, validate_MetricTotal t = Ok ()) ts.
Proof. apply tally_totals. Qed.

Section daily.
Variables (card : PriceCard) (day : UsageWindow) (parts : list (list UsageFact * WindowAggregate)).
Hypotheses (Hcard : genuine_card card) (Hday : genuine_window day) (Hg : uw_granularity day = Daily).
Hypothesis Hparts : Forall (hour_part card) parts.

Definition day_facts : list UsageFact := concat (map fst parts).
Let hours := map snd parts.

Lemma parts_facts p : p ∈ parts → Forall genuine_fact p.1 ∧ accountable p.1 (wa_window p.2) card ∧
  ∃ first, head p.1 = Some first ∧ p.2 = usage_aggregate first p.1 (wa_window p.2) card.
Proof.
  rewrite Forall_forall in Hparts. intros Hp%Hparts. split; [apply Hp|]. by apply hour_part_ok.
Qed.

Lemma day_fact_part f : f ∈ day_facts ↔ ∃ p, p ∈ parts ∧ f ∈ p.1.
Proof.
  unfold day_facts. rewrite elem_of_concat. split.
  - intros (l & Hf & (p & -> & Hp)%list_elem_of_fmap). by exists p.
  - intros (p & Hp & Hf). exists p.1. split; [done|by apply list_elem_of_fmap_2].
Qed.

Lemma day_facts_genuine : Forall genuine_fact day_facts.
Proof.
  apply Forall_forall. intros f (p & Hp & Hf)%day_fact_part. apply parts_facts in Hp as [Hall _].
  rewrite Forall_forall in Hall. by apply Hall.
Qed.

Lemma day_fact_ids : concat (map wa_fact_ids hours) ≡ₚ map uf_fact_id day_facts.
Proof.
  unfold hours, day_facts. assert (∀ p, p ∈ parts → wa_fact_ids p.2 ≡ₚ map uf_fact_id p.1) as Hp.
  { intros p (_ & _ & first & _ & ->)%parts_facts. apply usage_aggregate_fields. }
  clear -Hp. induction parts as [|p ps IH]; [done|]. cbn. rewrite map_app, (Hp p) by set_solver.
  apply Permutation_app_head. apply IH. set_solver.
Qed.

Lemma day_totals : totals_over mt_metric mt_quantity mt_cost_micros (concat (map wa_totals hours)) =
  totals_over uf_metric uf_quantity (fact_cost card) day_facts.
Proof.
  unfold day_facts, hours. apply composed_totals. rewrite map_map.
  assert (∀ p, p ∈ parts → wa_totals p.2 ≡ₚ totals_over uf_metric uf_quantity (fact_cost card) p.1) as Hp.
  { intros p (_ & _ & first & _ & ->)%parts_facts. apply usage_aggregate_fields. }
  clear -Hp. induction parts as [|p ps IH]; [constructor|]. cbn. constructor; [apply Hp; set_solver|apply IH; set_solver].
Qed.

(** ** The hours cover the day *)
Hypothesis Hhours : map (λ a, uw_window_start (wa_window a)) hours ≡ₚ hours_of day.

Lemma hour_in_day p : p ∈ parts →
  uw_window_start day ≤ uw_window_start (wa_window p.2) ∧
  uw_window_start (wa_window p.2) + HOUR ≤ uw_window_start day + DAY.
Proof.
  intros Hp. assert (uw_window_start (wa_window p.2) ∈ hours_of day) as Hin.
  { rewrite <- Hhours. unfold hours. rewrite map_map. 
    by apply (list_elem_of_fmap_2 (λ x : list UsageFact * WindowAggregate, uw_window_start (wa_window x.2))). }
  apply list_elem_of_fmap in Hin as (i & -> & Hi%elem_of_seqZ). unfold DAY, HOUR, MICROS. lia.
Qed.

Lemma day_hour i : 0 ≤ i < 24 → ∃ p, p ∈ parts ∧ uw_window_start (wa_window p.2) = uw_window_start day + i * HOUR.
Proof.
  intros Hi. assert (uw_window_start day + i * HOUR ∈ hours_of day) as Hin.
  { unfold hours_of. apply (list_elem_of_fmap_2 (λ i, uw_window_start day + i * HOUR)). apply elem_of_seqZ. lia. }
  rewrite <- Hhours in Hin. unfold hours in Hin. rewrite map_map in Hin.
  apply list_elem_of_fmap in Hin as (p & E & Hp). by exists p.
Qed.

Lemma part_hourly p : p ∈ parts → uw_granularity (wa_window p.2) = Hourly.
Proof. rewrite Forall_forall in Hparts. by intros (_ & _ & E & _)%Hparts. Qed.

Lemma day_priced : priced day card (uw_window_start day + window_duration (uw_granularity day)).
Proof.
  rewrite Hg. cbn [window_duration]. destruct (day_hour 0) as (p & Hp & E0); [lia|]. destruct (day_hour 23) as (p' & Hp' & E23); [lia|].
  pose proof (parts_facts _ Hp) as (_ & Ha & _). pose proof (parts_facts _ Hp') as (_ & Ha' & _).
  pose proof (proj1 (acc_priced _ _ _ Ha)) as Hlo. pose proof (proj2 (acc_priced _ _ _ Ha')) as Hhi.
  rewrite part_hourly in Hhi by done. cbn [window_duration] in Hhi. rewrite E0 in Hlo. rewrite E23 in Hhi.
  split; [lia|]. destruct (pc_effective_to card); [|done]. unfold DAY, HOUR, MICROS in *. lia.
Qed.

Definition one_scope (facts : list UsageFact) : Prop :=
  ∀ f g, f ∈ facts → g ∈ facts → uf_tenant_id f = uf_tenant_id g ∧ uf_allocation f = uf_allocation g.

Lemma day_accountable : accountable day_facts day card ↔
  Z.of_nat (length day_facts) ≤ MAX_FACT_IDS_PER_AGGREGATE ∧ NoDup (map uf_fact_id day_facts) ∧ one_scope day_facts ∧
  ∀ m, metric_sum uf_metric (fact_cost card) m day_facts ≤ 10 ^ 18.
Proof.
  split; [intros [? ? ? ? ? ? ? ?]; unfold one_scope; tauto|]. intros (Hl & Hnd & Hs & Hc).
  assert (∀ f, f ∈ day_facts → ∃ p, p ∈ parts ∧ f ∈ p.1 ∧ accountable p.1 (wa_window p.2) card) as Hpart.
  { intros f (p & Hp & Hf)%day_fact_part. exists p. split; [done|]. split; [done|]. apply (parts_facts _ Hp). }
  split; try done.
  - split; [|done]. destruct (day_hour 0) as (p & Hp & _); [lia|]. pose proof (parts_facts _ Hp) as (_ & _ & first & Hh & _).
    destruct day_facts as [|f fs] eqn:E; [|cbn; lia]. exfalso. apply (not_elem_of_nil first). rewrite <- E.
    apply day_fact_part. exists p. split; [done|]. destruct p.1; simplify_eq/=; set_solver.
  - intros f (p & _ & Hf & Ha)%Hpart. by apply (acc_service _ _ _ Ha).
  - intros f (p & Hp & Hf & Ha)%Hpart. pose proof (acc_window _ _ _ Ha f Hf) as Hw. rewrite part_hourly in Hw by done.
    rewrite Hg. cbn [window_duration] in *. pose proof (hour_in_day p Hp). lia.
  - intros f (p & _ & Hf & Ha)%Hpart. by apply (acc_rated _ _ _ Ha).
  - exact day_priced.
Qed.

(** The hour a fact was aggregated in carries its tenant and allocation. *)
Lemma part_scope p f : p ∈ parts → f ∈ p.1 → wa_tenant_id p.2 = uf_tenant_id f ∧ wa_allocation p.2 = uf_allocation f.
Proof.
  intros (_ & Ha & first & Hh & E)%parts_facts Hf. destruct (usage_aggregate_fields first p.1 (wa_window p.2) card) as (Et & Eal & _).
  rewrite <- E in Et, Eal. rewrite Et, Eal. apply (acc_scope _ _ _ Ha); [|done]. destruct p.1; simplify_eq/=; set_solver.
Qed.

Lemma parts_head : ∃ p first rest, head (hours) = Some p.2 ∧ p ∈ parts ∧ head p.1 = Some first ∧
  day_facts = first :: rest ∧ first ∈ p.1 ∧ p.2 = usage_aggregate first p.1 (wa_window p.2) card.
Proof.
  destruct (day_hour 0) as (p & Hp & _); [lia|]. unfold hours, day_facts.
  pose proof parts_facts as Hpf. clear Hparts Hhours. destruct parts as [|p0 ps]; [by apply not_elem_of_nil in Hp|].
  destruct (Hpf p0) as (_ & _ & first & Hh & E); [by left|]. exists p0, first.
  destruct p0 as [[|f fs] a]; simplify_eq/=. exists (fs ++ concat (map fst ps)). split_and!; try done; by left.
Qed.

Lemma composed_scope p : head (hours) = Some p.2 → p ∈ parts →
  validate_daily_scope_consistency (hours) = Ok p.2 ↔ one_scope day_facts.
Proof.
  intros Hh Hp. rewrite daily_scope_ok. split.
  - intros [_ Hall] f g (pf & Hpf & Hf)%day_fact_part (pg & Hpg & Hfg)%day_fact_part.
    destruct (part_scope _ _ Hpf Hf) as [<- <-], (part_scope _ _ Hpg Hfg) as [<- <-].
    destruct (Hall pf.2) as (-> & -> & _); [by apply list_elem_of_fmap_2|].
    destruct (Hall pg.2) as (-> & -> & _); [by apply list_elem_of_fmap_2|]. done.
  - intros Hone. split; [done|]. intros a (pa & -> & Hpa)%list_elem_of_fmap.
    pose proof (parts_facts pa Hpa) as (_ & _ & fa & Ha & Ea).
    pose proof (parts_facts p Hp) as (_ & _ & fp & Hfp & Ep).
    destruct (usage_aggregate_fields fa pa.1 (wa_window pa.2) card) as (Ta & Aa & Ia & Da & _). rewrite <- Ea in *.
    destruct (usage_aggregate_fields fp p.1 (wa_window p.2) card) as (Tp & Ap & Ip & Dp & _). rewrite <- Ep in *.
    rewrite Ta, Aa, Ia, Da, Tp, Ap, Ip, Dp. destruct (Hone fa fp) as [-> ->]; [apply day_fact_part..|done].
    + exists pa. split; [done|]. destruct pa.1; simplify_eq/=. by left.
    + exists p. split; [done|]. destruct p.1; simplify_eq/=. by left.
Qed.

Definition compose_hours : result WindowAggregate :=
  first ← validate_daily_scope_consistency hours;
  fact_ids ← validate_daily_fact_ids hours;
  totals ← sum_daily_totals hours;
  WindowAggregate_new None None (mkAggregate "" "" (wa_tenant_id first) (wa_allocation first) day (py_sorted fact_ids)
    (wa_price_card_id first) (wa_price_card_digest first) totals).

Lemma new_day_aggregate first a : first ∈ day_facts → NoDup (map uf_fact_id day_facts) →
  WindowAggregate_new None None
    (mkAggregate "" "" (uf_tenant_id first) (uf_allocation first) day (py_sorted (concat (map wa_fact_ids hours)))
       (pc_card_id card) (pc_card_digest card) (totals_over uf_metric uf_quantity (fact_cost card) day_facts)) = Ok a ↔
  Z.of_nat (length day_facts) ≤ MAX_FACT_IDS_PER_AGGREGATE ∧ a = usage_aggregate first day_facts day card.
Proof.
  intros Hin Hnd. rewrite (py_sorted_unique _ _ day_fact_ids). pose proof day_facts_genuine as Hgen. rewrite Forall_forall in Hgen.
  pose proof (genuine_card_ok _ Hcard) as (Eid & Edig & _).
  destruct (genuine_fact_ok _ (Hgen _ Hin)) as (_ & _ & (Ht & _)%fact_fields_ok & Ha%fact_tenant).
  assert (day_facts ≠ []) as Hne by (intros E; rewrite E in Hin; by apply not_elem_of_nil in Hin).
  rewrite new_aggregate_ok; cbn [wa_tenant_id wa_allocation wa_fact_ids wa_price_card_id wa_price_card_digest wa_totals].
  - assert (length (py_sorted (map uf_fact_id day_facts)) = length day_facts) as -> by (by rewrite py_sorted_perm, length_map).
    unfold usage_aggregate. assert (length day_facts ≠ 0%nat) by (by intros ?%length_zero_iff_nil).
    split; intros [? ?]; (split; [lia|done]).
  - done.
  - rewrite Eid. apply card_id_Ref.
  - rewrite Edig. apply card_digest_Digest.
  - done.
  - by rewrite py_sorted_perm.
  - by apply totals_over_length.
  - rewrite totals_over_metrics. apply metrics_of_NoDup.
Qed.

Lemma compose_hours_ok a : compose_hours = Ok a ↔ aggregate_usage day_facts day card = Ok a.
Proof.
  rewrite aggregate_usage_spec, day_accountable by (done || apply day_facts_genuine).
  destruct parts_head as (p & first & rest & Hhd & Hp & Hfirst & Efacts & Hin & Ep).
  destruct (usage_aggregate_fields first p.1 (wa_window p.2) card) as (Et & Eal & Ei & Ed & _). rewrite <- Ep in *.
  assert (first ∈ day_facts) as Hfd by (rewrite Efacts; by left).
  unfold compose_hours. rewrite result_bind_ok. split.
  - intros (h & Hs & H). assert (h = p.2) as -> by (apply daily_scope_ok in Hs as [E _]; congruence).
    apply composed_scope in Hs; [|done..]. rewrite Et, Eal, Ei, Ed in H. unfold validate_daily_fact_ids in H. guards.
    rewrite has_duplicates_false in *. subst. apply sum_daily_totals_ok in Hok0 as [-> Hv].
    rewrite day_totals in *. rewrite day_fact_ids in Hok1. apply new_day_aggregate in H as [Hl ->]; [|done..].
    pose proof (proj1 (totals_valid _ _ day_facts_genuine Hcard Hl) Hv). split; [done|]. exists first. by rewrite Efacts.
  - intros ((Hl & Hnd & Hs & Hc) & first' & Hh & ->). rewrite Efacts in Hh. injection Hh as <-.
    exists p.2. split; [by apply composed_scope|]. rewrite Et, Eal, Ei, Ed. unfold validate_daily_fact_ids.
    rewrite result_bind_ok. exists (concat (map wa_fact_ids hours)). split.
    { rewrite bind_unit_ok, raise_if_ok, has_duplicates_false. split; [by rewrite day_fact_ids|done]. }
    rewrite result_bind_ok. exists (totals_over uf_metric uf_quantity (fact_cost card) day_facts). split.
    { apply sum_daily_totals_ok. rewrite day_totals. split; [done|]. by apply (proj2 (totals_valid _ _ day_facts_genuine Hcard Hl)). }
    by apply new_day_aggregate.
Qed.
End daily.

(** C7: composing a day from hourly aggregates is exact: for hours aggregated
    with one price card, [aggregate_daily_from_hours] returns an aggregate
    exactly when the hours are the 24 hours of the day, each once, and
    [aggregate_usage] returns that same aggregate for all their facts and the
    day, so no fact is lost, counted twice or priced differently. *)
Theorem daily_is_aggregate_of_facts card day parts a :
  genuine_card card → genuine_window day → uw_granularity day = Daily → Forall (hour_part card) parts →
  aggregate_daily_from_hours (map snd parts) day = Ok a ↔
  map (λ h, uw_window_start (wa_window h)) (map snd parts) ≡ₚ hours_of day ∧
  aggregate_usage (day_facts parts) day card = Ok a.
Proof.
  intros Hcard Hday Hg Hparts. unfold aggregate_daily_from_hours. rewrite bind_unit_ok, raise_if_ok, bool_decide_not_false.
  rewrite bind_unit_ok, daily_completeness_ok.
  fold (compose_hours day parts). split.
  - intros (_ & Hh & H). split; [done|]. by apply (compose_hours_ok card day parts).
  - intros [Hh H]. split; [done|]. split; [done|]. by apply (compose_hours_ok card day parts).
Qed.
