(* ===== verification/EconomicsDecisions.v ===== *)
(** The decisions of the economics service: lateness of usage facts, the
    status of SLO rollups, and the reconciliation of samples. *)
From S2P Require Export EconomicsService EconomicsIdentity.
Local Open Scope Z_scope.

(** * Late events *)
Definition usage_char (c : ascii) : bool := one_of "usage:" c.
Lemma fact_id_Ref f : RefField 80 (fact_id_of f) = true.
Proof.
  apply (derived_id_RefField usage_char); [|cbn; lia]. split; [by eexists _, _|].
  split; [by repeat constructor|]. split; [by repeat constructor|]. vm_compute. done.
Qed.

Lemma late_decision_ok f s r t :
  genuine_fact f → in_supported_years t = true → late_decision f s r t = Ok (mkLateDecision (uf_fact_id f) s r t).
Proof.
  intros (Eid & _)%genuine_fact_ok Ht. unfold late_decision. apply construct_ok. split; [done|].
  unfold validate_LateEventDecision. constraints. cbn [ld_fact_id ld_watermark_at]. by rewrite Eid, fact_id_Ref.
Qed.

(** How far a fact lies behind a watermark, in microseconds *)
Definition lateness (f : UsageFact) (w : Watermark) : Z := wm_watermark_at w - uf_occurred_at f.
Definition watches (w : Watermark) (f : UsageFact) : Prop :=
  wm_tenant_id w = uf_tenant_id f ∧ wm_source_ref w = uf_source_ref f.

Lemma policy_ages p : validate_WatermarkPolicy p = Ok () →
  0 ≤ wp_allowed_lateness_seconds p ≤ wp_max_correction_age_seconds p.
Proof.
  unfold validate_WatermarkPolicy. constraints. intros ((_ & [?%Z.leb_le _]%andb_true_iff & _) & ?%Z.ltb_ge). lia.
Qed.

(** Every fact of the watermark's tenant and source gets a decision, none is
    dropped: it is accepted exactly when it is not behind the watermark; a
    correction is required exactly when the policy corrects late events and the
    fact is behind by at most the correction age; otherwise it is rejected, with
    [CorrectionWindowExpired] exactly when it is also outside the allowed
    lateness. The bounds are inclusive. *)
Theorem late_event_classified f w p :
  genuine_fact f → genuine_watermark w → validate_WatermarkPolicy p = Ok () → watches w f →
  ∃ d, decide_late_event f (Some w) p = Ok d ∧ ld_fact_id d = uf_fact_id f ∧ ld_watermark_at d = wm_watermark_at w ∧
    (ld_status d = LateAccepted ↔ lateness f w ≤ 0) ∧
    (ld_status d = CorrectionRequired ↔
       wp_late_event_mode p = CorrectLate ∧ 0 < lateness f w ≤ wp_max_correction_age_seconds p * MICROS) ∧
    (ld_reason d = OnTime ↔ lateness f w ≤ 0) ∧
    (ld_reason d = WithinLateness ↔ 0 < lateness f w ≤ wp_allowed_lateness_seconds p * MICROS) ∧
    (ld_reason d = CorrectionWindowExpired ↔
       ld_status d = LateRejected ∧ wp_allowed_lateness_seconds p * MICROS < lateness f w).
Proof.
  intros Hf Hw Hp%policy_ages [Et Es]. assert (in_supported_years (wm_watermark_at w) = true) as Hy.
  { unfold genuine_watermark, validate_Watermark in Hw. revert Hw. constraints. tauto. }
  unfold decide_late_event, lateness. rewrite Et, Es.
  rewrite (bool_decide_eq_false_2 (uf_tenant_id f ≠ _)), (bool_decide_eq_false_2 (uf_source_ref f ≠ _)) by auto.
  cbn [orb raise_if]. cbn [mbind result_bind mret result_ret].
  rewrite !late_decision_ok by done. unfold MICROS. set (age := wm_watermark_at w - uf_occurred_at f).
  destruct (Z.leb_spec age 0), (Z.leb_spec age (wp_allowed_lateness_seconds p * 1000000)),
    (Z.leb_spec age (wp_max_correction_age_seconds p * 1000000)), (wp_late_event_mode p); try lia; cbn;
    (eexists; split; [reflexivity|]; cbn; split_and!; try reflexivity);
    (split; intros; repeat match goal with H : _ ∧ _ |- _ => destruct H end; split_and?; first [discriminate|reflexivity|lia]).
Qed.

(** * SLO rollups *)
Definition slo_char (c : ascii) : bool := one_of "slo:" c.
Lemma objective_id_Ref o : RefField 100 (objective_id_of o) = true.
Proof.
  apply (derived_id_RefField slo_char); [|cbn; lia]. split; [by eexists _, _|].
  split; [by repeat constructor|]. split; [by repeat constructor|]. vm_compute. done.
Qed.

Lemma genuine_objective_ok o : genuine_objective o →
  so_objective_id o = objective_id_of o ∧ Ref (so_tenant_id o) = true ∧ check_target_shape o = Ok ().
Proof.
  intros (id & o0 & H). unfold SloObjective_new in H. guards. rewrite <- H.
  match goal with E : check_fields _ = _ |- _ => apply check_fields_ok in E; rewrite !Forall_cons in E end.
  destruct o0; cbn in *. tauto.
Qed.

Definition accounts_every_event (o : SloObjective) : Prop := so_sli o ∈ [Availability; ErrorRate].

Lemma objective_comparison o : genuine_objective o →
  (so_sli o = Availability → so_comparison o = Gte) ∧ (so_sli o = ErrorRate → so_comparison o = Lte).
Proof.
  intros (_ & _ & H)%genuine_objective_ok. unfold check_target_shape in H. guards.
  split; intros E; rewrite E in *; [by rewrite bool_decide_eq_true_2 in H by by_compute|by rewrite bool_decide_eq_false_2 in H by by_compute].
Qed.

Definition valid_counts (o : SloObjective) (good total bad : Z) : Prop :=
  0 ≤ good ≤ total ∧ 0 ≤ bad ≤ total ∧ (accounts_every_event o → good + bad = total).
Lemma slo_counts_ok o good total bad : validate_slo_counts o good total bad = Ok () ↔ valid_counts o good total bad.
Proof.
  unfold validate_slo_counts, valid_counts, accounts_every_event. rewrite bind_unit_ok, bind_unit_ok, !raise_if_ok.
  rewrite !orb_false_iff, !Z.ltb_ge, andb_false_iff, negb_false_iff, Z.eqb_eq, bool_decide_eq_false.
  destruct (decide (so_sli o ∈ [Availability; ErrorRate])); intuition lia.
Qed.

(** What a rollup measures, per kind of indicator; floor division of the counts
    for the two kinds the service computes *)
Definition measurement (o : SloObjective) (good total bad : Z) (supplied : option Z) : option Z :=
  if total =? 0 then None
  else match so_sli o with
       | Availability => Some (good * MAX_MICROS / total)
       | ErrorRate => Some (bad * MAX_MICROS / total)
       | _ => supplied
       end.
Definition meets (o : SloObjective) (m : Z) : Prop :=
  match so_comparison o with Gte => so_target_micros o ≤ m | Lte => m ≤ so_target_micros o end.

Lemma slo_measurement_ok o good total bad supplied m s : valid_counts o good total bad →
  resolve_slo_measurement o good total bad supplied = Ok (m, s) ↔
  m = measurement o good total bad supplied ∧ (total = 0 → supplied = None) ∧
  match m with
  | None => total = 0 ∧ s = InsufficientData
  | Some n => total ≠ 0 ∧ 0 ≤ n ≤ MAX_MICROS ∧ (s = Met ∧ meets o n ∨ s = Breached ∧ ¬ meets o n)
  end.
Proof.
  intros (Hg & Hb & _). unfold resolve_slo_measurement, measurement, meets.
  destruct (Z.eqb_spec total 0) as [->|Ht].
  - rewrite bind_unit_ok, raise_if_ok, bool_decide_not_false. split.
    + intros [-> [= <- <-]]. done.
    + intros (-> & Hs & _ & ->). by rewrite Hs.
  - rewrite result_bind_ok.
    assert (∀ n, (_ ← raise_if ((n <? 0) || (MAX_MICROS <? n)) (ValueError "SLO measurement must be in bounded micros");
      let met := match so_comparison o with Gte => so_target_micros o <=? n | Lte => n <=? so_target_micros o end in
      Ok (Some n, if met then Met else Breached)) = Ok (m, s) ↔
      m = Some n ∧ 0 ≤ n ≤ MAX_MICROS ∧
      (s = Met ∧ match so_comparison o with Gte => so_target_micros o ≤ n | Lte => n ≤ so_target_micros o end ∨
       s = Breached ∧ ¬ match so_comparison o with Gte => so_target_micros o ≤ n | Lte => n ≤ so_target_micros o end)) as Hstep.
    { intros n. rewrite bind_unit_ok, raise_if_ok, orb_false_iff, !Z.ltb_ge. cbn zeta.
      destruct (so_comparison o); match goal with |- context [?a <=? ?b] => destruct (Z.leb_spec a b) end;
        (split; [intros [? [= <- <-]]; split_and!; auto; lia || (left; split; [done|lia]) || (right; split; [done|lia])
                |intros (-> & ? & [[-> ?]|[-> ?]]); first [split; [lia|done]|lia]]). }
    setoid_rewrite Hstep.
    destruct (so_sli o); (split;
      [intros (n & Hn & -> & Hrest); first [injection Hn as <-|apply require_ok in Hn as ->]; done
      |intros (-> & _ & Hrest)]);
      first [by eexists; split; [reflexivity|]; destruct Hrest as (_ & ? & ?)
            |destruct supplied as [n|]; [exists n; by destruct Hrest as (_ & ? & ?)|by destruct Hrest]].
Qed.

Lemma Digest_shape d : Digest d = true → py_startswith d "sha256:" = true ∧ String.length d = 71%nat.
Proof.
  intros H. apply re_match_correct, lang_cat_inv in H as (l1 & l2 & E2 & H1 & H2).
  apply lang_lit in H1 as ->. apply lang_times_class in H2 as [_ Hl].
  assert (d = "sha256:" +:+ String.string_of_list_ascii l2) as ->.
  { apply chars_inj. rewrite E2, chars_app. f_equal. symmetry. apply String.list_ascii_of_string_of_list_ascii. }
  split; [apply prefix_app|]. rewrite <- chars_length, chars_app, length_app.
  unfold chars at 2. rewrite String.list_ascii_of_string_of_list_ascii, Hl. done.
Qed.

Definition source_digests (ds : list string) : Prop :=
  NoDup ds ∧ Z.of_nat (length ds) ≤ MAX_FACT_IDS_PER_AGGREGATE ∧ Forall (λ d, Digest d = true) ds.

Lemma slo_digests_sorted ds ds' : validated_slo_digests ds = Ok ds' → NoDup ds ∧ ds' ≡ₚ ds ∧ Z.of_nat (length ds) ≤ 100000.
Proof.
  unfold validated_slo_digests. intros H. guards.
  match goal with E : length (py_sorted _) = length ds |- _ => rename E into El end. rewrite py_sorted_perm in El.
  assert (NoDup ds) as Hnd.
  { clear -El. assert (∀ l : list string, length (remove_dups l) ≤ length l ∧ (length (remove_dups l) = length l → NoDup l))%nat as Hl.
    { induction l as [|x l [IH1 IH2]]; cbn; [split; [lia|constructor]|]. case_decide; cbn; [split; [lia|]|split; [lia|]].
      - lia.
    - intros E. constructor; [done|]. apply IH2. lia. }
    by apply Hl. }
  split; [done|]. subst. rewrite py_sorted_perm in *. split; [|lia].
  apply NoDup_Permutation; [apply NoDup_remove_dups|done|]. intros x. apply elem_of_remove_dups.
Qed.

Lemma slo_digests_ok ds : source_digests ds → ∃ ds', validated_slo_digests ds = Ok ds' ∧ ds' ≡ₚ ds.
Proof.
  intros (Hnd & Hl & Hd). exists (py_sorted (remove_dups ds)).
  assert (py_sorted (remove_dups ds) ≡ₚ ds) as HP.
  { rewrite py_sorted_perm. apply NoDup_Permutation; [apply NoDup_remove_dups|done|]. intros x. apply elem_of_remove_dups. }
  split; [|done]. unfold validated_slo_digests. rewrite bind_unit_ok, raise_if_ok, bool_decide_not_false. split; [by rewrite HP|].
  rewrite bind_unit_ok, raise_if_ok, Z.ltb_ge. split; [by rewrite HP|]. rewrite bind_unit_ok, for_each_ok. split; [|done].
  rewrite HP. eapply Forall_impl; [exact Hd|]. intros d [Hp Hlen]%Digest_shape. cbn beta. rewrite Hp, Hlen. done.
Qed.

(** What [build_slo_rollup] asks for *)
Record reportable (o : SloObjective) (w : UsageWindow) (good total bad : Z) (supplied : option Z) (digests : list string) : Prop := {
  rep_granularity : so_window_granularity o = uw_granularity w;
  rep_counts : valid_counts o good total bad;
  rep_bound : total ≤ MAX_EVENTS;
  rep_missing : total = 0 → supplied = None;
  rep_measured : total ≠ 0 → ∃ n, measurement o good total bad supplied = Some n ∧ 0 ≤ n ≤ MAX_MICROS;
  rep_digests : source_digests digests }.

Definition rollup_of (o : SloObjective) (w : UsageWindow) (good total bad : Z) (m : option Z) (digests : list string)
    (s : SloStatus) : SloWindowRollup :=
  rollup_with_identity (mkRollup "" "" (so_tenant_id o) (so_objective_id o) w good total bad m digests s).

Lemma new_rollup_ok o w good total bad m digests s r :
  genuine_objective o → valid_counts o good total bad →
  (total = 0 ↔ s = InsufficientData) → (total = 0 ↔ m = None) →
  match m with Some n => 0 ≤ n ≤ MAX_MICROS | None => True end →
  SloWindowRollup_new None None (mkRollup "" "" (so_tenant_id o) (so_objective_id o) w good total bad m digests s) = Ok r ↔
  total ≤ MAX_EVENTS ∧ source_digests digests ∧ r = rollup_of o w good total bad m digests s.
Proof.
  intros (Eid & Ht & _)%genuine_objective_ok (Hg & Hb & _) Hs Hm Hn. unfold SloWindowRollup_new, rollup_of, source_digests.
  rewrite bind_unit_ok, check_fields_ok, !Forall_cons, Forall_nil.
  cbn [fst snd sw_tenant_id sw_objective_id sw_good_events sw_total_events sw_bad_events sw_measured_micros sw_source_fact_digests].
  rewrite bind_unit_ok, !in_validator_ok. unfold validate_source_digests, check_rollup_status.
  cbn [sw_good_events sw_total_events sw_bad_events sw_measured_micros sw_status check_identity].
  rewrite !bind_unit_ok, !raise_if_ok, has_duplicates_false, negb_false_iff, orb_false_iff, !Z.ltb_ge, forallb_forall.
  assert (OptField (nonneg MAX_MICROS) m = true) as HmF.
  { destruct m; cbn [OptField from_option]; [|done]. unfold nonneg, in_bounds. by rewrite andb_true_iff, !Z.leb_le. }
  rewrite Eid, objective_id_Ref, Ht, HmF. unfold nonneg, in_bounds. rewrite !andb_true_iff, !Z.leb_le.
  assert ((if total =? 0 then raise_if (bool_decide (s ≠ InsufficientData) || bool_decide (m ≠ None))
             (ValueError "empty SLO rollup must be explicitly insufficient_data")
           else raise_if (bool_decide (s = InsufficientData) || bool_decide (m = None))
             (ValueError "populated SLO rollup requires a bounded measurement")) = Ok ()) as HsF.
  { destruct (Z.eqb_spec total 0); rewrite raise_if_ok, orb_false_iff, ?bool_decide_not_false, ?bool_decide_eq_false; tauto. }
  rewrite Forall_forall. setoid_rewrite list_elem_of_In. split.
  - intros ((_ & _ & _ & _ & _ & [_ ?] & _ & _ & [_ ?] & _) & (? & ?) & _ & _ & _ & [= <-]). tauto.
  - intros (? & (? & ? & ?) & ->). split_and!; try done; lia.
Qed.

Lemma slo_rollup_ok o w good total bad supplied digests r : genuine_objective o →
  build_slo_rollup o w good total bad supplied digests = Ok r →
  reportable o w good total bad supplied digests ∧
  ∃ digests' s, digests' ≡ₚ digests ∧
    r = rollup_of o w good total bad (measurement o good total bad supplied) digests' s ∧
    (total = 0 ↔ s = InsufficientData) ∧
    ∀ n, measurement o good total bad supplied = Some n → s = Met ↔ meets o n.
Proof.
  intros Ho H. unfold build_slo_rollup in H. rewrite bind_unit_ok, raise_if_ok, bool_decide_not_false in H. destruct H as [Hg H].
  rewrite bind_unit_ok, slo_counts_ok in H. destruct H as [Hv H]. apply result_bind_ok in H as ([m s] & Em & H).
  apply slo_measurement_ok in Em as (-> & Hs & Hm); [|done]. apply result_bind_ok in H as (digests' & Hd & H).
  apply slo_digests_sorted in Hd as (Hnd & HP & Hl). cbn [fst snd] in H.
  assert (total = 0 ↔ measurement o good total bad supplied = None) as Hnone.
  { destruct (measurement o good total bad supplied) eqn:E; [split; [tauto|done]|tauto]. }
  apply new_rollup_ok in H as (Hb & (_ & Hcount & Hdig) & ->); try done.
  - split.
    + split; try done.
      * intros Ht. destruct (measurement o good total bad supplied) as [n|]; [exists n; tauto|tauto].
      * split; [done|]. rewrite HP in *. done.
    + exists digests', s. split; [done|]. split; [done|]. destruct (measurement o good total bad supplied) as [n|].
      * split; [destruct Hm as (? & _ & [[-> _]|[-> _]]); split; done|]. intros ? [= <-]. destruct Hm as (_ & _ & [[-> ?]|[-> ?]]); done.
      * split; [tauto|done].
  - destruct (measurement o good total bad supplied) as [n|]; [|tauto]. destruct Hm as (? & _ & [[-> _]|[-> _]]); split; done.
  - destruct (measurement o good total bad supplied) as [n|]; [tauto|done].
Qed.

Lemma slo_rollup_returns o w good total bad supplied digests : genuine_objective o →
  reportable o w good total bad supplied digests → ∃ r, build_slo_rollup o w good total bad supplied digests = Ok r.
Proof.
  intros Ho [Hg Hv Hb Hmiss Hmeas Hd]. destruct (slo_digests_ok _ Hd) as (digests' & Ed & HP).
  assert (∃ m s, resolve_slo_measurement o good total bad supplied = Ok (m, s) ∧ (total = 0 ↔ s = InsufficientData) ∧
    (total = 0 ↔ m = None) ∧ match m with Some n => 0 ≤ n ≤ MAX_MICROS | None => True end) as (m & s & Em & Hs & Hm & Hn).
  { destruct (decide (total = 0)) as [->|Ht].
    - exists None, InsufficientData. split; [by apply slo_measurement_ok|done].
    - destruct (Hmeas Ht) as (n & En & Hr). exists (Some n).
      assert (meets o n ∨ ¬ meets o n) as [Hmt|Hmt] by (unfold meets; destruct (so_comparison o); lia); [exists Met|exists Breached];
        (split; [apply slo_measurement_ok; [done|]; rewrite En; split_and!; try done; tauto|done]). }
  exists (rollup_of o w good total bad m digests' s). unfold build_slo_rollup.
  rewrite bind_unit_ok, raise_if_ok, bool_decide_not_false. split; [done|]. rewrite bind_unit_ok. split; [by apply slo_counts_ok|].
  rewrite result_bind_ok. exists (m, s). split; [done|]. rewrite result_bind_ok. exists digests'. split; [done|].
  cbn [fst snd]. apply new_rollup_ok; try done. split; [done|]. split; [|done]. unfold source_digests in *. by rewrite HP.
Qed.

(** C35: an SLO rollup is built exactly when it is reportable, and then its status
    is [InsufficientData] exactly for an empty window and otherwise decided in
    integers: an availability objective is met exactly when
    good/total reaches the target, an error-rate objective exactly when
    bad/total is below the target plus one millionth (the rate is rounded
    down), other objectives by the supplied measurement. *)
Theorem slo_rollup_exact o w good total bad supplied digests : genuine_objective o →
  ((∃ r, build_slo_rollup o w good total bad supplied digests = Ok r) ↔ reportable o w good total bad supplied digests) ∧
  ∀ r, build_slo_rollup o w good total bad supplied digests = Ok r →
    (sw_status r = InsufficientData ↔ total = 0) ∧
    (total ≠ 0 → so_sli o = Availability → sw_status r = Met ↔ so_target_micros o * total ≤ good * MAX_MICROS) ∧
    (total ≠ 0 → so_sli o = ErrorRate → sw_status r = Met ↔ bad * MAX_MICROS < (so_target_micros o + 1) * total) ∧
    (∀ n, sw_measured_micros r = Some n → 0 ≤ n ≤ MAX_MICROS ∧ (sw_status r = Met ↔ meets o n)).
Proof.
  intros Ho. split; [split; [by intros (r & [? _]%slo_rollup_ok)|by apply slo_rollup_returns]|].
  intros r ([_ (Hg & Hb & _) _ _ Hmeas _] & digests' & s & _ & -> & Hs & Hmet)%slo_rollup_ok; [|done].
  destruct (objective_comparison o Ho) as [Hgte Hlte]. cbn [rollup_of rollup_with_identity sw_status sw_measured_micros].
  assert (∀ n, so_sli o = Availability → total ≠ 0 → n = good * MAX_MICROS / total → so_target_micros o ≤ n ↔ so_target_micros o * total ≤ good * MAX_MICROS) as Ha.
  { intros n _ Ht ->. split; intros H; [pose proof (Z.mul_div_le (good * MAX_MICROS) total); nia|apply Z.div_le_lower_bound; lia]. }
  split; [tauto|]. unfold measurement in *. split; [|split].
  - intros Ht Esli. rewrite (proj2 (Z.eqb_neq _ _) Ht), Esli in Hmet. rewrite (Hmet _ eq_refl). unfold meets.
    rewrite (Hgte Esli). by apply Ha.
  - intros Ht Esli. rewrite (proj2 (Z.eqb_neq _ _) Ht), Esli in Hmet. rewrite (Hmet _ eq_refl). unfold meets.
    rewrite (Hlte Esli). split; intros H.
    + pose proof (Z.mod_pos_bound (bad * MAX_MICROS) total). pose proof (Z.div_mod (bad * MAX_MICROS) total). nia.
    + apply Z.lt_succ_r, Z.div_lt_upper_bound; lia.
  - intros n En. destruct (Z.eq_dec total 0) as [->|Ht]; [done|]. destruct (Hmeas Ht) as (n' & En' & Hr).
    rewrite En in En'. injection En' as <-. split; [done|]. by apply Hmet.
Qed.

(** * Sample reconciliation *)
Section repeated.
Context `{Countable A}.

Lemma count_of_cons (x y : A) l : count_of x (y :: l) = ((if decide (y = x) then 1 else 0) + count_of x l)%nat.
Proof. unfold count_of. rewrite filter_cons. by case_decide. Qed.
Lemma count_of_elem (x : A) l : (0 < count_of x l)%nat ↔ x ∈ l.
Proof.
  induction l as [|y l IH]; [split; [cbn; lia|set_solver]|].
  rewrite count_of_cons, elem_of_cons, <- IH. case_decide; intuition (try congruence; lia).
Qed.
Lemma elem_of_repeated (x : A) l : x ∈ repeated l ↔ (1 < count_of x l)%nat.
Proof.
  unfold repeated. rewrite elem_of_list_to_set, list_elem_of_filter. split; [tauto|]. intros Hx. split; [done|].
  apply count_of_elem. lia.
Qed.
Lemma NoDup_count (l : list A) : NoDup l ↔ ∀ x, (count_of x l ≤ 1)%nat.
Proof.
  induction l as [|y l IH]; [split; [intros _ x; cbn; lia|constructor]|]. rewrite NoDup_cons, IH. split.
  - intros [Hy Hl] x. rewrite count_of_cons. case_decide as E; [|apply Hl]. subst.
    pose proof (count_of_elem x l). assert (¬ (0 < count_of x l)%nat) by tauto. lia.
  - intros Hl. split.
    + intros Hy%count_of_elem. specialize (Hl y). rewrite count_of_cons, decide_True in Hl by done. lia.
    + intros x. specialize (Hl x). rewrite count_of_cons in Hl. lia.
Qed.
Lemma repeated_empty (l : list A) : repeated l = ∅ ↔ NoDup l.
Proof.
  rewrite NoDup_count. split.
  - intros E x. apply Nat.nlt_ge. rewrite <- elem_of_repeated, E. set_solver.
  - intros Hl. apply set_eq. intros x. rewrite elem_of_repeated. specialize (Hl x). split; [lia|set_solver].
Qed.

Lemma count_sum_le (D l : list A) : NoDup D → (sum_list_with (λ x, count_of x l) D ≤ length l)%nat.
Proof.
  intros HD. induction l as [|y l IH]; [clear; induction D; done|].
  assert (sum_list_with (λ x, count_of x (y :: l)) D ≤ sum_list_with (λ x, count_of x l) D + 1 ∧
    (y ∉ D → sum_list_with (λ x, count_of x (y :: l)) D = sum_list_with (λ x, count_of x l) D))%nat as [Hle _]; [|cbn [length]; lia].
  clear IH. induction HD as [|x D Hx HD [IH1 IH2]]; cbn [sum_list_with]; [split; [lia|done]|].
  rewrite count_of_cons. case_decide as E; [subst y; rewrite IH2 by done; split; [lia|set_solver]|].
  split; [lia|]. intros Hy. rewrite IH2 by set_solver. done.
Qed.

Lemma sum_lower (f : A → nat) b (D : list A) : (∀ x, x ∈ D → b ≤ f x)%nat → (b * length D ≤ sum_list_with f D)%nat.
Proof.
  induction D as [|x D IH]; intros Hf; cbn; [lia|].
  pose proof (Hf x ltac:(by left)). pose proof (IH ltac:(intros ? ?; apply Hf; by right)). lia.
Qed.

(** Every repeated element takes two places of the list. *)
Lemma repeated_size (l : list A) : (2 * size (repeated l) ≤ length l)%nat.
Proof.
  etransitivity; [|apply (count_sum_le (elements (repeated l)) l), NoDup_elements].
  apply (sum_lower _ 2 (elements (repeated l))). intros x Hx%elem_of_elements%elem_of_repeated. lia.
Qed.
End repeated.

(** Keys that Python can sort: no two agree up to a missing sequence number. *)
Definition comparable (keys : gset SampleRef) : Prop := ∀ a b, a ∈ keys → b ∈ keys → unordered_keys a b = false.

Lemma comparable_elements keys :
  Forall (λ a, Forall (λ b, unordered_keys a b = false) (elements keys)) (elements keys) → comparable keys.
Proof.
  intros H a b Ha%elem_of_elements Hb%elem_of_elements. rewrite Forall_forall in H. specialize (H a Ha).
  rewrite Forall_forall in H. by apply H.
Qed.

Lemma sorted_keys_ok keys ks : sorted_keys keys = Ok ks ↔ comparable keys ∧ ks = merge_sort key_order (elements keys).
Proof.
  unfold sorted_keys, comparable. rewrite bind_unit_ok, raise_if_ok, existsb_false. setoid_rewrite existsb_false.
  setoid_rewrite elem_of_elements. split; [intros [Hc [= <-]]; auto|intros [Hc ->]; auto].
Qed.
Lemma sorted_keys_perm (keys : gset SampleRef) : merge_sort key_order (elements keys) ≡ₚ elements keys.
Proof. apply merge_sort_Permutation. Qed.

Lemma elem_of_unexpected expected seen observed s :
  s ∈ unexpected_samples expected seen observed ↔ s ∈ observed ∧ s ∉ expected ∧ s ∉ seen.
Proof.
  revert seen. induction observed as [|k ks IH]; intros seen; cbn; [set_solver|]. rewrite elem_of_app, IH.
  destruct (bool_decide (k ∉ expected) && bool_decide (k ∉ seen)) eqn:E; guards.
  - rewrite list_elem_of_singleton. destruct (decide (s = k)) as [->|]; set_solver.
  - apply andb_false_iff in E. rewrite !bool_decide_eq_false in E. destruct (decide (s = k)) as [->|]; [|set_solver].
    rewrite elem_of_app, list_elem_of_singleton. split; [set_solver|]. intros (_ & ? & ?). tauto.
Qed.
Lemma unexpected_NoDup expected seen observed : NoDup (unexpected_samples expected seen observed).
Proof.
  revert seen. induction observed as [|k ks IH]; intros seen; cbn; [constructor|].
  case_match; cbn; [|apply IH]. constructor; [|apply IH]. rewrite elem_of_unexpected. set_solver.
Qed.
Lemma unexpected_length expected seen observed : (length (unexpected_samples expected seen observed) ≤ length observed)%nat.
Proof.
  revert seen. induction observed as [|k ks IH]; intros seen; cbn; [lia|]. specialize (IH (seen ++ [k])).
  case_match; cbn; lia.
Qed.

(** What a report says about the two lists of samples *)
Record faithful_report (expected : list SampleRef) (observed : list UsageFact) (r : ReconciliationReport) : Prop := {
  fr_counts : rr_expected_count r = Z.of_nat (length expected) ∧ rr_observed_count r = Z.of_nat (length observed);
  fr_once : NoDup (rr_missing r) ∧ NoDup (rr_unexpected r) ∧ NoDup (rr_duplicate_samples r) ∧ NoDup (rr_duplicate_fact_ids r);
  fr_missing : ∀ s, s ∈ rr_missing r ↔ s ∈ expected ∧ s ∉ map sample_of observed;
  fr_unexpected : ∀ s, s ∈ rr_unexpected r ↔ s ∈ map sample_of observed ∧ s ∉ expected;
  fr_samples : ∀ s, s ∈ rr_duplicate_samples r ↔ (1 < count_of s expected ∨ 1 < count_of s (map sample_of observed))%nat;
  fr_facts : ∀ i, i ∈ rr_duplicate_fact_ids r ↔ (1 < count_of i (map uf_fact_id observed))%nat;
  fr_gap : rr_status r = Gap ↔ rr_missing r ≠ [];
  fr_complete : rr_status r = Complete ↔
    expected ≡ₚ map sample_of observed ∧ NoDup expected ∧ NoDup (map uf_fact_id observed) }.

Definition sample_duplicates (expected : list SampleRef) (observed : list UsageFact) : gset SampleRef :=
  repeated expected ∪ repeated (map sample_of observed).

(** The report before validation *)
Definition raw_report (expected : list SampleRef) (observed : list UsageFact) : ReconciliationReport :=
  let refs := map sample_of observed in
  let missing := filter (λ k, k ∉ refs) (merge_sort key_order (elements (list_to_set expected : gset SampleRef))) in
  let unexpected := unexpected_samples (list_to_set expected) [] refs in
  let ds := merge_sort key_order (elements (sample_duplicates expected observed)) in
  let df := elements (repeated (map uf_fact_id observed)) in
  mkReport "" (Z.of_nat (length expected)) (Z.of_nat (length observed)) missing unexpected ds df
    (if bool_decide (missing ≠ []) then Gap
     else if bool_decide (unexpected ≠ []) || bool_decide (ds ≠ []) || bool_decide (df ≠ []) then Drift else Complete).

Lemma reconcile_unfold expected observed r :
  reconcile_samples expected observed = Ok r ↔
  Z.of_nat (length expected) ≤ 10000 ∧ Z.of_nat (length observed) ≤ 10000 ∧ comparable (list_to_set expected) ∧
  comparable (sample_duplicates expected observed) ∧ ReconciliationReport_new None (raw_report expected observed) = Ok r.
Proof.
  unfold reconcile_samples. rewrite bind_unit_ok, raise_if_ok, orb_false_iff, !Z.ltb_ge. split.
  - intros ([? ?] & Hr). apply result_bind_ok in Hr as (ks & [? ->]%sorted_keys_ok & Hr).
    apply result_bind_ok in Hr as (ds & [? ->]%sorted_keys_ok & Hr). do 4 (split; [assumption|]). exact Hr.
  - intros (? & ? & ? & ? & Hr). split; [split; assumption|].
    apply result_bind_ok. eexists. split; [apply sorted_keys_ok; split; [assumption|reflexivity]|].
    apply result_bind_ok. eexists. split; [apply sorted_keys_ok; split; [assumption|reflexivity]|]. exact Hr.
Qed.

Section reconcile.
Variables (expected : list SampleRef) (observed : list UsageFact).
Hypothesis Hfacts : Forall genuine_fact observed.
Hypotheses (Hexpected : Z.of_nat (length expected) ≤ 10000) (Hobserved : Z.of_nat (length observed) ≤ 10000).
Let raw : ReconciliationReport := raw_report expected observed.

Lemma raw_missing s : s ∈ rr_missing raw ↔ s ∈ expected ∧ s ∉ map sample_of observed.
Proof.
  cbn. rewrite list_elem_of_filter, sorted_keys_perm, elem_of_elements, elem_of_list_to_set. tauto.
Qed.
Lemma raw_unexpected s : s ∈ rr_unexpected raw ↔ s ∈ map sample_of observed ∧ s ∉ expected.
Proof. cbn. rewrite elem_of_unexpected, elem_of_list_to_set. set_solver. Qed.
Lemma raw_samples s :
  s ∈ rr_duplicate_samples raw ↔ (1 < count_of s expected ∨ 1 < count_of s (map sample_of observed))%nat.
Proof. cbn. unfold sample_duplicates. by rewrite sorted_keys_perm, elem_of_elements, elem_of_union, !elem_of_repeated. Qed.
Lemma raw_facts i : i ∈ rr_duplicate_fact_ids raw ↔ (1 < count_of i (map uf_fact_id observed))%nat.
Proof. cbn. by rewrite elem_of_elements, elem_of_repeated. Qed.

Lemma raw_once : NoDup (rr_missing raw) ∧ NoDup (rr_unexpected raw) ∧ NoDup (rr_duplicate_samples raw) ∧
  NoDup (rr_duplicate_fact_ids raw).
Proof.
  cbn. split_and!; [apply NoDup_filter; rewrite sorted_keys_perm|apply unexpected_NoDup|rewrite sorted_keys_perm|]; apply NoDup_elements.
Qed.

Lemma raw_lengths : (length (rr_missing raw) ≤ length expected ∧ length (rr_unexpected raw) ≤ length observed ∧
  2 * length (rr_duplicate_samples raw) ≤ length expected + length observed ∧
  2 * length (rr_duplicate_fact_ids raw) ≤ length observed)%nat.
Proof.
  cbn. split_and!.
  - etransitivity; [apply length_filter|]. rewrite sorted_keys_perm. apply list_to_set_size_le.
  - etransitivity; [apply unexpected_length|]. by rewrite length_map.
  - rewrite sorted_keys_perm. change (2 * size (sample_duplicates expected observed) ≤ length expected + length observed)%nat.
    unfold sample_duplicates. rewrite size_union_alt.
    pose proof (subseteq_size (repeated (map sample_of observed) ∖ repeated expected) (repeated (map sample_of observed)) ltac:(set_solver)).
    pose proof (repeated_size expected). pose proof (repeated_size (map sample_of observed)). rewrite length_map in *. lia.
  - pose proof (repeated_size (map uf_fact_id observed)). rewrite length_map in *. done.
Qed.

Lemma nil_or_elem {A} (l : list A) : l = [] ↔ ∀ x, x ∉ l.
Proof. split; [intros ->; set_solver|]. destruct l as [|x l]; [done|]. intros H. destruct (H x). by left. Qed.

Lemma raw_complete : rr_missing raw = [] ∧ rr_unexpected raw = [] ∧ rr_duplicate_samples raw = [] ∧ rr_duplicate_fact_ids raw = [] ↔
  expected ≡ₚ map sample_of observed ∧ NoDup expected ∧ NoDup (map uf_fact_id observed).
Proof.
  rewrite !nil_or_elem. setoid_rewrite raw_missing. setoid_rewrite raw_unexpected. setoid_rewrite raw_samples. setoid_rewrite raw_facts.
  rewrite !NoDup_count. split.
  - intros (Hm & Hu & Hs & Hf). assert (∀ s, count_of s expected ≤ 1)%nat as He by (intros s; specialize (Hs s); lia).
    split; [|split; [done|intros i; specialize (Hf i); lia]]. apply NoDup_Permutation.
    + by apply NoDup_count.
    + apply NoDup_count. intros s. specialize (Hs s). lia.
    + intros s. split; intros Hin; apply dec_stable; intros Hn; [by apply (Hm s)|by apply (Hu s)].
  - intros (HP & He & Hf). assert (∀ s, s ∈ expected ↔ s ∈ map sample_of observed) as Hiff by (intros s; by rewrite HP).
    split_and!; intros s; [rewrite Hiff; tauto|rewrite Hiff; tauto| |specialize (Hf s); lia].
    assert (count_of s (map sample_of observed) = count_of s expected) as -> by (unfold count_of; by rewrite HP).
    specialize (He s). lia.
Qed.

Lemma raw_status : rr_status raw =
  if bool_decide (rr_missing raw ≠ []) then Gap
  else if bool_decide (rr_unexpected raw ≠ []) || bool_decide (rr_duplicate_samples raw ≠ []) ||
          bool_decide (rr_duplicate_fact_ids raw ≠ []) then Drift else Complete.
Proof. reflexivity. Qed.

Lemma sorted_fields : let r := report_sorted raw in
  rr_missing r = rr_missing raw ∧ rr_unexpected r = rr_unexpected raw ∧ rr_duplicate_samples r ≡ₚ rr_duplicate_samples raw ∧
  rr_duplicate_fact_ids r ≡ₚ rr_duplicate_fact_ids raw ∧ rr_status r = rr_status raw ∧
  rr_expected_count r = Z.of_nat (length expected) ∧ rr_observed_count r = Z.of_nat (length observed).
Proof.
  cbn. split_and!; try reflexivity; [apply merge_sort_Permutation|]. rewrite py_sorted_perm.
  apply NoDup_Permutation; [apply NoDup_remove_dups|apply NoDup_elements|]. intros x. apply elem_of_remove_dups.
Qed.

Lemma perm_nil_iff {A} (l1 l2 : list A) : l1 ≡ₚ l2 → l1 = [] ↔ l2 = [].
Proof. intros HP. rewrite !nil_or_elem. by setoid_rewrite HP. Qed.

Lemma sorted_shape : check_status_shape (report_sorted raw) = Ok ().
Proof.
  destruct sorted_fields as (Em & Eu & Hs%perm_nil_iff & Hf%perm_nil_iff & Est & _). unfold check_status_shape.
  rewrite Est, Em, Eu, raw_status.
  rewrite (bool_decide_ext (rr_duplicate_samples (report_sorted raw) = []) (rr_duplicate_samples raw = [])) by done.
  rewrite (bool_decide_ext (rr_duplicate_fact_ids (report_sorted raw) = []) (rr_duplicate_fact_ids raw = [])) by done.
  rewrite (bool_decide_ext (rr_duplicate_samples (report_sorted raw) ≠ []) (rr_duplicate_samples raw ≠ [])) by tauto.
  rewrite (bool_decide_ext (rr_duplicate_fact_ids (report_sorted raw) ≠ []) (rr_duplicate_fact_ids raw ≠ [])) by tauto.
  rewrite !bool_decide_not. destruct (bool_decide (rr_missing raw = [])) eqn:E1, (bool_decide (rr_unexpected raw = [])) eqn:E2,
    (bool_decide (rr_duplicate_samples raw = [])) eqn:E3, (bool_decide (rr_duplicate_fact_ids raw = [])) eqn:E4; cbn;
    rewrite ?E1, ?E2, ?E3, ?E4; done.
Qed.

Lemma raw_accepted : ReconciliationReport_new None raw = Ok (report_with_digest (report_sorted raw)).
Proof.
  unfold ReconciliationReport_new. destruct raw_lengths as (Hm & Hu & Hs & Hf). destruct raw_once as (_ & _ & Hds & _).
  apply bind_unit_ok. split.
  - apply check_fields_ok. rewrite !Forall_cons, Forall_nil. cbn [fst snd]. unfold items_within, nonneg, in_bounds, MAX_RECONCILIATION_ITEMS.
    rewrite !andb_true_iff, !Z.leb_le. change (rr_expected_count raw) with (Z.of_nat (length expected)).
    change (rr_observed_count raw) with (Z.of_nat (length observed)). split_and!; try done; lia.
  - apply bind_unit_ok. rewrite in_validator_ok, raise_if_ok, has_duplicates_false. split; [done|].
    apply bind_unit_ok. rewrite in_validator_ok, raise_if_ok, negb_false_iff, forallb_forall. split.
    + intros i Hi. apply list_elem_of_In, raw_facts in Hi. assert (i ∈ map uf_fact_id observed) as Hin by (apply count_of_elem; lia).
      apply list_elem_of_fmap in Hin as (f & -> & Hin). rewrite Forall_forall in Hfacts. apply Hfacts, genuine_fact_ok in Hin as (-> & _).
      pose proof (fact_id_Ref f) as HR. unfold RefField in HR. by apply andb_true_iff in HR as [_ ?].
    + rewrite in_validator_ok, bind_unit_ok. split; [apply sorted_shape|done].
Qed.

Lemma accepted_faithful : faithful_report expected observed (report_with_digest (report_sorted raw)).
Proof.
  assert (∀ r, rr_missing (report_with_digest r) = rr_missing r ∧ rr_unexpected (report_with_digest r) = rr_unexpected r ∧
    rr_duplicate_samples (report_with_digest r) = rr_duplicate_samples r ∧
    rr_duplicate_fact_ids (report_with_digest r) = rr_duplicate_fact_ids r ∧ rr_status (report_with_digest r) = rr_status r ∧
    rr_expected_count (report_with_digest r) = rr_expected_count r ∧ rr_observed_count (report_with_digest r) = rr_observed_count r) as Hd
    by (by intros []).
  specialize (Hd (report_sorted raw)). destruct Hd as (D1 & D2 & D3 & D4 & D5 & D6 & D7).
  destruct sorted_fields as (Em & Eu & Hs & Hf & Est & Ec & Eo). destruct raw_once as (N1 & N2 & N3 & N4).
  split; rewrite ?D1, ?D2, ?D3, ?D4, ?D5, ?D6, ?D7, ?Em, ?Eu, ?Est.
  - done.
  - by rewrite Hs, Hf.
  - exact raw_missing.
  - exact raw_unexpected.
  - intros s. rewrite Hs. apply raw_samples.
  - intros i. rewrite Hf. apply raw_facts.
  - rewrite raw_status. case_bool_decide; [done|]. by case_match.
  - rewrite <- raw_complete, raw_status. rewrite !bool_decide_not.
    repeat match goal with |- context [bool_decide ?P] => destruct (bool_decide_reflect P) end; cbn; intuition congruence.
Qed.
End reconcile.

(** C27: reconciliation is exact. For validated facts [reconcile_samples] returns
    exactly when each list has at most 10,000 entries and the keys it sorts can
    be ordered (Python cannot compare a missing sequence number with a
    number), and then the report lists, each once, the missing, unexpected and
    repeated samples and the repeated fact ids; it is [Gap] exactly when a
    sample is missing and [Complete] exactly when the observed samples are the
    expected ones, with no repetition. *)
Theorem reconcile_samples_exact expected observed : Forall genuine_fact observed →
  ((∃ r, reconcile_samples expected observed = Ok r) ↔
     Z.of_nat (length expected) ≤ 10000 ∧ Z.of_nat (length observed) ≤ 10000 ∧
     comparable (list_to_set expected) ∧ comparable (sample_duplicates expected observed)) ∧
  ∀ r, reconcile_samples expected observed = Ok r → faithful_report expected observed r.
Proof.
  intros Hf. split.
  - split; [intros [r (? & ? & ? & ? & _)%reconcile_unfold]; tauto|]. intros (He & Ho & Hc & Hd).
    eexists. apply reconcile_unfold. do 4 (split; [assumption|]). by apply raw_accepted.
  - intros r (He & Ho & _ & _ & E)%reconcile_unfold. rewrite raw_accepted in E by done. injection E as <-. by apply accepted_faithful.
Qed.
