(* ===== verification/EconomicsSafety.v ===== *)
(** What holds of the economics repository under any sequence of calls: entries
    are never changed or removed, accepted appends replay, price cards do not
    overlap and watermarks only advance. *)
From S2P Require Export EconomicsLedger EconomicsIdentity.
Local Open Scope Z_scope.

(** * Calls *)
Inductive ledger_call :=
  | AppendFact (f : UsageFact) | AppendCorrection (c : UsageCorrection) | AppendAggregate (a : WindowAggregate)
  | AppendRollup (r : SloWindowRollup) | PutCard (c : PriceCard) | AppendTombstone (t : UsageTombstone)
  | AdvanceWatermark (w : Watermark).

Definition run_ledger_call (c : ledger_call) : M Repository AppendReceipt :=
  match c with
  | AppendFact f => append_usage_fact f
  | AppendCorrection c => append_correction c
  | AppendAggregate a => append_window_aggregate a
  | AppendRollup r => append_slo_rollup r
  | PutCard c => put_price_card c
  | AppendTombstone t => append_tombstone t
  | AdvanceWatermark w => advance_watermark w
  end.

(** The models of a call passed their validation. *)
Definition genuine_call (c : ledger_call) : Prop :=
  match c with
  | AppendFact f => genuine_fact f
  | AppendCorrection c => genuine_correction c
  | AppendAggregate a => genuine_aggregate a
  | AppendRollup r => genuine_rollup r
  | PutCard c => genuine_card c
  | AppendTombstone t => genuine_tombstone t
  | AdvanceWatermark w => genuine_watermark w
  end.

Fixpoint run_ledger_calls (cs : list ledger_call) (self : Repository) : Repository :=
  match cs with [] => self | c :: cs' => run_ledger_calls cs' (run_ledger_call c self).2 end.

(** The states a new repository can reach *)
Definition ledger_reachable (self : Repository) : Prop :=
  ∃ cs, Forall genuine_call cs ∧ self = run_ledger_calls cs new_repository.

Lemma run_ledger_calls_app cs1 cs2 self :
  run_ledger_calls (cs1 ++ cs2) self = run_ledger_calls cs2 (run_ledger_calls cs1 self).
Proof. revert self. induction cs1 as [|c cs1 IH]; intros self; cbn; [done|]. apply IH. Qed.

Lemma ledger_reachable_calls self cs : ledger_reachable self → Forall genuine_call cs → ledger_reachable (run_ledger_calls cs self).
Proof.
  intros (cs0 & Hcs0 & ->) Hcs. exists (cs0 ++ cs). rewrite run_ledger_calls_app. split; [by apply Forall_app|done].
Qed.

(** * The append *)
Lemma append_entry_cases {T} identity digest (value : T) st r st' :
  append_entry identity digest value st = (r, st') →
  let receipt d := construct validate_AppendReceipt (mkReceipt identity digest d) in
  (st' = st ∧ ∃ d v, st !! identity = Some (d, v) ∧
     (d = digest ∧ r = receipt Replayed ∨ d ≠ digest ∧ ∃ e, r = Raise e)) ∨
  (st !! identity = None ∧ st' = <[identity := (digest, value)]> st ∧ r = receipt Inserted).
Proof.
  unfold append_entry. run_unfold. destruct (st !! identity) as [[d v]|] eqn:E.
  - destruct (bool_decide_reflect (d ≠ digest)) as [Hne|Heq]; intros [= <- <-]; left; (split; [done|]); exists d, v; (split; [done|]).
    + right. by eauto.
    + left. split; [by apply dec_stable|done].
  - intros [= <- <-]. right. done.
Qed.

Lemma receipt_disposition i d x r : construct validate_AppendReceipt (mkReceipt i d x) = Ok r →
  r = mkReceipt i d x ∧ ∀ y, construct validate_AppendReceipt (mkReceipt i d y) = Ok (mkReceipt i d y).
Proof. intros [-> H]%construct_ok. split; [done|]. intros y. apply construct_ok. by split. Qed.

(** Once an append was accepted, it replays on every larger store. *)
Lemma append_entry_replays {T} identity digest (value : T) st r st1 st2 :
  append_entry identity digest value st = (Ok r, st1) → st1 ⊆ st2 →
  append_entry identity digest value st2 = (Ok (mkReceipt identity digest Replayed), st2).
Proof.
  intros H%append_entry_cases Hsub. assert (∃ v, st2 !! identity = Some (digest, v)) as (v & E).
  { destruct H as [(-> & d & v & Hl & [[-> _]|[_ [? [=]]]])|(_ & -> & _)].
    - exists v. by eapply lookup_weaken.
    - exists value. eapply lookup_weaken; [|done]. apply lookup_insert_eq. }
  assert (construct validate_AppendReceipt (mkReceipt identity digest Replayed) = Ok (mkReceipt identity digest Replayed)) as Hr.
  { destruct H as [(_ & d & v' & _ & [[_ Hr]|[_ [? [=]]]])|(_ & _ & Hr)]; symmetry in Hr; by apply receipt_disposition in Hr as [_ ?]. }
  unfold append_entry. run_unfold. rewrite E. by rewrite bool_decide_eq_false_2, Hr by auto.
Qed.

Lemma append_entry_grows {T} identity digest (value : T) st r st' :
  append_entry identity digest value st = (r, st') → st ⊆ st'.
Proof. intros [(-> & _)|(Hn & -> & _)]%append_entry_cases; [done|]. by apply insert_subseteq. Qed.

Definition entry_ok {T} (id digest : T → string) (genuine : T → Prop) (k : string) (e : string * T) : Prop :=
  k = id e.2 ∧ e.1 = digest e.2 ∧ genuine e.2.

Lemma append_entry_ok {T} (id digest : T → string) genuine value st r st' :
  map_Forall (entry_ok id digest genuine) st → genuine value →
  append_entry (id value) (digest value) value st = (r, st') → map_Forall (entry_ok id digest genuine) st'.
Proof. intros Hst Hv [(-> & _)|(_ & -> & _)]%append_entry_cases; [done|]. by apply map_Forall_insert_2. Qed.

(** * Growth *)

(** [later w w']: the watermark stayed or advanced under its policy. *)
Definition later_watermark (w w' : Watermark) : Prop :=
  w' = w ∨ wm_watermark_at w < wm_watermark_at w' ∧ wm_policy_version w' = wm_policy_version w.

Record ledger_le (s s' : Repository) : Prop := {
  le_facts : er_facts s ⊆ er_facts s';
  le_corrections : er_corrections s ⊆ er_corrections s';
  le_aggregates : er_aggregates s ⊆ er_aggregates s';
  le_rollups : er_rollups s ⊆ er_rollups s';
  le_cards : er_cards s ⊆ er_cards s';
  le_tombstones : er_tombstones s ⊆ er_tombstones s';
  le_history : ∀ k h, er_watermark_history s !! k = Some h → ∃ h', er_watermark_history s' !! k = Some h' ∧ h ⊆ h';
  le_watermarks : ∀ k w, er_watermarks s !! k = Some w → ∃ w', er_watermarks s' !! k = Some w' ∧ later_watermark w w' }.

Lemma later_watermark_trans w1 w2 w3 : later_watermark w1 w2 → later_watermark w2 w3 → later_watermark w1 w3.
Proof. intros [->|[? E]] [->|[? E']]; [by left|by right|by right|right]. split; [lia|congruence]. Qed.

#[export] Instance ledger_le_preorder : PreOrder ledger_le.
Proof.
  split.
  - intros s. split; try done; [by eauto|]. intros k w E. exists w. split; [done|by left].
  - intros s1 s2 s3 [] []. split; try (by etransitivity).
    + intros k h E. edestruct le_history0 as (h' & E' & ?); [done|]. edestruct le_history1 as (h'' & E'' & ?); [done|].
      exists h''. split; [done|by etransitivity].
    + intros k w E. edestruct le_watermarks0 as (w' & E' & ?); [done|]. edestruct le_watermarks1 as (w'' & E'' & ?); [done|].
      exists w''. split; [done|by eapply later_watermark_trans].
Qed.

(** ** Watermark calls *)
Definition watermark_key (w : Watermark) : string * string := (wm_tenant_id w, wm_source_ref w).
Definition watermark_history (k : string * string) (self : Repository) : gmap string Watermark :=
  default ∅ (er_watermark_history self !! k).
Definition watermark_receipt (w : Watermark) (d : AppendDisposition) : result AppendReceipt :=
  construct validate_AppendReceipt (mkReceipt ("watermark:" +:+ watermark_digest w) (watermark_digest w) d).

(** The state [advance_watermark] leaves when it accepts nothing new: the
    history of the key exists *)
Definition with_history (k : string * string) (self : Repository) : Repository :=
  set_history k (watermark_history k self) self.
Definition with_watermark (w : Watermark) (self : Repository) : Repository :=
  set_watermark (watermark_key w) w
    (set_history (watermark_key w) (<[watermark_digest w := w]> (watermark_history (watermark_key w) self)) self).

Lemma set_history_twice k h1 h2 self : set_history k h2 (set_history k h1 self) = set_history k h2 self.
Proof. destruct self. cbn. f_equal. apply insert_insert_eq. Qed.

Lemma advance_watermark_cases w self r self' :
  advance_watermark w self = (r, self') →
  let k := watermark_key w in
  (self' = with_history k self ∧ (∃ e, r = Raise e)) ∨
  (self' = with_history k self ∧ is_Some (watermark_history k self !! watermark_digest w) ∧ r = watermark_receipt w Replayed) ∨
  (self' = with_watermark w self ∧ watermark_history k self !! watermark_digest w = None ∧ r = watermark_receipt w Inserted ∧
   ∀ previous, er_watermarks self !! k = Some previous →
     wm_policy_version previous = wm_policy_version w ∧ wm_watermark_at previous < wm_watermark_at w).
Proof.
  unfold advance_watermark. fold (watermark_key w). cbn zeta. do 2 run_unfold. fold (watermark_history (watermark_key w) self).
  fold (with_history (watermark_key w) self). destruct (bool_decide_reflect (is_Some (watermark_history (watermark_key w) self !! watermark_digest w))) as [Hin|Hin].
  { intros [= <- <-]. right; left. done. }
  apply eq_None_not_Some in Hin. assert (er_watermarks (with_history (watermark_key w) self) = er_watermarks self) as _ by (by destruct self).
  assert (∀ h, set_watermark (watermark_key w) w (set_history (watermark_key w) h (with_history (watermark_key w) self)) =
    set_watermark (watermark_key w) w (set_history (watermark_key w) h self)) as Hset by (intros h; unfold with_history; by rewrite set_history_twice).
  destruct (er_watermarks self !! watermark_key w) as [p|] eqn:Ep.
  - destruct (bool_decide_reflect (wm_policy_version p ≠ wm_policy_version w)) as [|Hpol]; [intros [= <- <-]; left; eauto|].
    destruct (Z.ltb_spec (wm_watermark_at w) (wm_watermark_at p)); [intros [= <- <-]; left; eauto|].
    destruct (Z.eqb_spec (wm_watermark_at w) (wm_watermark_at p)); [intros [= <- <-]; left; eauto|].
    rewrite Hset. intros [= <- <-]. right; right. split; [done|]. split; [done|]. split; [done|]. intros ? [= <-].
    apply dec_stable in Hpol. split; [done|lia].
  - rewrite Hset. intros [= <- <-]. right; right. done.
Qed.

Lemma with_history_lookup k k' self : 
  er_watermark_history (with_history k self) !! k' = if decide (k' = k) then Some (watermark_history k self) else er_watermark_history self !! k'.
Proof. destruct self. cbn. rewrite lookup_insert. by repeat case_decide; congruence || subst. Qed.
Lemma with_watermark_history w k' self :
  er_watermark_history (with_watermark w self) !! k' =
    if decide (k' = watermark_key w) then Some (<[watermark_digest w := w]> (watermark_history (watermark_key w) self))
    else er_watermark_history self !! k'.
Proof. destruct self. cbn. rewrite lookup_insert. by repeat case_decide; congruence || subst. Qed.
Lemma with_watermark_lookup w k' self :
  er_watermarks (with_watermark w self) !! k' = if decide (k' = watermark_key w) then Some w else er_watermarks self !! k'.
Proof. destruct self. cbn. rewrite lookup_insert. by repeat case_decide; congruence || subst. Qed.

Lemma with_history_le k self : ledger_le self (with_history k self).
Proof.
  split; try (by destruct self).
  - intros k' h E. rewrite with_history_lookup. case_decide as Ek; [subst|by eauto]. exists h.
    unfold watermark_history. by rewrite E.
  - intros k' w E. exists w. split; [by destruct self|by left].
Qed.

Lemma with_watermark_le w self :
  watermark_history (watermark_key w) self !! watermark_digest w = None →
  (∀ previous, er_watermarks self !! watermark_key w = Some previous →
     wm_policy_version previous = wm_policy_version w ∧ wm_watermark_at previous < wm_watermark_at w) →
  ledger_le self (with_watermark w self).
Proof.
  intros Hn Hp. split; try (by destruct self).
  - intros k h E. rewrite with_watermark_history. case_decide as Ek; [subst|by eauto]. eexists. split; [done|].
    unfold watermark_history in *. rewrite E in *. by apply insert_subseteq.
  - intros k p E. rewrite with_watermark_lookup. case_decide as Ek; [subst|by exists p; split; [|left]]. exists w.
    split; [done|]. right. destruct (Hp _ E). done.
Qed.

Lemma advance_watermark_le w : evolves ledger_le (advance_watermark w).
Proof.
  intros s r s' [[-> _]|[[-> _]|(-> & Hn & _ & Hp)]]%advance_watermark_cases;
    [apply with_history_le..|by apply with_watermark_le].
Qed.

(** ** Every call *)
Lemma on_field_run {F A} (fl : field F) (m : M F A) self r self' :
  on_field fl m self = (r, self') → ∃ x, m (get_field fl self) = (r, x) ∧ self' = set_field fl x self.
Proof. unfold on_field. destruct (m (get_field fl self)) as [r' x]. intros [= <- <-]. by exists x. Qed.

(** A call that writes one attribute leaves the others *)
Ltac field_le Hsub :=
  match goal with |- ledger_le ?s _ => destruct s; split; cbn in *; try exact Hsub; try done; try (by eauto) end;
  intros ? w E; exists w; split; [done|by left].

Lemma put_price_card_cases c self r self' :
  put_price_card c self = (r, self') →
  (self' = self ∧ (∃ e, r = Raise e) ∧ ∃ k d p, er_cards self !! k = Some (d, p) ∧ refuses_card p c = true) ∨
  (∀ k d p, er_cards self !! k = Some (d, p) → refuses_card p c = false) ∧
  on_field cards_field (append_entry (pc_card_id c) (pc_card_digest c) c) self = (r, self').
Proof.
  unfold put_price_card. run_unfold. destruct (existsb _ _) eqn:E.
  - intros [= <- <-]. left. split; [done|]. split; [by eauto|]. apply existsb_exists in E as ([k [d p]] & Hin & Hr).
    apply list_elem_of_In, elem_of_map_to_list in Hin. by exists k, d, p.
  - intros H. right. split; [|exact H]. intros k d p Hl. rewrite existsb_false in E.
    apply (E (k, (d, p))). by apply elem_of_map_to_list.
Qed.

Lemma run_ledger_call_le c : evolves ledger_le (run_ledger_call c).
Proof.
  intros s r s'. destruct c; cbn [run_ledger_call]; try apply advance_watermark_le;
    try (intros (x & H%append_entry_grows & ->)%on_field_run; field_le H).
  intros [(-> & _)|[_ (x & H%append_entry_grows & ->)%on_field_run]]%put_price_card_cases; [done|field_le H].
Qed.

Lemma run_ledger_calls_le cs s : ledger_le s (run_ledger_calls cs s).
Proof.
  revert s. induction cs as [|c cs IH]; intros s; cbn; [done|]. etransitivity; [|apply IH].
  destruct (run_ledger_call c s) as [r s'] eqn:E. by apply run_ledger_call_le in E.
Qed.

(** * The invariant *)
Record ledger_inv (s : Repository) : Prop := {
  inv_facts : map_Forall (entry_ok uf_fact_id uf_fact_digest genuine_fact) (er_facts s);
  inv_aggregates : map_Forall (entry_ok wa_aggregate_id wa_aggregate_digest genuine_aggregate) (er_aggregates s);
  inv_rollups : map_Forall (entry_ok sw_rollup_id sw_rollup_digest genuine_rollup) (er_rollups s);
  inv_cards : map_Forall (entry_ok pc_card_id pc_card_digest genuine_card) (er_cards s);
  inv_disjoint : ∀ k1 e1 k2 e2, er_cards s !! k1 = Some e1 → er_cards s !! k2 = Some e2 → refuses_card e1.2 e2.2 = false;
  inv_current : ∀ k w, er_watermarks s !! k = Some w →
    k = watermark_key w ∧ genuine_watermark w ∧ watermark_history k s !! watermark_digest w = Some w;
  inv_history : ∀ k d x, watermark_history k s !! d = Some x →
    d = watermark_digest x ∧ k = watermark_key x ∧ genuine_watermark x ∧
    ∃ w, er_watermarks s !! k = Some w ∧ later_watermark x w }.

Lemma new_ledger_inv : ledger_inv new_repository.
Proof. by split. Qed.

Lemma intervals_overlap_sym c1 c2 : intervals_overlap c1 c2 = intervals_overlap c2 c1.
Proof. unfold intervals_overlap. apply andb_comm. Qed.
Lemma refuses_card_sym c1 c2 : refuses_card c1 c2 = refuses_card c2 c1.
Proof.
  unfold refuses_card. rewrite intervals_overlap_sym.
  do 4 f_equal; try (f_equal; f_equal); apply bool_decide_ext; split; congruence.
Qed.
Lemma refuses_card_refl c : refuses_card c c = false.
Proof. unfold refuses_card. by rewrite bool_decide_eq_false_2 by auto. Qed.

(** An attribute other than the watermarks: their part of the invariant stays *)
Lemma same_watermarks s s' :
  er_watermarks s' = er_watermarks s → er_watermark_history s' = er_watermark_history s →
  (∀ k w, er_watermarks s !! k = Some w → k = watermark_key w ∧ genuine_watermark w ∧ watermark_history k s !! watermark_digest w = Some w) →
  ∀ k w, er_watermarks s' !! k = Some w → k = watermark_key w ∧ genuine_watermark w ∧ watermark_history k s' !! watermark_digest w = Some w.
Proof. intros Ew Eh H k w. unfold watermark_history. rewrite Ew, Eh. apply H. Qed.

Lemma disjoint_insert (cards : store PriceCard) id d c :
  (∀ k1 e1 k2 e2, cards !! k1 = Some e1 → cards !! k2 = Some e2 → refuses_card e1.2 e2.2 = false) →
  (∀ k d p, cards !! k = Some (d, p) → refuses_card p c = false) →
  ∀ k1 e1 k2 e2, <[id := (d, c)]> cards !! k1 = Some e1 → <[id := (d, c)]> cards !! k2 = Some e2 → refuses_card e1.2 e2.2 = false.
Proof.
  intros Hold Hnew k1 e1 k2 e2. rewrite !lookup_insert. repeat case_decide; intros E1 E2; simplify_eq/=.
  - apply refuses_card_refl.
  - destruct e2 as [d2 c2]. rewrite refuses_card_sym. by apply Hnew in E2.
  - destruct e1 as [d1 c1]. by apply Hnew in E1.
  - by eapply Hold.
Qed.

Lemma with_history_same k k' s : watermark_history k' (with_history k s) = watermark_history k' s.
Proof. unfold watermark_history at 1. rewrite with_history_lookup. case_decide as E; [by rewrite E|done]. Qed.
Lemma with_watermark_history_of w k s : watermark_history k (with_watermark w s) =
  if decide (k = watermark_key w) then <[watermark_digest w := w]> (watermark_history k s) else watermark_history k s.
Proof. unfold watermark_history at 1. rewrite with_watermark_history. case_decide as E; [by rewrite E|done]. Qed.

Lemma advance_watermark_inv w s r s' :
  ledger_inv s → genuine_watermark w → advance_watermark w s = (r, s') → ledger_inv s'.
Proof.
  intros [If Ia Ir Ic Id Iw Ih] Hw H%advance_watermark_cases.
  assert (s' = with_history (watermark_key w) s ∨ s' = with_watermark w s ∧
    ∀ p, er_watermarks s !! watermark_key w = Some p → later_watermark p w) as [->|[-> Hp]].
  { destruct H as [[-> _]|[[-> _]|(-> & _ & _ & Hp)]]; [by left|by left|right]. split; [done|].
    intros p E%Hp. right. by destruct E. }
  - split; try (by destruct s).
    + intros k x E. rewrite with_history_same. apply Iw. by destruct s.
    + intros k d x. rewrite with_history_same. intros (-> & -> & Hx & w' & E & Hl)%Ih.
      split; [done|]. split; [done|]. split; [done|]. exists w'. by destruct s.
  - split; try (by destruct s).
    + intros k x. rewrite with_watermark_lookup, with_watermark_history_of. case_decide as Ek; [|by apply Iw].
      intros [= <-]. rewrite lookup_insert_eq. done.
    + intros k d x. rewrite with_watermark_history_of, with_watermark_lookup. case_decide as Ek; [|by apply Ih].
      rewrite lookup_insert. case_decide as Ed.
      * intros [= <-]. split; [done|]. split; [done|]. split; [done|]. exists w. split; [done|by left].
      * intros (-> & Hk & Hx & w' & E & Hl)%Ih. split; [done|]. split; [done|]. split; [done|]. exists w. split; [done|].
        eapply later_watermark_trans; [exact Hl|]. apply Hp. by rewrite <- Ek.
Qed.

Lemma run_ledger_call_inv c s r s' :
  ledger_inv s → genuine_call c → run_ledger_call c s = (r, s') → ledger_inv s'.
Proof.
  intros Hinv Hc. destruct c; cbn [run_ledger_call genuine_call] in *; try (by eapply advance_watermark_inv).
  all: try (intros (x & H & ->)%on_field_run; destruct Hinv; destruct s; split; cbn in *; try done;
            by eapply append_entry_ok in H).
  intros [(-> & _)|[Hfree (x & H & ->)%on_field_run]]%put_price_card_cases; [done|].
  destruct Hinv as [If Ia Ir Ic Id Iw Ih]. destruct s; split; cbn in *; try done; [by eapply append_entry_ok in H|].
  apply append_entry_cases in H as [(-> & _)|(_ & -> & _)]; [done|]. by apply disjoint_insert.
Qed.

Lemma ledger_reachable_inv s : ledger_reachable s → ledger_inv s.
Proof.
  intros (cs & Hcs & ->). generalize new_ledger_inv. generalize new_repository.
  induction Hcs as [|c cs Hc _ IH]; intros s Hs; cbn; [done|]. apply IH.
  destruct (run_ledger_call c s) as [r s'] eqn:E. by eapply run_ledger_call_inv in E.
Qed.

(** ** Replays *)
Definition lens {F} (fl : field F) : Prop :=
  (∀ s, set_field fl (get_field fl s) s = s) ∧ ∀ x s, get_field fl (set_field fl x s) = x.

Lemma field_append_replays {T} (fl : field (store T)) i d v s r s1 s2 : lens fl →
  on_field fl (append_entry i d v) s = (Ok r, s1) → get_field fl s1 ⊆ get_field fl s2 →
  on_field fl (append_entry i d v) s2 = (Ok (mkReceipt (ar_identity r) (ar_digest r) Replayed), s2).
Proof.
  intros [Hget Hset] (x & H & ->)%on_field_run Hsub. rewrite Hset in Hsub.
  assert (ar_identity r = i ∧ ar_digest r = d) as [-> ->].
  { apply append_entry_cases in H as [(_ & ? & ? & _ & [[_ Hr]|[_ [? [=]]]])|(_ & _ & Hr)];
      symmetry in Hr; by apply receipt_disposition in Hr as [-> _]. }
  unfold on_field. rewrite (append_entry_replays _ _ _ _ _ _ _ H Hsub). by rewrite Hget.
Qed.

Lemma inserted_card c s r s1 : put_price_card c s = (Ok r, s1) → ar_disposition r = Inserted →
  on_field cards_field (append_entry (pc_card_id c) (pc_card_digest c) c) s = (Ok r, s1) ∧
  er_cards s1 !! pc_card_id c = Some (pc_card_digest c, c).
Proof.
  intros [(_ & [? [=]] & _)|[_ H]]%put_price_card_cases Hr. split; [done|]. apply on_field_run in H as (x & H & ->).
  apply append_entry_cases in H as [(_ & ? & ? & _ & [[_ E]|[_ [? [=]]]])|(_ & -> & _)].
  - symmetry in E. by apply receipt_disposition in E as [-> _].
  - destruct s. apply lookup_insert_eq.
Qed.

Lemma card_replays c s r s1 s2 : put_price_card c s = (Ok r, s1) → ar_disposition r = Inserted → ledger_inv s2 → ledger_le s1 s2 →
  put_price_card c s2 = (Ok (mkReceipt (ar_identity r) (ar_digest r) Replayed), s2).
Proof.
  intros H Hr Hinv Hle. destruct (inserted_card _ _ _ _ H Hr) as [Hf Hl].
  assert (er_cards s2 !! pc_card_id c = Some (pc_card_digest c, c)) as Hl2 by (eapply lookup_weaken; [exact Hl|apply Hle]).
  unfold put_price_card. run_unfold. destruct (existsb _ _) eqn:E.
  - apply existsb_exists in E as ([k [d p]] & Hin%list_elem_of_In%elem_of_map_to_list & Href).
    pose proof (inv_disjoint _ Hinv _ _ _ _ Hin Hl2). cbn in *. congruence.
  - change (on_field cards_field (append_entry (pc_card_id c) (pc_card_digest c) c) s2 =
      (Ok (mkReceipt (ar_identity r) (ar_digest r) Replayed), s2)).
    eapply field_append_replays; [by split; [intros []|intros ? []]|exact Hf|apply Hle].
Qed.

Lemma advance_watermark_replay w s : is_Some (watermark_history (watermark_key w) s !! watermark_digest w) →
  advance_watermark w s = (watermark_receipt w Replayed, with_history (watermark_key w) s).
Proof.
  intros H. unfold advance_watermark. fold (watermark_key w). cbn zeta. do 2 run_unfold.
  fold (watermark_history (watermark_key w) s). by rewrite bool_decide_eq_true_2.
Qed.
Lemma with_history_id k s d : is_Some (watermark_history k s !! d) → with_history k s = s.
Proof.
  intros [x Hx]. unfold with_history, watermark_history in *. destruct (er_watermark_history s !! k) as [h|] eqn:E; [|done].
  destruct s. cbn in *. f_equal. by apply insert_id.
Qed.

Lemma inserted_watermark w s r s1 : advance_watermark w s = (Ok r, s1) → ar_disposition r = Inserted →
  s1 = with_watermark w s ∧ watermark_receipt w Inserted = Ok r ∧
  ∀ p, er_watermarks s !! watermark_key w = Some p → wm_policy_version p = wm_policy_version w ∧ wm_watermark_at p < wm_watermark_at w.
Proof.
  intros [(_ & ? & [=])|[(_ & _ & E)|(-> & _ & E & Hp)]]%advance_watermark_cases Hr; [|done].
  symmetry in E. apply receipt_disposition in E as [-> _]. done.
Qed.

Lemma watermark_replays w s r s1 s2 : advance_watermark w s = (Ok r, s1) → ar_disposition r = Inserted → ledger_le s1 s2 →
  advance_watermark w s2 = (Ok (mkReceipt (ar_identity r) (ar_digest r) Replayed), s2).
Proof.
  intros H Hr Hle. destruct (inserted_watermark _ _ _ _ H Hr) as (-> & E & _).
  assert (is_Some (watermark_history (watermark_key w) s2 !! watermark_digest w)) as Hin.
  { destruct (le_history _ _ Hle (watermark_key w) (<[watermark_digest w := w]> (watermark_history (watermark_key w) s))) as (h & Eh & Hsub).
    - rewrite with_watermark_history. by rewrite decide_True.
    - exists w. unfold watermark_history. rewrite Eh. cbn. eapply lookup_weaken; [|exact Hsub]. apply lookup_insert_eq. }
  rewrite advance_watermark_replay, (with_history_id _ _ _ Hin) by done. f_equal.
  apply receipt_disposition in E as [-> E]. apply E.
Qed.

(** * Theorems *)

(** C32: the ledger is append-only and its appends are idempotent. Whatever
    validated calls follow, an entry that was inserted keeps its value, every
    other entry and watermark too or is only added or advanced, and the same
    call delivered again is answered [Replayed] with the same identity and
    digest and changes nothing. *)
Theorem appends_persist_and_replay c cs s r s1 :
  ledger_reachable s → genuine_call c → Forall genuine_call cs →
  run_ledger_call c s = (Ok r, s1) → ar_disposition r = Inserted →
  let s2 := run_ledger_calls cs s1 in
  ledger_le s s1 ∧ ledger_le s1 s2 ∧ run_ledger_call c s2 = (Ok (mkReceipt (ar_identity r) (ar_digest r) Replayed), s2).
Proof.
  intros Hs Hc Hcs E Hr s2. pose proof (run_ledger_calls_le cs s1) as Hle. fold s2 in Hle.
  assert (ledger_inv s2) as Hinv.
  { apply ledger_reachable_inv, ledger_reachable_calls; [|done]. destruct Hs as (cs0 & Hcs0 & ->).
    exists (cs0 ++ [c]). rewrite run_ledger_calls_app. cbn. rewrite E. split; [|done]. apply Forall_app. by repeat constructor. }
  split; [by apply run_ledger_call_le in E|]. split; [done|].
  destruct c; cbn [run_ledger_call] in *; try (by eapply card_replays); try (by eapply watermark_replays).
  all: eapply field_append_replays; [by split; [intros []|intros ? []]|exact E|apply Hle].
Qed.

(** A card prices an instant of its half-open interval. *)
Definition effective (c : PriceCard) (t : datetime) : Prop :=
  pc_effective_from c ≤ t ∧ match pc_effective_to c with Some e => t < e | None => True end.

(** C34: whatever validated calls were made, at every instant at most one stored
    price card of a provider, service and version is effective. *)
Theorem price_cards_exclusive s k1 d1 c1 k2 d2 c2 t :
  ledger_reachable s → er_cards s !! k1 = Some (d1, c1) → er_cards s !! k2 = Some (d2, c2) →
  pc_provider_ref c1 = pc_provider_ref c2 → pc_service_ref c1 = pc_service_ref c2 → pc_version c1 = pc_version c2 →
  effective c1 t → effective c2 t → k1 = k2 ∧ c1 = c2.
Proof.
  intros Hs%ledger_reachable_inv E1 E2 Ep Es Ev [F1 T1] [F2 T2].
  destruct (decide (k1 = k2)) as [->|Hne]; [by simplify_eq|]. exfalso.
  pose proof (inv_disjoint _ Hs _ _ _ _ E1 E2) as Hr. cbn in Hr.
  apply (inv_cards _ Hs) in E1 as (-> & _), E2 as (-> & _). cbn in Hne.
  unfold refuses_card in Hr. rewrite !(bool_decide_eq_true_2 _) in Hr by done. cbn in Hr.
  assert (intervals_overlap c1 c2 = true) as Ho; [|congruence]. unfold intervals_overlap. apply andb_true_iff.
  destruct (pc_effective_to c1), (pc_effective_to c2); rewrite ?Z.ltb_lt; split; try done; lia.
Qed.

(** watermarks never move backwards. An accepted new watermark of a tenant
    and source is later than the one before it and of the same policy; from
    then on, whatever validated calls follow, [get_watermark] answers it or one
    that is later still under the same policy, and every watermark in the
    history of the key is at most that. *)
Theorem watermark_never_regresses w cs s r s1 :
  ledger_reachable s → genuine_watermark w → Forall genuine_call cs →
  advance_watermark w s = (Ok r, s1) → ar_disposition r = Inserted →
  let current := get_watermark (wm_tenant_id w) (wm_source_ref w) in
  let s2 := run_ledger_calls cs s1 in
  (∀ p, current s = Some p → wm_policy_version p = wm_policy_version w ∧ wm_watermark_at p < wm_watermark_at w) ∧
  current s1 = Some w ∧
  ∃ w', current s2 = Some w' ∧ later_watermark w w' ∧
    ∀ d x, watermark_history (watermark_key w) s2 !! d = Some x → later_watermark x w'.
Proof.
  intros Hs Hw Hcs E Hr current s2. destruct (inserted_watermark _ _ _ _ E Hr) as (Es1 & _ & Hp).
  assert (ledger_inv s2) as Hinv.
  { apply ledger_reachable_inv, ledger_reachable_calls; [|done]. destruct Hs as (cs0 & Hcs0 & ->).
    exists (cs0 ++ [AdvanceWatermark w]). rewrite run_ledger_calls_app. cbn. rewrite E. split; [|done]. apply Forall_app. by repeat constructor. }
  split; [exact Hp|]. assert (current s1 = Some w) as Hc.
  { subst s1. unfold current, get_watermark. fold (watermark_key w). rewrite with_watermark_lookup. by rewrite decide_True. }
  split; [done|]. destruct (le_watermarks _ _ (run_ledger_calls_le cs s1) _ _ Hc) as (w' & Hw' & Hl).
  exists w'. split; [done|]. split; [done|]. intros d x (_ & _ & _ & w'' & Hw'' & Hlx)%(inv_history _ Hinv).
  unfold watermark_key in Hw''. fold s2 in Hw'. by simplify_eq.
Qed.
