(* ===== verification/EconomicsPages.v ===== *)
(** Keyset pagination is complete: following the cursors of [read_usage_windows]
    or [read_slo_rollups] from the first page returns every matching row of the
    tenant once, ordered by window and id. *)
From S2P Require Export EconomicsSafety.
From S2P Require Import Sha256.
Local Open Scope Z_scope.

(** Reading on from a cursor until a page has none *)
Fixpoint follow {Row} (read : option KeysetCursor → result (ReadPage Row)) (fuel : nat) (after : option KeysetCursor) :
    result (list Row) :=
  match fuel with
  | O => Raise OutOfFuel
  | S fuel =>
      page ← read after;
      match pg_next_cursor page with
      | None => Ok (pg_rows page)
      | Some c => rows ← follow read fuel (Some c); Ok (pg_rows page ++ rows)
      end
  end.

(** What following the cursors yields: the rows, each once, in order *)
Definition complete_rows {Row} (v : RowView Row) (rows : list Row) (got : result (list Row)) : Prop :=
  ∃ all, got = Ok all ∧ all ≡ₚ rows ∧ NoDup (map (view_id v) all) ∧ StronglySorted (row_order v) all.

(** * Row keys *)
Definition iso_char (c : ascii) : bool := digit c || one_of "-T:+" c.

Lemma digits_chars w n : Forall (λ c, digit c = true) (digits w n).
Proof.
  revert n. induction w as [|w IH]; intros n; cbn; [constructor|]. apply Forall_app. split; [apply IH|].
  repeat constructor. pose proof (Z.mod_pos_bound n 10 ltac:(lia)) as Hb.
  assert (n mod 10 ∈ [0;1;2;3;4;5;6;7;8;9]) as Hin by (rewrite !elem_of_cons; lia).
  revert Hin. generalize (n mod 10). intros d Hd. rewrite !elem_of_cons in Hd.
  repeat destruct Hd as [->|Hd]; try done. by apply not_elem_of_nil in Hd.
Qed.
Lemma digit_iso l : Forall (λ c, digit c = true) l → is_true_all iso_char l.
Proof. intros H. eapply Forall_impl; [exact H|]. intros c E. cbn. unfold iso_char. by rewrite E. Qed.

Lemma isoformat_chars t : aligned t →
  (∃ c l, chars (isoformat t) = c :: l ∧ alnum c = true) ∧ is_true_all iso_char (chars (isoformat t)) ∧
  length (chars (isoformat t)) = 25%nat.
Proof.
  intros Ha. destruct (civil (t / DAY)) as [[y m] d] eqn:E.
  assert (chars (isoformat t) = digits 4 y ++ "-"%char :: digits 2 m ++ "-"%char :: digits 2 d ++ "T"%char ::
    digits 2 (hour t) ++ chars ":00:00+00:00") as ->.
  { unfold isoformat, iso_local. rewrite (aligned_iso_time t Ha). unfold chars at 1. rewrite String.list_ascii_of_string_of_list_ascii.
    unfold iso_date. rewrite E. repeat (rewrite <- app_assoc || rewrite <- app_comm_cons). done. }
  split_and!.
  - pose proof (digits_chars 4 y) as H. pose proof (digits_length 4 y). destruct (digits 4 y) as [|c l]; [done|].
    eexists c, _. split; [done|]. inv H. unfold alnum. apply orb_true_iff. by right.
  - unfold is_true_all. repeat (rewrite Forall_app || rewrite Forall_cons).
    split_and!; try (by apply digit_iso, digits_chars); by repeat constructor.
  - repeat (rewrite length_app || cbn [length] || rewrite digits_length). done.
Qed.

#[export] Instance row_order_trans {Row} (v : RowView Row) : Transitive (row_order v).
Proof.
  intros a b c. unfold row_order. intros [?|[? ?]] [?|[? ?]]; try (left; lia). right. split; [lia|]. by etransitivity.
Qed.
#[export] Instance row_order_total {Row} (v : RowView Row) : Total (row_order v).
Proof.
  intros a b. unfold row_order. destruct (Z.compare_spec (row_start v a) (row_start v b)) as [E|?|?]; [|left; by left|right; by left].
  destruct (total String.le (view_id v a) (view_id v b)); [left|right]; right; by split.
Qed.

Section rows.
Context {Row : Type} (v : RowView Row) (p : string) (in_p : ascii → bool).
(** The prefix of the ids, and the lower-case characters before the hash *)
Hypothesis Hin_p : ∀ c, iso_char c = true → in_p (ascii_lower c) = true.
Hypothesis Hp_ref : is_true_all ref_char (chars p).
Hypothesis Hp_in : Forall (λ c, in_p (ascii_lower c) = true) (chars ("/" +:+ p)).
Hypothesis Hp_words : forallb (λ w, excluded in_p is_hex (chars w)) sensitive_words = true.
Hypothesis Hp_len : (length (chars p) ≤ 198)%nat.

Record row_ok (row : Row) : Prop := {
  row_aligned : aligned (row_start v row);
  row_year : 0 ≤ year (row_start v row) < 10000;
  row_id : ∃ x, view_id v row = p +:+ identity_hash x }.

Lemma iso_is_ref_char c : iso_char c = true → ref_char c = true.
Proof. by destruct c as [[] [] [] [] [] [] [] []]. Qed.

Lemma row_key_Ref row : row_ok row → Ref (row_key v row) = true.
Proof.
  intros [Ha _ (x & Ex)]. destruct (isoformat_chars _ Ha) as ((c & l & Ec & Hc) & Hiso & Hlen).
  destruct (identity_hash_hex x) as [Hh Hhl].
  assert (chars (row_key v row) = (chars (isoformat (row_start v row)) ++ chars ("/" +:+ p)) ++ chars (identity_hash x)) as Ek.
  { unfold row_key. rewrite Ex, !chars_app. by rewrite <- !app_assoc. }
  unfold Ref, RefField. apply andb_true_iff. split.
  - rewrite str_len_chars, Ek, !length_app, Hhl, Hlen, chars_app, length_app. unfold MAX_REF_LENGTH. cbn. lia.
  - eapply (prefixed_Ref in_p); [|exact Hh|exact Ek|].
    + split; [exists c, (l ++ chars ("/" +:+ p)); by rewrite Ec|]. unfold is_true_all. rewrite !Forall_app. split_and!.
      * eapply Forall_impl; [exact Hiso|]. exact iso_is_ref_char.
      * rewrite chars_app. apply Forall_app. split; [by repeat constructor|done].
      * eapply Forall_impl; [exact Hiso|]. exact Hin_p.
      * exact Hp_in.
      * exact Hp_words.
    + rewrite !length_app, Hhl, Hlen, chars_app, length_app. cbn. lia.
Qed.

(** ** The order of the rows is the order of their keys. *)
Lemma row_key_compare a b : row_ok a → row_ok b →
  String.compare (row_key v a) (row_key v b) =
  then_cmp (row_start v a ?= row_start v b) (String.compare (view_id v a) (view_id v b)).
Proof.
  intros [Ha Ya _] [Hb Yb _]. unfold row_key. rewrite isoformat_compare by done. f_equal.
Qed.

Lemma string_le_compare s1 s2 : String.le s1 s2 ↔ String.compare s1 s2 ≠ Gt.
Proof. unfold String.le, String.leb. by destruct (String.compare s1 s2). Qed.

Lemma row_order_key a b : row_ok a → row_ok b → row_order v a b ↔ String.le (row_key v a) (row_key v b).
Proof.
  intros Ha Hb. rewrite string_le_compare, row_key_compare by done. unfold row_order. rewrite string_le_compare.
  destruct (Z.compare_spec (row_start v a) (row_start v b)); cbn; intuition (lia || congruence).
Qed.

(** * The rows of a query *)
Variables (entries : store Row) (matches : Row → bool).
Hypothesis Hentries : ∀ k e, entries !! k = Some e → k = view_id v e.2 ∧ row_ok e.2.

Definition matching_rows : list Row := filter (λ row, matches row) (stored_rows entries).
Definition ordered_rows : list Row := merge_sort (row_order v) matching_rows.

Lemma stored_ids_NoDup : NoDup (map (view_id v) (stored_rows entries)).
Proof.
  unfold stored_rows. rewrite map_map. assert (map (λ e : string * (string * Row), view_id v e.2.2) (map_to_list entries) =
    (map_to_list entries).*1) as ->; [|apply NoDup_fst_map_to_list].
  apply map_ext_in. intros [k e] Hin%list_elem_of_In%elem_of_map_to_list. cbn. by apply Hentries in Hin as [-> _].
Qed.
Lemma stored_rows_ok row : row ∈ stored_rows entries → row_ok row.
Proof. intros ([k e] & -> & Hin%elem_of_map_to_list)%list_elem_of_fmap. by apply Hentries in Hin as [_ ?]. Qed.

Lemma ordered_rows_perm : ordered_rows ≡ₚ matching_rows.
Proof. apply merge_sort_Permutation. Qed.
Lemma elem_of_ordered row : row ∈ ordered_rows ↔ row ∈ stored_rows entries ∧ matches row.
Proof. rewrite ordered_rows_perm. unfold matching_rows. rewrite list_elem_of_filter. tauto. Qed.
Lemma ordered_row_ok row : row ∈ ordered_rows → row_ok row.
Proof. intros [Hin _]%elem_of_ordered. by apply stored_rows_ok. Qed.

Lemma ordered_ids_NoDup : NoDup (map (view_id v) ordered_rows).
Proof.
  rewrite ordered_rows_perm. unfold matching_rows. pose proof stored_ids_NoDup as H. revert H.
  generalize (stored_rows entries) as l. induction l as [|x l IH]; [done|]. cbn [map]. intros [Hx Hl]%NoDup_cons.
  rewrite filter_cons. case_decide; [|by apply IH]. cbn [map]. constructor; [|by apply IH].
  intros (y & Ey & [_ Hy]%list_elem_of_filter)%list_elem_of_fmap. apply Hx. rewrite Ey. by apply list_elem_of_fmap_2.
Qed.

(** Later rows have strictly greater keys. *)
Definition key_before (a b : Row) : Prop := ¬ String.le (row_key v b) (row_key v a).

Lemma row_key_inj a b : row_ok a → row_ok b → row_key v a = row_key v b → view_id v a = view_id v b.
Proof.
  intros Ha Hb E. pose proof (row_key_compare a b Ha Hb) as Hc. rewrite E in Hc.
  assert (String.compare (row_key v b) (row_key v b) = Eq) as Hr.
  { rewrite string_compare_chars. apply compare_chars_refl. }
  rewrite Hr in Hc. destruct (row_start v a ?= row_start v b); try done. by apply String.compare_eq_iff.
Qed.

Lemma ordered_rows_in_order : StronglySorted (row_order v) ordered_rows.
Proof. apply StronglySorted_merge_sort; apply _. Qed.

Lemma ordered_rows_sorted : StronglySorted key_before ordered_rows.
Proof.
  pose proof ordered_rows_in_order as Hs.
  pose proof ordered_ids_NoDup as Hnd. pose proof ordered_row_ok as Hok. revert Hs Hnd Hok.
  generalize ordered_rows as l. induction 1 as [|x l Hs IH Hx]; intros Hnd Hok; [constructor|]. inv Hnd.
  constructor; [apply IH; [done|]; intros row Hr; apply Hok; by right|]. rewrite Forall_forall in *. intros y Hy Hle.
  pose proof (Hok x ltac:(by left)) as Hxo. pose proof (Hok y ltac:(by right)) as Hyo.
  pose proof (proj1 (row_order_key _ _ Hxo Hyo) (Hx _ Hy)) as Hle'.
  pose proof (row_key_inj _ _ Hxo Hyo (anti_symm String.le _ _ Hle' Hle)) as Ei.
  match goal with H : view_id v x ∉ _ |- _ => apply H end. rewrite Ei. by apply list_elem_of_fmap_2.
Qed.

(** The rows after the key of a row are those behind it. *)
Lemma rows_after_split l1 x l2 c : StronglySorted key_before (l1 ++ x :: l2) → kc_last_key c = row_key v x →
  rows_after v (Some c) (l1 ++ x :: l2) = l2.
Proof.
  intros Hs Ec. unfold rows_after. rewrite Ec. induction l1 as [|y l1 IH]; cbn [app] in *.
  - rewrite filter_cons, decide_False by (intros H; by apply H). inv Hs.
    match goal with H : Forall (key_before x) l2 |- _ => induction H as [|z l Hz _ IHl] end; [done|].
    rewrite filter_cons, decide_True by exact Hz. f_equal. apply IHl. by match goal with H : StronglySorted _ (_ :: _) |- _ => inv H end.
  - inv Hs. rewrite filter_cons, decide_False; [by apply IH|].
    match goal with H : Forall (key_before y) _ |- _ => rename H into Hy end. apply Forall_app in Hy as [_ Hy]. inv Hy.
    destruct (total String.le (row_key v y) (row_key v x)) as [Hle|Hle]; [by intros H|done].
Qed.

(** * Pages *)
Variables (scope : TenantReadScope) (limit : Z) (query_digest code : string).
Hypothesis Hscope : validate_TenantReadScope scope = Ok ().
Hypothesis Hlimit : 1 ≤ limit ≤ MAX_PAGE_SIZE.
Hypothesis Hdigest : Digest query_digest = true.
Hypothesis Htenant : ∀ row, matches row → view_tenant v row = rs_tenant_id scope.

Let read (after : option KeysetCursor) : result (ReadPage Row) :=
  read_page v scope limit after query_digest code matches entries.

(** A cursor this query returned *)
Definition own_cursor (after : option KeysetCursor) : Prop :=
  match after with None => True | Some c => kc_query_digest c = query_digest end.
Definition cursor_at (row : Row) : KeysetCursor := mkCursor (rs_tenant_id scope) query_digest (row_key v row).

Lemma page_valid (rows : list Row) cursor exhausted :
  (∀ row, row ∈ rows → row ∈ ordered_rows) → Z.of_nat (length rows) ≤ MAX_PAGE_SIZE →
  match cursor with Some c => kc_tenant_id c = rs_tenant_id scope | None => True end →
  construct (validate_page (view_tenant v)) (mkPage scope rows cursor exhausted) = Ok (mkPage scope rows cursor exhausted).
Proof.
  intros Hrows Hlen Hc. apply construct_ok. split; [done|]. unfold validate_page. rewrite bind_unit_ok, check_fields_ok. split.
  - repeat constructor. cbn [fst snd pg_rows]. by apply bool_decide_eq_true.
  - rewrite in_validator_ok, bind_unit_ok. unfold cursor_in_scope. rewrite !raise_if_ok. cbn [pg_rows pg_scope pg_next_cursor]. split.
    + apply existsb_false. intros row Hr%Hrows%elem_of_ordered. apply bool_decide_not_false. apply Htenant, Hr.
    + destruct cursor; [by apply bool_decide_not_false|done].
Qed.

Lemma cursor_valid row : row ∈ ordered_rows → construct validate_KeysetCursor (cursor_at row) = Ok (cursor_at row).
Proof.
  intros Hr%ordered_row_ok. apply construct_ok. split; [done|]. unfold validate_KeysetCursor, cursor_at.
  revert Hscope. unfold validate_TenantReadScope. rewrite !check_fields_ok, !Forall_cons. intros (? & _).
  cbn [fst snd kc_tenant_id kc_query_digest kc_last_key]. split_and!; try done. by apply row_key_Ref.
Qed.

(** A page is the first rows behind its cursor. *)
Lemma read_page_ok after l1 rest : own_cursor after → ordered_rows = l1 ++ rest → rows_after v after ordered_rows = rest →
  read after =
    if Z.of_nat (length rest) <=? limit then Ok (mkPage scope rest None true)
    else match last (take (Z.to_nat limit) rest) with
         | None => Ok (mkPage scope (take (Z.to_nat limit) rest) None false)
         | Some row => Ok (mkPage scope (take (Z.to_nat limit) rest) (Some (cursor_at row)) false)
         end.
Proof.
  intros Hown El Hafter. assert (∀ row, row ∈ rest → row ∈ ordered_rows) as Hin by (intros row; rewrite El, elem_of_app; by right).
  unfold read, read_page. fold matching_rows. fold ordered_rows. rewrite Hafter.
  assert (match after with Some c => bool_decide (kc_query_digest c ≠ query_digest) | None => false end = false) as ->.
  { destruct after; [by apply bool_decide_not_false|done]. }
  cbn [raise_if mbind result_bind mret result_ret]. destruct (Z.leb_spec (Z.of_nat (length rest)) limit) as [Hle|Hgt].
  - cbn [mbind result_bind]. rewrite take_ge by lia. apply page_valid; [done|lia|done].
  - assert (∀ row, row ∈ take (Z.to_nat limit) rest → row ∈ ordered_rows) as Hin'.
    { intros row Hr. apply Hin. by apply elem_of_take in Hr as (i & Hr%list_elem_of_lookup_2 & _). }
    assert (Z.of_nat (length (take (Z.to_nat limit) rest)) ≤ MAX_PAGE_SIZE) as Hl by (rewrite length_take; lia).
    destruct (last (take (Z.to_nat limit) rest)) as [row|] eqn:E; [|by apply page_valid].
    fold (cursor_at row). rewrite cursor_valid by (by apply Hin', last_Some_elem_of). by apply page_valid.
Qed.

Lemma follow_rest fuel after l1 rest : own_cursor after → ordered_rows = l1 ++ rest → rows_after v after ordered_rows = rest →
  (length rest < fuel)%nat → follow read fuel after = Ok rest.
Proof.
  revert after l1 rest. induction fuel as [|fuel IH]; intros after l1 rest Hown El Hafter Hfuel; [lia|].
  cbn [follow]. rewrite (read_page_ok after l1 rest) by done. destruct (Z.leb_spec (Z.of_nat (length rest)) limit) as [Hle|Hgt]; [done|].
  set (n := Z.to_nat limit). assert (1 ≤ n ≤ length rest)%nat as Hn by lia.
  destruct (last (take n rest)) as [row|] eqn:E.
  2: { apply last_None in E. apply (f_equal length) in E. rewrite length_take in E. cbn in E. lia. }
  apply last_Some in E as (l & El2). cbn [mbind result_bind pg_next_cursor pg_rows].
  assert (rest = (l ++ [row]) ++ drop n rest) as Erest by (rewrite <- El2; by rewrite take_drop).
  assert (ordered_rows = (l1 ++ l) ++ row :: drop n rest) as Eo.
  { rewrite El, Erest at 1. by rewrite <- !app_assoc. }
  rewrite (IH (Some (cursor_at row)) (l1 ++ l ++ [row]) (drop n rest)).
  - cbn. by rewrite take_drop.
  - done.
  - rewrite Eo, <- !app_assoc. done.
  - rewrite Eo. apply rows_after_split; [|done]. rewrite <- Eo. apply ordered_rows_sorted.
  - rewrite length_drop. lia.
Qed.

Lemma pages_complete fuel : (length matching_rows < fuel)%nat →
  complete_rows v matching_rows (follow read fuel None).
Proof.
  intros Hf. exists ordered_rows. split; [|split; [exact ordered_rows_perm|]].
  - apply (follow_rest fuel None [] ordered_rows); try done. by rewrite ordered_rows_perm.
  - split; [exact ordered_ids_NoDup|exact ordered_rows_in_order].
Qed.
End rows.

(** * The two reads *)
Definition key_char (p : string) (c : ascii) : bool := digit c || one_of "-t:+/" c || one_of p c.

Lemma iso_key_char p c : iso_char c = true → key_char p (ascii_lower c) = true.
Proof. unfold key_char. intros H. apply orb_true_iff. left. revert H. by destruct c as [[] [] [] [] [] [] [] []]. Qed.

Lemma window_row_ok {Row} (v : RowView Row) p row : genuine_window (view_window v row) →
  (∃ x, view_id v row = p +:+ identity_hash x) → row_ok v p row.
Proof. intros (Ha & Hy & _)%genuine_window_ok Hid. split; [done| |done]. unfold row_start. lia. Qed.

Lemma aggregate_row_ok a : genuine_aggregate a → row_ok aggregate_view "aggregate:" a.
Proof.
  intros (Hw & _ & _ & id & digest & a0 & H). apply window_row_ok; [done|].
  unfold WindowAggregate_new in H. guards. exists (aggregate_identity a0). rewrite <- H. by destruct a0.
Qed.
Lemma rollup_row_ok r : genuine_rollup r → row_ok rollup_view "slo-rollup:" r.
Proof.
  intros (Hw & id & digest & r0 & H). apply window_row_ok; [done|].
  unfold SloWindowRollup_new in H. guards. exists (rollup_identity r0). rewrite <- H. by destruct r0.
Qed.

Definition with_after (r : UsageReadRequest) (after : option KeysetCursor) : UsageReadRequest :=
  let '(mkUsageRequest s g p c l _) := r in mkUsageRequest s g p c l after.
Definition slo_with_after (r : SloReadRequest) (after : option KeysetCursor) : SloReadRequest :=
  let '(mkSloRequest s o l _) := r in mkSloRequest s o l after.

(** C10: usage pages are complete and disjoint. For a valid request without a
    cursor on a reachable repository, reading page after page from the returned
    cursors ends, and yields every stored aggregate that matches the request
    (so of its tenant only) exactly once, ordered by window start and id;
    a cursor of another query is refused. *)
Theorem usage_pages_complete self r fuel :
  ledger_reachable self → validate_TenantReadScope (ur_scope r) = Ok () → validate_UsageReadRequest r = Ok () →
  let rows := filter (λ a, matches_usage_window r a) (stored_rows (er_aggregates self)) in
  (length rows < fuel)%nat →
  complete_rows aggregate_view rows (follow (λ after, read_usage_windows (with_after r after) self) fuel None) ∧
  ∀ c, kc_query_digest c ≠ usage_query_digest r →
    read_usage_windows (with_after r (Some c)) self = Raise (TenantScopeError "cursor is bound to a different usage query").
Proof.
  intros Hs%ledger_reachable_inv Hscope Hr rows Hfuel. destruct r as [scope g pr cc limit after]. split.
  - revert Hr. unfold validate_UsageReadRequest. constraints.
    intros ((_ & _ & Hl & _) & _). apply andb_true_iff in Hl as [?%Z.leb_le ?%Z.leb_le].
    set (q := mkUsageRequest scope g pr cc limit after).
    change (complete_rows aggregate_view (matching_rows (er_aggregates self) (matches_usage_window q))
      (follow (λ after, read_page aggregate_view scope limit after (usage_query_digest q)
        "cursor is bound to a different usage query" (matches_usage_window q) (er_aggregates self)) fuel None)).
    eapply (pages_complete aggregate_view "aggregate:" (key_char "aggregate:") (iso_key_char _)).
    1-2: by repeat constructor.
    1: by vm_compute.
    1: by apply leb_complete.
    2,3,6: assumption || (split; assumption).
    + intros k e (? & _ & ?)%(inv_aggregates _ Hs). split; [done|by apply aggregate_row_ok].
    + unfold usage_query_digest. apply content_digest_Digest.
    + intros row Hm%Is_true_true. unfold matches_usage_window in Hm. guards. done.
  - intros c Hc. unfold read_usage_windows, read_page, with_after. cbn [ur_after]. by rewrite bool_decide_eq_true_2.
Qed.

(** The same for SLO rollups *)
Theorem slo_pages_complete self r fuel :
  ledger_reachable self → validate_TenantReadScope (sq_scope r) = Ok () → validate_SloReadRequest r = Ok () →
  let rows := filter (λ a, matches_slo_rollup r a) (stored_rows (er_rollups self)) in
  (length rows < fuel)%nat →
  complete_rows rollup_view rows (follow (λ after, read_slo_rollups (slo_with_after r after) self) fuel None).
Proof.
  intros Hs%ledger_reachable_inv Hscope Hr rows Hfuel. destruct r as [scope o limit after].
  revert Hr. unfold validate_SloReadRequest. constraints.
  intros ((_ & Hl & _) & _). apply andb_true_iff in Hl as [?%Z.leb_le ?%Z.leb_le].
  set (q := mkSloRequest scope o limit after).
  change (complete_rows rollup_view (matching_rows (er_rollups self) (matches_slo_rollup q))
    (follow (λ after, read_page rollup_view scope limit after (slo_query_digest q)
      "cursor is bound to a different SLO query" (matches_slo_rollup q) (er_rollups self)) fuel None)).
  eapply (pages_complete rollup_view "slo-rollup:" (key_char "slo-rollup:") (iso_key_char _)).
  1-2: by repeat constructor.
  1: by vm_compute.
  1: by apply leb_complete.
  2,3,6: assumption || (split; assumption).
  - intros k e (? & _ & ?)%(inv_rollups _ Hs). split; [done|by apply rollup_row_ok].
  - unfold slo_query_digest. apply content_digest_Digest.
  - intros row Hm%Is_true_true. unfold matches_slo_rollup in Hm. guards. done.
Qed.
