(* ===== verification/EconomicsExample.v ===== *)
(** A day of usage of one tenant: facts, price cards, aggregates, watermarks,
    an objective and samples, and the concrete instances of the economics
    theorems on them. *)
From S2P Require Export EconomicsAccounts EconomicsDecisions EconomicsPages.
Local Open Scope Z_scope.

(** A model that its constructor accepts, with its identity *)
Definition accepted {A} (make : A → result A) (x : A) : A := match make x with Ok y => y | Raise _ => x end.

(** A constructor that gives a model back has built it. *)
Lemma rebuilt_fact f : validate_AllocationRef (uf_allocation f) = Ok () ∧
  Forall (λ d, validate_DimensionRef d = Ok ()) (uf_dimensions f) ∧ UsageFact_new None None f = Ok f → genuine_fact f.
Proof. intros (Ha & Hd & H). split; [done|]. split; [done|]. by exists None, None, f. Qed.
Lemma rebuilt_card c : Forall (λ r, validate_PriceRate r = Ok ()) (pc_rates c) ∧ PriceCard_new None None c = Ok c → genuine_card c.
Proof. intros (Hr & H). split; [done|]. by exists None, None, c. Qed.
Lemma rebuilt_window w : UsageWindow_new (uw_granularity w) (uw_window_start w) None None = Ok w → genuine_window w.
Proof. intros H. by eexists _, _, _, _. Qed.
Lemma rebuilt_aggregate a : UsageWindow_new (uw_granularity (wa_window a)) (uw_window_start (wa_window a)) None None = Ok (wa_window a) ∧
  validate_AllocationRef (wa_allocation a) = Ok () ∧ Forall (λ t, validate_MetricTotal t = Ok ()) (wa_totals a) ∧
  WindowAggregate_new None None a = Ok a → genuine_aggregate a.
Proof. intros (Hw & Ha & Ht & H). split; [by apply rebuilt_window|]. split; [done|]. split; [done|]. by exists None, None, a. Qed.

Module EconomicsExample.
Definition digest (s : string) : string := Eval vm_compute in content_digest (JStr "source").
Definition midnight : datetime := 1704153600 * MICROS. (* 2024-01-02 *)
Definition allocation : AllocationRef := mkAllocation "tenant:a" "project:p" "cost:c" None.

Definition fact_at (h : Z) : UsageFact := accepted (UsageFact_new None None)
  (mkUsageFact "" "" "tenant:a" allocation "source:a" (digest "") (midnight + h * HOUR + 7) Tokens 10 (Some 4) (Some 6)
     "svc:llm" "meter:m" (Some h) [mkDimension "region" "eu"]).
Definition facts : list UsageFact := Eval vm_compute in map fact_at (seqZ 0 24).
Definition fact : UsageFact := Eval vm_compute in fact_at 0.

Definition card_from (version from : Z) (to : option Z) : PriceCard := accepted (PriceCard_new None None)
  (mkPriceCard "" "" "provider:x" "svc:llm" "USD" version from to [mkRate Tokens 2; mkRate Requests 5] "source:a" (digest "")).
Definition card : PriceCard := Eval vm_compute in card_from 1 (midnight - DAY) (Some (midnight + DAY)).
Definition next_card : PriceCard := Eval vm_compute in card_from 1 (midnight + DAY) None.

Definition window (g : WindowGranularity) (t : datetime) : UsageWindow :=
  match window_for t g with Ok w => w | Raise _ => mkWindow g t None "" end.
Definition day : UsageWindow := Eval vm_compute in window Daily midnight.
Definition first_hour : UsageWindow := Eval vm_compute in window Hourly midnight.

Definition aggregate_of (fs : list UsageFact) (w : UsageWindow) : WindowAggregate :=
  match aggregate_usage fs w card with
  | Ok a => a | Raise _ => mkAggregate "" "" "" allocation w [] "" "" []
  end.
Definition parts : list (list UsageFact * WindowAggregate) := Eval vm_compute in
  map (λ f, ([f], aggregate_of [f] (window Hourly (uf_occurred_at f)))) facts.
Definition hour : WindowAggregate := Eval vm_compute in aggregate_of [fact] first_hour.
Definition whole_day : WindowAggregate := Eval vm_compute in aggregate_of facts day.

Lemma facts_genuine : Forall genuine_fact facts.
Proof. eapply Forall_impl; [|apply rebuilt_fact]. by_compute. Qed.
Lemma fact_genuine : genuine_fact fact.
Proof. apply rebuilt_fact. by_compute. Qed.
Lemma card_genuine : genuine_card card.
Proof. apply rebuilt_card. by_compute. Qed.
Lemma next_card_genuine : genuine_card next_card.
Proof. apply rebuilt_card. by_compute. Qed.
Lemma day_genuine : genuine_window day.
Proof. apply rebuilt_window. by_compute. Qed.
Lemma first_hour_genuine : genuine_window first_hour.
Proof. apply rebuilt_window. by_compute. Qed.
Lemma parts_hourly : Forall (hour_part card) parts.
Proof.
  assert (Forall (λ p, Forall (λ f, validate_AllocationRef (uf_allocation f) = Ok () ∧
      Forall (λ d, validate_DimensionRef d = Ok ()) (uf_dimensions f) ∧ UsageFact_new None None f = Ok f) p.1 ∧
    UsageWindow_new (uw_granularity (wa_window p.2)) (uw_window_start (wa_window p.2)) None None = Ok (wa_window p.2) ∧
    uw_granularity (wa_window p.2) = Hourly ∧ aggregate_usage p.1 (wa_window p.2) card = Ok p.2) parts) as H by by_compute.
  eapply Forall_impl; [exact H|]. intros p (Hf & Hw & Hg & Ha). split; [|split; [by apply rebuilt_window|done]].
  eapply Forall_impl; [exact Hf|]. apply rebuilt_fact.
Qed.
Lemma parts_genuine : Forall (λ p, genuine_aggregate p.2) parts.
Proof. eapply Forall_impl; [|intros p; apply rebuilt_aggregate]. by_compute. Qed.

(** ** Watermarks, objectives and samples *)
Definition watermark (hours : Z) : Watermark :=
  mkWatermark "tenant:a" "source:a" (midnight + hours * HOUR) (midnight + 48 * HOUR) "lateness:1".
Definition lateness_policy : WatermarkPolicy := mkWatermarkPolicy "lateness:1" 3600 86400 CorrectLate 0.
Lemma watermark_genuine h : h = 2 ∨ h = 5 → genuine_watermark (watermark h).
Proof. intros [->| ->]; unfold genuine_watermark; by_compute. Qed.

Definition objective (sli : SliKind) (c : Comparison) (target : Z) : SloObjective :=
  accepted (SloObjective_new None) (mkObjective "" "tenant:a" "svc:llm" sli Hourly 1 target c None None).
Definition availability : SloObjective := Eval vm_compute in objective Availability Gte 990000.
Definition error_rate : SloObjective := Eval vm_compute in objective ErrorRate Lte 0.
Lemma availability_genuine : genuine_objective availability.
Proof. exists None, availability. by_compute. Qed.
Lemma error_rate_genuine : genuine_objective error_rate.
Proof. exists None, error_rate. by_compute. Qed.

(** One error in two million requests is within an error rate of zero: the
    measurement is rounded down to whole millionths. *)
Definition rate_rollup : SloWindowRollup := Eval vm_compute in
  match build_slo_rollup error_rate first_hour 1999999 2000000 1 None [] with
  | Ok r => r | Raise _ => mkRollup "" "" "" "" first_hour 0 0 0 None [] InsufficientData
  end.

Definition sample (sequence : option Z) : SampleRef := mkSample "source:a" (digest "") sequence.

(** ** A repository with the first hours of the day *)
Definition calls : list ledger_call :=
  AppendFact fact :: map (λ p, AppendAggregate p.2) (take 3 parts) ++
  [PutCard card; PutCard next_card; AdvanceWatermark (watermark 2)].
Definition later_calls : list ledger_call := [PutCard card; AppendFact fact; AdvanceWatermark (watermark 5)].

Lemma calls_genuine : Forall genuine_call calls.
Proof.
  constructor; [exact fact_genuine|]. apply Forall_app. split.
  - apply Forall_map, Forall_take. exact parts_genuine.
  - constructor; [exact card_genuine|]. constructor; [exact next_card_genuine|]. constructor; [|constructor].
    apply watermark_genuine. by left.
Qed.
Lemma later_calls_genuine : Forall genuine_call later_calls.
Proof.
  constructor; [exact card_genuine|]. constructor; [exact fact_genuine|]. constructor; [|constructor].
  apply watermark_genuine. by right.
Qed.
Lemma calls_reachable cs : Forall genuine_call cs → ledger_reachable (run_ledger_calls cs new_repository).
Proof. intros H. by exists cs. Qed.

Lemma run_outcome {S A} (m : M S A) s a : (m s).1 = Ok a → m s = (Ok a, (m s).2).
Proof. intros <-. apply surjective_pairing. Qed.

(** The answer to the new watermark *)
Definition receipt : AppendReceipt := Eval vm_compute in
  match (advance_watermark (watermark 5) (run_ledger_calls calls new_repository)).1 with
  | Ok r => r | Raise _ => mkReceipt "" "" Replayed
  end.

Definition request : UsageReadRequest :=
  mkUsageRequest (mkScope "tenant:a" "principal:r") (Some Hourly) (Some "project:p") None 2 None.
End EconomicsExample.

Lemma aggregate_usage_spec_witness :
  accountable [EconomicsExample.fact] EconomicsExample.first_hour EconomicsExample.card ∧
  wa_totals EconomicsExample.hour = [mkTotal Tokens 10 20].
Proof.
  split; [|reflexivity].
  apply (aggregate_usage_spec [EconomicsExample.fact] EconomicsExample.first_hour EconomicsExample.card EconomicsExample.hour);
    [exact (Forall_cons_2 _ _ _ EconomicsExample.fact_genuine (Forall_nil_2 _))|exact EconomicsExample.first_hour_genuine|exact EconomicsExample.card_genuine|by_compute].
Defined.

Lemma daily_is_aggregate_of_facts_witness :
  aggregate_usage (day_facts EconomicsExample.parts) EconomicsExample.day EconomicsExample.card = Ok EconomicsExample.whole_day ∧
  wa_totals EconomicsExample.whole_day = [mkTotal Tokens 240 480].
Proof.
  split; [|reflexivity].
  apply (daily_is_aggregate_of_facts EconomicsExample.card EconomicsExample.day EconomicsExample.parts EconomicsExample.whole_day);
    [exact EconomicsExample.card_genuine|exact EconomicsExample.day_genuine|reflexivity|exact EconomicsExample.parts_hourly|by_compute].
Defined.

(** A fact two hours behind the watermark, outside the allowed hour but within
    the correction age of a day *)
Lemma late_event_classified_witness :
  ∃ d, decide_late_event EconomicsExample.fact (Some (EconomicsExample.watermark 2)) EconomicsExample.lateness_policy = Ok d ∧
    ld_status d = CorrectionRequired ∧ ld_reason d ≠ WithinLateness.
Proof.
  destruct (late_event_classified EconomicsExample.fact (EconomicsExample.watermark 2) EconomicsExample.lateness_policy
    EconomicsExample.fact_genuine (EconomicsExample.watermark_genuine 2 (or_introl eq_refl)) ltac:(by_compute)
    (conj eq_refl eq_refl)) as (d & E & _ & _ & _ & Hc & _ & Hw & _).
  exists d. split; [exact E|]. split; [apply (proj2 Hc); by_compute|].
  intros H%(proj1 Hw). destruct H as [_ H]. apply Z.leb_le in H. vm_compute in H. discriminate H.
Defined.

Lemma slo_rollup_exact_witness :
  build_slo_rollup EconomicsExample.error_rate EconomicsExample.first_hour 1999999 2000000 1 None [] = Ok EconomicsExample.rate_rollup ∧
  sw_status EconomicsExample.rate_rollup = Met.
Proof.
  assert (build_slo_rollup EconomicsExample.error_rate EconomicsExample.first_hour 1999999 2000000 1 None [] =
    Ok EconomicsExample.rate_rollup) as E by by_compute. split; [exact E|].
  destruct (slo_rollup_exact EconomicsExample.error_rate EconomicsExample.first_hour 1999999 2000000 1 None []
    EconomicsExample.error_rate_genuine) as [_ H]. destruct (H _ E) as (_ & _ & Hr & _).
  apply (proj2 (Hr ltac:(discriminate) eq_refl)). by_compute.
Defined.

(** Three samples expected; the fact, delivered twice, and two others missing *)
Lemma reconcile_samples_exact_witness :
  ∃ r, reconcile_samples (map EconomicsExample.sample [Some 0; Some 1; Some 2]) [EconomicsExample.fact; EconomicsExample.fact] = Ok r ∧
    faithful_report (map EconomicsExample.sample [Some 0; Some 1; Some 2]) [EconomicsExample.fact; EconomicsExample.fact] r.
Proof.
  destruct (reconcile_samples_exact (map EconomicsExample.sample [Some 0; Some 1; Some 2]) [EconomicsExample.fact; EconomicsExample.fact]
    (Forall_cons_2 _ _ _ EconomicsExample.fact_genuine (Forall_cons_2 _ _ _ EconomicsExample.fact_genuine (Forall_nil_2 _)))) as [H1 H2].
  destruct (proj2 H1) as (r & E).
  - split; [by_compute|]. split; [by_compute|]. split; apply comparable_elements; by_compute.
  - exists r. split; [exact E|exact (H2 r E)].
Defined.

Lemma appends_persist_and_replay_witness :
  let s1 := (run_ledger_call (AdvanceWatermark (EconomicsExample.watermark 5))
    (run_ledger_calls EconomicsExample.calls new_repository)).2 in
  let s2 := run_ledger_calls EconomicsExample.later_calls s1 in
  ledger_le (run_ledger_calls EconomicsExample.calls new_repository) s1 ∧ ledger_le s1 s2 ∧
  run_ledger_call (AdvanceWatermark (EconomicsExample.watermark 5)) s2 =
    (Ok (mkReceipt (ar_identity EconomicsExample.receipt) (ar_digest EconomicsExample.receipt) Replayed), s2).
Proof.
  apply (appends_persist_and_replay (AdvanceWatermark (EconomicsExample.watermark 5)) EconomicsExample.later_calls
    (run_ledger_calls EconomicsExample.calls new_repository) EconomicsExample.receipt
    (run_ledger_call (AdvanceWatermark (EconomicsExample.watermark 5)) (run_ledger_calls EconomicsExample.calls new_repository)).2
    (EconomicsExample.calls_reachable _ EconomicsExample.calls_genuine)
    (EconomicsExample.watermark_genuine 5 (or_intror eq_refl)) EconomicsExample.later_calls_genuine).
  - apply EconomicsExample.run_outcome. by_compute.
  - reflexivity.
Defined.

Lemma watermark_never_regresses_witness :
  let s1 := (advance_watermark (EconomicsExample.watermark 5) (run_ledger_calls EconomicsExample.calls new_repository)).2 in
  let s2 := run_ledger_calls EconomicsExample.later_calls s1 in
  ∃ w', get_watermark "tenant:a" "source:a" s2 = Some w' ∧ later_watermark (EconomicsExample.watermark 5) w'.
Proof.
  destruct (watermark_never_regresses (EconomicsExample.watermark 5) EconomicsExample.later_calls
    (run_ledger_calls EconomicsExample.calls new_repository) EconomicsExample.receipt
    (advance_watermark (EconomicsExample.watermark 5) (run_ledger_calls EconomicsExample.calls new_repository)).2
    (EconomicsExample.calls_reachable _ EconomicsExample.calls_genuine)
    (EconomicsExample.watermark_genuine 5 (or_intror eq_refl)) EconomicsExample.later_calls_genuine) as (_ & _ & w' & H & Hl & _).
  - apply EconomicsExample.run_outcome. by_compute.
  - reflexivity.
  - exists w'. split; [exact H|exact Hl].
Defined.

(** At midnight of the next day only the second card is effective. *)
Lemma price_cards_exclusive_witness :
  let s := run_ledger_calls EconomicsExample.calls new_repository in
  er_cards s !! pc_card_id EconomicsExample.card = Some (pc_card_digest EconomicsExample.card, EconomicsExample.card) ∧
  effective EconomicsExample.next_card (EconomicsExample.midnight + DAY) ∧
  ¬ effective EconomicsExample.card (EconomicsExample.midnight + DAY).
Proof.
  intros s. split; [by_compute|]. split; [unfold effective; by_compute|]. intros H.
  destruct (price_cards_exclusive s (pc_card_id EconomicsExample.card) (pc_card_digest EconomicsExample.card) EconomicsExample.card
    (pc_card_id EconomicsExample.next_card) (pc_card_digest EconomicsExample.next_card) EconomicsExample.next_card
    (EconomicsExample.midnight + DAY) (EconomicsExample.calls_reachable _ EconomicsExample.calls_genuine))
    as [E _]; [by_compute|by_compute|reflexivity|reflexivity|reflexivity|exact H|unfold effective; by_compute|discriminate E].
Defined.

(** Three matching rows, in pages of two *)
Lemma usage_pages_complete_witness :
  let s := run_ledger_calls EconomicsExample.calls new_repository in
  complete_rows aggregate_view
    (filter (λ a, matches_usage_window EconomicsExample.request a) (stored_rows (er_aggregates s)))
    (follow (λ after, read_usage_windows (with_after EconomicsExample.request after) s) 4 None).
Proof.
  intros s. apply (usage_pages_complete s EconomicsExample.request 4 (EconomicsExample.calls_reachable _ EconomicsExample.calls_genuine));
    [by_compute|by_compute|]. apply Nat.ltb_lt. vm_compute. reflexivity.
Defined.
