(* ===== verification/Interaction.v ===== *)
(** Programs that call adapters.

    [arbora/control_plane/projection] runs no lock: several projectors and the
    authority work at the same time against adapters (an outbox, a checkpoint
    store, a graph) that only a protocol describes, and any of them may fail or
    die between two adapter calls. A computation is therefore a tree of adapter
    calls ([prog]); each call answers with a value or an exception. A tree runs
    sequentially against an executable world ([run]) or interleaved with others
    against a relational one ([pool_step]); [rg] is the rely/guarantee judgement
    for one tree and [pool_steps_safe] its soundness for any number of them. *)
From S2P Require Export Prelude.

Section prog.
Context {op : Type} {resp : op → Type}.

Inductive prog (A : Type) : Type :=
  | Done (r : result A)
  | Call (o : op) (k : result (resp o) → prog A).
Arguments Done {A} _.
Arguments Call {A} _ _.

Fixpoint prog_bind {A B} (f : A → prog B) (p : prog A) : prog B :=
  match p with
  | Done (Ok a) => f a
  | Done (Raise e) => Done (Raise e)
  | Call o k => Call o (λ r, prog_bind f (k r))
  end.

(** [try: p except Exception as e: handler(e)] *)
Fixpoint prog_try {A} (handler : pyexn → prog A) (p : prog A) : prog A :=
  match p with
  | Done (Ok a) => Done (Ok a)
  | Done (Raise e) => handler e
  | Call o k => Call o (λ r, prog_try handler (k r))
  end.
End prog.
Arguments prog {op} resp A.
Arguments Done {op resp A} _.
Arguments Call {op resp A} _ _.

#[export] Instance prog_mret {op} {resp : op → Type} : MRet (prog resp) := λ _ a, Done (Ok a).
#[export] Instance prog_mbind {op} {resp : op → Type} : MBind (prog resp) := λ _ _ f p, prog_bind f p.
#[export] Instance prog_mthrow {op} {resp : op → Type} : MThrow pyexn (prog resp) := λ _ e, Done (Raise e).

Definition call {op} {resp : op → Type} (o : op) : prog resp (resp o) := Call o Done.

(** * Sequential runs *)
Section run.
Context {op : Type} {resp : op → Type} {W : Type} (exec : ∀ o : op, M W (resp o)).

Fixpoint run {A} (p : prog resp A) : M W A :=
  match p with
  | Done r => lift r
  | Call o k => λ w, let '(r, w') := exec o w in run (k r) w'
  end.

Lemma run_bind {A B} (f : A → prog resp B) p w :
  run (p ≫= f) w = (run p ≫= λ a, run (f a)) w.
Proof.
  revert w. induction p as [[a|e]|o k IH]; intros w; [done..|].
  unfold mbind, M_bind, prog_mbind in *. cbn. destruct (exec o w) as [r w']. apply IH.
Qed.

Lemma run_try {A} handler (p : prog resp A) w :
  run (prog_try handler p) w =
  match run p w with (Ok a, w') => (Ok a, w') | (Raise e, w') => run (handler e) w' end.
Proof.
  revert w. induction p as [[a|e]|o k IH]; intros w; [done..|]. cbn. destruct (exec o w) as [r w']. apply IH.
Qed.

Lemma run_bind_ok {A B} (f : A → prog resp B) p w a w' :
  run p w = (Ok a, w') → run (p ≫= f) w = run (f a) w'.
Proof. intros E. rewrite run_bind. unfold mbind, M_bind. by rewrite E. Qed.
Lemma run_call o w : run (call o) w = exec o w.
Proof. cbn. by destruct (exec o w). Qed.
End run.

(** * Rely and guarantee *)
Section rg.
Context {op : Type} {resp : op → Type} {W : Type}.
(** What a call may answer and do; what the other programs may do; and what a
    program may call *)
Context (handle : ∀ o : op, W → result (resp o) → W → Prop) (rely : relation W) (allowed : op → W → Prop).

(** Every call of [p] is allowed when it is made and is a step the others may
    rely on; the result satisfies [Q]. *)
Fixpoint rg {A} (p : prog resp A) (Q : result A → W → Prop) (w : W) : Prop :=
  match p with
  | Done r => Q r w
  | Call o k => ∀ w0, rely w w0 →
      allowed o w0 ∧ ∀ r w1, handle o w0 r w1 → rely w0 w1 ∧ rg (k r) Q w1
  end.

Lemma rg_mono {A} (p : prog resp A) (Q Q' : result A → W → Prop) w :
  (∀ r w', Q r w' → Q' r w') → rg p Q w → rg p Q' w.
Proof.
  intros HQ. revert w. induction p as [r|o k IH]; cbn; [auto|]. intros w H w0 Hw.
  destruct (H w0 Hw) as [Ha Hk]. split; [done|]. intros r w1 Ho. destruct (Hk r w1 Ho). auto.
Qed.

Lemma rg_bind {A B} (f : A → prog resp B) p (Q : result B → W → Prop) w :
  rg p (λ r w', match r with Ok a => rg (f a) Q w' | Raise e => Q (Raise e) w' end) w → rg (p ≫= f) Q w.
Proof.
  unfold mbind, prog_mbind. revert w. induction p as [[a|e]|o k IH]; cbn; [auto..|]. intros w H w0 Hw.
  destruct (H w0 Hw) as [Ha Hk]. split; [done|]. intros r w1 Ho. destruct (Hk r w1 Ho). auto.
Qed.

Lemma rg_try {A} handler (p : prog resp A) (Q : result A → W → Prop) w :
  rg p (λ r w', match r with Ok a => Q (Ok a) w' | Raise e => rg (handler e) Q w' end) w → rg (prog_try handler p) Q w.
Proof.
  revert w. induction p as [[a|e]|o k IH]; cbn; [auto..|]. intros w H w0 Hw.
  destruct (H w0 Hw) as [Ha Hk]. split; [done|]. intros r w1 Ho. destruct (Hk r w1 Ho). auto.
Qed.

Lemma rg_call o (Q : result (resp o) → W → Prop) w :
  (∀ w0, rely w w0 → allowed o w0 ∧ ∀ r w1, handle o w0 r w1 → rely w0 w1 ∧ Q r w1) → rg (call o) Q w.
Proof. done. Qed.
Lemma rg_ret {A} (a : A) (Q : result A → W → Prop) w : Q (Ok a) w → rg (mret a) Q w.
Proof. done. Qed.

(** The steps of others do not disturb a program that has not finished. *)
Lemma rg_stable `{!PreOrder rely} {A} (p : prog resp A) (Q : result A → W → Prop) w w' :
  (∀ r w1 w2, rely w1 w2 → Q r w1 → Q r w2) → rely w w' → rg p Q w → rg p Q w'.
Proof. intros HQ Hw. destruct p as [r|o k]; cbn; [by apply HQ|]. intros H w0 Hw0. apply H. by trans w'. Qed.

(** ** Interleaving

    A pool of programs and the world. Programs appear at any time, each step is
    one call of one of them, and a program that is never chosen again has
    crashed. [admissible] says which programs may appear. *)
Context {A : Type} (admissible : prog resp A → Prop).
Definition pool : Type := list (prog resp A) * W.

Inductive pool_step : pool → pool → Prop :=
  | pool_start p ps w : admissible p → pool_step (ps, w) (p :: ps, w)
  | pool_call ps1 o k ps2 w r w' : handle o w r w' →
      pool_step (ps1 ++ Call o k :: ps2, w) (ps1 ++ k r :: ps2, w').

Definition anything {B} (r : result B) (w : W) : Prop := True.

Definition pool_safe (c : pool) : Prop := Forall (λ p, rg p anything c.2) c.1.

Context (inv : W → Prop) `{!PreOrder rely}.
Context (rely_inv : ∀ w w', rely w w' → inv w → inv w') (admissible_rg : ∀ p w, admissible p → inv w → rg p anything w).

Lemma anything_stable {B} (p : prog resp B) w w' : rely w w' → rg p anything w → rg p anything w'.
Proof. by apply rg_stable. Qed.

Lemma pool_step_safe c c' : pool_step c c' → inv c.2 ∧ pool_safe c → (inv c'.2 ∧ pool_safe c') ∧ rely c.2 c'.2.
Proof.
  intros [p ps w Hp|ps1 o k ps2 w r w' Ho] [HI Hs]; cbn in *.
  - split; [|done]. split; [done|]. constructor; [by apply admissible_rg|done].
  - unfold pool_safe in *. cbn in *. apply Forall_app in Hs as [H1 H2]. apply Forall_cons in H2 as [Hp H2].
    destruct (Hp w ltac:(done)) as [_ Hk]. destruct (Hk r w' Ho) as [Hrely Hkr].
    split; [|done]. split; [by eapply rely_inv|]. apply Forall_app. split; [|constructor; [done|]];
      (eapply Forall_impl; [eassumption|]; intros q; by apply anything_stable).
Qed.

Lemma pool_steps_safe c c' : rtc pool_step c c' → inv c.2 ∧ pool_safe c → (inv c'.2 ∧ pool_safe c') ∧ rely c.2 c'.2.
Proof.
  induction 1 as [c|c1 c2 c3 Hstep _ IH]; intros H; [done|].
  destruct (pool_step_safe _ _ Hstep H) as [H2 Hr]. destruct (IH H2) as [H3 Hr']. split; [done|by trans c2.2].
Qed.

Lemma pool_start_safe w : inv w → inv (([] : list (prog resp A)), w).2 ∧ pool_safe ([], w).
Proof. split; [done|constructor]. Qed.

(** A call that a program of a safe pool is about to make is allowed. *)
Lemma pool_call_allowed (c : pool) o k : pool_safe c → Call o k ∈ c.1 → allowed o c.2.
Proof. intros Hs Hk. unfold pool_safe in Hs. rewrite Forall_forall in Hs. by destruct (Hs _ Hk c.2 ltac:(done)). Qed.
End rg.

(** A sequential run is one of the interleavings. *)
Lemma rg_run {op} {resp : op → Type} {W} (exec : ∀ o : op, M W (resp o)) rely allowed `{!PreOrder rely} {A} (p : prog resp A) Q w r w' :
  rg (λ o w r w', exec o w = (r, w')) rely allowed p Q w → run exec p w = (r, w') → Q r w'.
Proof.
  revert w. induction p as [r0|o k IH]; cbn; intros w H E; [by injection E as <- <-|].
  destruct (exec o w) as [r1 w1] eqn:Eo. destruct (H w ltac:(done)) as [_ Hk]. destruct (Hk r1 w1 Eo) as [_ Hr]. by eapply IH.
Qed.

(** ** One program among others

    [interleaved p w r w']: [p], started in [w], ends with [r] in [w'] while
    others may do whatever [rely] permits before each of its calls. *)
Section interleaved.
Context {op : Type} {resp : op → Type} {W : Type}.
Context (handle : ∀ o : op, W → result (resp o) → W → Prop) (rely : relation W).

Inductive interleaved {A} : prog resp A → W → result A → W → Prop :=
  | interleaved_done r w : interleaved (Done r) w r w
  | interleaved_call o k w w0 x w1 r w' :
      rely w w0 → handle o w0 x w1 → interleaved (k x) w1 r w' → interleaved (Call o k) w r w'.

Lemma rg_interleaved allowed {A} (p : prog resp A) Q w r w' :
  rg handle rely allowed p Q w → interleaved p w r w' → Q r w'.
Proof.
  intros H Hi. revert H. induction Hi as [r w|o k w w0 x w1 r w' Hr Hh _ IH]; cbn; [done|]. intros H.
  destruct (H w0 Hr) as [_ Hk]. destruct (Hk x w1 Hh) as [_ Hx]. by apply IH.
Qed.

(** A run without interference, by code that only does what [handle] allows *)
Lemma rg_run_rely (exec : ∀ o : op, M W (resp o)) allowed `{!PreOrder rely} {A} (p : prog resp A) Q w r w' :
  (∀ o w r w', exec o w = (r, w') → handle o w r w') →
  rg handle rely allowed p Q w → run exec p w = (r, w') → rely w w' ∧ Q r w'.
Proof.
  intros Hex. revert w. induction p as [r0|o k IH]; cbn; intros w H E; [by injection E as <- <-|].
  destruct (exec o w) as [r1 w1] eqn:Eo. destruct (H w ltac:(done)) as [_ Hk].
  destruct (Hk r1 w1 (Hex _ _ _ _ Eo)) as [Hr Hx]. destruct (IH r1 w1 Hx E) as [Hr' HQ]. split; [by trans w1|done].
Qed.
End interleaved.
