(* ===== verification/ProjectionModels.v ===== *)
(** The contracts of the authority outbox and its projection,
    [arbora/control_plane/projection/models.py].

    One record per model. A model with a summary is built by [X_new], which
    normalizes the summary and validates the rest; the others have
    [validate_X]. A summary is a dict in insertion order; its raw items are
    scalars or objects of another type ([None]). Float scalars have no
    representation. Datetimes are instants. *)
From S2P Require Export EconomicsTime.
From S2P Require Import Sha256.
Local Open Scope Z_scope.

Definition OUTBOX_SCHEMA_VERSION : string := "control-plane-outbox.v1".
Definition CHECKPOINT_VERSION : string := "control-plane-projection-checkpoint.v1".
Definition MAX_BATCH_SIZE : Z := 256.
Definition MAX_SUMMARY_FIELDS : nat := 32.
Definition MAX_SUMMARY_VALUE_LENGTH : nat := 256.
Definition MAX_SUMMARY_INTEGER : Z := 10 ^ 12.

(** * Identifiers *)
Definition identifier_char (c : ascii) : bool := alnum c || one_of "._:/@+-" c.
Definition IDENTIFIER_RE : regex := RCat (RClass letter) (RUpTo (RClass identifier_char) 191).
Definition EVENT_TYPE_RE : regex := RCat (RClass letter) (RUpTo (RClass identifier_char) 95).
Definition SUMMARY_KEY_RE : regex :=
  RCat (RClass lower) (RUpTo (RClass (λ c, lower c || digit c || one_of "_" c)) 63).
Definition REASON_RE : regex := RCat (RClass lower) (RStar (RClass (λ c, lower c || digit c || one_of "._-" c))).
Definition Identifier (s : string) : bool := re_match IDENTIFIER_RE s.
Definition EventType (s : string) : bool := re_match EVENT_TYPE_RE s.
Definition ReasonCode (s : string) : bool := bool_decide (String.length s ≤ 64)%nat && re_match REASON_RE s.

(** * Summaries *)
Definition RSpaces : regex := RStar (RClass is_py_space).
Definition REquals : regex := RClass (one_of "=:").
Definition FORBIDDEN_TEXT_RE : regex :=
  RAlts [RWord "-----begin"; RCat (RWord "bearer") (RPlus (RClass is_py_space));
    RCat (RWord "authorization") (RCat RSpaces (RClass (one_of ":"))); RCat (RWord "password") (RCat RSpaces REquals);
    RCat (RWord "secret") (RCat RSpaces REquals); RCat (RWord "token") (RCat RSpaces REquals);
    RCat (RWord "api") (RCat RSep (RCat (RWord "key") (RCat RSpaces REquals)));
    RCat (RWord "private") (RCat RSep (RCat (RWord "key") (RCat RSpaces REquals)))].
(** [_FORBIDDEN_TEXT_RE.search(s) is not None] *)
Definition forbidden_text (s : string) : bool :=
  re_search FORBIDDEN_TEXT_RE s || search_words ["raw"; "body"; "payload"] s.
Definition FORBIDDEN_REF_PREFIXES : list string :=
  ["body:"; "data:"; "env:"; "file:"; "http:"; "https:"; "private:"; "result:"; "secret:"; "vault:"].
Definition ALLOWED_SUMMARY_KEYS : list string :=
  ["active"; "aggregate_ref"; "change_ref"; "count"; "deleted"; "kind"; "operation"; "outcome"; "policy_ref";
   "reason_code"; "revision"; "schema_ref"; "source_ref"; "state"; "status"; "subject_ref"; "tenant_ref"; "version"].

(** [_validate_reference], with [code] the field's name in the message *)
Definition validate_reference (value field_name : string) : result () :=
  raise_if (existsb (λ p, py_startswith (casefold value) p) FORBIDDEN_REF_PREFIXES || forbidden_text value)
    (ValueError (field_name +:+ "_must_be_opaque_reference")).

Inductive SummaryValue := SBool (b : bool) | SInt (n : Z) | SText (s : string).
#[export] Instance SummaryValue_eq_dec : EqDecision SummaryValue.
Proof. solve_decision. Defined.
Definition summary := list (string * SummaryValue).
(** What a caller passes: [None] is an object that is not a scalar. *)
Definition raw_summary := list (string * option SummaryValue).
Definition raw_of (s : summary) : raw_summary := map (λ kv, (kv.1, Some kv.2)) s.

Definition SummaryValue_json (v : SummaryValue) : json :=
  match v with SBool b => JBool b | SInt n => JInt n | SText s => JStr s end.
Definition summary_json (s : summary) : json := JObj (map (λ kv, (kv.1, SummaryValue_json kv.2)) s).

(** Python's [==]: a bool equals the integer it stands for. *)
Definition numeric (v : SummaryValue) : Z + string :=
  match v with SBool b => inl (Z.b2z b) | SInt n => inl n | SText s => inr s end.
(** [==] of two dicts: the same keys with equal values, in any order *)
Definition summary_eqb (s1 s2 : summary) : bool :=
  bool_decide (list_to_map (M := gmap string _) (map (prod_map id numeric) s1) =
               list_to_map (map (prod_map id numeric) s2)).

Definition normalize_summary_key (key : string) : result string :=
  _ ← raise_if (bool_decide (py_strip key ≠ key) || negb (re_match SUMMARY_KEY_RE key)) (ValueError "summary_key_not_canonical");
  _ ← raise_if (bool_decide (key ∉ ALLOWED_SUMMARY_KEYS)) (ValueError "summary_key_not_allowlisted");
  Ok key.

Definition normalize_summary_integer (n : Z) : result SummaryValue :=
  _ ← raise_if (MAX_SUMMARY_INTEGER <? Z.abs n) (ValueError "summary_integer_bound_exceeded");
  Ok (SInt n).

Definition is_control (c : ascii) : bool := bool_decide (N_of_ascii c < 32 ∧ N_of_ascii c ≠ 9)%N.
(** [key.endswith("_ref")] *)
Definition is_ref_key (key : string) : bool := String.prefix "fer_" (string_rev key).

Definition normalize_summary_text (key value : string) : result SummaryValue :=
  _ ← raise_if (negb (str_len 1 MAX_SUMMARY_VALUE_LENGTH value)) (ValueError "summary_text_length_invalid");
  _ ← raise_if (existsb is_control (chars value)) (ValueError "summary_text_contains_control_character");
  _ ← raise_if (forbidden_text value) (ValueError "summary_text_contains_sensitive_marker");
  _ ← (if is_ref_key key then validate_reference value key else Ok ());
  Ok (SText value).

Definition normalize_summary_value (key : string) (value : option SummaryValue) : result SummaryValue :=
  match value with
  | Some (SBool b) => Ok (SBool b)
  | Some (SInt n) => normalize_summary_integer n
  | Some (SText s) => normalize_summary_text key s
  | None => Raise (ValueError "summary_value_must_be_scalar")
  end.

Definition normalize_item (normalized : summary) (item : string * option SummaryValue) : result summary :=
  key ← normalize_summary_key item.1;
  value ← normalize_summary_value key item.2;
  Ok (normalized ++ [(key, value)]).

(** [_normalize_summary] of a mapping, whose keys are distinct *)
Definition normalize_summary (value : raw_summary) : result summary :=
  _ ← raise_if (bool_decide (MAX_SUMMARY_FIELDS < length value)%nat) (ValueError "summary_field_limit_exceeded");
  normalized ← for_fold normalize_item value [];
  Ok (sort_by fst normalized).

(** * Derived identities *)
Inductive EventOperation := Upsert | TombstoneOp.
Inductive MutationOperation := MutUpsert | MutDelete | MutRollback.
Inductive PromotionOrigin := Authoritative | GraphObservationPromotion.
#[export] Instance EventOperation_eq_dec : EqDecision EventOperation.
Proof. solve_decision. Defined.
#[export] Instance MutationOperation_eq_dec : EqDecision MutationOperation.
Proof. solve_decision. Defined.
#[export] Instance PromotionOrigin_eq_dec : EqDecision PromotionOrigin.
Proof. solve_decision. Defined.
Definition event_operation_str (o : EventOperation) : string :=
  match o with Upsert => "upsert" | TombstoneOp => "tombstone" end.
Definition mutation_operation_str (o : MutationOperation) : string :=
  match o with MutUpsert => "upsert" | MutDelete => "delete" | MutRollback => "rollback" end.

Definition sha256_digest (value : json) : string := canonical_digest value.

(** [prefix + hashlib.sha256(_canonical_json(material)).hexdigest()] *)
Definition derived_id (prefix : string) (material : json) : string := prefix +:+ hexdigest (payload material).
#[global] Arguments derived_id : simpl never.

Definition event_identity (aggregate_type aggregate_id : string) (sequence : Z) (event_type : string)
    (operation : EventOperation) (payload_digest aggregate_digest : string) : json :=
  JObj [("aggregate_digest", JStr aggregate_digest); ("aggregate_id", JStr aggregate_id);
        ("aggregate_type", JStr aggregate_type); ("event_type", JStr event_type);
        ("operation", JStr (event_operation_str operation)); ("payload_digest", JStr payload_digest);
        ("sequence", JInt sequence)].
Definition event_id_for (aggregate_type aggregate_id : string) (sequence : Z) (event_type : string)
    (operation : EventOperation) (payload_digest aggregate_digest : string) : string :=
  derived_id "event:" (event_identity aggregate_type aggregate_id sequence event_type operation payload_digest aggregate_digest).
Definition authoritative_mutation_id_for (aggregate_type aggregate_id : string) (sequence : Z)
    (operation : MutationOperation) (change_digest : string) : string :=
  derived_id "mutation:" (JObj [("aggregate_id", JStr aggregate_id); ("aggregate_type", JStr aggregate_type);
    ("change_digest", JStr change_digest); ("operation", JStr (mutation_operation_str operation));
    ("sequence", JInt sequence)]).
Definition observation_promotion_id_for (observation_id policy_ref : string) : string :=
  derived_id "promotion:" (JObj [("observation_id", JStr observation_id); ("policy_ref", JStr policy_ref)]).

(** * Scopes *)
Record ProjectionScope := mkScope {
  sc_aggregate_type : string; sc_aggregate_id : string; sc_scope_ref : option string }.
#[export] Instance ProjectionScope_eq_dec : EqDecision ProjectionScope.
Proof. solve_decision. Defined.
#[export] Instance ProjectionScope_countable : Countable ProjectionScope.
Proof.
  refine (inj_countable' (λ s, (sc_aggregate_type s, sc_aggregate_id s, sc_scope_ref s))
    (λ t, mkScope t.1.1 t.1.2 t.2) _). by intros [].
Defined.
Definition validate_ProjectionScope (s : ProjectionScope) : result () :=
  check_fields [("aggregate_type", Identifier (sc_aggregate_type s)); ("aggregate_id", Identifier (sc_aggregate_id s));
    ("scope_ref", OptField Identifier (sc_scope_ref s))].
Definition ProjectionScope_json (s : ProjectionScope) : json :=
  JObj [("aggregate_type", JStr (sc_aggregate_type s)); ("aggregate_id", JStr (sc_aggregate_id s));
        ("scope_ref", null_or JStr (sc_scope_ref s))].
(** [ProjectionScope.key] *)
Definition scope_key (s : ProjectionScope) : string * string * string :=
  (sc_aggregate_type s, sc_aggregate_id s, default "" (sc_scope_ref s)).

(** * Outbox events *)
Record Tombstone := mkTombstone { ts_reason_code : string; ts_target_digest : string; ts_deleted_at : datetime }.
#[export] Instance Tombstone_eq_dec : EqDecision Tombstone.
Proof. solve_decision. Defined.
Definition validate_Tombstone (t : Tombstone) : result () :=
  check_fields [("reason_code", ReasonCode (ts_reason_code t)); ("target_digest", Digest (ts_target_digest t))].
Definition Tombstone_json (t : Tombstone) : json :=
  JObj [("reason_code", JStr (ts_reason_code t)); ("target_digest", JStr (ts_target_digest t));
        ("deleted_at", json_datetime (ts_deleted_at t))].

Record OutboxEnvelope := mkEnvelope {
  oe_event_id : string; oe_aggregate_type : string; oe_aggregate_id : string; oe_sequence : Z;
  oe_event_type : string; oe_operation : EventOperation; oe_authoritative_revision : Z; oe_payload_digest : string;
  oe_aggregate_digest : string; oe_summary : summary; oe_occurred_at : datetime; oe_tombstone : option Tombstone;
  oe_event_digest : string }.
#[export] Instance OutboxEnvelope_eq_dec : EqDecision OutboxEnvelope.
Proof. solve_decision. Defined.

(** [OutboxEnvelope._digest_material] *)
Definition event_material (e : OutboxEnvelope) : json :=
  JObj [("aggregate_digest", JStr (oe_aggregate_digest e)); ("aggregate_id", JStr (oe_aggregate_id e));
        ("aggregate_type", JStr (oe_aggregate_type e)); ("authoritative_revision", JInt (oe_authoritative_revision e));
        ("event_type", JStr (oe_event_type e)); ("occurred_at", json_datetime (oe_occurred_at e));
        ("operation", JStr (event_operation_str (oe_operation e))); ("payload_digest", JStr (oe_payload_digest e));
        ("schema_version", JStr OUTBOX_SCHEMA_VERSION); ("sequence", JInt (oe_sequence e));
        ("summary", summary_json (oe_summary e)); ("tombstone", null_or Tombstone_json (oe_tombstone e))].
Definition event_id_of (e : OutboxEnvelope) : string :=
  event_id_for (oe_aggregate_type e) (oe_aggregate_id e) (oe_sequence e) (oe_event_type e) (oe_operation e)
    (oe_payload_digest e) (oe_aggregate_digest e).

Definition event_with_summary (s : summary) (e : OutboxEnvelope) : OutboxEnvelope :=
  let '(mkEnvelope i t a n et op r pd ad _ oc ts d) := e in mkEnvelope i t a n et op r pd ad s oc ts d.
Definition event_with_identity (id digest : string) (e : OutboxEnvelope) : OutboxEnvelope :=
  let '(mkEnvelope _ t a n et op r pd ad s oc ts _) := e in mkEnvelope id t a n et op r pd ad s oc ts digest.

Definition identity_and_operation_are_exact (e : OutboxEnvelope) : result () :=
  _ ← raise_if (bool_decide (oe_event_id e ≠ event_id_of e)) (ValueError "event_id_is_not_content_derived");
  _ ← raise_if (bool_decide (bool_decide (oe_operation e = TombstoneOp) ≠ bool_decide (oe_tombstone e ≠ None)))
        (ValueError "tombstone_operation_mismatch");
  raise_if (bool_decide (oe_event_digest e ≠ sha256_digest (event_material e))) (ValueError "event_digest_mismatch").

(** [OutboxEnvelope(...)] with the summary as given *)
Definition OutboxEnvelope_new (raw : raw_summary) (e : OutboxEnvelope) : result OutboxEnvelope :=
  _ ← check_fields [("event_id", Identifier (oe_event_id e)); ("aggregate_type", Identifier (oe_aggregate_type e));
        ("aggregate_id", Identifier (oe_aggregate_id e)); ("sequence", 1 <=? oe_sequence e);
        ("event_type", EventType (oe_event_type e)); ("authoritative_revision", 1 <=? oe_authoritative_revision e);
        ("payload_digest", Digest (oe_payload_digest e)); ("aggregate_digest", Digest (oe_aggregate_digest e))];
  s ← in_validator (normalize_summary raw);
  _ ← check_fields [("event_digest", Digest (oe_event_digest e))];
  let e := event_with_summary s e in
  _ ← in_validator (identity_and_operation_are_exact e);
  Ok e.

(** [OutboxEnvelope.create]: the identities of [e] are derived. *)
Definition OutboxEnvelope_create (raw : raw_summary) (e : OutboxEnvelope) : result OutboxEnvelope :=
  s ← normalize_summary raw;
  let e := event_with_summary s e in
  OutboxEnvelope_new (raw_of s) (event_with_identity (event_id_of e) (sha256_digest (event_material e)) e).

(** * Authority mutations *)
Record AuthoritativeMutation := mkMutation {
  am_mutation_id : string; am_aggregate_type : string; am_aggregate_id : string; am_sequence : Z;
  am_operation : MutationOperation; am_authoritative_revision : Z; am_expected_revision : option Z;
  am_change_digest : string; am_aggregate_digest : string; am_summary : summary; am_origin : PromotionOrigin }.
#[export] Instance AuthoritativeMutation_eq_dec : EqDecision AuthoritativeMutation.
Proof. solve_decision. Defined.

Definition mutation_id_of (m : AuthoritativeMutation) : string :=
  authoritative_mutation_id_for (am_aggregate_type m) (am_aggregate_id m) (am_sequence m) (am_operation m) (am_change_digest m).
Definition mutation_with_summary (s : summary) (m : AuthoritativeMutation) : AuthoritativeMutation :=
  let '(mkMutation i t a n op r x cd ad _ o) := m in mkMutation i t a n op r x cd ad s o.
Definition mutation_with_id (id : string) (m : AuthoritativeMutation) : AuthoritativeMutation :=
  let '(mkMutation _ t a n op r x cd ad s o) := m in mkMutation id t a n op r x cd ad s o.
Definition mutation_with_origin (o : PromotionOrigin) (m : AuthoritativeMutation) : AuthoritativeMutation :=
  let '(mkMutation i t a n op r x cd ad s _) := m in mkMutation i t a n op r x cd ad s o.

Definition mutation_identity_is_exact (m : AuthoritativeMutation) : result () :=
  _ ← raise_if (bool_decide (am_mutation_id m ≠ mutation_id_of m)) (ValueError "mutation_id_is_not_content_derived");
  raise_if (match am_expected_revision m with Some x => am_authoritative_revision m <=? x | None => false end)
    (ValueError "expected_revision_must_precede_authoritative_revision").

Definition AuthoritativeMutation_new (raw : raw_summary) (m : AuthoritativeMutation) : result AuthoritativeMutation :=
  _ ← check_fields [("mutation_id", Identifier (am_mutation_id m)); ("aggregate_type", Identifier (am_aggregate_type m));
        ("aggregate_id", Identifier (am_aggregate_id m)); ("sequence", 1 <=? am_sequence m);
        ("authoritative_revision", 1 <=? am_authoritative_revision m);
        ("expected_revision", OptField (λ x, 0 <=? x) (am_expected_revision m));
        ("change_digest", Digest (am_change_digest m)); ("aggregate_digest", Digest (am_aggregate_digest m))];
  s ← in_validator (normalize_summary raw);
  let m := mutation_with_summary s m in
  _ ← in_validator (mutation_identity_is_exact m);
  Ok m.

(** [AuthoritativeMutation.create] and [.create_observation_promotion]: the
    identity of [m] is derived; [model_copy] does not validate. *)
Definition AuthoritativeMutation_create (raw : raw_summary) (m : AuthoritativeMutation) : result AuthoritativeMutation :=
  s ← normalize_summary raw;
  AuthoritativeMutation_new (raw_of s) (mutation_with_origin Authoritative (mutation_with_id (mutation_id_of m) m)).
Definition create_observation_promotion (raw : raw_summary) (m : AuthoritativeMutation) : result AuthoritativeMutation :=
  let '(mkMutation i t a n _ r x cd ad s o) := m in
  m ← AuthoritativeMutation_create raw (mkMutation i t a n MutUpsert r x cd ad s o);
  Ok (mutation_with_origin GraphObservationPromotion m).

(** * Receipts *)
Record AtomicCommitReceipt := mkCommitReceipt {
  cr_mutation_id : string; cr_aggregate_type : string; cr_aggregate_id : string; cr_authoritative_revision : Z;
  cr_sequence : Z; cr_event_id : option string; cr_committed : bool; cr_replayed : bool }.
#[export] Instance AtomicCommitReceipt_eq_dec : EqDecision AtomicCommitReceipt.
Proof. solve_decision. Defined.
Definition validate_AtomicCommitReceipt (r : AtomicCommitReceipt) : result () :=
  check_fields [("mutation_id", Identifier (cr_mutation_id r)); ("aggregate_type", Identifier (cr_aggregate_type r));
    ("aggregate_id", Identifier (cr_aggregate_id r)); ("authoritative_revision", 1 <=? cr_authoritative_revision r);
    ("sequence", 1 <=? cr_sequence r); ("event_id", OptField Identifier (cr_event_id r))].

Record GraphProjectionReceipt := mkGraphReceipt { gr_event_id : string; gr_applied : bool; gr_replayed : bool }.
Definition validate_GraphProjectionReceipt (r : GraphProjectionReceipt) : result () :=
  check_fields [("event_id", Identifier (gr_event_id r))].

Record ProjectionLease := mkLease {
  pl_projector_id : string; pl_scope : ProjectionScope; pl_fence_token : Z; pl_owner_ref : string; pl_expires_at : datetime }.
Definition validate_ProjectionLease (l : ProjectionLease) : result () :=
  check_fields [("projector_id", Identifier (pl_projector_id l)); ("fence_token", 1 <=? pl_fence_token l);
    ("owner_ref", Identifier (pl_owner_ref l))].

(** * Checkpoints *)
Record ProjectionCheckpoint := mkCheckpoint {
  cp_checkpoint_id : string; cp_projector_id : string; cp_scope : ProjectionScope; cp_last_sequence : Z;
  cp_last_event_id : option string; cp_last_event_digest : option string; cp_fence_token : Z;
  cp_checkpoint_digest : string }.
#[export] Instance ProjectionCheckpoint_eq_dec : EqDecision ProjectionCheckpoint.
Proof. solve_decision. Defined.

Definition checkpoint_material (c : ProjectionCheckpoint) : json :=
  JObj [("checkpoint_version", JStr CHECKPOINT_VERSION); ("fence_token", JInt (cp_fence_token c));
        ("last_event_digest", null_or JStr (cp_last_event_digest c)); ("last_event_id", null_or JStr (cp_last_event_id c));
        ("last_sequence", JInt (cp_last_sequence c)); ("projector_id", JStr (cp_projector_id c));
        ("scope", ProjectionScope_json (cp_scope c))].
Definition checkpoint_id_for (projector_id : string) (scope : ProjectionScope) : string :=
  derived_id "checkpoint:" (JObj [("projector_id", JStr projector_id); ("scope", ProjectionScope_json scope)]).

Definition checkpoint_identity_is_exact (c : ProjectionCheckpoint) : result () :=
  _ ← raise_if ((cp_last_sequence c =? 0) &&
                (bool_decide (cp_last_event_id c ≠ None) || bool_decide (cp_last_event_digest c ≠ None)))
        (ValueError "initial_checkpoint_cannot_have_event_identity");
  _ ← raise_if ((0 <? cp_last_sequence c) &&
                (bool_decide (cp_last_event_id c = None) || bool_decide (cp_last_event_digest c = None)))
        (ValueError "advanced_checkpoint_requires_event_identity");
  _ ← raise_if (bool_decide (cp_checkpoint_id c ≠ checkpoint_id_for (cp_projector_id c) (cp_scope c)))
        (ValueError "checkpoint_id_is_not_scope_derived");
  raise_if (bool_decide (cp_checkpoint_digest c ≠ sha256_digest (checkpoint_material c))) (ValueError "checkpoint_digest_mismatch").
Definition validate_ProjectionCheckpoint (c : ProjectionCheckpoint) : result () :=
  _ ← check_fields [("checkpoint_id", Identifier (cp_checkpoint_id c)); ("projector_id", Identifier (cp_projector_id c));
        ("last_sequence", 0 <=? cp_last_sequence c); ("last_event_id", OptField Identifier (cp_last_event_id c));
        ("last_event_digest", OptField Digest (cp_last_event_digest c)); ("fence_token", 1 <=? cp_fence_token c);
        ("checkpoint_digest", Digest (cp_checkpoint_digest c))];
  in_validator (checkpoint_identity_is_exact c).

Definition checkpoint_with_digest (c : ProjectionCheckpoint) : ProjectionCheckpoint :=
  let '(mkCheckpoint i p s n ei ed f _) := c in mkCheckpoint i p s n ei ed f (sha256_digest (checkpoint_material c)).
(** [ProjectionCheckpoint.initial] *)
Definition initial_checkpoint (projector_id : string) (scope : ProjectionScope) (fence_token : Z) : result ProjectionCheckpoint :=
  construct validate_ProjectionCheckpoint (checkpoint_with_digest
    (mkCheckpoint (checkpoint_id_for projector_id scope) projector_id scope 0 None None fence_token "")).
(** [ProjectionCheckpoint.after_event] *)
Definition checkpoint_after_event (prior : ProjectionCheckpoint) (event : OutboxEnvelope) (fence_token : Z) :
    result ProjectionCheckpoint :=
  _ ← raise_if (bool_decide (oe_sequence event ≠ cp_last_sequence prior + 1)) (ValueError "checkpoint_event_must_be_next_sequence");
  _ ← raise_if (bool_decide (oe_aggregate_type event ≠ sc_aggregate_type (cp_scope prior)) ||
                bool_decide (oe_aggregate_id event ≠ sc_aggregate_id (cp_scope prior)))
        (ValueError "checkpoint_event_scope_mismatch");
  construct validate_ProjectionCheckpoint (checkpoint_with_digest
    (mkCheckpoint (cp_checkpoint_id prior) (cp_projector_id prior) (cp_scope prior) (oe_sequence event)
       (Some (oe_event_id event)) (Some (oe_event_digest event)) fence_token "")).

(** * Outcomes and discrepancies *)
Inductive OutcomeStatus :=
  | OApplied | OReplayed | ORejected | OGap | OConflict | OFailed | ODrift | OCleaned.
#[export] Instance OutcomeStatus_eq_dec : EqDecision OutcomeStatus.
Proof. solve_decision. Defined.
Record ProjectionOutcome := mkOutcome {
  po_status : OutcomeStatus; po_aggregate_type : string; po_aggregate_id : string; po_sequence : Z;
  po_event_id : string; po_reason_code : option string }.
#[export] Instance ProjectionOutcome_eq_dec : EqDecision ProjectionOutcome.
Proof. solve_decision. Defined.
Definition validate_ProjectionOutcome (o : ProjectionOutcome) : result () :=
  check_fields [("aggregate_type", Identifier (po_aggregate_type o)); ("aggregate_id", Identifier (po_aggregate_id o));
    ("sequence", 1 <=? po_sequence o); ("event_id", Identifier (po_event_id o));
    ("reason_code", OptField ReasonCode (po_reason_code o))].

Inductive DriftCode :=
  | GraphApplyFailed | CheckpointConflictDrift | CheckpointFenceLost | SequenceGap | IdentityConflict
  | ScopeMismatch | TombstoneCleanupFailed | RebuildFailed | ReverseSyncRejectedDrift.
#[export] Instance DriftCode_eq_dec : EqDecision DriftCode.
Proof. solve_decision. Defined.
Record DriftRecord := mkDrift {
  dr_reason_code : DriftCode; dr_projector_id : string; dr_aggregate_type : string; dr_aggregate_id : string;
  dr_sequence : Z; dr_event_id : option string; dr_expected_digest : option string;
  dr_observed_digest : option string; dr_repairable : bool; dr_recorded_at : datetime }.
#[export] Instance DriftRecord_eq_dec : EqDecision DriftRecord.
Proof. solve_decision. Defined.
Definition validate_DriftRecord (d : DriftRecord) : result () :=
  check_fields [("projector_id", Identifier (dr_projector_id d)); ("aggregate_type", Identifier (dr_aggregate_type d));
    ("aggregate_id", Identifier (dr_aggregate_id d)); ("sequence", 0 <=? dr_sequence d);
    ("event_id", OptField Identifier (dr_event_id d)); ("expected_digest", OptField Digest (dr_expected_digest d));
    ("observed_digest", OptField Digest (dr_observed_digest d))].

(** * Observation promotion *)
Record ObservationPromotionPolicy := mkPromotionPolicy {
  pp_policy_ref : string; pp_enabled : bool; pp_allowed_observation_types : list string;
  pp_require_evidence_ref : bool; pp_max_age_seconds : Z }.
Definition validate_ObservationPromotionPolicy (p : ObservationPromotionPolicy) : result () :=
  _ ← check_fields [("policy_ref", Identifier (pp_policy_ref p));
        ("allowed_observation_types", tuple_len 0 32 (pp_allowed_observation_types p) &&
                                      forallb Identifier (pp_allowed_observation_types p));
        ("max_age_seconds", in_bounds 1 31536000 (pp_max_age_seconds p))];
  in_validator (
    _ ← raise_if (has_duplicates (pp_allowed_observation_types p))
          (ValueError "promotion_policy_observation_types_must_be_unique");
    raise_if (bool_decide (py_sorted (pp_allowed_observation_types p) ≠ pp_allowed_observation_types p))
      (ValueError "promotion_policy_observation_types_must_be_sorted")).

Record ObservationPromotion := mkPromotion {
  ob_observation_id : string; ob_observation_type : string; ob_aggregate_type : string; ob_aggregate_id : string;
  ob_observation_digest : string; ob_source_ref : string; ob_evidence_ref : option string;
  ob_observed_at : datetime; ob_summary : summary }.
Definition observation_with_summary (s : summary) (o : ObservationPromotion) : ObservationPromotion :=
  let '(mkPromotion i y t a d sr er oa _) := o in mkPromotion i y t a d sr er oa s.
(** [_opaque_reference] runs after the field's own constraint. *)
Definition opaque_reference (name value : string) : result () :=
  _ ← check_field name (Identifier value); in_validator (validate_reference value name).
Definition ObservationPromotion_new (raw : raw_summary) (o : ObservationPromotion) : result ObservationPromotion :=
  _ ← check_fields [("observation_id", Identifier (ob_observation_id o)); ("observation_type", Identifier (ob_observation_type o));
        ("aggregate_type", Identifier (ob_aggregate_type o)); ("aggregate_id", Identifier (ob_aggregate_id o));
        ("observation_digest", Digest (ob_observation_digest o))];
  _ ← opaque_reference "source_ref" (ob_source_ref o);
  _ ← match ob_evidence_ref o with Some r => opaque_reference "evidence_ref" r | None => Ok () end;
  s ← in_validator (normalize_summary raw);
  Ok (observation_with_summary s o).
