(* ===== verification/ProjectionPorts.v ===== *)
(** The ports of the projection: [projection/protocols.py], [authority.py],
    [observability.py], the errors of [repository.py], and their contract.

    Each protocol method is a constructor of [port_op]. The code behind a port
    lies outside the source; [ProjectionContract] states what the protocols
    document about it, as laws over three views of a world: the events of an
    aggregate in the outbox, the events its projection has absorbed, and the
    stored checkpoint of a scope. Every call may fail, before or after its
    effect; a reader may skip, reorder or repeat events. *)
From S2P Require Export Interaction ProjectionModels.
Local Open Scope Z_scope.

Definition ProjectionContractError (code : string) : pyexn :=
  PyExn ["ProjectionContractError"; "ValueError"] code "".
Definition CheckpointConflict (code : string) : pyexn :=
  PyExn ["CheckpointConflict"; "ProjectionContractError"; "ValueError"] code "".
Definition ReverseSyncRejected (code : string) : pyexn :=
  PyExn ["ReverseSyncRejected"; "ProjectionContractError"; "ValueError"] code "".
Definition ProjectionRepositoryUnavailable (code : string) : pyexn :=
  PyExn ["ProjectionRepositoryUnavailable"; "RuntimeError"] code "".

(** * Calls *)
Inductive port_op :=
  | ReadAfter (scope : ProjectionScope) (after_sequence limit : Z)
  | ReadTombstonesBefore (scope : ProjectionScope) (before_sequence limit : Z)
  | ReadCheckpoint (scope : ProjectionScope)
  | SaveCheckpoint (scope : ProjectionScope) (expected : option ProjectionCheckpoint) (checkpoint : ProjectionCheckpoint)
  | ResetCheckpoint (scope : ProjectionScope) (fence_token : Z)
  | ApplyEvent (event : OutboxEnvelope) (fence_token : Z)
  | ResetProjection (scope : ProjectionScope) (fence_token : Z)
  | CleanupTombstone (event : OutboxEnvelope) (fence_token : Z)
  | CommitAuthorityAndOutbox (mutation : AuthoritativeMutation) (event : option OutboxEnvelope)
  | RecordDrift (drift : DriftRecord)
  | Now.

(** The answers. The service checks the class of an event and of a graph
    receipt: [None] is an object of another class. *)
Definition port_resp (o : port_op) : Type :=
  match o with
  | ReadAfter _ _ _ | ReadTombstonesBefore _ _ _ => list (option OutboxEnvelope)
  | ReadCheckpoint _ => option ProjectionCheckpoint
  | ApplyEvent _ _ => option GraphProjectionReceipt
  | CommitAuthorityAndOutbox _ _ => AtomicCommitReceipt
  | Now => datetime
  | _ => ()
  end.
Notation proc := (prog port_resp).
Definition port (o : port_op) : proc (port_resp o) := call o.
Definition pure {A} (r : result A) : proc A := Done r.

(** * Aggregates *)
Definition aggregate : Type := string * string.
Definition event_aggregate (e : OutboxEnvelope) : aggregate := (oe_aggregate_type e, oe_aggregate_id e).
Definition scope_aggregate (s : ProjectionScope) : aggregate := (sc_aggregate_type s, sc_aggregate_id s).

(** * The contract *)
Definition fence_of (c : option ProjectionCheckpoint) : Z := from_option cp_fence_token 0 c.

(** The calls that change no view *)
Definition is_passive (o : port_op) : bool :=
  match o with
  | ReadAfter _ _ _ | ReadTombstonesBefore _ _ _ | ReadCheckpoint _ | CleanupTombstone _ _ | RecordDrift _ | Now => true
  | _ => false
  end.

(** The identity and digest of an event derive from its content. *)
Definition genuine_event (e : OutboxEnvelope) : Prop := OutboxEnvelope_new (raw_of (oe_summary e)) e = Ok e.

Class ProjectionViews (W : Type) := {
  outbox : W → aggregate → list OutboxEnvelope;
  projected : W → aggregate → list OutboxEnvelope;
  stored : W → ProjectionScope → option ProjectionCheckpoint }.

Section views.
Context {W : Type} `{!ProjectionViews W}.

(** The views of [w'] are those of [w], except where said. *)
Definition same_outbox (w w' : W) : Prop := ∀ a, outbox w' a = outbox w a.
Definition same_projected (w w' : W) : Prop := ∀ a, projected w' a = projected w a.
Definition same_stored (w w' : W) : Prop := ∀ s, stored w' s = stored w s.
Definition same_views (w w' : W) : Prop := same_outbox w w' ∧ same_projected w w' ∧ same_stored w w'.

(** The graph absorbs an event unless it has its identity already. *)
Definition absorbs (w : W) (e : OutboxEnvelope) (w' : W) : Prop :=
  projected w' (event_aggregate e) = projected w (event_aggregate e) ++ [e] ∧
  oe_event_id e ∉ oe_event_id <$> projected w (event_aggregate e) ∧
  ∀ a, a ≠ event_aggregate e → projected w' a = projected w a.

(** The store replaces the checkpoint of a scope. *)
Definition replaces (w : W) (s : ProjectionScope) (c : option ProjectionCheckpoint) (w' : W) : Prop :=
  stored w' s = c ∧ ∀ s', s' ≠ s → stored w' s' = stored w s'.
End views.

Class ProjectionContract (W : Type) `{!ProjectionViews W}
    (handle : ∀ o : port_op, W → result (port_resp o) → W → Prop) : Prop := {
  (** One stream per aggregate, numbered from one *)
  outbox_keyed w a i e : outbox w a !! i = Some e →
    oe_sequence e = Z.of_nat (S i) ∧ event_aggregate e = a ∧ genuine_event e;
  passive_views o w r w' : is_passive o = true → handle o w r w' → same_views w w';
  read_after_law s n l w evs w' e : handle (ReadAfter s n l) w (Ok evs) w' →
    Some e ∈ evs → event_aggregate e = scope_aggregate s → e ∈ outbox w (scope_aggregate s);
  read_tombstones_law s n l w evs w' e : handle (ReadTombstonesBefore s n l) w (Ok evs) w' →
    Some e ∈ evs → e ∈ outbox w (scope_aggregate s);
  read_checkpoint_law s w c w' : handle (ReadCheckpoint s) w (Ok c) w' → c = stored w s;
  (** Compare-and-set, which also refuses a fence below the stored one *)
  save_law s expected c w r w' : handle (SaveCheckpoint s expected c) w r w' →
    same_outbox w w' ∧ same_projected w w' ∧
    ((r ≠ Ok () ∧ same_stored w w') ∨
     (stored w s = expected ∧ fence_of expected ≤ cp_fence_token c ∧ replaces w s (Some c) w'));
  (** Idempotent by event identity; a positive receipt means absorbed *)
  apply_law e f w r w' : handle (ApplyEvent e f) w r w' →
    same_outbox w w' ∧ same_stored w w' ∧ (same_projected w w' ∨ absorbs w e w') ∧
    ∀ g, r = Ok (Some g) → gr_event_id g = oe_event_id e → gr_applied g || gr_replayed g = true →
      oe_event_id e ∈ oe_event_id <$> projected w' (event_aggregate e);
  (** Both or neither; the outbox only grows *)
  commit_law m e w r w' : handle (CommitAuthorityAndOutbox m e) w r w' →
    (∀ a, outbox w a `prefix_of` outbox w' a) ∧ same_projected w w' ∧ same_stored w w';
  reset_checkpoint_law s f w r w' : handle (ResetCheckpoint s f) w r w' →
    same_outbox w w' ∧ same_projected w w' ∧ ((r ≠ Ok () ∧ same_stored w w') ∨ replaces w s None w');
  reset_projection_law s f w r w' : handle (ResetProjection s f) w r w' →
    same_outbox w w' ∧ same_stored w w' ∧
    ((r ≠ Ok () ∧ same_projected w w') ∨ (projected w' (scope_aggregate s) = [] ∧
       ∀ a, a ≠ scope_aggregate s → projected w' a = projected w a)) }.
