(* ===== verification/ProjectionService.v ===== *)
(** The projection service, [projection/projector.py], and the authority commit
    helpers of [projection/repository.py], as programs over the ports.

    A [try] whose handler returns from the enclosing function yields a sum:
    [inl] is the early return. [_BatchAborted] and [_CleanupAborted] are such
    returns. *)
From S2P Require Export ProjectionPorts.
From Stdlib Require Import Lia.
Local Open Scope Z_scope.

(** * Authority commits *)
Definition reject_reverse_sync (source : string) : result () :=
  Raise (ReverseSyncRejected "reverse_sync_is_not_an_authority_path").

Definition validate_event_matches_mutation (m : AuthoritativeMutation) (e : OutboxEnvelope) : result () :=
  let expected_operation := if bool_decide (am_operation m = MutDelete) then TombstoneOp else Upsert in
  _ ← raise_if (bool_decide (oe_operation e ≠ expected_operation)) (ProjectionContractError "event_operation_does_not_match_mutation");
  _ ← raise_if (bool_decide (oe_aggregate_type e ≠ am_aggregate_type m) || bool_decide (oe_aggregate_id e ≠ am_aggregate_id m) ||
                bool_decide (oe_sequence e ≠ am_sequence m) ||
                bool_decide (oe_authoritative_revision e ≠ am_authoritative_revision m))
        (ProjectionContractError "event_identity_does_not_match_mutation");
  _ ← raise_if (bool_decide (oe_payload_digest e ≠ am_change_digest m))
        (ProjectionContractError "event_payload_digest_does_not_match_mutation");
  _ ← raise_if (bool_decide (oe_aggregate_digest e ≠ am_aggregate_digest m))
        (ProjectionContractError "event_aggregate_digest_does_not_match_mutation");
  raise_if (negb (summary_eqb (oe_summary e) (am_summary m))) (ProjectionContractError "event_summary_does_not_match_mutation").

Definition validate_commit_event (m : AuthoritativeMutation) (event : option OutboxEnvelope) : result () :=
  if bool_decide (am_operation m = MutRollback) then
    raise_if (bool_decide (event ≠ None)) (ProjectionContractError "rollback_must_not_emit_event")
  else match event with
       | None => Raise (ProjectionContractError "forward_mutation_requires_outbox_event")
       | Some e => validate_event_matches_mutation m e
       end.

Definition commit_authority_and_outbox (m : AuthoritativeMutation) (event : option OutboxEnvelope) : proc AtomicCommitReceipt :=
  prog_try (λ exc,
      if isinstance exc "ProjectionContractError" || isinstance exc "ProjectionRepositoryUnavailable" then mthrow exc
      else mthrow (ProjectionRepositoryUnavailable "authority_transaction_unavailable"))
    (port (CommitAuthorityAndOutbox m event)).

Definition validate_commit_receipt (r : AtomicCommitReceipt) (m : AuthoritativeMutation) (event : option OutboxEnvelope) : result () :=
  _ ← raise_if (bool_decide (cr_mutation_id r ≠ am_mutation_id m)) (ProjectionContractError "authority_receipt_mutation_mismatch");
  _ ← raise_if (bool_decide (cr_aggregate_type r ≠ am_aggregate_type m) || bool_decide (cr_aggregate_id r ≠ am_aggregate_id m) ||
                bool_decide (cr_sequence r ≠ am_sequence m) ||
                bool_decide (cr_authoritative_revision r ≠ am_authoritative_revision m))
        (ProjectionContractError "authority_receipt_identity_mismatch");
  match event with
  | None => raise_if (bool_decide (cr_event_id r ≠ None)) (ProjectionContractError "rollback_receipt_contains_event")
  | Some e => raise_if (bool_decide (cr_event_id r ≠ Some (oe_event_id e))) (ProjectionContractError "authority_receipt_event_mismatch")
  end.

Definition commit_validated_change (m : AuthoritativeMutation) (event : option OutboxEnvelope) : proc AtomicCommitReceipt :=
  _ ← pure (validate_commit_event m event);
  receipt ← commit_authority_and_outbox m event;
  _ ← pure (validate_commit_receipt receipt m event);
  mret receipt.

Definition commit_authoritative_change (m : AuthoritativeMutation) (event : option OutboxEnvelope) : proc AtomicCommitReceipt :=
  _ ← raise_if (bool_decide (am_origin m ≠ Authoritative)) (ProjectionContractError "observation_promotion_requires_policy_path");
  commit_validated_change m event.

(** * Results *)
Inductive BatchStatus := BComplete | BApplied | BReplayed | BBlocked | BFailed | BDrift.
#[export] Instance BatchStatus_eq_dec : EqDecision BatchStatus.
Proof. solve_decision. Defined.
Record ProjectionBatchResult := mkBatch {
  br_scope : ProjectionScope; br_status : BatchStatus; br_outcomes : list ProjectionOutcome;
  br_checkpoint : option ProjectionCheckpoint; br_has_more : bool }.
Definition validate_ProjectionBatchResult (r : ProjectionBatchResult) : result () :=
  check_fields [("outcomes", tuple_len 0 256 (br_outcomes r))].

Record ProjectionCleanupResult := mkCleanup {
  cl_scope : ProjectionScope; cl_outcomes : list ProjectionOutcome; cl_checkpoint : option ProjectionCheckpoint;
  cl_has_more : bool }.
Definition validate_ProjectionCleanupResult (r : ProjectionCleanupResult) : result () :=
  check_fields [("outcomes", tuple_len 0 256 (cl_outcomes r))].

Record EventStep := mkStep {
  es_outcome : option ProjectionOutcome; es_stop : bool; es_current : ProjectionCheckpoint;
  es_persisted : option ProjectionCheckpoint }.

Definition batch_status (outcomes : list ProjectionOutcome) : BatchStatus :=
  if bool_decide (outcomes = []) then BComplete
  else if existsb (λ o, bool_decide (po_status o ∈ [OGap; OConflict; ORejected; ODrift])) outcomes then BDrift
  else if existsb (λ o, bool_decide (po_status o = OFailed)) outcomes then BFailed
  else if forallb (λ o, bool_decide (po_status o = OReplayed)) outcomes then BReplayed
  else BApplied.

Definition event_outcome (status : OutcomeStatus) (event : OutboxEnvelope) (reason_code : option string) : result ProjectionOutcome :=
  construct validate_ProjectionOutcome
    (mkOutcome status (oe_aggregate_type event) (oe_aggregate_id event) (oe_sequence event) (oe_event_id event) reason_code).

(** * The service *)
Section service.
Context (projector_id : string).

Definition check_limit (limit : Z) : result () :=
  raise_if (negb (in_bounds 1 MAX_BATCH_SIZE limit)) (ProjectionContractError "projection_batch_limit_out_of_bounds").
Definition check_fence (fence_token : Z) : result () :=
  raise_if (fence_token <? 1) (ProjectionContractError "projection_fence_token_invalid").

Definition read_checkpoint (scope : ProjectionScope) (fence_token : Z) : proc ProjectionCheckpoint :=
  _ ← pure (check_fence fence_token);
  current ← port (ReadCheckpoint scope);
  match current with
  | None => pure (initial_checkpoint projector_id scope fence_token)
  | Some current =>
      _ ← raise_if (bool_decide (cp_projector_id current ≠ projector_id) || bool_decide (cp_scope current ≠ scope))
            (ProjectionContractError "checkpoint_scope_or_projector_mismatch");
      _ ← raise_if (fence_token <? cp_fence_token current) (CheckpointConflict "projection_fence_is_stale");
      mret current
  end.

Definition record_drift (reason_code : DriftCode) (scope : ProjectionScope) (sequence : Z) (event : option OutboxEnvelope)
    (expected_digest observed_digest : option string) : proc () :=
  now ← port Now;
  drift ← pure (construct validate_DriftRecord
    (mkDrift reason_code projector_id (sc_aggregate_type scope) (sc_aggregate_id scope) (Z.max sequence 0)
       (oe_event_id <$> event) expected_digest observed_digest true now));
  port (RecordDrift drift).

Definition failure_result (scope : ProjectionScope) (reason_code : DriftCode) (checkpoint : option ProjectionCheckpoint)
    (sequence : Z) : proc ProjectionBatchResult :=
  _ ← record_drift reason_code scope sequence None None None;
  pure (construct validate_ProjectionBatchResult
    (mkBatch scope (if bool_decide (reason_code ∈ [GraphApplyFailed; RebuildFailed]) then BFailed else BDrift) [] checkpoint false)).

Definition open_batch (scope : ProjectionScope) (fence_token limit : Z) :
    proc (ProjectionBatchResult + (ProjectionCheckpoint * option ProjectionCheckpoint * list (option OutboxEnvelope))) :=
  opened ← prog_try (λ exc,
      r ← failure_result scope (if isinstance exc "CheckpointConflict" then CheckpointFenceLost else CheckpointConflictDrift) None 0;
      mret (inl r))
    (current ← read_checkpoint scope fence_token; mret (inr current));
  match opened with
  | inl r => mret (inl r)
  | inr current =>
      let persisted := if 0 <? cp_last_sequence current then Some current else None in
      page ← prog_try (λ _,
          r ← failure_result scope GraphApplyFailed (Some current) (cp_last_sequence current + 1); mret (inl r))
        (events ← port (ReadAfter scope (cp_last_sequence current) limit); mret (inr events));
      match page with
      | inl r => mret (inl r)
      | inr events =>
          if limit <? Z.of_nat (length events) then
            r ← failure_result scope SequenceGap (Some current) (cp_last_sequence current + 1); mret (inl r)
          else mret (inr (current, persisted, events))
      end
  end.

(** [inr]: an envelope of this scope *)
Definition validate_event_identity (scope : ProjectionScope) (event : option OutboxEnvelope) (current : ProjectionCheckpoint)
    (persisted : option ProjectionCheckpoint) : proc (EventStep + OutboxEnvelope) :=
  match event with
  | None =>
      _ ← record_drift IdentityConflict scope (cp_last_sequence current + 1) None None None;
      mret (inl (mkStep None true current persisted))
  | Some event =>
      if bool_decide (oe_aggregate_type event ≠ sc_aggregate_type scope) ||
         bool_decide (oe_aggregate_id event ≠ sc_aggregate_id scope) then
        outcome ← pure (event_outcome ORejected event (Some "scope_mismatch"));
        _ ← record_drift ScopeMismatch scope (oe_sequence event) (Some event) None None;
        mret (inl (mkStep (Some outcome) true current persisted))
      else mret (inr event)
  end.

Definition classify_event_sequence (scope : ProjectionScope) (event : OutboxEnvelope) (current : ProjectionCheckpoint)
    (persisted : option ProjectionCheckpoint) : proc (option EventStep) :=
  if oe_sequence event <=? cp_last_sequence current then
    if (oe_sequence event =? cp_last_sequence current) &&
       bool_decide (Some (oe_event_id event) = cp_last_event_id current) &&
       bool_decide (Some (oe_event_digest event) = cp_last_event_digest current) then
      outcome ← pure (event_outcome OReplayed event None);
      mret (Some (mkStep (Some outcome) false current persisted))
    else
      outcome ← pure (event_outcome OConflict event (Some "out_of_order_event"));
      _ ← record_drift IdentityConflict scope (oe_sequence event) (Some event) (cp_last_event_digest current)
            (Some (oe_event_digest event));
      mret (Some (mkStep (Some outcome) true current persisted))
  else if negb (oe_sequence event =? cp_last_sequence current + 1) then
    outcome ← pure (event_outcome OGap event (Some "sequence_gap"));
    _ ← record_drift SequenceGap scope (oe_sequence event) (Some event) None None;
    mret (Some (mkStep (Some outcome) true current persisted))
  else mret None.

(** The body of the [try] of [_apply_event] *)
Definition apply_and_save (scope : ProjectionScope) (event : OutboxEnvelope) (current : ProjectionCheckpoint)
    (persisted : option ProjectionCheckpoint) (fence_token : Z) : proc ProjectionCheckpoint :=
  receipt ← port (ApplyEvent event fence_token);
  receipt ← require receipt (ProjectionContractError "graph_projection_receipt_invalid");
  _ ← raise_if (bool_decide (gr_event_id receipt ≠ oe_event_id event) || negb (gr_applied receipt || gr_replayed receipt))
        (ProjectionContractError "graph_projection_receipt_mismatch");
  next_checkpoint ← pure (checkpoint_after_event current event fence_token);
  _ ← port (SaveCheckpoint scope persisted next_checkpoint);
  mret next_checkpoint.

Definition apply_event (scope : ProjectionScope) (event : OutboxEnvelope) (current : ProjectionCheckpoint)
    (persisted : option ProjectionCheckpoint) (fence_token : Z) : proc EventStep :=
  applied ← prog_try (λ exc,
      let conflict := isinstance exc "CheckpointConflict" in
      outcome ← pure (if conflict then event_outcome ODrift event (Some "checkpoint_conflict")
                       else event_outcome OFailed event (Some "graph_apply_failed"));
      _ ← record_drift (if conflict then CheckpointConflictDrift else GraphApplyFailed) scope (oe_sequence event) (Some event) None None;
      mret (inl (mkStep (Some outcome) true current persisted)))
    (next_checkpoint ← apply_and_save scope event current persisted fence_token; mret (inr next_checkpoint));
  match applied with
  | inl step => mret step
  | inr next_checkpoint =>
      outcome ← pure (event_outcome OApplied event None);
      mret (mkStep (Some outcome) false next_checkpoint (Some next_checkpoint))
  end.

Definition step_event (scope : ProjectionScope) (event : option OutboxEnvelope) (current : ProjectionCheckpoint)
    (persisted : option ProjectionCheckpoint) (fence_token : Z) : proc EventStep :=
  checked ← validate_event_identity scope event current persisted;
  match checked with
  | inl step => mret step
  | inr event =>
      classified ← classify_event_sequence scope event current persisted;
      match classified with
      | Some step => mret step
      | None => apply_event scope event current persisted fence_token
      end
  end.

(** The loop of [project_scope] *)
Fixpoint step_events (scope : ProjectionScope) (fence_token : Z) (events : list (option OutboxEnvelope))
    (outcomes : list ProjectionOutcome) (current : ProjectionCheckpoint) (persisted : option ProjectionCheckpoint) :
    proc (list ProjectionOutcome * ProjectionCheckpoint) :=
  match events with
  | [] => mret (outcomes, current)
  | event :: events =>
      step ← step_event scope event current persisted fence_token;
      let outcomes := outcomes ++ option_list (es_outcome step) in
      if es_stop step then mret (outcomes, es_current step)
      else step_events scope fence_token events outcomes (es_current step) (es_persisted step)
  end.

Definition project_scope (scope : ProjectionScope) (fence_token limit : Z) : proc ProjectionBatchResult :=
  _ ← pure (check_limit limit);
  opened ← open_batch scope fence_token limit;
  match opened with
  | inl r => mret r
  | inr (current, persisted, events) =>
      done ← step_events scope fence_token events [] current persisted;
      let status := batch_status done.1 in
      pure (construct validate_ProjectionBatchResult
        (mkBatch scope status done.1 (Some done.2)
           (bool_decide (Z.of_nat (length events) = limit) && bool_decide (status ∈ [BComplete; BApplied; BReplayed]))))
  end.

(** [sorted(scopes, key=lambda scope: scope.key)] *)
Definition scope_order (s1 s2 : ProjectionScope) : Prop :=
  let '(t1, i1, r1) := scope_key s1 in let '(t2, i2, r2) := scope_key s2 in
  then_cmp (String.compare t1 t2) (then_cmp (String.compare i1 i2) (String.compare r1 r2)) ≠ Gt.
#[export] Instance scope_order_dec s1 s2 : Decision (scope_order s1 s2).
Proof. unfold scope_order. destruct (scope_key s1) as [[??]?], (scope_key s2) as [[??]?]. apply _. Defined.

Fixpoint prog_map {A B} (f : A → proc B) (xs : list A) : proc (list B) :=
  match xs with [] => mret [] | x :: xs => y ← f x; ys ← prog_map f xs; mret (y :: ys) end.

Definition project (scopes : list ProjectionScope) (fence_token limit : Z) : proc (list ProjectionBatchResult) :=
  _ ← pure (check_limit limit);
  prog_map (λ scope, project_scope scope fence_token limit) (merge_sort scope_order scopes).

Definition rebuild_scope (scope : ProjectionScope) (fence_token limit : Z) : proc ProjectionBatchResult :=
  _ ← pure (check_limit limit);
  reset ← prog_try (λ _,
      current ← prog_try (λ _, mret None) (port (ReadCheckpoint scope));
      r ← failure_result scope RebuildFailed current 0;
      mret (inl r))
    (_ ← port (ResetProjection scope fence_token);
     _ ← port (ResetCheckpoint scope fence_token);
     mret (inr ()));
  match reset with
  | inl r => mret r
  | inr _ => project_scope scope fence_token limit
  end.

(** ** Tombstones *)
Definition open_cleanup_batch (scope : ProjectionScope) (fence_token before_sequence limit : Z) :
    proc (ProjectionCleanupResult + (ProjectionCheckpoint * list (option OutboxEnvelope))) :=
  opened ← prog_try (λ exc,
      _ ← record_drift (if isinstance exc "CheckpointConflict" then CheckpointFenceLost else TombstoneCleanupFailed) scope 0 None None None;
      r ← pure (construct validate_ProjectionCleanupResult (mkCleanup scope [] None false));
      mret (inl r))
    (checkpoint ← read_checkpoint scope fence_token;
     events ← port (ReadTombstonesBefore scope before_sequence limit);
     mret (inr (checkpoint, events)));
  match opened with
  | inl r => mret (inl r)
  | inr (checkpoint, events) =>
      _ ← raise_if (limit <? Z.of_nat (length events)) (ProjectionContractError "tombstone_reader_exceeded_limit");
      mret (inr (checkpoint, events))
  end.

Definition step_tombstone_event (scope : ProjectionScope) (event : option OutboxEnvelope) (checkpoint : ProjectionCheckpoint)
    (fence_token : Z) : proc (option ProjectionOutcome) :=
  match event with
  | None => _ ← record_drift TombstoneCleanupFailed scope 0 None None None; mret None
  | Some event =>
      if bool_decide (oe_operation event ≠ TombstoneOp) || (cp_last_sequence checkpoint <? oe_sequence event) then
        _ ← record_drift TombstoneCleanupFailed scope (oe_sequence event) (Some event) None None;
        outcome ← pure (event_outcome ORejected event (Some "tombstone_not_durable"));
        mret (Some outcome)
      else
        cleaned ← prog_try (λ _,
            _ ← record_drift TombstoneCleanupFailed scope (oe_sequence event) (Some event) None None;
            outcome ← pure (event_outcome OFailed event (Some "tombstone_cleanup_failed"));
            mret (inl outcome))
          (_ ← port (CleanupTombstone event fence_token); mret (inr ()));
        match cleaned with
        | inl outcome => mret (Some outcome)
        | inr _ => outcome ← pure (event_outcome OCleaned event None); mret (Some outcome)
        end
  end.

Fixpoint step_tombstone_events (scope : ProjectionScope) (events : list (option OutboxEnvelope))
    (checkpoint : ProjectionCheckpoint) (fence_token : Z) (outcomes : list ProjectionOutcome) : proc (list ProjectionOutcome) :=
  match events with
  | [] => mret outcomes
  | event :: events =>
      outcome ← step_tombstone_event scope event checkpoint fence_token;
      step_tombstone_events scope events checkpoint fence_token (outcomes ++ option_list outcome)
  end.

(** [tombstones]: was a tombstone reader given? *)
Definition cleanup_tombstones (tombstones : bool) (scope : ProjectionScope) (fence_token before_sequence limit : Z) :
    proc ProjectionCleanupResult :=
  _ ← pure (check_limit limit);
  _ ← raise_if (before_sequence <? 1) (ProjectionContractError "tombstone_cleanup_boundary_invalid");
  _ ← raise_if (negb tombstones) (ProjectionContractError "tombstone_reader_required");
  opened ← open_cleanup_batch scope fence_token before_sequence limit;
  match opened with
  | inl r => mret r
  | inr (checkpoint, events) =>
      outcomes ← step_tombstone_events scope events checkpoint fence_token [];
      pure (construct validate_ProjectionCleanupResult
        (mkCleanup scope outcomes (Some checkpoint) (bool_decide (Z.of_nat (length events) = limit))))
  end.
End service.

(** * Observation promotion *)
Definition validate_promotion_policy (o : ObservationPromotion) (p : ObservationPromotionPolicy) : result () :=
  _ ← raise_if (negb (pp_enabled p)) (ProjectionContractError "observation_promotion_disabled");
  _ ← raise_if (bool_decide (ob_observation_type o ∉ pp_allowed_observation_types p))
        (ProjectionContractError "observation_type_not_allowed");
  raise_if (pp_require_evidence_ref p && bool_decide (ob_evidence_ref o = None))
    (ProjectionContractError "observation_evidence_reference_required").

Definition resolve_promotion_time (o : ObservationPromotion) (p : ObservationPromotionPolicy) (now : option datetime) : proc datetime :=
  current_time ← match now with Some t => mret t | None => port Now end;
  let age := current_time - ob_observed_at o in
  _ ← raise_if ((age <? 0) || (pp_max_age_seconds p * MICROS <? age)) (ProjectionContractError "observation_is_stale");
  mret current_time.

Definition summary_get (key : string) (s : summary) : option SummaryValue := snd <$> find (λ kv, String.eqb key kv.1) s.
(** [summary[key] = value] *)
Definition summary_set (key : string) (value : SummaryValue) (s : summary) : summary :=
  if existsb (λ kv, String.eqb key kv.1) s then map (λ kv, if String.eqb key kv.1 then (key, value) else kv) s
  else s ++ [(key, value)].

Definition reconciled_promotion_summary (o : ObservationPromotion) (p : ObservationPromotionPolicy) : result summary :=
  _ ← raise_if (match summary_get "policy_ref" (ob_summary o) with
                | Some prior => bool_decide (prior ≠ SText (pp_policy_ref p)) | None => false end)
        (ProjectionContractError "observation_policy_reference_conflict");
  Ok (summary_set "policy_ref" (SText (pp_policy_ref p)) (ob_summary o)).

Definition promotion_digest (o : ObservationPromotion) (p : ObservationPromotionPolicy) : string :=
  sha256_digest (JObj [("evidence_ref", null_or JStr (ob_evidence_ref o)); ("observation_digest", JStr (ob_observation_digest o));
    ("observation_id", JStr (ob_observation_id o)); ("policy_ref", JStr (pp_policy_ref p))]).

(** The mutation and the event that a promotion commits *)
Definition promotion_mutation (o : ObservationPromotion) (p : ObservationPromotionPolicy) (sequence authoritative_revision : Z)
    (expected_revision : option Z) (s : summary) : result AuthoritativeMutation :=
  create_observation_promotion (raw_of s)
    (mkMutation "" (ob_aggregate_type o) (ob_aggregate_id o) sequence MutUpsert authoritative_revision expected_revision
       (promotion_digest o p) (ob_observation_digest o) [] Authoritative).
Definition promotion_event (m : AuthoritativeMutation) (current_time : datetime) : result OutboxEnvelope :=
  OutboxEnvelope_create (raw_of (am_summary m))
    (mkEnvelope "" (am_aggregate_type m) (am_aggregate_id m) (am_sequence m) "observation.promoted" Upsert
       (am_authoritative_revision m) (am_change_digest m) (am_aggregate_digest m) [] current_time None "").

Definition promote_graph_observation (o : ObservationPromotion) (p : ObservationPromotionPolicy)
    (sequence authoritative_revision : Z) (expected_revision : option Z) (now : option datetime) : proc AtomicCommitReceipt :=
  _ ← pure (validate_promotion_policy o p);
  current_time ← resolve_promotion_time o p now;
  s ← pure (reconciled_promotion_summary o p);
  mutation ← pure (promotion_mutation o p sequence authoritative_revision expected_revision s);
  event ← pure (promotion_event mutation current_time);
  _ ← pure (validate_event_matches_mutation mutation event);
  commit_validated_change mutation (Some event).
