(* ===== verification/ProjectionSafety.v ===== *)
(** What any number of projectors, cleaners and authorities guarantee together.

    [tracks w s c]: the events up to the cursor [c] of scope [s] have been
    projected. [world_ok] is the invariant, [later] what every program may rely
    on, [allowed_call] what must hold when a call is made. Each program of the
    service is proved against them ([_rg] lemmas), so that [pool_steps_safe] applies
    to all interleavings, failures and crashes. The adapters are any that meet
    [ProjectionContract]. *)
From S2P Require Export ProjectionService.
From S2P Require Import Sha256.
From Stdlib Require Import Lia.
Local Open Scope Z_scope.

Section safety.
Context {W : Type} `{!ProjectionViews W} {handle : ∀ o : port_op, W → result (port_resp o) → W → Prop}.
Context `{!ProjectionContract W handle}.

(** No two events of the aggregate share an identity. *)
Definition distinct_ids (w : W) (a : aggregate) : Prop := NoDup (oe_event_id <$> outbox w a).

Definition names_event (c : ProjectionCheckpoint) (e : OutboxEnvelope) : Prop :=
  cp_last_event_id c = Some (oe_event_id e) ∧ cp_last_event_digest c = Some (oe_event_digest e).

Record tracks (w : W) (s : ProjectionScope) (c : ProjectionCheckpoint) : Prop := {
  tracks_scope : cp_scope c = s;
  tracks_valid : validate_ProjectionCheckpoint c = Ok ();
  tracks_sequence : 0 ≤ cp_last_sequence c;
  tracks_event : cp_last_sequence c = 0 ∨
    ∃ e, e ∈ outbox w (scope_aggregate s) ∧ oe_sequence e = cp_last_sequence c ∧ names_event c e;
  tracks_projected : distinct_ids w (scope_aggregate s) →
    cp_last_sequence c ≤ Z.of_nat (length (projected w (scope_aggregate s))) }.

Record world_ok (w : W) : Prop := {
  ok_prefix a : distinct_ids w a → projected w a `prefix_of` outbox w a;
  ok_stored s c : stored w s = Some c → tracks w s c ∧ 1 ≤ cp_last_sequence c }.

Definition at_least (c c' : ProjectionCheckpoint) : Prop :=
  cp_last_sequence c ≤ cp_last_sequence c' ∧ cp_fence_token c ≤ cp_fence_token c'.

Record later (w w' : W) : Prop := {
  later_outbox a : outbox w a `prefix_of` outbox w' a;
  later_projected a : projected w a `prefix_of` projected w' a;
  later_stored s c : stored w s = Some c → ∃ c', stored w' s = Some c' ∧ at_least c c';
  later_ok : world_ok w → world_ok w' }.

#[export] Instance later_preorder : PreOrder later.
Proof.
  split.
  - intros w. split; [done..| |done]. intros s c E. exists c. split; [done|]. by split.
  - intros w1 w2 w3 [O1 P1 S1 I1] [O2 P2 S2 I2]. split; [| | |auto].
    + intros a. by trans (outbox w2 a).
    + intros a. by trans (projected w2 a).
    + intros s c E. destruct (S1 s c E) as (c2 & E2 & ? & ?). destruct (S2 s c2 E2) as (c3 & E3 & ? & ?).
      exists c3. split; [done|]. split; lia.
Qed.

Lemma distinct_ids_prefix w w' a : outbox w a `prefix_of` outbox w' a → distinct_ids w' a → distinct_ids w a.
Proof. intros [l E]. unfold distinct_ids. rewrite E, fmap_app. by intros [? _]%NoDup_app. Qed.

Lemma tracks_later w w' s c : later w w' → tracks w s c → tracks w' s c.
Proof.
  intros HL [Hs Hv Hn He Hp]. split; [done|done|done| |].
  - destruct He as [?|(e & He & ?)]; [by left|right]. exists e. split; [|done].
    destruct (later_outbox _ _ HL (scope_aggregate s)) as [l ->]. set_solver.
  - intros Hd%(distinct_ids_prefix w); [|by apply later_outbox]. specialize (Hp Hd).
    pose proof (prefix_length _ _ (later_projected _ _ HL (scope_aggregate s))). lia.
Qed.

Lemma tracks_same w w' s c :
  same_outbox w w' → (∀ a, projected w a `prefix_of` projected w' a) → tracks w s c → tracks w' s c.
Proof.
  intros Ho Hp [? ? ? He Hpr]. split; [done|done|done|by rewrite Ho|]. unfold distinct_ids. rewrite Ho. intros Hd.
  pose proof (prefix_length _ _ (Hp (scope_aggregate s))). specialize (Hpr Hd). lia.
Qed.

Lemma outbox_position w a e : e ∈ outbox w a → 1 ≤ oe_sequence e ∧ outbox w a !! Z.to_nat (oe_sequence e - 1) = Some e.
Proof.
  intros [i Hi]%list_elem_of_lookup. destruct (outbox_keyed w a i e Hi) as (E & _ & _). rewrite E. split; [lia|].
  by replace (Z.to_nat (Z.of_nat (S i) - 1)) with i by lia.
Qed.

Lemma outbox_aggregate w a e : e ∈ outbox w a → event_aggregate e = a.
Proof. intros [i Hi]%list_elem_of_lookup. by apply outbox_keyed in Hi as (_ & ? & _). Qed.

(** ** Steps of the ports *)
Lemma same_views_later w w' : same_views w w' → later w w'.
Proof.
  intros (Ho & Hp & Hs). split.
  - intros a. by rewrite Ho.
  - intros a. by rewrite Hp.
  - intros s c E. exists c. rewrite Hs. split; [done|]. by split.
  - intros [HP HS]. split.
    + intros a. unfold distinct_ids. rewrite Ho, Hp. apply HP.
    + intros s c. rewrite Hs. intros [E ?]%HS. split; [|done]. eapply tracks_same; [done| |exact E]. intros a. by rewrite Hp.
Qed.

Lemma commit_later m e w r w' : handle (CommitAuthorityAndOutbox m e) w r w' → later w w'.
Proof.
  intros (Ho & Hp & Hs)%commit_law. split; [done|intros a; by rewrite Hp| |].
  - intros s c E. exists c. rewrite Hs. split; [done|]. by split.
  - intros [HP HS]. split.
    + intros a Hd. rewrite Hp. trans (outbox w a); [|apply Ho]. apply HP. apply (distinct_ids_prefix w w'); [apply Ho|done].
    + intros s c. rewrite Hs. intros [[? ? ? He Hpr] ?]%HS. split; [|done]. split; [done|done|done| |].
      * destruct He as [?|(e' & He & ?)]; [by left|right]. exists e'. split; [|done].
        destruct (Ho (scope_aggregate s)) as [l ->]. set_solver.
      * rewrite Hp. intros Hd. apply Hpr. apply (distinct_ids_prefix w w'); [apply Ho|done].
Qed.

(** The next event: everything before it is projected already. *)
Definition is_next (w : W) (e : OutboxEnvelope) : Prop :=
  e ∈ outbox w (event_aggregate e) ∧
  (distinct_ids w (event_aggregate e) → oe_sequence e ≤ Z.of_nat (length (projected w (event_aggregate e))) + 1).

Lemma absorbs_prefix w e w' : world_ok w → is_next w e → same_outbox w w' → absorbs w e w' →
  distinct_ids w (event_aggregate e) → projected w' (event_aggregate e) `prefix_of` outbox w' (event_aggregate e).
Proof.
  intros Hok [He Hn] Ho (Hp & Hnew & _) Hd. specialize (Hn Hd). rewrite Hp, Ho.
  destruct (ok_prefix _ Hok _ Hd) as [l El].
  destruct (outbox_position _ _ _ He) as [H1 Hi]. rewrite El in Hi |- *.
  assert (length (projected w (event_aggregate e)) ≤ Z.to_nat (oe_sequence e - 1))%nat as Hle.
  { apply Nat.nlt_ge. intros Hlt. rewrite lookup_app_l in Hi by done. apply Hnew.
    apply list_elem_of_fmap_2. by eapply list_elem_of_lookup_2. }
  rewrite lookup_app_r in Hi by done. replace (Z.to_nat (oe_sequence e - 1) - _)%nat with 0%nat in Hi by lia.
  destruct l as [|x l]; simplify_eq/=. exists l. by rewrite <- app_assoc.
Qed.

Lemma apply_later e f w r w' : world_ok w → is_next w e → handle (ApplyEvent e f) w r w' → later w w'.
Proof.
  intros Hok Hn (Ho & Hs & Hp & _)%apply_law.
  assert (∀ a, projected w a `prefix_of` projected w' a) as Hpp.
  { intros a. destruct Hp as [Hp|(Hp & _ & Ha)]; [by rewrite Hp|].
    destruct (decide (a = event_aggregate e)) as [->|?]; [by rewrite Hp; eexists|by rewrite Ha]. }
  split; [intros a; by rewrite Ho|done| |].
  - intros s c E. exists c. rewrite Hs. split; [done|]. by split.
  - intros _. split.
    + intros a Hd. assert (distinct_ids w a) as Hd' by (unfold distinct_ids in *; by rewrite <- Ho).
      destruct Hp as [Hp|Hab]; [rewrite Hp, Ho; by apply (ok_prefix _ Hok)|].
      destruct (decide (a = event_aggregate e)) as [->|Hne]; [by eapply absorbs_prefix|].
      destruct Hab as (_ & _ & Ha). rewrite Ha, Ho by done. by apply (ok_prefix _ Hok).
    + intros s c. rewrite Hs. intros [E ?]%(ok_stored _ Hok). split; [by eapply tracks_same|done].
Qed.

Lemma save_later s expected c w r w' : world_ok w → tracks w s c → 1 ≤ cp_last_sequence c →
  (∀ c0, expected = Some c0 → cp_last_sequence c0 ≤ cp_last_sequence c) →
  handle (SaveCheckpoint s expected c) w r w' → later w w'.
Proof.
  intros Hok Hc H1 Hmono (Ho & Hp & [[_ Hs]|(Hcas & Hf & Hs & Hs')])%save_law.
  { by apply same_views_later. }
  split; [intros a; by rewrite Ho|intros a; by rewrite Hp| |].
  - intros s' c' E. destruct (decide (s' = s)) as [->|Hne]; [|exists c'; rewrite Hs' by done; split; [done|by split]].
    exists c. split; [done|]. rewrite Hcas in E. subst expected. rewrite E in Hf. split; [by apply Hmono|exact Hf].
  - intros _. split; [intros a; unfold distinct_ids; rewrite Ho, Hp; by apply (ok_prefix _ Hok)|].
    intros s' c' E. assert (tracks w s' c' ∧ 1 ≤ cp_last_sequence c') as [??].
    { destruct (decide (s' = s)) as [->|Hne]; [|apply (ok_stored _ Hok); by rewrite <- Hs']. rewrite Hs in E. by simplify_eq. }
    split; [|done]. eapply tracks_same; [done|intros a; by rewrite Hp|done].
Qed.

(** ** What a call requires *)
Definition allowed_call (o : port_op) (w : W) : Prop :=
  match o with
  | ApplyEvent e _ => is_next w e
  | SaveCheckpoint s expected c => tracks w s c ∧ 1 ≤ cp_last_sequence c
  | CleanupTombstone e _ =>
      oe_operation e = TombstoneOp ∧ e ∈ outbox w (event_aggregate e) ∧
      ∃ s c, scope_aggregate s = event_aggregate e ∧ stored w s = Some c ∧ oe_sequence e ≤ cp_last_sequence c
  | CommitAuthorityAndOutbox m e => validate_commit_event m e = Ok ()
  | ResetCheckpoint _ _ | ResetProjection _ _ => False
  | _ => True
  end.

Notation rgp := (rg handle later allowed_call).

(** ** The programs *)

(** A call without an effect *)
Lemma passive_rg o (Q : result (port_resp o) → W → Prop) w :
  is_passive o = true → (∀ w0, later w w0 → allowed_call o w0) →
  (∀ w0 r w1, later w w0 → handle o w0 r w1 → later w w1 → Q r w1) → rgp (port o) Q w.
Proof.
  intros Ho Ha HQ. apply rg_call. intros w0 Hw0. split; [by apply Ha|]. intros r w1 Hr.
  assert (later w0 w1) as H1 by (eapply same_views_later, passive_views; [exact Ho|exact Hr]).
  split; [done|]. eapply HQ; [done|exact Hr|by trans w0].
Qed.

Lemma pure_rg {A B} (x : result A) (k : A → proc B) (Q : result B → W → Prop) w :
  (∀ a, x = Ok a → rgp (k a) Q w) → (∀ e, x = Raise e → Q (Raise e) w) → rgp (pure x ≫= k) Q w.
Proof. intros HO HR. destruct x; [by apply HO|by apply HR]. Qed.

Lemma raise_if_rg {B} b e (k : () → proc B) (Q : result B → W → Prop) w :
  (b = false → rgp (k ()) Q w) → Q (Raise e) w → rgp (raise_if b e ≫= k) Q w.
Proof. intros HO HR. destruct b; [exact HR|by apply HO]. Qed.

(** [keeps w]: whatever happened since [w], and however the program ends *)
Definition keeps {A} (w : W) (good : A → W → Prop) (r : result A) (w' : W) : Prop :=
  later w w' ∧ ∀ a, r = Ok a → good a w'.
Definition any {A} (a : A) (w : W) : Prop := True.

Lemma keeps_raise {A} w (good : A → W → Prop) e w' : later w w' → keeps w good (Raise e) w'.
Proof. by split. Qed.
Lemma keeps_ok {A} w (good : A → W → Prop) a w' : later w w' → good a w' → keeps w good (Ok a) w'.
Proof. split; [done|]. by intros ? [= <-]. Qed.

(** Composition along a bind: the rest starts from a later world. *)
Lemma keeps_bind {A B} (p : proc A) (k : A → proc B) (good : A → W → Prop) (good' : B → W → Prop) w :
  rgp p (keeps w good) w → (∀ a w', later w w' → good a w' → rgp (k a) (keeps w' good') w') →
  rgp (p ≫= k) (keeps w good') w.
Proof.
  intros Hp Hk. apply rg_bind. eapply rg_mono; [|exact Hp]. intros r w' [HL Hg]. destruct r as [a|e]; [|by apply keeps_raise].
  eapply rg_mono; [|by apply Hk, Hg]. intros r w2 [? ?]. split; [by trans w'|done].
Qed.
Lemma keeps_try {A} (p : proc A) handler (good : A → W → Prop) w :
  rgp p (keeps w good) w → (∀ e w', later w w' → rgp (handler e) (keeps w' good) w') →
  rgp (prog_try handler p) (keeps w good) w.
Proof.
  intros Hp Hh. apply rg_try. eapply rg_mono; [|exact Hp]. intros r w' [HL Hg]. destruct r as [a|e]; [by apply keeps_ok; auto|].
  eapply rg_mono; [|by apply Hh]. intros r w2 [? ?]. split; [by trans w'|done].
Qed.
Lemma keeps_pure {A} (x : result A) (good : A → W → Prop) w :
  (∀ a, x = Ok a → good a w) → rgp (pure x) (keeps w good) w.
Proof. by split. Qed.
Lemma keeps_ret {A} (a : A) (good : A → W → Prop) w : good a w → rgp (mret a) (keeps w good) w.
Proof. by apply keeps_ok. Qed.

Lemma record_drift_rg id code s n ev d1 d2 w : rgp (record_drift id code s n ev d1 d2) (keeps w any) w.
Proof.
  eapply (keeps_bind _ _ any); [by apply passive_rg|]. intros now w1 _ _.
  eapply (keeps_bind _ _ any); [by apply keeps_pure|]. intros d w2 _ _. by apply passive_rg.
Qed.

Lemma failure_rg id s code c n w (good : ProjectionBatchResult → W → Prop) :
  (∀ w' b, later w w' → br_checkpoint b = c → good b w') → rgp (failure_result id s code c n) (keeps w good) w.
Proof.
  intros Hg. eapply (keeps_bind _ _ any); [apply record_drift_rg|]. intros [] w1 HL _. apply keeps_pure.
  intros b [-> _]%construct_ok. by apply Hg.
Qed.

(** What a projector knows of its cursor: it is the stored one, or nothing is
    stored as far as it knows. *)
Definition cursor_ok (s : ProjectionScope) (current : ProjectionCheckpoint) (persisted : option ProjectionCheckpoint) (w : W) : Prop :=
  tracks w s current ∧ (persisted = Some current ∨ persisted = None).

Lemma cursor_ok_later s c p w w' : later w w' → cursor_ok s c p w → cursor_ok s c p w'.
Proof. intros HL [? ?]. split; [by eapply tracks_later|done]. Qed.

Lemma initial_tracks w id s f c : initial_checkpoint id s f = Ok c → tracks w s c.
Proof. intros [-> Hv]%construct_ok. split; [done|exact Hv|done|by left|cbn; lia]. Qed.

Lemma read_checkpoint_rg id s f w : world_ok w →
  rgp (read_checkpoint id s f) (keeps w (λ c w', tracks w' s c ∧
    (cp_last_sequence c = 0 ∨ ∃ c', stored w' s = Some c' ∧ cp_last_sequence c ≤ cp_last_sequence c'))) w.
Proof.
  intros Hok. unfold read_checkpoint. eapply (keeps_bind _ _ any); [by apply keeps_pure|]. intros _ w1 HL _.
  apply (later_ok _ _ HL) in Hok.
  eapply (keeps_bind _ _ (λ (o : option ProjectionCheckpoint) w', ∀ c, o = Some c → tracks w' s c ∧ stored w' s = Some c)).
  { apply passive_rg; [done..|]. intros w2 r w3 HL2 Hr HL3. split; [done|]. intros o -> c ->.
    pose proof (read_checkpoint_law _ _ _ _ Hr) as E. apply (passive_views (ReadCheckpoint s)) in Hr as (_ & _ & Hst); [|done].
    rewrite Hst, <- E. split; [|done]. apply (ok_stored _ (later_ok _ _ HL3 Hok)). by rewrite Hst, <- E. }
  intros [c|] w2 _ Hc.
  - destruct (Hc c eq_refl) as [Ht Est]. apply raise_if_rg; [|by apply keeps_raise].
    intros _. apply raise_if_rg; [|by apply keeps_raise]. intros _. apply keeps_ret. split; [done|right; by exists c].
  - apply keeps_pure. intros c E. split; [by eapply initial_tracks|left]. by apply construct_ok in E as [-> _].
Qed.

(** The events of a page that belong to the scope come from its outbox. *)
Definition page_ok (s : ProjectionScope) (evs : list (option OutboxEnvelope)) (w : W) : Prop :=
  ∀ e, Some e ∈ evs → event_aggregate e = scope_aggregate s → e ∈ outbox w (scope_aggregate s).
Lemma page_ok_later s evs w w' : later w w' → page_ok s evs w → page_ok s evs w'.
Proof. intros HL Hp e He Ha. destruct (later_outbox _ _ HL (scope_aggregate s)) as [l ->]. specialize (Hp e He Ha). set_solver. Qed.

(** A result never reports a cursor beyond what has been projected. *)
Definition reports (s : ProjectionScope) (b : ProjectionBatchResult) (w : W) : Prop :=
  ∀ c, br_checkpoint b = Some c → tracks w s c.

Lemma open_batch_rg id s f limit w : world_ok w →
  rgp (open_batch id s f limit) (keeps w (λ o w', match o with
    | inl b => reports s b w' | inr (c, p, evs) => cursor_ok s c p w' ∧ page_ok s evs w' end)) w.
Proof.
  intros Hok. unfold open_batch.
  eapply (keeps_bind _ _ (λ o w', match o with inl b => reports s b w' | inr c => tracks w' s c end)).
  { apply keeps_try.
    - eapply keeps_bind; [by apply read_checkpoint_rg|]. intros c w1 _ [? _]. by apply keeps_ret.
    - intros e w1 _. eapply (keeps_bind _ _ (λ b w', reports s b w')); [|intros b w2 _ ?; by apply keeps_ret].
      apply failure_rg. intros w2 b _ E c. by rewrite E. }
  intros [b|c] w1 HL Hc; [by apply keeps_ret|].
  assert (∀ code n w2, later w1 w2 → rgp (failure_result id s code (Some c) n) (keeps w2 (reports s)) w2) as Hfail.
  { intros code n w2 HL2. apply failure_rg. intros w3 b HL3 E c'. rewrite E. intros [= <-].
    eapply tracks_later; [exact HL3|]. by eapply tracks_later. }
  eapply (keeps_bind _ _ (λ o w', match o with inl b => reports s b w' | inr evs => page_ok s evs w' end)).
  { apply keeps_try.
    - eapply (keeps_bind _ _ (page_ok s)); [|intros evs w2 _ ?; by apply keeps_ret].
      apply passive_rg; [done..|]. intros w2 r w3 _ Hr HL3. split; [done|]. intros evs -> e He Ha.
      pose proof (passive_views (ReadAfter s (cp_last_sequence c) limit) _ _ _ eq_refl Hr) as (Hob & _).
      rewrite Hob. by eapply read_after_law.
    - intros e w2 HL2. eapply keeps_bind; [by apply Hfail|]. intros b w3 _ ?. by apply keeps_ret. }
  intros [b|evs] w2 HL2 Hp; [by apply keeps_ret|]. case_match.
  - eapply keeps_bind; [by apply Hfail|]. intros b w3 _ ?. by apply keeps_ret.
  - apply keeps_ret. split; [|done]. split; [by eapply tracks_later|]. case_match; auto.
Qed.

(** ** One event *)
Definition step_ok (s : ProjectionScope) (st : EventStep) (w : W) : Prop := cursor_ok s (es_current st) (es_persisted st) w.

(** An outcome and a drift record, and then an answer *)
Lemma stop_rg {A B} (x : result A) (g : A → B) (good : B → W → Prop) id s code n ev d1 d2 w :
  (∀ a w', later w w' → good (g a) w') →
  rgp (a ← pure x; _ ← record_drift id code s n ev d1 d2; mret (g a)) (keeps w good) w.
Proof.
  intros Hg. eapply (keeps_bind _ _ any); [by apply keeps_pure|]. intros a w1 HL _.
  eapply (keeps_bind _ _ any); [apply record_drift_rg|]. intros _ w2 HL2 _. apply keeps_ret, Hg. by trans w1.
Qed.

Lemma identity_rg id s ev c p w : cursor_ok s c p w →
  rgp (validate_event_identity id s ev c p) (keeps w (λ o w', match o with
    | inl st => step_ok s st w' | inr e => ev = Some e ∧ event_aggregate e = scope_aggregate s end)) w.
Proof.
  intros Hc. destruct ev as [e|]; cbn [validate_event_identity].
  - destruct (_ || _) eqn:E.
    + apply stop_rg. intros o w1 HL. by eapply cursor_ok_later.
    + guards. apply keeps_ret. split; [done|]. unfold event_aggregate, scope_aggregate. congruence.
  - eapply (keeps_bind _ _ any); [apply record_drift_rg|]. intros _ w2 HL2 _. apply keeps_ret. by eapply cursor_ok_later.
Qed.

Lemma classify_rg id s e c p w : cursor_ok s c p w →
  rgp (classify_event_sequence id s e c p) (keeps w (λ o w', match o with
    | Some st => step_ok s st w' | None => oe_sequence e = cp_last_sequence c + 1 end)) w.
Proof.
  intros Hc. assert (∀ o st w', later w w' → step_ok s (mkStep o st c p) w') as Hstop.
  { intros o st w' HL. by eapply cursor_ok_later. }
  unfold classify_event_sequence. destruct (_ <=? _); [destruct (_ && _ && _)|destruct (negb _) eqn:En].
  - eapply (keeps_bind _ _ any); [by apply keeps_pure|]. intros o w1 HL _. apply keeps_ret. by apply Hstop.
  - apply stop_rg. intros o w1 HL. by apply Hstop.
  - apply stop_rg. intros o w1 HL. by apply Hstop.
  - guards. by apply keeps_ret.
Qed.

(** An absorbed event of the outbox is among the first of the projection. *)
Lemma absorbed_position w e : world_ok w → distinct_ids w (event_aggregate e) → e ∈ outbox w (event_aggregate e) →
  oe_event_id e ∈ oe_event_id <$> projected w (event_aggregate e) →
  oe_sequence e ≤ Z.of_nat (length (projected w (event_aggregate e))).
Proof.
  intros Hok Hd He (e' & Eid & Hin)%list_elem_of_fmap. apply list_elem_of_lookup in Hin as [j Hj].
  destruct (outbox_position _ _ _ He) as [H1 Hi].
  assert (outbox w (event_aggregate e) !! j = Some e') as Hj' by (eapply prefix_lookup_Some; [exact Hj|by apply ok_prefix]).
  assert (Z.to_nat (oe_sequence e - 1) = j) as <-.
  { eapply NoDup_lookup; [exact Hd|..]; rewrite list_lookup_fmap; [by rewrite Hi|by rewrite Hj', Eid]. }
  apply lookup_lt_Some in Hj. lia.
Qed.

Lemma after_event_tracks w s c e f c' : tracks w s c → event_aggregate e = scope_aggregate s → e ∈ outbox w (scope_aggregate s) →
  checkpoint_after_event c e f = Ok c' →
  (distinct_ids w (scope_aggregate s) → oe_sequence e ≤ Z.of_nat (length (projected w (scope_aggregate s)))) →
  tracks w s c' ∧ cp_last_sequence c' = cp_last_sequence c + 1.
Proof.
  intros [Hs _ Hn _ _] Ha He Hc Hp. unfold checkpoint_after_event in Hc. guards. apply construct_ok in Hc as [-> Hv].
  split; [|done]. split; [done|exact Hv|cbn; lia| |done]. right. by exists e.
Qed.

Lemma apply_and_save_rg s e c p f w : world_ok w → cursor_ok s c p w → event_aggregate e = scope_aggregate s →
  e ∈ outbox w (scope_aggregate s) → oe_sequence e = cp_last_sequence c + 1 →
  rgp (apply_and_save s e c p f) (keeps w (λ c' w', tracks w' s c')) w.
Proof.
  intros Hok [Ht Hcp] Ha He Hseq. unfold apply_and_save.
  assert (∀ w', later w w' → e ∈ outbox w' (scope_aggregate s)) as He'.
  { intros w' HL. destruct (later_outbox _ _ HL (scope_aggregate s)) as [l ->]. set_solver. }
  eapply (keeps_bind (A := port_resp (ApplyEvent e f)) _ _ (λ g w', ∀ g', g = Some g' → gr_event_id g' = oe_event_id e → gr_applied g' || gr_replayed g' = true →
    oe_event_id e ∈ oe_event_id <$> projected w' (event_aggregate e))).
  { apply rg_call. intros w0 HL. assert (is_next w0 e) as Hn.
    { split; [rewrite Ha; by apply He'|]. rewrite Ha. intros Hd. rewrite Hseq.
      pose proof (tracks_projected _ _ _ (tracks_later _ _ _ _ HL Ht) Hd). lia. }
    split; [done|]. intros r w1 Hr. assert (later w0 w1) as HL1 by (eapply apply_later; [by eapply later_ok|done|exact Hr]).
    split; [done|]. split; [by trans w0|]. intros g -> g' ->. apply apply_law in Hr as (_ & _ & _ & Hg). by apply Hg. }
  intros g w1 HL Hg. destruct g as [g|]; [|by apply keeps_raise]. eapply (keeps_bind _ _ (λ g' _, g' = g)); [by apply keeps_ret|].
  intros g' w2 HL2 ->. apply raise_if_rg; [|by apply keeps_raise]. intros Hok'. guards.
  specialize (Hg g eq_refl ltac:(done) ltac:(done)).
  apply pure_rg; [|intros; by apply keeps_raise]. intros c' Hc'.
  assert (∀ w', later w2 w' → tracks w' s c' ∧ cp_last_sequence c' = cp_last_sequence c + 1) as Ht'.
  { intros w' HL'. assert (later w1 w') as HL1' by (by trans w2). assert (later w w') as HLw by (by trans w1).
    eapply after_event_tracks; [by eapply tracks_later|done|by apply He'|exact Hc'|]. rewrite <- Ha. intros Hd.
    apply absorbed_position; [by eapply later_ok|done|rewrite Ha; by apply He'|].
    destruct (later_projected _ _ HL1' (event_aggregate e)) as [l ->]. set_solver. }
  eapply (keeps_bind _ _ any).
  - apply rg_call. intros w3 HL3. destruct (Ht' w3 HL3) as [Ht3 Hs3]. assert (1 ≤ cp_last_sequence c') as H1 by (pose proof (tracks_sequence _ _ _ Ht); lia).
    split; [done|]. intros r w4 Hr.
    assert (later w3 w4) as HL4.
    { eapply save_later; [|exact Ht3|exact H1| |exact Hr]; [by eapply later_ok; [|exact Hok]; trans w1; [|trans w2]|].
      intros c0 E. destruct Hcp; simplify_eq. lia. }
    split; [done|]. split; [by trans w3|done].
  - intros _ w3 HL3 _. apply keeps_ret. by apply Ht'.
Qed.

Lemma apply_event_rg id s e c p f w : world_ok w → cursor_ok s c p w → event_aggregate e = scope_aggregate s →
  e ∈ outbox w (scope_aggregate s) → oe_sequence e = cp_last_sequence c + 1 →
  rgp (apply_event id s e c p f) (keeps w (step_ok s)) w.
Proof.
  intros Hok Hc Ha He Hseq. unfold apply_event.
  eapply (keeps_bind _ _ (λ o w', match o with inl st => step_ok s st w' | inr c' => tracks w' s c' end)).
  - apply keeps_try.
    + eapply keeps_bind; [by apply apply_and_save_rg|]. intros c' w1 _ ?. by apply keeps_ret.
    + intros exc w1 HL. apply stop_rg. intros o w2 HL2. eapply cursor_ok_later; [|exact Hc]. by trans w1.
  - intros [st|c'] w1 _ Hst; [by apply keeps_ret|].
    eapply (keeps_bind _ _ any); [by apply keeps_pure|]. intros o w2 HL2 _. apply keeps_ret.
    split; [by eapply tracks_later|by left].
Qed.

Lemma step_event_rg id s ev c p f w : world_ok w → cursor_ok s c p w → page_ok s [ev] w →
  rgp (step_event id s ev c p f) (keeps w (step_ok s)) w.
Proof.
  intros Hok Hc Hp. unfold step_event. eapply keeps_bind; [by apply identity_rg|].
  intros [st|e] w1 HL Hst; [by apply keeps_ret|]. destruct Hst as [-> Ha].
  eapply keeps_bind; [eapply classify_rg, cursor_ok_later; [exact HL|exact Hc]|].
  intros [st|] w2 HL2 Hst; [by apply keeps_ret|]. assert (later w w2) as HLw by (by trans w1).
  apply apply_event_rg; [by eapply later_ok|by eapply cursor_ok_later|done| |done].
  eapply page_ok_later; [exact HLw|exact Hp|set_solver|done].
Qed.

Lemma step_events_rg id s f evs outs c p w : world_ok w → cursor_ok s c p w → page_ok s evs w →
  rgp (step_events id s f evs outs c p) (keeps w (λ o w', tracks w' s o.2)) w.
Proof.
  revert outs c p w. induction evs as [|ev evs IH]; intros outs c p w Hok Hc Hp; cbn [step_events].
  { apply keeps_ret. apply Hc. }
  eapply keeps_bind; [apply step_event_rg; [done..|]; intros e He; apply Hp; set_solver|].
  intros st w1 HL Hst. case_match; [apply keeps_ret, Hst|]. apply IH; [by eapply later_ok|exact Hst|].
  intros e He Ha. eapply page_ok_later; [exact HL|exact Hp|set_solver|done].
Qed.

Lemma project_scope_rg id s f limit w : world_ok w →
  rgp (project_scope id s f limit) (keeps w (reports s)) w.
Proof.
  intros Hok. unfold project_scope. eapply (keeps_bind _ _ any); [by apply keeps_pure|]. intros _ w1 HL _.
  apply (later_ok _ _ HL) in Hok. eapply keeps_bind; [by apply open_batch_rg|].
  intros [b|[[c p] evs]] w2 HL2 Ho; [by apply keeps_ret|]. destruct Ho as [Hc Hp].
  eapply keeps_bind; [apply step_events_rg; [by eapply later_ok|done|done]|]. intros o w3 _ Ho.
  apply keeps_pure. intros b [-> _]%construct_ok c'. cbn. by intros [= <-].
Qed.

Lemma project_rg id ss f limit w : world_ok w → rgp (project id ss f limit) (keeps w any) w.
Proof.
  intros Hok. unfold project. eapply (keeps_bind _ _ any); [by apply keeps_pure|]. intros _ w1 HL _.
  apply (later_ok _ _ HL) in Hok. clear HL w. generalize (merge_sort scope_order ss). clear ss. intros ss.
  revert w1 Hok. induction ss as [|s ss IH]; intros w Hok; cbn [prog_map]; [by apply keeps_ret|].
  eapply keeps_bind; [by apply project_scope_rg|]. intros b w1 HL _. apply (later_ok _ _ HL) in Hok.
  eapply keeps_bind; [by apply IH|]. intros bs w2 _ _. by apply keeps_ret.
Qed.

(** ** Cleanup *)
Definition tombstones_ok (s : ProjectionScope) (evs : list (option OutboxEnvelope)) (w : W) : Prop :=
  ∀ e, Some e ∈ evs → e ∈ outbox w (scope_aggregate s).
(** The stored cursor has reached the cursor that was read. *)
Definition durable (s : ProjectionScope) (c : ProjectionCheckpoint) (w : W) : Prop :=
  cp_last_sequence c = 0 ∨ ∃ c', stored w s = Some c' ∧ cp_last_sequence c ≤ cp_last_sequence c'.

Lemma durable_later s c w w' : later w w' → durable s c w → durable s c w'.
Proof.
  intros HL [?|(c' & E & ?)]; [by left|right]. destruct (later_stored _ _ HL s c' E) as (c2 & ? & ? & ?). exists c2. split; [done|lia].
Qed.
Lemma tombstones_ok_later s evs w w' : later w w' → tombstones_ok s evs w → tombstones_ok s evs w'.
Proof. intros HL Hp e He. destruct (later_outbox _ _ HL (scope_aggregate s)) as [l ->]. specialize (Hp e He). set_solver. Qed.

Lemma step_tombstone_rg id s ev c f w : durable s c w → tombstones_ok s [ev] w →
  rgp (step_tombstone_event id s ev c f) (keeps w any) w.
Proof.
  intros Hd Ht. destruct ev as [e|]; cbn [step_tombstone_event].
  - destruct (_ || _) eqn:E.
    + eapply (keeps_bind _ _ any); [apply record_drift_rg|]. intros _ w1 _ _.
      eapply (keeps_bind _ _ any); [by apply keeps_pure|]. intros o w2 _ _. by apply keeps_ret.
    + guards. assert (1 ≤ oe_sequence e) as H1 by (eapply outbox_position, Ht; set_solver).
      eapply (keeps_bind _ _ any).
      * apply keeps_try.
        -- eapply (keeps_bind _ _ any); [|intros _ w1 _ _; by apply keeps_ret]. apply passive_rg; [done| |done].
           intros w1 HL. split; [done|].
           pose proof (tombstones_ok_later _ _ _ _ HL Ht e ltac:(set_solver)) as He.
           split; [by rewrite (outbox_aggregate _ _ _ He)|].
           destruct (durable_later _ _ _ _ HL Hd) as [E0|(c' & E' & Hle)]; [lia|]. exists s, c'.
           split; [symmetry; by eapply outbox_aggregate|]. split; [done|lia].
        -- intros exc w1 _. eapply (keeps_bind _ _ any); [apply record_drift_rg|]. intros _ w2 _ _.
           eapply (keeps_bind _ _ any); [by apply keeps_pure|]. intros o w3 _ _. by apply keeps_ret.
      * intros [o|[]] w1 _ _; [by apply keeps_ret|]. eapply (keeps_bind _ _ any); [by apply keeps_pure|].
        intros o w2 _ _. by apply keeps_ret.
  - eapply (keeps_bind _ _ any); [apply record_drift_rg|]. intros _ w1 _ _. by apply keeps_ret.
Qed.

Lemma step_tombstones_rg id s evs c f outs w : durable s c w → tombstones_ok s evs w →
  rgp (step_tombstone_events id s evs c f outs) (keeps w any) w.
Proof.
  revert outs w. induction evs as [|ev evs IH]; intros outs w Hd Ht; cbn [step_tombstone_events]; [by apply keeps_ret|].
  eapply (keeps_bind _ _ any); [apply step_tombstone_rg; [done|]; intros e He; apply Ht; set_solver|].
  intros o w1 HL _. apply IH; [by eapply durable_later|]. eapply tombstones_ok_later; [exact HL|]. intros e He. apply Ht. set_solver.
Qed.

Lemma open_cleanup_rg id s f before limit w : world_ok w →
  rgp (open_cleanup_batch id s f before limit) (keeps w (λ o w', match o with
    | inl _ => True | inr (c, evs) => durable s c w' ∧ tombstones_ok s evs w' end)) w.
Proof.
  intros Hok. unfold open_cleanup_batch. eapply (keeps_bind _ _ (λ o w', match o with
    | inl _ => True | inr (c, evs) => durable s c w' ∧ tombstones_ok s evs w' end)).
  - apply keeps_try.
    + eapply keeps_bind; [by apply read_checkpoint_rg|]. intros c w1 _ [_ Hd].
      eapply (keeps_bind (A := port_resp (ReadTombstonesBefore s before limit)) _ _ (λ evs w', durable s c w' ∧ tombstones_ok s evs w')).
      * apply passive_rg; [done..|]. intros w2 r w3 HL2 Hr HL3. split; [done|]. intros evs ->.
        split; [by eapply durable_later|]. intros e He.
        pose proof (passive_views (ReadTombstonesBefore s before limit) _ _ _ eq_refl Hr) as (Hob & _).
        rewrite Hob. by eapply read_tombstones_law.
      * intros evs w2 _ ?. by apply keeps_ret.
    + intros exc w1 _. eapply (keeps_bind _ _ any); [apply record_drift_rg|]. intros _ w2 _ _.
      eapply (keeps_bind _ _ any); [by apply keeps_pure|]. intros r w3 _ _. by apply keeps_ret.
  - intros [r|[c evs]] w1 HL Ho; [by apply keeps_ret|]. apply raise_if_rg; [|by apply keeps_raise].
    intros _. by apply keeps_ret.
Qed.

Lemma cleanup_rg id t s f before limit w : world_ok w →
  rgp (cleanup_tombstones id t s f before limit) (keeps w any) w.
Proof.
  intros Hok. unfold cleanup_tombstones. eapply (keeps_bind _ _ any); [by apply keeps_pure|]. intros _ w1 HL _.
  apply (later_ok _ _ HL) in Hok. apply raise_if_rg; [|by apply keeps_raise]. intros _.
  apply raise_if_rg; [|by apply keeps_raise]. intros _. eapply keeps_bind; [by apply open_cleanup_rg|].
  intros [r|[c evs]] w2 _ Ho; [by apply keeps_ret|]. destruct Ho as [Hd Ht].
  eapply (keeps_bind _ _ any); [by apply step_tombstones_rg|]. intros outs w3 _ _. by apply keeps_pure.
Qed.

(** ** Commits *)
Lemma commit_validated_rg m e w : rgp (commit_validated_change m e) (keeps w any) w.
Proof.
  unfold commit_validated_change. apply pure_rg; [|intros; by apply keeps_raise]. intros [] Hv.
  eapply (keeps_bind _ _ any).
  - apply keeps_try.
    + apply rg_call. intros w0 HL. split; [done|]. intros r w1 Hr. assert (later w0 w1) by (by eapply commit_later).
      split; [done|]. split; [by trans w0|done].
    + intros exc w1 _. case_match; by apply keeps_raise.
  - intros r w1 _ _. eapply (keeps_bind _ _ any); [by apply keeps_pure|]. intros _ w2 _ _. by apply keeps_ret.
Qed.

Lemma commit_rg m e w : rgp (commit_authoritative_change m e) (keeps w any) w.
Proof. apply raise_if_rg; [|by apply keeps_raise]. intros _. apply commit_validated_rg. Qed.

Lemma promotion_time_rg o p now w : rgp (resolve_promotion_time o p now) (keeps w any) w.
Proof.
  eapply (keeps_bind _ _ any).
  - destruct now; [by apply keeps_ret|by apply passive_rg].
  - intros t w1 _ _. apply raise_if_rg; [|by apply keeps_raise]. intros _. by apply keeps_ret.
Qed.

Lemma promote_rg o p n r x now w : rgp (promote_graph_observation o p n r x now) (keeps w any) w.
Proof.
  unfold promote_graph_observation. eapply (keeps_bind _ _ any); [by apply keeps_pure|]. intros _ w1 _ _.
  eapply (keeps_bind _ _ any); [apply promotion_time_rg|]. intros t w2 _ _.
  eapply (keeps_bind _ _ any); [by apply keeps_pure|]. intros sm w3 _ _.
  eapply (keeps_bind _ _ any); [by apply keeps_pure|]. intros m w4 _ _.
  eapply (keeps_bind _ _ any); [by apply keeps_pure|]. intros e w5 _ _.
  eapply (keeps_bind _ _ any); [by apply keeps_pure|]. intros _ w6 _ _. apply commit_validated_rg.
Qed.
End safety.

(** * Identities *)

(** Two events of one stream whose identities collide under SHA-256 *)
Definition event_identity_of (e : OutboxEnvelope) : json :=
  event_identity (oe_aggregate_type e) (oe_aggregate_id e) (oe_sequence e) (oe_event_type e) (oe_operation e)
    (oe_payload_digest e) (oe_aggregate_digest e).
Definition identity_collision (events : list OutboxEnvelope) : Prop :=
  ∃ e1 e2, e1 ∈ events ∧ e2 ∈ events ∧
    sha256_collision (payload (event_identity_of e1)) (payload (event_identity_of e2)).

Lemma genuine_event_ok e : genuine_event e →
  Forall (λ f, f.2 = true) [("event_id", Identifier (oe_event_id e)); ("aggregate_type", Identifier (oe_aggregate_type e));
        ("aggregate_id", Identifier (oe_aggregate_id e)); ("sequence", 1 <=? oe_sequence e);
        ("event_type", EventType (oe_event_type e)); ("authoritative_revision", 1 <=? oe_authoritative_revision e);
        ("payload_digest", Digest (oe_payload_digest e)); ("aggregate_digest", Digest (oe_aggregate_digest e))] ∧
  Digest (oe_event_digest e) = true ∧ oe_event_id e = event_id_of e ∧ oe_event_digest e = sha256_digest (event_material e) ∧
  (oe_operation e = TombstoneOp ↔ oe_tombstone e ≠ None).
Proof.
  unfold genuine_event, OutboxEnvelope_new. intros H. apply bind_unit_ok in H as [H1%check_fields_ok H].
  apply result_bind_ok in H as (s & _ & H). apply bind_unit_ok in H as [H2%check_fields_ok H].
  apply bind_unit_ok in H as [H3 H]. injection H as H. rewrite in_validator_ok in H3. rewrite H in H3.
  split; [exact H1|]. split; [by apply Forall_inv in H2|]. unfold identity_and_operation_are_exact in H3. guards.
  split; [done|]. split; [done|].
  rewrite <- (bool_decide_eq_true (oe_operation e = TombstoneOp)), <- (bool_decide_eq_true (oe_tombstone e ≠ None)). by rewrite Hok0.
Qed.

Lemma event_identity_binds e1 e2 : genuine_event e1 → genuine_event e2 → oe_event_id e1 = oe_event_id e2 →
  oe_sequence e1 = oe_sequence e2 ∨ sha256_collision (payload (event_identity_of e1)) (payload (event_identity_of e2)).
Proof.
  intros (_ & _ & -> & _)%genuine_event_ok (_ & _ & -> & _)%genuine_event_ok E.
  unfold event_id_of, event_id_for, derived_id in E. apply string_app_inj in E.
  fold (event_identity_of e1) (event_identity_of e2) in E.
  destruct (decide (payload (event_identity_of e1) = payload (event_identity_of e2))) as [Hc%payload_inj|Hc]; [left|by right].
  by by_fields Hc ["sequence"].
Qed.

(** * All interleavings *)

(** What a process of the control plane may run against the ports *)
Inductive job :=
  | ProjectJob (projector_id : string) (scopes : list ProjectionScope) (fence_token limit : Z)
  | CleanupJob (projector_id : string) (tombstones : bool) (scope : ProjectionScope) (fence_token before_sequence limit : Z)
  | CommitJob (m : AuthoritativeMutation) (event : option OutboxEnvelope)
  | PromoteJob (o : ObservationPromotion) (p : ObservationPromotionPolicy) (sequence authoritative_revision : Z)
      (expected_revision : option Z) (now : option datetime).
Definition job_program (j : job) : proc () :=
  match j with
  | ProjectJob id ss f l => _ ← project id ss f l; mret ()
  | CleanupJob id t s f b l => _ ← cleanup_tombstones id t s f b l; mret ()
  | CommitJob m e => _ ← commit_authoritative_change m e; mret ()
  | PromoteJob o p n r x now => _ ← promote_graph_observation o p n r x now; mret ()
  end.
Definition is_job (p : proc ()) : Prop := ∃ j, p = job_program j.

Section interleavings.
Context {W : Type} `{!ProjectionViews W} {handle : ∀ o : port_op, W → result (port_resp o) → W → Prop}.
Context `{!ProjectionContract W handle}.

Lemma distinct_or_collision (w : W) a : distinct_ids w a ∨ identity_collision (outbox w a).
Proof.
  destruct (decide (distinct_ids w a)) as [Hd|Hn]; [by left|right].
  assert (∃ i j e1 e2, i ≠ j ∧ outbox w a !! i = Some e1 ∧ outbox w a !! j = Some e2 ∧ oe_event_id e1 = oe_event_id e2)
    as (i & j & e1 & e2 & Hij & H1 & H2 & E).
  { unfold distinct_ids in Hn. clear -Hn. induction (outbox w a) as [|x l IH]; [by destruct Hn; constructor|].
    destruct (decide (oe_event_id x ∈ oe_event_id <$> l)) as [(y & ? & [j Hj]%list_elem_of_lookup)%list_elem_of_fmap|Hx].
    - by exists 0%nat, (S j), x, y.
    - destruct IH as (i & j & e1 & e2 & ? & ? & ? & ?); [intros Hd; apply Hn; by constructor|].
      exists (S i), (S j), e1, e2. auto. }
  destruct (outbox_keyed _ _ _ _ H1) as (S1 & _ & G1), (outbox_keyed _ _ _ _ H2) as (S2 & _ & G2).
  destruct (event_identity_binds e1 e2 G1 G2 E); [lia|]. exists e1, e2. split; [by eapply list_elem_of_lookup_2|].
  split; [by eapply list_elem_of_lookup_2|done].
Qed.

Lemma job_rg p w : is_job p → world_ok w → rg handle later allowed_call p anything w.
Proof.
  intros [j ->] Hok. eapply rg_mono; [|instantiate (1 := keeps w any)]; [done|].
  destruct j; cbn [job_program]; eapply (keeps_bind _ _ any); try (intros; by apply keeps_ret).
  - by apply project_rg.
  - by apply cleanup_rg.
  - apply commit_rg.
  - apply promote_rg.
Qed.

Notation step := (pool_step handle is_job).

Lemma reachable_safe w0 c : world_ok w0 → rtc step ([], w0) c →
  world_ok c.2 ∧ pool_safe handle later allowed_call c.
Proof.
  intros Hok Hc. eapply (pool_steps_safe handle later allowed_call is_job world_ok) in Hc as [H _]; [done|..].
  - exact later_ok.
  - apply job_rg.
  - by apply pool_start_safe.
Qed.

(** C3: Projection is in order and exactly once. Let any number of projectors,
    cleanups, authority commits and promotions run interleaved at their adapter
    calls, failing or crashing anywhere, over any adapters that meet the
    contract. In every reachable world what the graph has absorbed of an
    aggregate is a prefix of the outbox, and every stored cursor names the event
    at its position, with all events up to it projected - unless two events of
    the stream exhibit a SHA-256 collision of their identities. *)
Theorem projection_in_order w0 ps w a :
  world_ok w0 → rtc step ([], w0) (ps, w) →
  identity_collision (outbox w a) ∨
  (projected w a `prefix_of` outbox w a ∧
   ∀ s c, scope_aggregate s = a → stored w s = Some c →
     cp_scope c = s ∧ cp_last_sequence c ≤ Z.of_nat (length (projected w a)) ∧
     ∃ e, outbox w a !! Z.to_nat (cp_last_sequence c - 1) = Some e ∧ names_event c e).
Proof.
  intros Hok [Hw _]%reachable_safe; [|done]. cbn in Hw. destruct (distinct_or_collision w a) as [Hd|?]; [right|by left].
  split; [by apply ok_prefix|]. intros s c <- [[Hs _ _ He Hp] H1]%(ok_stored _ Hw).
  split; [done|]. split; [by apply Hp|]. destruct He as [?|(e & He & En & ?)]; [lia|]. exists e.
  split; [|done]. rewrite <- En. by apply outbox_position.
Qed.

(** C31: Between any two points of such an execution no cursor regresses: the
    stored checkpoint of a scope keeps existing, its sequence and its fencing
    token never decrease, and what the graph has absorbed is kept. *)
Theorem checkpoints_never_regress w0 ps1 w1 ps2 w2 s c :
  world_ok w0 → rtc step ([], w0) (ps1, w1) → rtc step (ps1, w1) (ps2, w2) → stored w1 s = Some c →
  (∃ c', stored w2 s = Some c' ∧ at_least c c') ∧
  projected w1 (scope_aggregate s) `prefix_of` projected w2 (scope_aggregate s).
Proof.
  intros Hok H1%reachable_safe H2 Ec; [|done].
  eapply (pool_steps_safe handle later allowed_call is_job world_ok) in H2 as [_ HL]; [..|exact H1].
  - split; [by apply (later_stored _ _ HL)|apply (later_projected _ _ HL)].
  - exact later_ok.
  - apply job_rg.
Qed.

(** What is about to be called is safe to call. A projector applies only the
    next event of an outbox, saves a cursor only over projected events, and a
    cleanup removes only a tombstone whose event is projected and that the
    stored cursor has passed; an authority commits a forward mutation only with
    its matching event and a rollback only without one; no job resets anything. *)
Theorem calls_are_safe w0 ps w o k :
  world_ok w0 → rtc step ([], w0) (ps, w) → Call o k ∈ ps →
  allowed_call o w ∧
  ∀ e f, o = CleanupTombstone e f →
    identity_collision (outbox w (event_aggregate e)) ∨ e ∈ projected w (event_aggregate e).
Proof.
  intros Hok Hr Hk. destruct (reachable_safe w0 _ Hok Hr) as [Hw Hs]. cbn in *.
  pose proof (pool_call_allowed _ _ _ (ps, w) o k Hs Hk) as Ha. split; [exact Ha|]. intros e f ->.
  destruct Ha as (_ & He & s & c & Hsc & Hc & Hle).
  destruct (distinct_or_collision w (event_aggregate e)) as [Hd|?]; [right|by left].
  apply (ok_stored _ Hw) in Hc as [Ht _]. rewrite <- Hsc in Hd, He |- *. pose proof (tracks_projected _ _ _ Ht Hd) as Hp.
  destruct (outbox_position _ _ _ He) as [H1 Hi].
  rewrite <- (prefix_lookup_lt (projected w (scope_aggregate s))) in Hi by first [lia|by apply ok_prefix].
  by eapply list_elem_of_lookup_2.
Qed.
End interleavings.
