(* ===== verification/ProjectionProgress.v ===== *)
(** Progress of the projection over working adapters: a projector that is alone
    on its scope and whose adapters answer catches up with the outbox, and a
    rebuild restores a damaged projection. The facts about cursors and
    projections come from the interleaved theorems by [rg_run]; what is shown
    here is that every step goes through and advances. *)
From S2P Require Export ProjectionSafety.
From S2P Require Import Sha256.
From Stdlib Require Import Lia.
Local Open Scope Z_scope.

(** ** Models of genuine events are accepted *)
Lemma derived_id_Identifier p v c l : chars p = c :: l → letter c = true → is_true_all identifier_char l →
  (length l ≤ 100)%nat → Identifier (derived_id p v) = true.
Proof.
  intros Hp Hc Hl Hn. apply class_then_upto. exists c, (l ++ chars (hexdigest (payload v))).
  unfold derived_id. rewrite chars_app, Hp. split; [done|]. split; [done|]. split.
  - apply Forall_app. split; [done|]. eapply Forall_impl; [apply hexdigest_lower|].
    intros x. unfold identifier_char, alnum, letter, lower, upper, hex_lower. by destruct x as [[] [] [] [] [] [] [] []].
  - rewrite length_app. pose proof (hexdigest_length (payload v)) as E. unfold chars. rewrite E. lia.
Qed.

Lemma checkpoint_id_Identifier id s : Identifier (checkpoint_id_for id s) = true.
Proof. eapply derived_id_Identifier; [reflexivity|done| |cbn; lia]. by_compute. Qed.

Lemma initial_total id s f : Identifier id = true → 1 ≤ f → ∃ c, initial_checkpoint id s f = Ok c ∧
  cp_projector_id c = id ∧ cp_fence_token c = f ∧ cp_last_sequence c = 0.
Proof.
  intros Hid Hf. eexists. split; [apply construct_ok; split; [reflexivity|]|done].
  unfold validate_ProjectionCheckpoint. constraints. cbn -[checkpoint_id_for checkpoint_material sha256_digest].
  split; [|].
  - repeat split; try done; [apply checkpoint_id_Identifier|by apply Z.leb_le|apply canonical_digest_Digest].
  - unfold checkpoint_identity_is_exact. constraints. cbn -[checkpoint_id_for checkpoint_material sha256_digest].
    repeat split; apply bool_decide_eq_false; intros Hn; by apply Hn.
Qed.

Lemma after_event_total c e f : validate_ProjectionCheckpoint c = Ok () → 0 ≤ cp_last_sequence c → genuine_event e → 1 ≤ f →
  event_aggregate e = scope_aggregate (cp_scope c) → oe_sequence e = cp_last_sequence c + 1 →
  ∃ c', checkpoint_after_event c e f = Ok c' ∧ cp_projector_id c' = cp_projector_id c ∧ cp_fence_token c' = f.
Proof.
  intros Hc Hn (He & Hd & _)%genuine_event_ok Hf Ha Hs.
  assert (oe_aggregate_type e = sc_aggregate_type (cp_scope c) ∧ oe_aggregate_id e = sc_aggregate_id (cp_scope c)) as [Et Ei].
  { unfold event_aggregate, scope_aggregate in Ha. by injection Ha. }
  unfold checkpoint_after_event.
  rewrite (proj2 (raise_if_ok (bool_decide (oe_sequence e ≠ _)) _)) by (apply bool_decide_eq_false; tauto).
  rewrite (proj2 (raise_if_ok (_ || _) _)) by (rewrite Et, Ei, !bool_decide_eq_false_2 by tauto; done).
  eexists. split; [apply construct_ok; split; [reflexivity|]|done].
  unfold validate_ProjectionCheckpoint in Hc |- *. revert Hc. constraints. intros [(H1 & H2 & _) Hx].
  unfold checkpoint_identity_is_exact in Hx. guards. rewrite !Forall_cons in He. cbn in He. destruct He as (He1 & _).
  cbn -[checkpoint_id_for checkpoint_material sha256_digest]. split.
  - repeat split; try done; [apply Z.leb_le; lia|by apply Z.leb_le|apply canonical_digest_Digest].
  - unfold checkpoint_identity_is_exact. constraints. cbn -[checkpoint_id_for checkpoint_material sha256_digest].
    rewrite (proj2 (Z.eqb_neq _ 0)) by lia. rewrite (proj2 (Z.ltb_lt 0 _)) by lia. cbn -[checkpoint_id_for checkpoint_material sha256_digest].
    repeat split; apply bool_decide_eq_false; intros Hq; by apply Hq.
Qed.

Lemma ok_outcome status e : genuine_event e → ∃ o, event_outcome status e None = Ok o ∧ po_status o = status.
Proof.
  intros (He & _)%genuine_event_ok. eexists. split; [apply construct_ok; split; [reflexivity|]|done].
  rewrite !Forall_cons in He. cbn in He. unfold validate_ProjectionOutcome. constraints. tauto.
Qed.

(** * Working adapters *)

(** Adapters that answer: reads are exact, an event is applied, and a save
    whose comparison and fence hold is stored. *)
Class WorkingAdapters (W : Type) `{!ProjectionViews W} (exec : ∀ o : port_op, M W (port_resp o)) : Prop := {
  exec_read_checkpoint s w : ∃ c w', exec (ReadCheckpoint s) w = (Ok c, w');
  exec_read_after s n l w : 0 ≤ n → 0 ≤ l → ∃ w', exec (ReadAfter s n l) w =
    (Ok (map Some (take (Z.to_nat l) (drop (Z.to_nat n) (outbox w (scope_aggregate s))))), w');
  exec_apply e f w : ∃ g w', exec (ApplyEvent e f) w = (Ok (Some g), w') ∧
    gr_event_id g = oe_event_id e ∧ gr_applied g || gr_replayed g = true;
  exec_save s x c w : stored w s = x → fence_of x ≤ cp_fence_token c → ∃ w', exec (SaveCheckpoint s x c) w = (Ok (), w');
  exec_reset_checkpoint s f w : ∃ w', exec (ResetCheckpoint s f) w = (Ok (), w');
  exec_reset_projection s f w : ∃ w', exec (ResetProjection s f) w = (Ok (), w') }.

Section progress.
Context {W : Type} `{!ProjectionViews W} (exec : ∀ o : port_op, M W (port_resp o)).
Context `{!ProjectionContract W (λ o w r w', exec o w = (r, w'))} `{!WorkingAdapters W exec}.

Definition runs {A} (p : proc A) (w : W) (a : A) (w' : W) : Prop := run exec p w = (Ok a, w').

Lemma runs_bind {A B} (p : proc A) (k : A → proc B) w a w1 b w2 : runs p w a w1 → runs (k a) w1 b w2 → runs (p ≫= k) w b w2.
Proof. intros H1 H2. unfold runs. by rewrite (run_bind_ok exec _ _ _ _ _ H1). Qed.
Lemma runs_try {A} handler (p : proc A) w a w' : runs p w a w' → runs (prog_try handler p) w a w'.
Proof. intros H. unfold runs. rewrite run_try. by rewrite H. Qed.
Lemma runs_port o w a w' : exec o w = (Ok a, w') → runs (port o) w a w'.
Proof. intros H. unfold runs, port. by rewrite run_call. Qed.
Lemma runs_pure {A} (x : result A) w a : x = Ok a → runs (pure x) w a w.
Proof. by intros ->. Qed.
Lemma runs_ret {A} (a : A) w : runs (mret a) w a w.
Proof. done. Qed.
Lemma runs_raise_if {B} b e (k : () → proc B) w r w' : b = false → runs (k ()) w r w' → runs (raise_if b e ≫= k) w r w'.
Proof. by intros ->. Qed.

(** Runs inherit what the interleaved judgement says of them. *)
Lemma runs_keeps {A} (p : proc A) (good : A → W → Prop) w a w' :
  rg (λ o w r w', exec o w = (r, w')) later allowed_call p (keeps w good) w → runs p w a w' → later w w' ∧ good a w'.
Proof. intros Hp Hr. destruct (rg_run _ _ _ _ _ _ _ _ Hp Hr) as [? Hg]. auto. Qed.

Context (id : string) (s : ProjectionScope) (f : Z) (Hid : Identifier id = true) (Hf : 1 ≤ f).
Notation agg := (scope_aggregate s).

(** The projector's cursor is the stored one, and its own. *)
Record cursor_at (c : ProjectionCheckpoint) (p : option ProjectionCheckpoint) (w : W) : Prop := {
  ca_ok : cursor_ok s c p w;
  ca_stored : stored w s = p;
  ca_initial : p = None → cp_last_sequence c = 0;
  ca_owner : cp_projector_id c = id;
  ca_fence : cp_fence_token c ≤ f }.

Lemma apply_event_runs e c p w : world_ok w → cursor_at c p w → e ∈ outbox w agg → oe_sequence e = cp_last_sequence c + 1 →
  ∃ o c' w', runs (apply_event id s e c p f) w (mkStep (Some o) false c' (Some c')) w' ∧ po_status o = OApplied ∧
    cp_last_sequence c' = cp_last_sequence c + 1 ∧ cursor_at c' (Some c') w' ∧ later w w' ∧ same_outbox w w'.
Proof.
  intros Hok [Hc Hst Hi Ho Hfe] He Hs. pose proof Hc as [[Esc Hv Hn _ _] Hp].
  pose proof (outbox_aggregate _ _ _ He) as Ha. apply list_elem_of_lookup in He as Hl. destruct Hl as [i Hl].
  destruct (outbox_keyed _ _ _ _ Hl) as (_ & _ & Hg).
  destruct (exec_apply e f w) as (g & w1 & E1 & Eg & Er). pose proof (apply_law _ _ _ _ _ E1) as (Hob1 & Hst1 & _).
  destruct (after_event_total c e f Hv Hn Hg Hf ltac:(by rewrite Esc) Hs) as (c' & Ec' & Eo & Ef).
  assert (stored w1 s = p) as Hst1' by (by rewrite Hst1).
  destruct (exec_save s p c' w1 Hst1') as (w2 & E2).
  { rewrite Ef. destruct Hp as [->| ->]; cbn; lia. }
  destruct (ok_outcome OApplied e Hg) as (o & Eout & Est).
  assert (runs (apply_event id s e c p f) w (mkStep (Some o) false c' (Some c')) w2) as Hrun.
  { eapply runs_bind.
    { eapply runs_try, runs_bind; [|apply runs_ret]. eapply runs_bind; [by apply (runs_port (ApplyEvent e f))|].
      eapply runs_bind; [apply runs_ret|]. apply runs_raise_if; [by rewrite Eg, Er, bool_decide_eq_false_2 by tauto|].
      eapply runs_bind; [by apply runs_pure|]. eapply runs_bind; [by apply (runs_port (SaveCheckpoint s p c'))|]. apply runs_ret. }
    eapply runs_bind; [by apply runs_pure|]. apply runs_ret. }
  exists o, c', w2. split; [exact Hrun|]. split; [done|].
  apply runs_keeps with (good := step_ok s) in Hrun as [HL Hgood]; [|by apply apply_event_rg].
  assert (cp_last_sequence c' = cp_last_sequence c + 1) as Ecs.
  { clear -Ec' Hs. unfold checkpoint_after_event in Ec'. guards. apply construct_ok in Ec' as [-> _]. cbn. lia. }
  split; [done|]. pose proof (save_law _ _ _ _ _ _ E2) as (Hob2 & _ & [[? _]|(_ & _ & Hs2 & _)]); [done|].
  split; [|split; [done|intros a; by rewrite Hob2, Hob1]]. split; [exact Hgood|exact Hs2|done|by rewrite Eo|lia].
Qed.

Lemma step_event_runs e c p w : world_ok w → cursor_at c p w → e ∈ outbox w agg → oe_sequence e = cp_last_sequence c + 1 →
  ∃ o c' w', runs (step_event id s (Some e) c p f) w (mkStep (Some o) false c' (Some c')) w' ∧ po_status o = OApplied ∧
    cp_last_sequence c' = cp_last_sequence c + 1 ∧ cursor_at c' (Some c') w' ∧ later w w' ∧ same_outbox w w'.
Proof.
  intros Hok Hc He Hs. destruct (apply_event_runs e c p w Hok Hc He Hs) as (o & c' & w' & Hrun & ?).
  exists o, c', w'. split; [|done]. pose proof (outbox_aggregate _ _ _ He) as Ha.
  unfold event_aggregate, scope_aggregate in Ha. injection Ha as Et Ei.
  apply (runs_bind _ _ w (inr e) w); [|apply (runs_bind _ _ w None w); [|exact Hrun]].
  - cbn [validate_event_identity]. rewrite Et, Ei, !bool_decide_eq_false_2 by tauto. apply runs_ret.
  - unfold classify_event_sequence. rewrite (proj2 (Z.leb_gt _ _)) by lia. rewrite Hs, Z.eqb_refl. apply runs_ret.
Qed.

(** The events of a page that continues the cursor *)
Lemma step_events_runs es outs c p w : world_ok w → cursor_at c p w →
  (∀ i e, es !! i = Some e → e ∈ outbox w agg ∧ oe_sequence e = cp_last_sequence c + 1 + Z.of_nat i) →
  ∃ os c' w', runs (step_events id s f (map Some es) outs c p) w (outs ++ os, c') w' ∧
    length os = length es ∧ Forall (λ o, po_status o = OApplied) os ∧
    cp_last_sequence c' = cp_last_sequence c + Z.of_nat (length es) ∧
    (∃ p', cursor_at c' p' w') ∧ later w w' ∧ same_outbox w w'.
Proof.
  revert outs c p w. induction es as [|e es IH]; intros outs c p w Hok Hc Hes.
  { exists [], c, w. rewrite app_nil_r. split; [apply runs_ret|]. split; [done|]. split; [done|]. split; [cbn; lia|]. split; [by exists p|]. by split. }
  destruct (Hes 0%nat e eq_refl) as [He Hs]. destruct (step_event_runs e c p w Hok Hc He ltac:(lia)) as (o & c1 & w1 & H1 & Ho & E1 & Hc1 & HL1 & Hob1).
  destruct (IH (outs ++ [o]) c1 (Some c1) w1) as (os & c' & w' & H2 & Hlen & Hos & E2 & Hc2 & HL2 & Hob2);
    [by eapply later_ok|done| |].
  { intros i e' Hi. destruct (Hes (S i) e' Hi) as [? ?]. rewrite Hob1. split; [done|lia]. }
  exists (o :: os), c', w'. split.
  { cbn [map step_events]. eapply runs_bind; [exact H1|]. cbn [es_outcome es_stop es_current es_persisted option_list].
    rewrite cons_middle, app_assoc. exact H2. }
  split; [cbn; lia|]. split; [by constructor|]. split; [cbn; lia|]. split; [done|]. split; [by trans w1|].
  intros a. by rewrite Hob2, Hob1.
Qed.

(** ** One batch *)
Definition cursor (w : W) : Z := from_option cp_last_sequence 0 (stored w s).
Definition outbox_length (w : W) : Z := Z.of_nat (length (outbox w agg)).

(** The scope is this projector's, under a fence that is not stale. *)
Record ready (w : W) : Prop := {
  ready_ok : world_ok w;
  ready_owner c : stored w s = Some c → cp_projector_id c = id ∧ cp_fence_token c ≤ f }.

Lemma cursor_bound w : world_ok w → 0 ≤ cursor w ≤ outbox_length w.
Proof.
  intros Hok. unfold cursor, outbox_length. destruct (stored w s) as [c|] eqn:E; cbn; [|lia].
  apply (ok_stored _ Hok) in E as [[_ _ ? [?|(e & He & <- & _)] _] ?]; [lia|].
  apply outbox_position in He as [? Hi]. apply lookup_lt_Some in Hi. lia.
Qed.

Lemma cursor_at_ready c p w w' : world_ok w' → cursor_at c p w' → same_outbox w w' → ready w' ∧ cursor w' = cp_last_sequence c.
Proof.
  intros Hok [[_ Hp] Hs Hi Ho Hfe] _. split.
  - split; [done|]. intros c'. rewrite Hs. intros ->. destruct Hp; simplify_eq. done.
  - unfold cursor. rewrite Hs. destruct Hp as [->| ->]; cbn; [done|]. symmetry. by apply Hi.
Qed.

Lemma read_checkpoint_runs w : ready w →
  ∃ c w', runs (read_checkpoint id s f) w c w' ∧ same_views w w' ∧ cp_last_sequence c = cursor w ∧
    cursor_at c (if 0 <? cp_last_sequence c then Some c else None) w'.
Proof.
  intros [Hok Ho]. destruct (exec_read_checkpoint s w) as (o & w' & E).
  pose proof (read_checkpoint_law _ _ _ _ E) as Eo. pose proof (passive_views (ReadCheckpoint s) _ _ _ eq_refl E) as Hv.
  assert (world_ok w') as Hok' by (by apply (later_ok _ _ (same_views_later _ _ Hv))). destruct Hv as (Hv1 & Hv2 & Hv3).
  assert (runs (port (ReadCheckpoint s)) w o w') as Hr by (by apply (runs_port (ReadCheckpoint s))).
  assert (runs (pure (check_fence f)) w () w) as Hcf by (apply runs_pure, raise_if_ok, Z.ltb_ge; lia).
  destruct (stored w s) as [c|] eqn:Es; subst o.
  - destruct (Ho c eq_refl) as [Eid Efe]. destruct (ok_stored _ Hok' s c) as [Ht H1]; [by rewrite Hv3|].
    exists c, w'. split.
    { eapply runs_bind; [exact Hcf|]. eapply runs_bind; [exact Hr|]. cbn beta iota.
      apply runs_raise_if; [by rewrite Eid, (tracks_scope _ _ _ Ht), !bool_decide_eq_false_2 by tauto|].
      apply runs_raise_if; [by apply Z.ltb_ge|]. apply runs_ret. }
    split; [done|]. split; [unfold cursor; by rewrite Es|]. rewrite (proj2 (Z.ltb_lt 0 _)) by lia.
    split; [split; [done|by left]|by rewrite Hv3|done|done|lia].
  - destruct (initial_total id s f Hid Hf) as (c & Ec & Eid & Efe & En). exists c, w'. split.
    { eapply runs_bind; [exact Hcf|]. eapply runs_bind; [exact Hr|]. by apply runs_pure. }
    split; [done|]. split; [unfold cursor; by rewrite Es|]. rewrite (proj2 (Z.ltb_ge 0 _)) by lia.
    split; [split; [by eapply initial_tracks|by right]|by rewrite Hv3|done|done|lia].
Qed.

Lemma applied_status os : Forall (λ o, po_status o = OApplied) os → batch_status os = if decide (os = []) then BComplete else BApplied.
Proof.
  intros H. unfold batch_status. destruct os as [|o os]; [done|]. rewrite bool_decide_eq_false_2 by done.
  rewrite Forall_forall in H. rewrite !(proj2 (existsb_false _ _)).
  - cbn. rewrite (H o) by (by left). done.
  - intros x Hx. by rewrite (H x Hx).
  - intros x Hx. by rewrite (H x Hx).
Qed.

(** The page of events after the cursor *)
Definition page (w : W) (limit : Z) : list OutboxEnvelope :=
  take (Z.to_nat limit) (drop (Z.to_nat (cursor w)) (outbox w agg)).

Lemma page_length w limit : world_ok w → 0 ≤ limit →
  Z.of_nat (length (page w limit)) = Z.min limit (outbox_length w - cursor w).
Proof.
  intros Hok Hl. pose proof (cursor_bound w Hok) as Hb. unfold page. unfold outbox_length in *.
  rewrite length_take, length_drop. lia.
Qed.

Lemma page_lookup w limit i e : world_ok w → page w limit !! i = Some e →
  e ∈ outbox w agg ∧ oe_sequence e = cursor w + 1 + Z.of_nat i.
Proof.
  intros Hok (Hi & _)%lookup_take_Some. rewrite lookup_drop in Hi. split; [by eapply list_elem_of_lookup_2|].
  apply outbox_keyed in Hi as [-> _]. pose proof (cursor_bound w Hok). lia.
Qed.

Lemma open_batch_runs limit w : ready w → 1 ≤ limit →
  ∃ c w', runs (open_batch id s f limit) w (inr (c, (if 0 <? cp_last_sequence c then Some c else None), map Some (page w limit))) w' ∧
    same_views w w' ∧ cp_last_sequence c = cursor w ∧ cursor_at c (if 0 <? cp_last_sequence c then Some c else None) w'.
Proof.
  intros Hr Hl. destruct (read_checkpoint_runs w Hr) as (c & w1 & H1 & Hv1 & Ec & Hc). destruct Hr as [Hok _].
  pose proof (cursor_bound w Hok) as Hb.
  destruct (exec_read_after s (cp_last_sequence c) limit w1) as (w2 & E2); [lia|lia|].
  pose proof (passive_views (ReadAfter s (cp_last_sequence c) limit) _ _ _ eq_refl E2) as Hv2.
  assert (take (Z.to_nat limit) (drop (Z.to_nat (cp_last_sequence c)) (outbox w1 agg)) = page w limit) as Ep.
  { unfold page. rewrite Ec. by rewrite (proj1 Hv1). }
  rewrite Ep in E2. exists c, w2. split; [|split; [|split; [done|]]].
  - eapply (runs_bind _ _ _ (inr c)); [apply runs_try; eapply runs_bind; [exact H1|apply runs_ret]|]. cbn beta iota zeta.
    eapply (runs_bind _ _ _ (inr (map Some (page w limit)))).
    { apply runs_try. eapply runs_bind; [by apply (runs_port (ReadAfter s (cp_last_sequence c) limit))|]. apply runs_ret. }
    cbn beta iota zeta. rewrite (proj2 (Z.ltb_ge _ _)); [apply runs_ret|]. rewrite length_map, page_length by (done || lia). lia.
  - destruct Hv1 as (A1 & B1 & C1), Hv2 as (A2 & B2 & C2).
    split; [intros a; by rewrite A2, A1|]. split; [intros a; by rewrite B2, B1|intros a; by rewrite C2, C1].
  - destruct Hc as [Ho Hs Hi Hw Hfe]. split; [|by rewrite (proj2 (proj2 Hv2))|done..].
    by eapply cursor_ok_later; [apply same_views_later|].
Qed.

Lemma project_scope_runs limit w : ready w → 1 ≤ limit ≤ MAX_BATCH_SIZE →
  ∃ b w', runs (project_scope id s f limit) w b w' ∧ ready w' ∧ later w w' ∧ same_outbox w w' ∧
    cursor w' = Z.min (cursor w + limit) (outbox_length w) ∧
    br_status b = (if decide (cursor w = outbox_length w) then BComplete else BApplied) ∧
    br_has_more b = bool_decide (cursor w + limit ≤ outbox_length w).
Proof.
  intros Hr Hl. destruct (open_batch_runs limit w Hr ltac:(lia)) as (c & w1 & H1 & Hv1 & Ec & Hc). pose proof (ready_ok _ Hr) as Hok.
  pose proof (same_views_later _ _ Hv1) as HL1. pose proof (page_length w limit Hok ltac:(lia)) as Hlen. pose proof (cursor_bound w Hok) as Hb.
  destruct (step_events_runs (page w limit) [] c (if 0 <? cp_last_sequence c then Some c else None) w1)
    as (os & c' & w2 & H2 & Hos & Hall & Ec' & (p' & Hc') & HL2 & Hob2); [by eapply later_ok|done| |].
  { intros i e Hi. rewrite (proj1 Hv1), Ec. by eapply page_lookup. }
  assert (same_outbox w w2) as Hob by (intros a; by rewrite Hob2, (proj1 Hv1)).
  destruct (cursor_at_ready c' p' w w2) as [Hr2 Ecur]; [eapply later_ok; [exact HL2|by eapply later_ok]|done|done|].
  assert (os = [] ↔ cursor w = outbox_length w) as Hnil.
  { rewrite <- length_zero_iff_nil, Hos. lia. }
  eexists _, w2. split; [|split; [exact Hr2|split; [by trans w1|split; [done|split; [rewrite Ecur, Ec', Ec, Hlen; lia|]]]]].
  - eapply runs_bind; [by apply runs_pure, raise_if_ok, negb_false_iff, andb_true_iff; split; apply Z.leb_le; lia|].
    eapply runs_bind; [exact H1|]. cbn beta iota. eapply runs_bind; [exact H2|]. cbn beta iota zeta.
    apply runs_pure, construct_ok. split; [reflexivity|]. unfold validate_ProjectionBatchResult. constraints. split; [|done].
    apply bool_decide_eq_true. cbn [br_outcomes fst app]. unfold MAX_BATCH_SIZE in Hl. lia.
  - cbn [br_status br_has_more fst app]. rewrite (applied_status os Hall), length_map. split.
    + by rewrite (decide_ext _ _ _ _ Hnil).
    + rewrite (bool_decide_eq_true_2 (_ ∈ _)), andb_true_r by (case_decide; set_solver). apply bool_decide_ext. lia.
Qed.

(** ** To the end of the outbox *)

(** A caller that projects while the result says that there is more *)
Fixpoint drain (limit : Z) (fuel : nat) : proc ProjectionBatchResult :=
  match fuel with
  | O => pure (Raise OutOfFuel)
  | S fuel => b ← project_scope id s f limit; if br_has_more b then drain limit fuel else mret b
  end.

Lemma drain_runs limit fuel w : ready w → 1 ≤ limit ≤ MAX_BATCH_SIZE → outbox_length w - cursor w < Z.of_nat fuel →
  ∃ b w', runs (drain limit fuel) w b w' ∧ ready w' ∧ same_outbox w w' ∧ cursor w' = outbox_length w ∧
    br_has_more b = false ∧ br_status b ∈ [BComplete; BApplied].
Proof.
  intros Hr Hl. revert w Hr. induction fuel as [|fuel IH]; intros w Hr Hfuel; pose proof (cursor_bound w (ready_ok _ Hr)) as Hb; [lia|].
  destruct (project_scope_runs limit w Hr Hl) as (b & w1 & H1 & Hr1 & _ & Hob & Ecur & Est & Em).
  assert (outbox_length w1 = outbox_length w) as El by (unfold outbox_length; by rewrite Hob).
  destruct (decide (cursor w + limit ≤ outbox_length w)) as [Hmore|Hdone].
  - destruct (IH w1 Hr1) as (b' & w' & H2 & Hr2 & Hob2 & Ecur2 & Hrest); [lia|]. exists b', w'.
    split; [cbn [drain]; eapply runs_bind; [exact H1|]; by rewrite Em, bool_decide_eq_true_2|].
    split; [done|]. split; [intros a; by rewrite Hob2, Hob|]. split; [lia|done].
  - exists b, w1. rewrite bool_decide_eq_false_2 in Em by done.
    split; [cbn [drain]; eapply runs_bind; [exact H1|]; by rewrite Em|]. split; [done|]. split; [done|]. split; [lia|].
    split; [done|]. rewrite Est. case_decide; set_solver.
Qed.

(** At the end of the outbox everything is projected. *)
Lemma cursor_at_end w : world_ok w → cursor w = outbox_length w → identity_collision (outbox w agg) ∨ projected w agg = outbox w agg.
Proof.
  intros Hok Hc. destruct (distinct_or_collision w agg) as [Hd|?]; [right|by left].
  assert (length (outbox w agg) ≤ length (projected w agg))%nat as Hlen.
  { unfold cursor, outbox_length in Hc. destruct (stored w s) as [c|] eqn:E; cbn in Hc; [|lia].
    apply (ok_stored _ Hok) in E as [Ht _]. pose proof (tracks_projected _ _ _ Ht Hd). lia. }
  destruct (ok_prefix _ Hok _ Hd) as [l El]. rewrite El in Hlen |- *. rewrite length_app in Hlen.
  destruct l; [by rewrite app_nil_r|cbn in Hlen; lia].
Qed.

(** ** Rebuilding *)

(** The rest of the world; nothing is asked of the scope itself. *)
Record ok_elsewhere (w : W) : Prop := {
  oe_prefix a : a ≠ agg → distinct_ids w a → projected w a `prefix_of` outbox w a;
  oe_stored s' c : s' ≠ s → stored w s' = Some c → scope_aggregate s' ≠ agg ∧ tracks w s' c ∧ 1 ≤ cp_last_sequence c }.

Lemma reset_ready w w1 w2 : ok_elsewhere w →
  exec (ResetProjection s f) w = (Ok (), w1) → exec (ResetCheckpoint s f) w1 = (Ok (), w2) →
  ready w2 ∧ same_outbox w w2 ∧ cursor w2 = 0.
Proof.
  intros [Hp Hs] E1 E2. pose proof (reset_projection_law _ _ _ _ _ E1) as H1.
  pose proof (reset_checkpoint_law _ _ _ _ _ E2) as H2. clear E1 E2.
  destruct H1 as (Ho1 & Hs1 & [[? _]|(Hagg & Hp1)]); [done|]. destruct H2 as (Ho2 & Hp2 & [[? _]|(Hst & Hs2)]); [done|].
  assert (same_outbox w w2) as Ho by (intros a; by rewrite Ho2, Ho1).
  split; [|split; [done|unfold cursor; by rewrite Hst]]. split; [|intros c; by rewrite Hst].
  split.
  - intros a. unfold distinct_ids. rewrite Ho, Hp2. destruct (decide (a = agg)) as [->|Hne]; [rewrite Hagg; by intros; exists (outbox w agg)|].
    rewrite Hp1 by done. by apply Hp.
  - intros s' c E. destruct (decide (s' = s)) as [->|Hne]; [congruence|]. rewrite Hs2, Hs1 in E by done.
    destruct (Hs s' c Hne E) as (Ha & [? ? ? He Hpr] & ?). split; [|done]. split; [done..|by rewrite Ho|].
    unfold distinct_ids. rewrite Ho, Hp2, Hp1 by done. done.
Qed.

Lemma rebuild_runs limit w : ok_elsewhere w → 1 ≤ limit ≤ MAX_BATCH_SIZE →
  ∃ b w', runs (rebuild_scope id s f limit) w b w' ∧ ready w' ∧ same_outbox w w' ∧
    cursor w' = Z.min limit (outbox_length w) ∧ br_has_more b = bool_decide (limit ≤ outbox_length w).
Proof.
  intros Hw Hl. destruct (exec_reset_projection s f w) as (w1 & E1), (exec_reset_checkpoint s f w1) as (w2 & E2).
  destruct (reset_ready w w1 w2 Hw E1 E2) as (Hr & Hob & Hcur).
  destruct (project_scope_runs limit w2 Hr Hl) as (b & w' & H3 & Hr' & _ & Hob' & Ecur & _ & Em).
  assert (outbox_length w2 = outbox_length w) as El by (unfold outbox_length; by rewrite Hob).
  exists b, w'. split; [|split; [done|split; [intros a; by rewrite Hob', Hob|rewrite Ecur, Em, Hcur, El; done]]].
  eapply runs_bind; [by apply runs_pure, raise_if_ok, negb_false_iff, andb_true_iff; split; apply Z.leb_le; lia|].
  apply (runs_bind _ _ w (inr ()) w2); [|exact H3]. apply runs_try.
  eapply runs_bind; [by apply (runs_port (ResetProjection s f))|].
  eapply runs_bind; [by apply (runs_port (ResetCheckpoint s f))|]. apply runs_ret.
Qed.

Definition rebuild_and_drain (limit : Z) (fuel : nat) : proc ProjectionBatchResult :=
  b ← rebuild_scope id s f limit; if br_has_more b then drain limit fuel else mret b.

(** C8: A projector catches up. Over working adapters, alone on its scope and
    with a fence that is not stale, projecting batch after batch while the
    result says there is more returns within one batch more than there are
    events left. Then the cursor is at the end of the outbox and the projection
    is the outbox (or two of its events collide under SHA-256). *)
Theorem projection_catches_up limit fuel w :
  ready w → 1 ≤ limit ≤ MAX_BATCH_SIZE → outbox_length w - cursor w < Z.of_nat fuel →
  ∃ b w', run exec (drain limit fuel) w = (Ok b, w') ∧ br_has_more b = false ∧ br_status b ∈ [BComplete; BApplied] ∧
    same_outbox w w' ∧ cursor w' = outbox_length w ∧
    (identity_collision (outbox w agg) ∨ projected w' agg = outbox w agg).
Proof.
  intros Hr Hl Hfuel. destruct (drain_runs limit fuel w Hr Hl Hfuel) as (b & w' & H & Hr' & Hob & Hcur & Hm & Hst).
  exists b, w'. do 5 (split; [done|]). rewrite <- !Hob. apply cursor_at_end; [apply Hr'|].
  rewrite Hcur. unfold outbox_length. by rewrite Hob.
Qed.

(** C18: A rebuild restores a scope whatever became of its projection and its
    cursor. If the rest of the world is in order and no other scope shares the
    aggregate, rebuilding over working adapters and projecting on yields the
    whole outbox, in order and once, with the cursor at its end. *)
Theorem rebuild_restores limit fuel w :
  ok_elsewhere w → 1 ≤ limit ≤ MAX_BATCH_SIZE → outbox_length w < Z.of_nat fuel →
  ∃ b w', run exec (rebuild_and_drain limit fuel) w = (Ok b, w') ∧ br_has_more b = false ∧
    world_ok w' ∧ cursor w' = outbox_length w ∧
    (identity_collision (outbox w agg) ∨ projected w' agg = outbox w agg).
Proof.
  intros Hw Hl Hfuel. destruct (rebuild_runs limit w Hw Hl) as (b & w1 & H1 & Hr1 & Hob1 & Ecur1 & Em).
  assert (outbox_length w1 = outbox_length w) as El by (unfold outbox_length; by rewrite Hob1).
  assert (∃ b' w', runs (rebuild_and_drain limit fuel) w b' w' ∧ br_has_more b' = false ∧ ready w' ∧ same_outbox w w' ∧
    cursor w' = outbox_length w) as (b' & w' & H & Hm & Hr' & Hob & Hcur).
  { destruct (decide (limit ≤ outbox_length w)) as [Hmore|Hdone].
    - destruct (drain_runs limit fuel w1 Hr1 Hl) as (b' & w' & H2 & Hr2 & Hob2 & Ecur2 & Hm & _); [lia|]. exists b', w'.
      split; [eapply runs_bind; [exact H1|]; by rewrite Em, bool_decide_eq_true_2|].
      split; [done|]. split; [done|]. split; [intros a; by rewrite Hob2, Hob1|lia].
    - rewrite bool_decide_eq_false_2 in Em by done. exists b, w1. unfold runs in *.
      split; [eapply runs_bind; [exact H1|]; by rewrite Em|]. split; [done|]. split; [done|]. split; [done|lia]. }
  exists b', w'. split; [done|]. split; [done|]. split; [apply Hr'|]. split; [done|]. rewrite <- !Hob.
  apply cursor_at_end; [apply Hr'|]. rewrite Hcur. unfold outbox_length. by rewrite Hob.
Qed.
End progress.
