(* ===== verification/ProjectionPromotion.v ===== *)
(** Summaries, created events and observation promotion.

    What [normalize_summary] accepts and that it is idempotent; that a created
    event passes its own validation again; and which promotions of a graph
    observation reach the authority. *)
From S2P Require Export ProjectionProgress.
From S2P Require Import Sha256.
From Stdlib Require Import Lia.
Local Open Scope Z_scope.

(** * Summaries *)

(** A key of the allow-list with a value within its bounds *)
Definition item_ok (kv : string * SummaryValue) : Prop :=
  normalize_summary_key kv.1 = Ok kv.1 ∧ normalize_summary_value kv.1 (Some kv.2) = Ok kv.2.

Lemma normalize_key_same k k' : normalize_summary_key k = Ok k' → k' = k.
Proof. unfold normalize_summary_key. intros H. guards. done. Qed.
Lemma normalize_value_same k v x : normalize_summary_value k v = Ok x → v = Some x.
Proof.
  destruct v as [[b|n|t]|]; cbn; [by intros [= <-]| | |done].
  - unfold normalize_summary_integer. intros H. guards. by subst.
  - unfold normalize_summary_text. intros H. guards. by subst.
Qed.

Lemma for_fold_items raw acc s : for_fold normalize_item raw acc = Ok s ↔
  ∃ items, raw = raw_of items ∧ Forall item_ok items ∧ s = acc ++ items.
Proof.
  revert acc. induction raw as [|[k v] raw IH]; intros acc; cbn [for_fold].
  - split; [intros [= <-]; exists []; rewrite app_nil_r; auto|]. intros ([|] & E & _ & ->); [by rewrite app_nil_r|done].
  - rewrite result_bind_ok. setoid_rewrite IH. split.
    + intros (acc' & Hi & items & -> & Hall & ->). unfold normalize_item in Hi. cbn in Hi.
      apply result_bind_ok in Hi as (k' & Hk & Hi). apply result_bind_ok in Hi as (x & Hx & Hi). injection Hi as <-.
      pose proof (normalize_key_same _ _ Hk) as ->. pose proof (normalize_value_same _ _ _ Hx) as ->.
      exists ((k, x) :: items). split; [done|]. split; [by constructor|]. by rewrite <- app_assoc.
    + intros (items & E & Hall & ->). destruct items as [|[k' x] items]; [done|]. injection E as -> -> ->.
      apply Forall_cons in Hall as [[Hk Hx] Hall]. cbn [fst snd] in Hk, Hx. exists (acc ++ [(k', x)]). split.
      * unfold normalize_item. cbn [fst snd]. rewrite Hk. cbn [mbind result_bind]. by rewrite Hx.
      * exists items. by rewrite <- app_assoc.
Qed.

Lemma length_raw_of s : length (raw_of s) = length s.
Proof. apply length_map. Qed.

Lemma normalize_summary_ok raw s : normalize_summary raw = Ok s ↔
  ∃ items, raw = raw_of items ∧ (length items ≤ MAX_SUMMARY_FIELDS)%nat ∧ Forall item_ok items ∧ s = sort_by fst items.
Proof.
  unfold normalize_summary. rewrite bind_unit_ok, raise_if_ok, bool_decide_eq_false, result_bind_ok. split.
  - intros (Hlen & items' & Hf & [= <-]). apply for_fold_items in Hf as (items & -> & Hall & ->).
    exists items. rewrite length_raw_of in Hlen. split; [done|]. split; [lia|done].
  - intros (items & -> & Hlen & Hall & ->). rewrite length_raw_of. split; [lia|]. exists items. split; [|done].
    apply for_fold_items. by exists items.
Qed.

(** A normalized summary *)
Definition normal (s : summary) : Prop := normalize_summary (raw_of s) = Ok s.

Lemma raw_of_inj s1 s2 : raw_of s1 = raw_of s2 → s1 = s2.
Proof.
  revert s2. induction s1 as [|[k v] s1 IH]; intros [|[k' v'] s2] E; [done..|]. injection E as -> -> E. f_equal. by apply IH.
Qed.

Lemma normal_ok s : normal s ↔ (length s ≤ MAX_SUMMARY_FIELDS)%nat ∧ Forall item_ok s ∧ sort_by fst s = s.
Proof.
  unfold normal. rewrite normalize_summary_ok. split.
  - intros (items & ->%raw_of_inj & ? & ? & ?). auto.
  - intros (? & ? & ?). exists s. auto.
Qed.

Lemma normalize_summary_normal raw s : normalize_summary raw = Ok s → normal s.
Proof.
  intros (items & -> & Hlen & Hall & ->)%normalize_summary_ok. apply normal_ok.
  split; [by rewrite sort_by_perm|]. split; [by rewrite sort_by_perm|]. apply sort_by_id, sort_by_sorted.
Qed.

(** * Created events *)
Lemma event_with_summary_id e : event_with_summary (oe_summary e) e = e.
Proof. by destruct e. Qed.

Lemma created_event_ok raw e e' : OutboxEnvelope_create raw e = Ok e' →
  genuine_event e' ∧ ∃ s, normalize_summary raw = Ok s ∧
    e' = event_with_identity (event_id_of e) (sha256_digest (event_material (event_with_summary s e))) (event_with_summary s e).
Proof.
  unfold OutboxEnvelope_create. intros (s & Hs & H)%result_bind_ok.
  set (e1 := event_with_identity (event_id_of (event_with_summary s e)) _ (event_with_summary s e)) in H.
  assert (oe_summary e1 = s) as Es by (by destruct e).
  assert (e' = e1) as ->.
  { revert H. unfold OutboxEnvelope_new. rewrite (normalize_summary_normal _ _ Hs). intros (_ & H)%bind_unit_ok.
    apply result_bind_ok in H as (s' & [= <-] & H). apply bind_unit_ok in H as [_ H]. apply bind_unit_ok in H as [_ H].
    injection H as <-. rewrite <- Es at 1. apply event_with_summary_id. }
  split; [unfold genuine_event; by rewrite Es|]. exists s. split; [done|]. by destruct e.
Qed.

Lemma create_event_total raw s e : normalize_summary raw = Ok s →
  Forall (λ b, b = true) [Identifier (oe_aggregate_type e); Identifier (oe_aggregate_id e); 1 <=? oe_sequence e;
    EventType (oe_event_type e); 1 <=? oe_authoritative_revision e; Digest (oe_payload_digest e); Digest (oe_aggregate_digest e)] →
  (oe_operation e = TombstoneOp ↔ oe_tombstone e ≠ None) → ∃ e', OutboxEnvelope_create raw e = Ok e'.
Proof.
  intros Hs He Ht. rewrite !Forall_cons in He. eexists. unfold OutboxEnvelope_create. rewrite Hs. cbn [mbind result_bind].
  unfold OutboxEnvelope_new. rewrite (normalize_summary_normal _ _ Hs).
  apply bind_unit_ok. split.
  { apply check_fields_ok. destruct e. cbn in He |- *. rewrite !Forall_cons. repeat split; try tauto; [|done].
    eapply derived_id_Identifier; [reflexivity|done|by_compute|cbn; lia]. }
  cbn [in_validator mbind result_bind]. apply bind_unit_ok. split.
  { apply check_fields_ok. destruct e. constructor; [apply canonical_digest_Digest|constructor]. }
  apply bind_unit_ok. split; [|reflexivity]. rewrite in_validator_ok. unfold identity_and_operation_are_exact. destruct e. cbn in Ht |- *.
  constraints. split; [apply bool_decide_eq_false; intros Hn; by apply Hn|]. split; [|apply bool_decide_eq_false; intros Hn; by apply Hn].
  apply bool_decide_eq_false. intros Hn. apply Hn. by apply bool_decide_ext.
Qed.

(** C30: A created event is what it says. Whatever [OutboxEnvelope.create]
    returns passes the validation of an envelope again, unchanged: its identity
    and digest derive from its content and its summary is the normalized
    summary, which normalizes to itself. Creation succeeds for well-formed
    fields and exactly the summaries of allow-listed keys and bounded scalars. *)
Theorem created_event_revalidates raw e :
  Forall (λ b, b = true) [Identifier (oe_aggregate_type e); Identifier (oe_aggregate_id e); 1 <=? oe_sequence e;
    EventType (oe_event_type e); 1 <=? oe_authoritative_revision e; Digest (oe_payload_digest e); Digest (oe_aggregate_digest e)] →
  (oe_operation e = TombstoneOp ↔ oe_tombstone e ≠ None) →
  ((∃ e', OutboxEnvelope_create raw e = Ok e') ↔
   ∃ items, raw = raw_of items ∧ (length items ≤ MAX_SUMMARY_FIELDS)%nat ∧ Forall item_ok items) ∧
  ∀ e', OutboxEnvelope_create raw e = Ok e' →
    OutboxEnvelope_new (raw_of (oe_summary e')) e' = Ok e' ∧ normalize_summary raw = Ok (oe_summary e') ∧
    oe_event_id e' = event_id_of e ∧ oe_event_digest e' = sha256_digest (event_material e').
Proof.
  intros He Ht. split.
  - split.
    + intros [e' (_ & s & (items & ? & ? & ? & _)%normalize_summary_ok & _)%created_event_ok]. by exists items.
    + intros (items & Hraw & Hlen & Hall).
      destruct (create_event_total raw (sort_by fst items) e) as [e' E]; [|done|done|by exists e'].
      apply normalize_summary_ok. by exists items.
  - intros e' (Hg & s & Hs & ->)%created_event_ok. split; [exact Hg|]. split; [rewrite Hs; by destruct e|]. by destruct e.
Qed.

(** * Observation promotion *)

(** A validated observation, whose summary is a dict *)
Definition genuine_observation (o : ObservationPromotion) : Prop :=
  ObservationPromotion_new (raw_of (ob_summary o)) o = Ok o ∧ NoDup (map fst (ob_summary o)).

Definition promotable (o : ObservationPromotion) (p : ObservationPromotionPolicy) (t : datetime) : Prop :=
  pp_enabled p = true ∧ ob_observation_type o ∈ pp_allowed_observation_types p ∧
  (pp_require_evidence_ref p = true → ob_evidence_ref o ≠ None) ∧
  0 ≤ t - ob_observed_at o ≤ pp_max_age_seconds p * MICROS ∧
  summary_get "policy_ref" (ob_summary o) ∈ [None; Some (SText (pp_policy_ref p))].

(** What is committed for an observation under a policy *)
Record promotes (o : ObservationPromotion) (p : ObservationPromotionPolicy) (n r : Z) (x : option Z)
    (m : AuthoritativeMutation) (e : OutboxEnvelope) : Prop := {
  pr_origin : am_origin m = GraphObservationPromotion;
  pr_aggregate : (am_aggregate_type m, am_aggregate_id m) = (ob_aggregate_type o, ob_aggregate_id o);
  pr_numbers : (am_sequence m, am_authoritative_revision m, am_expected_revision m) = (n, r, x);
  pr_digests : (am_change_digest m, am_aggregate_digest m) = (promotion_digest o p, ob_observation_digest o);
  pr_policy : ("policy_ref", SText (pp_policy_ref p)) ∈ am_summary m;
  pr_event : genuine_event e ∧ oe_event_type e = "observation.promoted";
  pr_matches : validate_commit_event m (Some e) = Ok () }.

Lemma summary_set_items key v s : Forall item_ok s → item_ok (key, v) → NoDup (map fst s) →
  Forall item_ok (summary_set key v s) ∧ NoDup (map fst (summary_set key v s)) ∧ (key, v) ∈ summary_set key v s.
Proof.
  intros Hs Hk Hnd. unfold summary_set. destruct (existsb _ s) eqn:E.
  - assert (map fst (map (λ kv, if String.eqb key kv.1 then (key, v) else kv) s) = map fst s) as Efst.
    { rewrite map_map. apply map_ext. intros [k x]. cbn. by destruct (String.eqb_spec key k). }
    rewrite Efst. split; [|split; [done|]].
    + apply Forall_map. eapply Forall_impl; [exact Hs|]. intros [k x] ?. cbn. by case_match.
    + apply existsb_exists in E as ([k x] & Hin & Heq). apply list_elem_of_In, in_map_iff. exists (k, x). by rewrite Heq.
  - split; [apply Forall_app; split; [done|by constructor]|]. split; [|set_solver]. rewrite map_app. apply NoDup_app. split; [done|]. split; [|apply NoDup_singleton].
    intros k Hin Hk'%list_elem_of_singleton. cbn in Hk'. subst. apply list_elem_of_fmap in Hin as ([k x] & -> & Hin).
    rewrite existsb_false in E. specialize (E _ Hin). cbn in E. by rewrite String.eqb_refl in E.
Qed.

Lemma dict_within s : Forall item_ok s → NoDup (map fst s) → (length s ≤ MAX_SUMMARY_FIELDS)%nat.
Proof.
  intros Hs Hnd. rewrite <- (length_map fst). trans (length ALLOWED_SUMMARY_KEYS); [|cbn; unfold MAX_SUMMARY_FIELDS; lia].
  apply submseteq_length, NoDup_submseteq; [done|]. intros k (kv & -> & Hin)%list_elem_of_fmap.
  rewrite Forall_forall in Hs. destruct (Hs _ Hin) as [Hk _]. unfold normalize_summary_key in Hk. by guards.
Qed.

Lemma policy_item_ok p : Identifier (pp_policy_ref p) = true → validate_reference (pp_policy_ref p) "policy_ref" = Ok () →
  item_ok ("policy_ref", SText (pp_policy_ref p)).
Proof.
  intros Hi Hr. split; [by_compute|]. cbn. unfold normalize_summary_text. unfold validate_reference in Hr.
  apply raise_if_ok, orb_false_iff in Hr as Hf. destruct Hf as [_ Hf]. apply class_then_upto in Hi as (c & l & E & Hc & Hl & Hlen).
  assert (str_len 1 MAX_SUMMARY_VALUE_LENGTH (pp_policy_ref p) = true) as ->.
  { apply str_len_chars. rewrite E. unfold MAX_SUMMARY_VALUE_LENGTH. cbn. lia. }
  assert (existsb is_control (chars (pp_policy_ref p)) = false) as ->.
  { apply existsb_false. intros a Ha. assert (identifier_char a = true) as Hid.
    { rewrite E in Ha. apply elem_of_cons in Ha as [->|Ha]; [unfold identifier_char, alnum; by rewrite Hc|].
      by eapply (proj1 (Forall_forall _ _) Hl). }
    revert Hid. by destruct a as [[] [] [] [] [] [] [] []]. }
  rewrite Hf. cbn. unfold validate_reference. by rewrite Hr.
Qed.

Lemma genuine_observation_ok o : genuine_observation o →
  Identifier (ob_aggregate_type o) = true ∧ Identifier (ob_aggregate_id o) = true ∧
  Digest (ob_observation_digest o) = true ∧ Forall item_ok (ob_summary o) ∧ NoDup (map fst (ob_summary o)).
Proof.
  intros [H Hnd]. unfold ObservationPromotion_new in H. apply bind_unit_ok in H as [Hf%check_fields_ok H].
  apply bind_unit_ok in H as [_ H]. apply bind_unit_ok in H as [_ H]. apply result_bind_ok in H as (s & Hs & H).
  rewrite !Forall_cons in Hf. cbn in Hf. destruct Hf as (_ & _ & ? & ? & ? & _). rewrite in_validator_ok in Hs.
  assert (s = ob_summary o) as -> by (injection H as <-; by destruct o).
  apply normal_ok in Hs as (_ & ? & _). done.
Qed.

Lemma create_promotion_total raw s t a n op r x cd ad : normalize_summary raw = Ok s →
  Identifier t = true → Identifier a = true → 1 ≤ n → 1 ≤ r → (∀ y, x = Some y → 0 ≤ y < r) → Digest cd = true → Digest ad = true →
  ∃ id, create_observation_promotion raw (mkMutation "" t a n op r x cd ad [] Authoritative) =
    Ok (mkMutation id t a n MutUpsert r x cd ad s GraphObservationPromotion).
Proof.
  intros Hs Ht Ha Hn Hr Hx Hcd Had.
  assert (Identifier (authoritative_mutation_id_for t a n MutUpsert cd) = true) as Hid.
  { eapply derived_id_Identifier; [reflexivity|done|by_compute|cbn; lia]. }
  assert (∀ i sm, mutation_id_of (mkMutation i t a n MutUpsert r x cd ad sm Authoritative) =
    authoritative_mutation_id_for t a n MutUpsert cd) as Eid by (intros; unfold mutation_id_of; exact eq_refl).
  revert Hid Eid. generalize (authoritative_mutation_id_for t a n MutUpsert cd). intros mid Hid Eid. exists mid.
  unfold create_observation_promotion. apply result_bind_ok.
  exists (mkMutation mid t a n MutUpsert r x cd ad s Authoritative). split; [|exact eq_refl].
  unfold AuthoritativeMutation_create. rewrite Hs. cbn [mbind result_bind]. rewrite Eid.
  cbn [mutation_with_id mutation_with_origin]. unfold AuthoritativeMutation_new.
  rewrite (normalize_summary_normal _ _ Hs). apply bind_unit_ok. split.
  { apply check_fields_ok. rewrite !Forall_cons. cbn. repeat split; try done; try (apply Z.leb_le; lia).
    destruct x as [y|]; [|done]. destruct (Hx y eq_refl). cbn. apply Z.leb_le. lia. }
  cbn [in_validator mbind result_bind mutation_with_summary]. apply bind_unit_ok. split; [|exact eq_refl]. rewrite in_validator_ok.
  unfold mutation_identity_is_exact. constraints. rewrite Eid. split; [apply bool_decide_eq_false; intros Hq; by apply Hq|].
  cbn. destruct x as [y|]; [|done]. destruct (Hx y eq_refl). apply Z.leb_gt. lia.
Qed.

(** An event with the fields of a forward mutation matches it. *)
Lemma event_matches m e : am_operation m = MutUpsert → oe_operation e = Upsert → oe_aggregate_type e = am_aggregate_type m →
  oe_aggregate_id e = am_aggregate_id m → oe_sequence e = am_sequence m → oe_authoritative_revision e = am_authoritative_revision m →
  oe_payload_digest e = am_change_digest m → oe_aggregate_digest e = am_aggregate_digest m → oe_summary e = am_summary m →
  validate_event_matches_mutation m e = Ok () ∧ validate_commit_event m (Some e) = Ok ().
Proof.
  intros Eo Eop E1 E2 E3 E4 E5 E6 E7. assert (validate_event_matches_mutation m e = Ok ()) as H.
  { unfold validate_event_matches_mutation. rewrite Eo, Eop, E1, E2, E3, E4, E5, E6, E7.
    constraints. rewrite !bool_decide_eq_false_2 by tauto. repeat split. apply negb_false_iff. by apply bool_decide_eq_true. }
  split; [done|]. unfold validate_commit_event. by rewrite Eo.
Qed.

Lemma promotion_total o p n r x s t : genuine_observation o → 1 ≤ n → 1 ≤ r → (∀ y, x = Some y → 0 ≤ y < r) →
  Forall item_ok s → NoDup (map fst s) → ("policy_ref", SText (pp_policy_ref p)) ∈ s →
  ∃ m e, promotion_mutation o p n r x s = Ok m ∧ promotion_event m t = Ok e ∧
    validate_event_matches_mutation m e = Ok () ∧ promotes o p n r x m e.
Proof.
  intros (Ht & Ha & Hd & _)%genuine_observation_ok Hn Hr Hx Hs Hnd Hpol.
  assert (normalize_summary (raw_of s) = Ok (sort_by fst s)) as Hns.
  { apply normalize_summary_ok. exists s. split; [done|]. split; [by apply dict_within|done]. }
  destruct (create_promotion_total (raw_of s) (sort_by fst s) (ob_aggregate_type o) (ob_aggregate_id o) n MutUpsert r x
    (promotion_digest o p) (ob_observation_digest o)) as [mid Em]; try done; [apply canonical_digest_Digest|].
  eexists. destruct (create_event_total (raw_of (sort_by fst s)) (sort_by fst s)
    (mkEnvelope "" (ob_aggregate_type o) (ob_aggregate_id o) n "observation.promoted" Upsert r (promotion_digest o p)
       (ob_observation_digest o) [] t None "")) as [e Ee].
  - by eapply normalize_summary_normal.
  - rewrite !Forall_cons, Forall_nil. cbn [oe_aggregate_type oe_aggregate_id oe_sequence oe_event_type oe_authoritative_revision oe_payload_digest oe_aggregate_digest].
    split; [done|]. split; [done|]. split; [by apply Z.leb_le|]. split; [by_compute|]. split; [by apply Z.leb_le|].
    split; [apply canonical_digest_Digest|]. by split.
  - cbn. by split.
  - exists e. split; [exact Em|]. split; [exact Ee|].
    apply created_event_ok in Ee as (Hg & s' & Hs' & Ee). rewrite (normalize_summary_normal _ _ Hns) in Hs'. injection Hs' as <-.
    cbn [event_with_summary event_with_identity] in Ee.
    edestruct event_matches as [H1 H2]; [..|split; [exact H1|]]; try (by subst e). split; try done; [|by subst e].
    cbn [am_summary]. by apply elem_of_sort_by.
Qed.

(** ** The decision *)
Section promotion.
Context {W : Type} (exec : ∀ o : port_op, M W (port_resp o)).

Lemma run_pure_bind {A B} (x : result A) (k : A → proc B) w :
  run exec (pure x ≫= k) w = match x with Ok a => run exec (k a) w | Raise e => (Raise e, w) end.
Proof. by destruct x. Qed.
Lemma run_raise_if_bind {B} (b : bool) e (k : () → proc B) w :
  run exec (raise_if b e ≫= k) w = if b then (Raise e, w) else run exec (k ()) w.
Proof. by destruct b. Qed.

Definition admits (o : ObservationPromotion) (p : ObservationPromotionPolicy) : Prop :=
  pp_enabled p = true ∧ ob_observation_type o ∈ pp_allowed_observation_types p ∧
  (pp_require_evidence_ref p = true → ob_evidence_ref o ≠ None).

Lemma promotion_policy_cases o p : (admits o p ∧ validate_promotion_policy o p = Ok ()) ∨
  (¬ admits o p ∧ ∃ code, validate_promotion_policy o p = Raise (ProjectionContractError code)).
Proof.
  unfold admits, validate_promotion_policy, raise_if.
  destruct (pp_enabled p); [|right; split; [by intros [? _]|by eexists]].
  destruct (decide (ob_observation_type o ∈ pp_allowed_observation_types p)) as [Ht|Ht].
  2:{ right. split; [by intros (_ & ? & _)|]. rewrite (bool_decide_eq_true_2 (_ ∉ _)) by done. by eexists. }
  rewrite (bool_decide_eq_false_2 (_ ∉ _)) by tauto.
  destruct (pp_require_evidence_ref p); [|by left].
  case_bool_decide as Hev; [right; split; [intros (_ & _ & Hx); by apply Hx|by eexists]|by left].
Qed.

Lemma promotion_time_cases o p t w (k : datetime → proc AtomicCommitReceipt) :
  run exec (resolve_promotion_time o p (Some t) ≫= k) w =
  if decide (0 ≤ t - ob_observed_at o ≤ pp_max_age_seconds p * MICROS) then run exec (k t) w
  else (Raise (ProjectionContractError "observation_is_stale"), w).
Proof.
  change (resolve_promotion_time o p (Some t)) with
    (_ ← raise_if ((t - ob_observed_at o <? 0) || (pp_max_age_seconds p * MICROS <? t - ob_observed_at o))
       (ProjectionContractError "observation_is_stale"); mret t : proc datetime).
  case_decide as Hd.
  - rewrite (proj2 (orb_false_iff _ _)); [done|]. split; apply Z.ltb_ge; lia.
  - rewrite (proj2 (orb_true_iff _ _)); [done|]. rewrite !Z.ltb_lt. lia.
Qed.

Lemma promotion_summary_cases o p : reconciled_promotion_summary o p =
  if decide (summary_get "policy_ref" (ob_summary o) ∈ [None; Some (SText (pp_policy_ref p))])
  then Ok (summary_set "policy_ref" (SText (pp_policy_ref p)) (ob_summary o))
  else Raise (ProjectionContractError "observation_policy_reference_conflict").
Proof.
  unfold reconciled_promotion_summary. destruct (summary_get _ _) as [v|]; [|by rewrite decide_True by set_solver].
  destruct (decide (v = SText (pp_policy_ref p))) as [->|Hv].
  - rewrite bool_decide_eq_false_2, decide_True by first [set_solver|tauto]. done.
  - rewrite bool_decide_eq_true_2, decide_False by first [done|set_solver]. done.
Qed.

(** C29: A graph observation reaches the authority exactly under its policy. For
    a validated observation and an opaque policy reference, promotion at an
    instant either commits - one validated change whose mutation is marked as a
    promotion, binds observation, evidence and policy in its digest and records
    the policy in its summary - or, exactly when the policy is disabled, does
    not allow the type, misses required evidence, the observation is too old or
    from the future, or names another policy, raises before any port is called. *)
Theorem promotion_exact o p n r x t w :
  genuine_observation o → Identifier (pp_policy_ref p) = true → validate_reference (pp_policy_ref p) "policy_ref" = Ok () →
  1 ≤ n → 1 ≤ r → (∀ y, x = Some y → 0 ≤ y < r) →
  (promotable o p t ∧ ∃ m e, promotes o p n r x m e ∧
     run exec (promote_graph_observation o p n r x (Some t)) w = run exec (commit_validated_change m (Some e)) w) ∨
  (¬ promotable o p t ∧ ∃ code, run exec (promote_graph_observation o p n r x (Some t)) w = (Raise (ProjectionContractError code), w)).
Proof.
  intros Ho Hi Href Hn Hr Hx. unfold promote_graph_observation, promotable. rewrite run_pure_bind.
  destruct (promotion_policy_cases o p) as [[(? & ? & ?) ->]|[Hn' [code ->]]]; [|right; split; [|by exists code]].
  2:{ intros (? & ? & ? & _). by apply Hn'. }
  rewrite promotion_time_cases. case_decide as Hage; [|right; split; [tauto|by eexists]].
  rewrite run_pure_bind, promotion_summary_cases. case_decide as Hsum; [|right; split; [tauto|by eexists]].
  left. split; [tauto|]. pose proof (genuine_observation_ok o Ho) as (_ & _ & _ & Hs & Hnd).
  destruct (summary_set_items "policy_ref" (SText (pp_policy_ref p)) (ob_summary o) Hs (policy_item_ok p Hi Href) Hnd) as (Hs' & Hnd' & Hin).
  destruct (promotion_total o p n r x _ t Ho Hn Hr Hx Hs' Hnd' Hin) as (m & e & Em & Ee & Hm & Hp).
  exists m, e. split; [done|]. by rewrite run_pure_bind, Em, run_pure_bind, Ee, run_pure_bind, Hm.
Qed.
End promotion.
