(* ===== verification/ProjectionExample.v ===== *)
(** In-memory adapters and the instances of the projection theorems.

    [Memory] is a world after the fixtures of
    [tests/control_plane/projection/test_projection_contract.py]: an outbox, a
    checkpoint store with compare-and-set, a graph that is idempotent by event
    identity. [exec] works, [flaky] may fail at every call before or after its
    effect; both meet [ProjectionContract]. *)
From S2P Require Export ProjectionPromotion.
From Stdlib Require Import Lia.
Local Open Scope Z_scope.

Record Memory := mkMemory {
  me_outbox : gmap aggregate (list OutboxEnvelope); me_graph : gmap aggregate (list OutboxEnvelope);
  me_checkpoints : gmap ProjectionScope ProjectionCheckpoint; me_cleaned : list OutboxEnvelope;
  me_drift : list DriftRecord; me_clock : datetime }.

#[export] Instance genuine_event_dec e : Decision (genuine_event e).
Proof. unfold genuine_event. apply _. Defined.

(** The stream of an aggregate ends before anything that is not its next event. *)
Fixpoint stream (a : aggregate) (n : nat) (l : list OutboxEnvelope) : list OutboxEnvelope :=
  match l with
  | [] => []
  | e :: l => if decide (oe_sequence e = Z.of_nat (S n) ∧ event_aggregate e = a ∧ genuine_event e)
              then e :: stream a (S n) l else []
  end.

#[export] Instance memory_views : ProjectionViews Memory := {|
  outbox w a := stream a 0 (default [] (me_outbox w !! a));
  projected w a := default [] (me_graph w !! a);
  stored w s := me_checkpoints w !! s |}.

Definition with_outbox (f : gmap aggregate (list OutboxEnvelope) → gmap aggregate (list OutboxEnvelope)) (w : Memory) : Memory :=
  let '(mkMemory o g c cl d t) := w in mkMemory (f o) g c cl d t.
Definition with_graph (f : gmap aggregate (list OutboxEnvelope) → gmap aggregate (list OutboxEnvelope)) (w : Memory) : Memory :=
  let '(mkMemory o g c cl d t) := w in mkMemory o (f g) c cl d t.
Definition with_checkpoints (f : gmap ProjectionScope ProjectionCheckpoint → gmap ProjectionScope ProjectionCheckpoint) (w : Memory) : Memory :=
  let '(mkMemory o g c cl d t) := w in mkMemory o g (f c) cl d t.

Definition commit_receipt (m : AuthoritativeMutation) (e : option OutboxEnvelope) : AtomicCommitReceipt :=
  mkCommitReceipt (am_mutation_id m) (am_aggregate_type m) (am_aggregate_id m) (am_authoritative_revision m) (am_sequence m)
    (oe_event_id <$> e) true false.

Definition exec (o : port_op) : M Memory (port_resp o) :=
  match o return M Memory (port_resp o) with
  | ReadAfter s n l => λ w, (Ok (map Some (take (Z.to_nat l) (drop (Z.to_nat n) (outbox w (scope_aggregate s))))), w)
  | ReadTombstonesBefore s b l => λ w,
      (Ok (map Some (take (Z.to_nat l) (filter (λ e, oe_operation e = TombstoneOp ∧ oe_sequence e < b) (outbox w (scope_aggregate s))))), w)
  | ReadCheckpoint s => λ w, (Ok (stored w s), w)
  | SaveCheckpoint s x c => λ w,
      if bool_decide (stored w s ≠ x) then (Raise (CheckpointConflict "checkpoint_cas"), w)
      else if cp_fence_token c <? fence_of x then (Raise (CheckpointConflict "checkpoint_fence"), w)
      else (Ok (), with_checkpoints <[s := c]> w)
  | ResetCheckpoint s _ => λ w, (Ok (), with_checkpoints (delete s) w)
  | ApplyEvent e _ => λ w,
      if bool_decide (oe_event_id e ∈ oe_event_id <$> projected w (event_aggregate e))
      then (Ok (Some (mkGraphReceipt (oe_event_id e) false true)), w)
      else (Ok (Some (mkGraphReceipt (oe_event_id e) true false)),
            with_graph <[event_aggregate e := projected w (event_aggregate e) ++ [e]]> w)
  | ResetProjection s _ => λ w, (Ok (), with_graph (delete (scope_aggregate s)) w)
  | CleanupTombstone e _ => λ w, (Ok (), let '(mkMemory o g c cl d t) := w in mkMemory o g c (cl ++ [e]) d t)
  | CommitAuthorityAndOutbox m e => λ w,
      (Ok (commit_receipt m e),
       match e with
       | Some e => with_outbox (λ o, <[event_aggregate e := default [] (o !! event_aggregate e) ++ [e]]> o) w
       | None => w
       end)
  | RecordDrift d => λ w, (Ok (), let '(mkMemory o g c cl ds t) := w in mkMemory o g c cl (ds ++ [d]) t)
  | Now => λ w, (Ok (me_clock w), w)
  end.

Definition unreachable : pyexn := PyExn ["ConnectionError"; "OSError"] "unreachable" "".
(** Every call may fail, before its effect or after it. *)
Definition flaky (o : port_op) (w : Memory) (r : result (port_resp o)) (w' : Memory) : Prop :=
  exec o w = (r, w') ∨ (r = Raise unreachable ∧ (w' = w ∨ w' = (exec o w).2)).

Lemma stream_lookup a n l i e : stream a n l !! i = Some e →
  oe_sequence e = Z.of_nat (n + S i) ∧ event_aggregate e = a ∧ genuine_event e.
Proof.
  revert n i. induction l as [|x l IH]; intros n i; cbn; [done|]. case_decide as Hx; [|done].
  destruct i as [|i]; cbn; [intros [= <-]; destruct Hx as (? & ? & ?); split; [lia|done]|].
  intros (? & ? & ?)%IH. split; [lia|done].
Qed.
Lemma stream_app a n l l' : stream a n l `prefix_of` stream a n (l ++ l').
Proof. revert n. induction l as [|x l IH]; intros n; cbn; [apply prefix_nil|]. case_decide; [by apply prefix_cons|done]. Qed.

Lemma elem_of_window {A} (x : A) n k l : x ∈ take n (drop k l) → x ∈ l.
Proof. intros (i & Hi & _)%elem_of_take. rewrite lookup_drop in Hi. by eapply list_elem_of_lookup_2. Qed.

Lemma same_views_refl (w : Memory) : same_views w w.
Proof. by split. Qed.

Lemma flaky_cases o w r w' : flaky o w r w' →
  (w' = w ∧ r = Raise unreachable) ∨ (w' = (exec o w).2 ∧ (r = (exec o w).1 ∨ r = Raise unreachable)).
Proof. intros [E|(-> & [->| ->])]; [rewrite E; right; auto|by left|right; auto]. Qed.

Ltac flaky_inv H :=
  let E := fresh "E" in
  apply flaky_cases in H as [[-> ->]|[-> E]].
Ltac flaky_ok H :=
  let E := fresh "E" in
  apply flaky_cases in H as [[_ E]|[-> [E|E]]]; [discriminate E| |discriminate E].

Lemma with_graph_views f w : outbox (with_graph f w) = outbox w ∧ stored (with_graph f w) = stored w ∧
  ∀ a, projected (with_graph f w) a = default [] (f (me_graph w) !! a).
Proof. by destruct w. Qed.
Lemma with_checkpoints_views f w : outbox (with_checkpoints f w) = outbox w ∧ projected (with_checkpoints f w) = projected w ∧
  ∀ s, stored (with_checkpoints f w) s = f (me_checkpoints w) !! s.
Proof. by destruct w. Qed.

Lemma flaky_apply e f w r w' : flaky (ApplyEvent e f) w r w' →
  same_outbox w w' ∧ same_stored w w' ∧ (same_projected w w' ∨ absorbs w e w') ∧
  ∀ g, r = Ok (Some g) → gr_event_id g = oe_event_id e → gr_applied g || gr_replayed g = true →
    oe_event_id e ∈ oe_event_id <$> projected w' (event_aggregate e).
Proof.
  intros H. flaky_inv H; [split; [done|]; split; [done|]; split; [by left|done]|].
  cbn [exec] in *. case_bool_decide as Hin.
  - split; [done|]. split; [done|]. split; [by left|done].
  - cbn [fst snd] in *.
    set (g' := <[event_aggregate e := projected w (event_aggregate e) ++ [e]]>).
    destruct (with_graph_views g' w) as (Ho & Hs & Hp). assert (projected (with_graph g' w) (event_aggregate e) = projected w (event_aggregate e) ++ [e]) as Ea.
    { rewrite Hp. unfold g'. by rewrite lookup_insert_eq. }
    split; [intros a; by rewrite Ho|]. split; [intros s; by rewrite Hs|]. split.
    + right. split; [done|]. split; [done|]. intros a Ha. rewrite Hp. unfold g'. by rewrite lookup_insert_ne.
    + intros _ _ _ _. rewrite Ea, fmap_app. set_solver.
Qed.

Lemma flaky_save s expected c w r w' : flaky (SaveCheckpoint s expected c) w r w' →
  same_outbox w w' ∧ same_projected w w' ∧
  ((r ≠ Ok () ∧ same_stored w w') ∨ (stored w s = expected ∧ fence_of expected ≤ cp_fence_token c ∧ replaces w s (Some c) w')).
Proof.
  intros H. flaky_inv H; [split; [done|]; split; [done|]; by left|].
  cbn [exec] in *. destruct (decide (stored w s = expected)) as [Heq|Hne]; [rewrite bool_decide_eq_false_2 in * by tauto|rewrite bool_decide_eq_true_2 in * by done].
  2:{ cbn in *; split; [done|]; split; [done|]; left; split; [naive_solver|done]. }
  destruct (_ <? _) eqn:Ef; [cbn in *; split; [done|]; split; [done|]; left; split; [naive_solver|done]|]. guards.
  cbn [fst snd] in *. destruct (with_checkpoints_views <[s:=c]> w) as (Ho & Hp & Hs).
  split; [intros a; by rewrite Ho|]. split; [intros a; by rewrite Hp|]. right. split; [done|]. split; [done|].
  split; [rewrite Hs; apply lookup_insert_eq|]. intros s' Hs'. rewrite Hs. by apply lookup_insert_ne.
Qed.

#[export] Instance flaky_contract : ProjectionContract Memory flaky.
Proof.
  split.
  - intros w a i e (-> & ? & ?)%stream_lookup. done.
  - intros o w r w' Ho H. flaky_inv H; [done|]. destruct o; try done; by destruct w.
  - intros s n l w evs w' e H He _. flaky_ok H. injection E as ->.
    apply list_elem_of_fmap in He as (e' & [= <-] & He). by eapply elem_of_window.
  - intros s n l w evs w' e H He. flaky_ok H. injection E as ->.
    apply list_elem_of_fmap in He as (e' & [= <-] & He).
    apply (elem_of_window _ _ 0) in He. by apply list_elem_of_filter in He as [_ ?].
  - intros s w c w' H. flaky_ok H. by injection E.
  - apply flaky_save.
  - apply flaky_apply.
  - intros m e w r w' H. flaky_inv H; [done|]. destruct w as [o g c cl d t], e as [e|]; [|done].
    split; [|done]. intros a. cbn. destruct (decide (a = event_aggregate e)) as [->|Ha];
      [rewrite lookup_insert_eq; apply stream_app|by rewrite lookup_insert_ne].
  - intros s f w r w' H. flaky_inv H; [split; [done|]; split; [done|]; by left|].
    cbn [exec snd] in *. destruct (with_checkpoints_views (delete s) w) as (Ho & Hp & Hs).
    split; [intros a; by rewrite Ho|]. split; [intros a; by rewrite Hp|]. right. split; [rewrite Hs; apply lookup_delete_eq|].
    intros s' Hs'. rewrite Hs. by apply lookup_delete_ne.
  - intros s f w r w' H. flaky_inv H; [split; [done|]; split; [done|]; by left|].
    cbn [exec snd] in *. destruct (with_graph_views (delete (scope_aggregate s)) w) as (Ho & Hs & Hp).
    split; [intros a; by rewrite Ho|]. split; [intros s'; by rewrite Hs|]. right. split; [rewrite Hp; by rewrite lookup_delete_eq|].
    intros a Ha. rewrite Hp. by rewrite lookup_delete_ne.
Qed.

(** Fewer behaviours meet the contract too. *)
Lemma contract_sub (handle : ∀ o : port_op, Memory → result (port_resp o) → Memory → Prop) :
  (∀ o w r w', handle o w r w' → flaky o w r w') → ProjectionContract Memory handle.
Proof.
  intros Hsub. split.
  - apply (outbox_keyed (handle := flaky)).
  - intros o w r w' Ho H. by eapply (passive_views (handle := flaky) o); [|apply Hsub].
  - intros s n l w evs w' e H%Hsub. by apply (read_after_law (handle := flaky) s n l w evs w').
  - intros s n l w evs w' e H%Hsub. by apply (read_tombstones_law (handle := flaky) s n l w evs w').
  - intros s w c w' H%Hsub. by apply (read_checkpoint_law (handle := flaky) s w c w').
  - intros s x c w r w' H%Hsub. by apply (save_law (handle := flaky) s x c w r w').
  - intros e f w r w' H%Hsub. by apply (apply_law (handle := flaky) e f w r w').
  - intros m e w r w' H%Hsub. by apply (commit_law (handle := flaky) m e w r w').
  - intros s f w r w' H%Hsub. by apply (reset_checkpoint_law (handle := flaky) s f w r w').
  - intros s f w r w' H%Hsub. by apply (reset_projection_law (handle := flaky) s f w r w').
Qed.

#[export] Instance exec_contract : ProjectionContract Memory (λ o w r w', exec o w = (r, w')).
Proof. apply contract_sub. intros o w r w' H. by left. Qed.

#[export] Instance exec_works : WorkingAdapters Memory exec.
Proof.
  split.
  - intros s w. eauto.
  - intros s n l w _ _. eauto.
  - intros e f w. cbn. case_bool_decide; eexists _, _; done.
  - intros s x c w Hx Hf. cbn. rewrite bool_decide_eq_false_2 by tauto. rewrite (proj2 (Z.ltb_ge _ _)) by done. eauto.
  - eauto.
  - eauto.
Qed.

(** * Schedules

    A turn lets the [i]-th program of the pool make one call, which works, fails
    without an effect or fails after it. *)
Inductive luck := Works | FailsBefore | FailsAfter.
Definition outcome_of (l : luck) (o : port_op) (w : Memory) : result (port_resp o) * Memory :=
  match l with Works => exec o w | FailsBefore => (Raise unreachable, w) | FailsAfter => (Raise unreachable, (exec o w).2) end.
Definition turn (c : list (proc ()) * Memory) (t : nat * luck) : list (proc ()) * Memory :=
  match c.1 !! t.1 with
  | Some (Call o k) => let '(r, w') := outcome_of t.2 o c.2 in (<[t.1 := k r]> c.1, w')
  | _ => c
  end.
Definition turns (ts : list (nat * luck)) (c : list (proc ()) * Memory) : list (proc ()) * Memory := fold_left turn ts c.
Definition start (js : list job) (w : Memory) : list (proc ()) * Memory := (map job_program js, w).
(** The call that a program is about to make *)
Definition next_call (c : list (proc ()) * Memory) (i : nat) : option port_op :=
  match c.1 !! i with Some (Call o _) => Some o | _ => None end.

Local Notation step := (pool_step flaky is_job).

Lemma turn_step c t : rtc step c (turn c t).
Proof.
  unfold turn. destruct c as [ps w], t as [i l]; cbn. destruct (ps !! i) as [[|o k]|] eqn:E; [done| |done].
  destruct (outcome_of l o w) as [r w'] eqn:Eo. apply rtc_once. rewrite <- (take_drop_middle ps i (Call o k)) at 1 by done.
  rewrite insert_take_drop by (by eapply lookup_lt_Some). constructor.
  destruct l; cbn in Eo; [by left|right; simplify_eq; auto..].
Qed.
Lemma turns_reachable ts c : rtc step c (turns ts c).
Proof. revert c. induction ts as [|t ts IH]; intros c; [done|]. cbn. by etrans; [apply turn_step|]. Qed.
Lemma start_reachable js w : rtc step ([], w) (start js w).
Proof. induction js as [|j js IH]; [done|]. etrans; [exact IH|]. apply rtc_once. constructor. by exists j. Qed.
Lemma schedule_reachable ts js w : rtc step ([], w) (turns ts (start js w)).
Proof. etrans; [apply start_reachable|apply turns_reachable]. Qed.
Lemma schedules_reachable ts1 ts2 js w : rtc step ([], w) (turns ts2 (turns ts1 (start js w))).
Proof. etrans; [apply schedule_reachable|apply turns_reachable]. Qed.
Lemma next_call_elem c i o : next_call c i = Some o → ∃ k, Call o k ∈ c.1.
Proof.
  unfold next_call. destruct (c.1 !! i) as [[|o' k]|] eqn:E; [done| |done]. intros [= <-]. exists k. by eapply list_elem_of_lookup_2.
Qed.

(** Nothing has been projected. *)
Definition fresh (o : gmap aggregate (list OutboxEnvelope)) : Memory := mkMemory o ∅ ∅ [] [] 0.
Lemma fresh_ok o : world_ok (fresh o).
Proof. split; [intros a _; apply prefix_nil|done]. Qed.

(** * A document that is written twice and deleted *)
Module ProjectionExample.
Definition digest (s : string) : string := Eval vm_compute in sha256_digest (JStr "document").
Definition created {A} (x : result A) (default : A) : A := match x with Ok y => y | Raise _ => default end.

Definition blank (n : Z) (op : EventOperation) (t : option Tombstone) : OutboxEnvelope :=
  mkEnvelope "" "document" "doc:1" n "document.changed" op n (digest "") (digest "") [] (n * MICROS) t "".
Definition raw : raw_summary := [("status", Some (SText "ready")); ("count", Some (SInt 2)); ("active", Some (SBool true))].
Definition event_at (n : Z) (op : EventOperation) (t : option Tombstone) : OutboxEnvelope :=
  created (OutboxEnvelope_create raw (blank n op t)) (blank n op t).
Definition written : list OutboxEnvelope := Eval vm_compute in [event_at 1 Upsert None; event_at 2 Upsert None].
Definition deleted : OutboxEnvelope := Eval vm_compute in
  event_at 3 TombstoneOp (Some (mkTombstone "user_request" (digest "") (3 * MICROS))).
Definition history : list OutboxEnvelope := Eval vm_compute in written ++ [deleted].
Definition deletion : AuthoritativeMutation := Eval vm_compute in
  let m := mkMutation "" "document" "doc:1" 3 MutDelete 3 (Some 2) (digest "") (digest "") (oe_summary deleted) Authoritative in
  created (AuthoritativeMutation_create raw m) m.

Definition scope : ProjectionScope := mkScope "document" "doc:1" None.
Definition agg : aggregate := ("document", "doc:1").
Definition worker : string := "projector:arbora".
Definition before : Memory := fresh {[agg := written]}.
Definition world : Memory := fresh {[agg := history]}.

(** ** Interleaved workers

    Two workers of one projector meet on the scope: the second finds the first
    event in the graph already; the save of the first is lost after its effect,
    so the second conflicts. The deletion commits, a third worker goes on from
    the cursor, and a cleanup follows it. *)
Definition jobs : list job :=
  [ProjectJob worker [scope] 1 256; ProjectJob worker [scope] 1 256; CommitJob deletion (Some deleted);
   ProjectJob worker [scope] 2 256; CleanupJob worker true scope 2 4 256].
Definition meeting : list (nat * luck) :=
  [(0%nat, Works); (1%nat, Works); (0%nat, Works); (1%nat, Works); (0%nat, Works); (1%nat, Works);
   (0%nat, FailsAfter); (1%nat, Works); (0%nat, Works); (0%nat, FailsBefore)].
Definition catching_up : list (nat * luck) :=
  (2%nat, Works) :: repeat (3%nat, Works) 6 ++ [(4%nat, Works); (4%nat, Works)].
Definition midway : list (proc ()) * Memory := turns meeting (start jobs before).
Definition final : list (proc ()) * Memory := turns catching_up (turns meeting (start jobs before)).

Lemma midway_reachable : rtc step ([], before) midway.
Proof. exact (schedule_reachable meeting jobs before). Qed.
Lemma final_reachable : rtc step ([], before) final.
Proof. exact (schedules_reachable meeting catching_up jobs before). Qed.
Lemma midway_final : rtc step midway final.
Proof. exact (turns_reachable catching_up (turns meeting (start jobs before))). Qed.

Definition shown (c : list (proc ()) * Memory) :=
  (map oe_sequence (projected c.2 agg), cp_last_sequence <$> stored c.2 scope, cp_fence_token <$> stored c.2 scope,
   map (λ i, match next_call c i with Some (CleanupTombstone e f) => Some (oe_sequence e, f) | _ => None end) (seq 0 5)).

Example shown_midway : shown midway = ([1], Some 1, Some 1, [None; None; None; None; None]).
Proof. by_compute. Qed.

Lemma projection_in_order_witness :
  rtc step ([], before) final ∧ map oe_sequence (projected final.2 agg) = [1; 2; 3] ∧
  (identity_collision (outbox final.2 agg) ∨
   (projected final.2 agg `prefix_of` outbox final.2 agg ∧
    ∀ s c, scope_aggregate s = agg → stored final.2 s = Some c →
      cp_scope c = s ∧ cp_last_sequence c ≤ Z.of_nat (length (projected final.2 agg)) ∧
      ∃ e, outbox final.2 agg !! Z.to_nat (cp_last_sequence c - 1) = Some e ∧ names_event c e)).
Proof.
  split; [exact final_reachable|]. split; [by_compute|].
  apply (projection_in_order (handle := flaky) before final.1 final.2 agg); [apply fresh_ok|].
  rewrite <- surjective_pairing. exact final_reachable.
Defined.

Lemma checkpoints_never_regress_witness : ∃ c,
  stored midway.2 scope = Some c ∧ cp_last_sequence c = 1 ∧
  (∃ c', stored final.2 scope = Some c' ∧ at_least c c') ∧ projected midway.2 agg `prefix_of` projected final.2 agg.
Proof.
  destruct (stored midway.2 scope) as [c|] eqn:E; [|by exfalso; revert E; apply (bool_decide_unpack _); vm_compute].
  exists c. split; [done|]. split.
  { enough (cp_last_sequence <$> stored midway.2 scope = Some 1) as H by (rewrite E in H; by injection H). by_compute. }
  apply (checkpoints_never_regress (handle := flaky) before midway.1 midway.2 final.1 final.2 scope c); [apply fresh_ok|..|done];
    rewrite <- !surjective_pairing; [exact midway_reachable|exact midway_final].
Defined.

Lemma calls_are_safe_witness : ∃ k,
  Call (CleanupTombstone deleted 2) k ∈ final.1 ∧ allowed_call (CleanupTombstone deleted 2) final.2 ∧
  (identity_collision (outbox final.2 agg) ∨ deleted ∈ projected final.2 agg).
Proof.
  assert (next_call final 4 = Some (CleanupTombstone deleted 2)) as E by (vm_compute; exact eq_refl).
  destruct (next_call_elem final 4 _ E) as [k Hk]. exists k. split; [done|].
  destruct (calls_are_safe (handle := flaky) before final.1 final.2 (CleanupTombstone deleted 2) k) as [Ha Hs];
    [apply fresh_ok|rewrite <- surjective_pairing; exact final_reachable|exact Hk|].
  split; [exact Ha|]. by apply (Hs deleted 2).
Defined.

(** ** Progress *)
Lemma world_ready : ready worker scope 1 world.
Proof. split; [apply fresh_ok|done]. Qed.

(** Three events in batches of two *)
Lemma projection_catches_up_witness : ∃ b w',
  run exec (drain worker scope 1 2 4) world = (Ok b, w') ∧ br_has_more b = false ∧ br_status b ∈ [BComplete; BApplied] ∧
  same_outbox world w' ∧ cursor scope w' = outbox_length scope world ∧
  (identity_collision (outbox world agg) ∨ projected w' agg = outbox world agg).
Proof. apply (projection_catches_up exec worker scope 1 ltac:(by_compute) ltac:(lia) 2 4 world world_ready); by_compute. Defined.

(** The graph holds the deletion first, and the cursor is another's. *)
Definition stray : ProjectionCheckpoint := mkCheckpoint "" "nobody" scope 7 None None 9 "".
Definition damaged : Memory := mkMemory {[agg := history]} {[agg := [deleted]]} {[scope := stray]} [] [] 0.
Lemma damaged_elsewhere : ok_elsewhere scope damaged.
Proof.
  split.
  - intros a Ha _. change (projected damaged a) with (default [] (({[agg := [deleted]]} : gmap aggregate _) !! a)).
    rewrite lookup_singleton_ne by (intros E; by apply Ha). apply prefix_nil.
  - intros s c Hs. change (stored damaged s) with (({[scope := stray]} : gmap ProjectionScope _) !! s).
    by rewrite lookup_singleton_ne by (intros E; by apply Hs).
Qed.

Lemma rebuild_restores_witness : ∃ b w',
  run exec (rebuild_and_drain worker scope 1 2 4) damaged = (Ok b, w') ∧ br_has_more b = false ∧ world_ok w' ∧
  cursor scope w' = outbox_length scope damaged ∧
  (identity_collision (outbox damaged agg) ∨ projected w' agg = outbox damaged agg).
Proof. apply (rebuild_restores exec worker scope 1 ltac:(by_compute) ltac:(lia) 2 4 damaged damaged_elsewhere); by_compute. Defined.

(** ** Creation and promotion *)
Lemma created_event_revalidates_witness : ∃ e',
  OutboxEnvelope_create raw (blank 1 Upsert None) = Ok e' ∧ OutboxEnvelope_new (raw_of (oe_summary e')) e' = Ok e' ∧
  oe_summary e' = [("active", SBool true); ("count", SInt 2); ("status", SText "ready")].
Proof.
  destruct (created_event_revalidates raw (blank 1 Upsert None)) as [Hiff Hok]; [by_compute|by_compute|].
  destruct (proj2 Hiff) as [e' E].
  { exists [("status", SText "ready"); ("count", SInt 2); ("active", SBool true)]. split; [done|]. split; [by_compute|].
    repeat constructor; vm_compute; exact eq_refl. }
  exists e'. destruct (Hok e' E) as (H1 & H2 & _). split; [exact E|]. split; [exact H1|].
  enough (normalize_summary raw = Ok [("active", SBool true); ("count", SInt 2); ("status", SText "ready")]) as H3.
  { rewrite H3 in H2. by injection H2. }
  vm_compute. exact eq_refl.
Defined.

Definition observation : ObservationPromotion :=
  mkPromotion "observation:1" "duplicate" "document" "doc:1" (digest "") "source:graph" (Some "evidence:1") (10 * MICROS)
    [("count", SInt 2)].
Definition policy : ObservationPromotionPolicy := mkPromotionPolicy "policy:dedup" true ["duplicate"] true 60.
Lemma observation_genuine : genuine_observation observation.
Proof. split; [vm_compute; exact eq_refl|by_compute]. Qed.

Lemma promotion_exact_witness :
  (∃ m e, promotes observation policy 3 3 (Some 2) m e ∧
     run exec (promote_graph_observation observation policy 3 3 (Some 2) (Some (20 * MICROS))) before =
     run exec (commit_validated_change m (Some e)) before) ∧
  ∃ code, run exec (promote_graph_observation observation policy 3 3 (Some 2) (Some (80 * MICROS))) before =
    (Raise (ProjectionContractError code), before).
Proof.
  assert (∀ y : Z, Some 2 = Some y → 0 ≤ y < 3) as Hx by (intros y [= <-]; lia).
  split.
  - destruct (promotion_exact exec observation policy 3 3 (Some 2) (20 * MICROS) before observation_genuine) as [[_ ?]|[Hn _]];
      [by_compute|by_compute|lia|lia|exact Hx|done|]. destruct Hn. by_compute.
  - destruct (promotion_exact exec observation policy 3 3 (Some 2) (80 * MICROS) before observation_genuine) as [[Hp _]|[_ ?]];
      [by_compute|by_compute|lia|lia|exact Hx| |done]. destruct Hp as (_ & _ & _ & [_ Hp] & _). vm_compute in Hp. by destruct Hp.
Defined.

(** ** Rebuilds that do not complete *)

(** Adapters whose checkpoint store does not answer a reset *)
Definition no_reset (o : port_op) : M Memory (port_resp o) :=
  match o as o return M Memory (port_resp o) with ResetCheckpoint _ _ => λ w, (Raise unreachable, w) | o => exec o end.
Definition projected_world : Memory := Eval vm_compute in (run exec (project_scope worker scope 1 256) world).2.
Definition summary_of (r : result ProjectionBatchResult * Memory) :=
  match r with
  | (Ok b, w) => Some (br_status b, map oe_sequence (projected w agg), cursor scope w)
  | _ => None
  end.

(** The projection is reset before the cursor: when the second reset fails, the
    cursor stays at the end of an empty graph, and the next projection finds
    nothing left to do. *)
Example failed_rebuild_keeps_cursor :
  let rebuilt := run no_reset (rebuild_scope worker scope 2 256) projected_world in
  summary_of rebuilt = Some (BFailed, [], 3) ∧
  summary_of (run exec (project_scope worker scope 2 256) rebuilt.2) = Some (BComplete, [], 3).
Proof. vm_compute. split; exact eq_refl. Qed.

(** The token is checked by [read_checkpoint], after both resets: an invalid one
    empties the graph and drops the cursor before it is reported. *)
Example invalid_fence_resets :
  summary_of (run exec (rebuild_scope worker scope 0 256) projected_world) = Some (BDrift, [], 0).
Proof. vm_compute. exact eq_refl. Qed.
End ProjectionExample.
