(* ===== verification/FoundationModels.v ===== *)
(** Identities, gateway versions and release records,
    [arbora/control_plane/foundation/models.py].

    One record per model, without its [Literal] version field, which only its
    JSON shows. [X_json] is [model_dump] without the digest fields that
    [_record_digest] pops. Timestamps stay the strings they are here. *)
From S2P Require Export Grammar.
From S2P Require Import Sha256.
From stdpp Require Import pretty.
Local Open Scope Z_scope.

(** * Fields *)
Definition MAX_LIST : nat := 128.
Definition MAX_CIRCUIT_REFS : nat := 32.
Definition MAX_RETENTION_DAYS : Z := 36500.

Definition identifier_char (c : ascii) : bool := alnum c || one_of "._:/@+-" c.
Definition IDENTIFIER_RE : regex := RCat (RClass alnum) (RStar (RClass identifier_char)).
Definition NAME_RE : regex :=
  let head c := lower c || digit c in RCat (RClass head) (RStar (RClass (λ c, head c || one_of "._-" c))).
Definition RDigits (n : nat) : regex := RTimes (RClass digit) n.
Definition RChar (c : string) : regex := RClass (one_of c).
Definition TIMESTAMP_RE : regex :=
  foldr RCat REps
    [RDigits 4; RChar "-"; RDigits 2; RChar "-"; RDigits 2; RChar "T"; RDigits 2; RChar ":"; RDigits 2; RChar ":"; RDigits 2;
     ROpt (RCat (RChar ".") (RPlus (RClass digit)));
     RAlt (RChar "Zz") (RCat (RChar "+-") (RCat (RDigits 2) (RCat (RChar ":") (RDigits 2))))].
Definition path_char (c : ascii) : bool := bool_decide (N_of_ascii c ∉ [0; 10; 13]%N).

Definition Identifier (s : string) : bool := str_len 1 192 s && re_match IDENTIFIER_RE s.
Definition NameText (s : string) : bool := str_len 1 96 s && re_match NAME_RE s.
Definition Timestamp (s : string) : bool := str_len 20 64 s && re_match TIMESTAMP_RE s.
Definition OpaqueRef (s : string) : bool := str_len 3 192 s && re_match IDENTIFIER_RE s.
Definition PathText (s : string) : bool := str_len 1 512 s && re_match (RPlus (RClass path_char)) s.

(** [needle in s] *)
Fixpoint py_contains (needle s : string) : bool :=
  String.prefix needle s || match s with EmptyString => false | String _ s => py_contains needle s end.
(** [s.split(sep)] for a one-character separator *)
Fixpoint py_split (sep : ascii) (s : string) : list string :=
  match s with
  | EmptyString => [""]
  | String c s =>
      if bool_decide (c = sep) then "" :: py_split sep s
      else match py_split sep s with w :: ws => String c w :: ws | [] => [] end
  end.

Definition forbidden_prefixes : list string := ["http:"; "https:"; "file:"; "data:"; "body:"; "result:"; "base64:"].
Definition inline_markers : list string :=
  ["password="; "authorization:"; "bearer "; "-----begin"; "{" +:+ String dquote ""; "[{"].
Definition opaque_ref (value field_name : string) : result () :=
  let lowered := casefold value in
  raise_if (existsb (py_startswith lowered) forbidden_prefixes || existsb (λ marker, py_contains marker lowered) inline_markers ||
            negb (has_char ":" value))
    (ValueError (field_name +:+ " must be an opaque reference, not payload material")).
Definition key_ref (value field_name : string) : result () :=
  _ ← opaque_ref value field_name;
  raise_if (negb (existsb (py_startswith (casefold value)) ["keyref:"; "secretref:"]))
    (ValueError (field_name +:+ " must be a provider-owned key/secret reference")).
Definition sorted_unique (values : list string) (field_name : string) : result () :=
  _ ← raise_if (has_duplicates values) (ValueError (field_name +:+ " must be unique"));
  raise_if (bool_decide (py_sorted values ≠ values)) (ValueError (field_name +:+ " must be sorted")).

Definition digest_payload (v : json) : string := canonical_digest v.

(** * Kinds *)
Inductive IdentityKind := User | Service | Agent.
Inductive RecordStatus := Active | Retired.
Inductive TargetKind := Upstream | Route | Config | Feature.
Inductive ReleaseOperation := Activate | Rollback.
Inductive SubjectKind := SubjectTenant | SubjectPrincipal | SubjectClient.
Inductive CircuitState := Closed | OpenState | HalfOpen.
#[export] Instance IdentityKind_eq_dec : EqDecision IdentityKind.
Proof. solve_decision. Defined.
#[export] Instance RecordStatus_eq_dec : EqDecision RecordStatus.
Proof. solve_decision. Defined.
#[export] Instance TargetKind_eq_dec : EqDecision TargetKind.
Proof. solve_decision. Defined.
#[export] Instance ReleaseOperation_eq_dec : EqDecision ReleaseOperation.
Proof. solve_decision. Defined.
#[export] Instance SubjectKind_eq_dec : EqDecision SubjectKind.
Proof. solve_decision. Defined.
#[export] Instance CircuitState_eq_dec : EqDecision CircuitState.
Proof. solve_decision. Defined.
#[export] Instance TargetKind_countable : Countable TargetKind.
Proof.
  refine (inj_countable' (λ k, match k with Upstream => 0 | Route => 1 | Config => 2 | Feature => 3 end)
    (λ n, match n with 0 => Upstream | 1 => Route | 2 => Config | _ => Feature end) _). by intros [].
Defined.

Definition identity_kind_str (k : IdentityKind) : string := match k with User => "user" | Service => "service" | Agent => "agent" end.
Definition status_str (s : RecordStatus) : string := match s with Active => "active" | Retired => "retired" end.
Definition target_kind_str (k : TargetKind) : string :=
  match k with Upstream => "upstream" | Route => "route" | Config => "config" | Feature => "feature" end.
Definition operation_str (o : ReleaseOperation) : string := match o with Activate => "activate" | Rollback => "rollback" end.
Definition subject_kind_str (k : SubjectKind) : string :=
  match k with SubjectTenant => "tenant" | SubjectPrincipal => "principal" | SubjectClient => "client" end.
Definition circuit_state_str (s : CircuitState) : string :=
  match s with Closed => "closed" | OpenState => "open" | HalfOpen => "half_open" end.

(** * Derived identities *)

Definition unit_separator : string := String (ascii_of_N 31) "".
(** ["\x1f"] between the parts *)
Fixpoint joined (first : string) (rest : list string) : string :=
  match rest with [] => first | part :: rest => first +:+ unit_separator +:+ joined part rest end.
Definition derived_id (prefix first : string) (rest : list string) : string := prefix +:+ hexdigest (joined first rest).
#[global] Arguments derived_id : simpl never.

Definition organization_id_for (organization_slug : string) : string := derived_id "org:" organization_slug [].
Definition tenant_id_for (organization_id tenant_slug : string) : string := derived_id "tenant:" organization_id [tenant_slug].
Definition principal_id_for (tenant_id subject_ref : string) : string := derived_id "principal:" tenant_id [subject_ref].
Definition client_id_for (tenant_id client_name : string) : string := derived_id "client:" tenant_id [client_name].
Definition permission_id_for (tenant_id action resource_ref : string) : string :=
  derived_id "permission:" tenant_id [action; resource_ref].
Definition role_id_for (tenant_id role_name : string) : string := derived_id "role:" tenant_id [role_name].
Definition membership_id_for (tenant_id principal_id role_id : string) : string :=
  derived_id "membership:" tenant_id [principal_id; role_id].
Definition entitlement_id_for (tenant_id : string) (subject_kind : SubjectKind) (subject_id name : string) : string :=
  derived_id "entitlement:" tenant_id [subject_kind_str subject_kind; subject_id; name].
Definition quota_id_for (tenant_id : string) (subject_kind : SubjectKind) (subject_id : string) : string :=
  derived_id "quota:" tenant_id [subject_kind_str subject_kind; subject_id].
Definition upstream_id_for (tenant_id upstream_name : string) : string := derived_id "upstream:" tenant_id [upstream_name].
Definition route_id_for (tenant_id route_name : string) : string := derived_id "route:" tenant_id [route_name].
Definition config_id_for (tenant_id config_name : string) : string := derived_id "config:" tenant_id [config_name].
Definition feature_id_for (tenant_id feature_name : string) : string := derived_id "feature:" tenant_id [feature_name].
Definition release_pointer_id (tenant_id : string) (target_kind : TargetKind) (target_id : string) : string :=
  derived_id "release:" tenant_id [target_kind_str target_kind; target_id].
Definition tombstone_id (tenant_id : string) (resource_kind : TargetKind) (resource_id : string) (version : Z) : string :=
  derived_id "tombstone:" tenant_id [target_kind_str resource_kind; resource_id; pretty version].
Definition activation_id_for (pointer_id : string) (release_revision : Z) (activation_digest : string) : string :=
  derived_id "activation:" pointer_id [pretty release_revision; activation_digest].

(** * Records *)
Record LifecycleState := mkLifecycle { lc_status : RecordStatus; lc_retention_policy_ref : string }.
#[export] Instance LifecycleState_eq_dec : EqDecision LifecycleState.
Proof. solve_decision. Defined.
Definition validate_LifecycleState (l : LifecycleState) : result () :=
  _ ← check_fields [("retention_policy_ref", OpaqueRef (lc_retention_policy_ref l))];
  in_validator (opaque_ref (lc_retention_policy_ref l) "retention_policy_ref").
Definition LifecycleState_json (l : LifecycleState) : json :=
  JObj [("lifecycle_version", JStr "lifecycle.v1"); ("status", JStr (status_str (lc_status l)));
        ("retention_policy_ref", JStr (lc_retention_policy_ref l))].
Definition active (l : LifecycleState) : bool := bool_decide (lc_status l = Active).

Record TenantScope := mkScope {
  ts_organization_id : string; ts_tenant_id : string; ts_principal_id : string; ts_client_id : option string;
  ts_grant_digests : list string; ts_scope_digest : string }.
Definition scope_json (s : TenantScope) : json :=
  JObj [("organization_id", JStr (ts_organization_id s)); ("tenant_id", JStr (ts_tenant_id s));
        ("principal_id", JStr (ts_principal_id s)); ("client_id", null_or JStr (ts_client_id s));
        ("grant_digests", JStrs (ts_grant_digests s))].
Definition validate_TenantScope (s : TenantScope) : result () :=
  _ ← check_fields [("organization_id", Identifier (ts_organization_id s)); ("tenant_id", Identifier (ts_tenant_id s));
        ("principal_id", Identifier (ts_principal_id s)); ("client_id", OptField Identifier (ts_client_id s));
        ("grant_digests", tuple_len 0 MAX_LIST (ts_grant_digests s) && forallb Digest (ts_grant_digests s));
        ("scope_digest", Digest (ts_scope_digest s))];
  in_validator (
    _ ← sorted_unique (ts_grant_digests s) "grant_digests";
    raise_if (bool_decide (ts_scope_digest s ≠ digest_payload (scope_json s)))
      (ValueError "tenant scope digest does not match its subject")).

(** A content-derived identity and digest *)
Definition digest_is_stable (what digest : string) (material : json) : result () :=
  raise_if (bool_decide (digest ≠ digest_payload material)) (ValueError (what +:+ " digest drift")).
Definition identity_is_stable (what digested id expected_id digest : string) (material : json) : result () :=
  _ ← raise_if (bool_decide (id ≠ expected_id)) (ValueError (what +:+ " identity is not content-derived"));
  digest_is_stable digested digest material.

Record OrganizationIdentity := mkOrganization {
  og_organization_id : string; og_organization_slug : string; og_revision : Z; og_lifecycle : LifecycleState;
  og_identity_digest : string }.
#[export] Instance OrganizationIdentity_eq_dec : EqDecision OrganizationIdentity.
Proof. solve_decision. Defined.
Definition OrganizationIdentity_json (o : OrganizationIdentity) : json :=
  JObj [("identity_version", JStr "organization-identity.v1"); ("organization_id", JStr (og_organization_id o));
        ("organization_slug", JStr (og_organization_slug o)); ("revision", JInt (og_revision o));
        ("lifecycle", LifecycleState_json (og_lifecycle o))].
Definition validate_OrganizationIdentity (o : OrganizationIdentity) : result () :=
  _ ← check_fields [("organization_id", Identifier (og_organization_id o)); ("organization_slug", NameText (og_organization_slug o));
        ("revision", 1 <=? og_revision o); ("identity_digest", Digest (og_identity_digest o))];
  in_validator (identity_is_stable "organization" "organization identity" (og_organization_id o) (organization_id_for (og_organization_slug o))
    (og_identity_digest o) (OrganizationIdentity_json o)).

Record TenantIdentity := mkTenant {
  tn_tenant_id : string; tn_organization_id : string; tn_tenant_slug : string; tn_revision : Z;
  tn_lifecycle : LifecycleState; tn_identity_digest : string }.
#[export] Instance TenantIdentity_eq_dec : EqDecision TenantIdentity.
Proof. solve_decision. Defined.
Definition TenantIdentity_json (t : TenantIdentity) : json :=
  JObj [("identity_version", JStr "tenant-identity.v1"); ("tenant_id", JStr (tn_tenant_id t));
        ("organization_id", JStr (tn_organization_id t)); ("tenant_slug", JStr (tn_tenant_slug t)); ("revision", JInt (tn_revision t));
        ("lifecycle", LifecycleState_json (tn_lifecycle t))].
Definition validate_TenantIdentity (t : TenantIdentity) : result () :=
  _ ← check_fields [("tenant_id", Identifier (tn_tenant_id t)); ("organization_id", Identifier (tn_organization_id t));
        ("tenant_slug", NameText (tn_tenant_slug t)); ("revision", 1 <=? tn_revision t); ("identity_digest", Digest (tn_identity_digest t))];
  in_validator (identity_is_stable "tenant" "tenant identity" (tn_tenant_id t) (tenant_id_for (tn_organization_id t) (tn_tenant_slug t))
    (tn_identity_digest t) (TenantIdentity_json t)).

Record PrincipalIdentity := mkPrincipal {
  pn_principal_id : string; pn_organization_id : string; pn_tenant_id : string; pn_principal_kind : IdentityKind;
  pn_subject_ref : string; pn_revision : Z; pn_lifecycle : LifecycleState; pn_identity_digest : string }.
#[export] Instance PrincipalIdentity_eq_dec : EqDecision PrincipalIdentity.
Proof. solve_decision. Defined.
Definition PrincipalIdentity_json (p : PrincipalIdentity) : json :=
  JObj [("identity_version", JStr "principal-identity.v1"); ("principal_id", JStr (pn_principal_id p));
        ("organization_id", JStr (pn_organization_id p)); ("tenant_id", JStr (pn_tenant_id p));
        ("principal_kind", JStr (identity_kind_str (pn_principal_kind p))); ("subject_ref", JStr (pn_subject_ref p));
        ("revision", JInt (pn_revision p)); ("lifecycle", LifecycleState_json (pn_lifecycle p))].
Definition validate_PrincipalIdentity (p : PrincipalIdentity) : result () :=
  _ ← check_fields [("principal_id", Identifier (pn_principal_id p)); ("organization_id", Identifier (pn_organization_id p));
        ("tenant_id", Identifier (pn_tenant_id p)); ("subject_ref", OpaqueRef (pn_subject_ref p)); ("revision", 1 <=? pn_revision p);
        ("identity_digest", Digest (pn_identity_digest p))];
  in_validator (
    _ ← opaque_ref (pn_subject_ref p) "subject_ref";
    identity_is_stable "principal" "principal identity" (pn_principal_id p) (principal_id_for (pn_tenant_id p) (pn_subject_ref p))
      (pn_identity_digest p) (PrincipalIdentity_json p)).

Record ApiClientIdentity := mkClient {
  ac_client_id : string; ac_organization_id : string; ac_tenant_id : string; ac_principal_id : string; ac_client_name : string;
  ac_key_ref : string; ac_revision : Z; ac_lifecycle : LifecycleState; ac_identity_digest : string }.
#[export] Instance ApiClientIdentity_eq_dec : EqDecision ApiClientIdentity.
Proof. solve_decision. Defined.
Definition ApiClientIdentity_json (c : ApiClientIdentity) : json :=
  JObj [("identity_version", JStr "api-client-identity.v1"); ("client_id", JStr (ac_client_id c));
        ("organization_id", JStr (ac_organization_id c)); ("tenant_id", JStr (ac_tenant_id c));
        ("principal_id", JStr (ac_principal_id c)); ("client_name", JStr (ac_client_name c)); ("key_ref", JStr (ac_key_ref c));
        ("revision", JInt (ac_revision c)); ("lifecycle", LifecycleState_json (ac_lifecycle c))].
Definition validate_ApiClientIdentity (c : ApiClientIdentity) : result () :=
  _ ← check_fields [("client_id", Identifier (ac_client_id c)); ("organization_id", Identifier (ac_organization_id c));
        ("tenant_id", Identifier (ac_tenant_id c)); ("principal_id", Identifier (ac_principal_id c));
        ("client_name", NameText (ac_client_name c)); ("key_ref", OpaqueRef (ac_key_ref c)); ("revision", 1 <=? ac_revision c);
        ("identity_digest", Digest (ac_identity_digest c))];
  in_validator (
    _ ← key_ref (ac_key_ref c) "key_ref";
    identity_is_stable "API client" "API client identity" (ac_client_id c) (client_id_for (ac_tenant_id c) (ac_client_name c))
      (ac_identity_digest c) (ApiClientIdentity_json c)).

Record RetentionPolicy := mkRetention {
  rp_retention_policy_id : string; rp_organization_id : string; rp_tenant_id : string; rp_retention_days : Z;
  rp_legal_hold : bool; rp_revision : Z; rp_policy_digest : string }.
#[export] Instance RetentionPolicy_eq_dec : EqDecision RetentionPolicy.
Proof. solve_decision. Defined.
Definition RetentionPolicy_json (p : RetentionPolicy) : json :=
  JObj [("retention_version", JStr "retention-policy.v1"); ("retention_policy_id", JStr (rp_retention_policy_id p));
        ("organization_id", JStr (rp_organization_id p)); ("tenant_id", JStr (rp_tenant_id p));
        ("retention_days", JInt (rp_retention_days p)); ("legal_hold", JBool (rp_legal_hold p)); ("revision", JInt (rp_revision p))].
Definition validate_RetentionPolicy (p : RetentionPolicy) : result () :=
  _ ← check_fields [("retention_policy_id", Identifier (rp_retention_policy_id p)); ("organization_id", Identifier (rp_organization_id p));
        ("tenant_id", Identifier (rp_tenant_id p)); ("retention_days", in_bounds 1 MAX_RETENTION_DAYS (rp_retention_days p));
        ("revision", 1 <=? rp_revision p); ("policy_digest", Digest (rp_policy_digest p))];
  in_validator (digest_is_stable "retention policy" (rp_policy_digest p) (RetentionPolicy_json p)).

(** ** Access records *)
Record Permission := mkPermission {
  pm_permission_id : string; pm_organization_id : string; pm_tenant_id : string; pm_action : string; pm_resource_ref : string;
  pm_lifecycle : LifecycleState; pm_record_digest : string }.
#[export] Instance Permission_eq_dec : EqDecision Permission.
Proof. solve_decision. Defined.
Definition Permission_json (p : Permission) : json :=
  JObj [("record_version", JStr "permission.v1"); ("permission_id", JStr (pm_permission_id p));
        ("organization_id", JStr (pm_organization_id p)); ("tenant_id", JStr (pm_tenant_id p)); ("action", JStr (pm_action p));
        ("resource_ref", JStr (pm_resource_ref p)); ("lifecycle", LifecycleState_json (pm_lifecycle p))].
Definition validate_Permission (p : Permission) : result () :=
  _ ← check_fields [("permission_id", Identifier (pm_permission_id p)); ("organization_id", Identifier (pm_organization_id p));
        ("tenant_id", Identifier (pm_tenant_id p)); ("action", NameText (pm_action p)); ("resource_ref", OpaqueRef (pm_resource_ref p));
        ("record_digest", Digest (pm_record_digest p))];
  in_validator (
    _ ← opaque_ref (pm_resource_ref p) "resource_ref";
    identity_is_stable "permission" "permission" (pm_permission_id p) (permission_id_for (pm_tenant_id p) (pm_action p) (pm_resource_ref p))
      (pm_record_digest p) (Permission_json p)).

Record Role := mkRole {
  rl_role_id : string; rl_organization_id : string; rl_tenant_id : string; rl_role_name : string; rl_permission_ids : list string;
  rl_lifecycle : LifecycleState; rl_record_digest : string }.
#[export] Instance Role_eq_dec : EqDecision Role.
Proof. solve_decision. Defined.
Definition Role_json (r : Role) : json :=
  JObj [("record_version", JStr "role.v1"); ("role_id", JStr (rl_role_id r)); ("organization_id", JStr (rl_organization_id r));
        ("tenant_id", JStr (rl_tenant_id r)); ("role_name", JStr (rl_role_name r)); ("permission_ids", JStrs (rl_permission_ids r));
        ("lifecycle", LifecycleState_json (rl_lifecycle r))].
Definition validate_Role (r : Role) : result () :=
  _ ← check_fields [("role_id", Identifier (rl_role_id r)); ("organization_id", Identifier (rl_organization_id r));
        ("tenant_id", Identifier (rl_tenant_id r)); ("role_name", NameText (rl_role_name r));
        ("permission_ids", tuple_len 0 MAX_LIST (rl_permission_ids r) && forallb Identifier (rl_permission_ids r));
        ("record_digest", Digest (rl_record_digest r))];
  in_validator (
    _ ← sorted_unique (rl_permission_ids r) "permission_ids";
    identity_is_stable "role" "role" (rl_role_id r) (role_id_for (rl_tenant_id r) (rl_role_name r)) (rl_record_digest r) (Role_json r)).

Record Membership := mkMembership {
  mb_membership_id : string; mb_organization_id : string; mb_tenant_id : string; mb_principal_id : string; mb_role_id : string;
  mb_lifecycle : LifecycleState; mb_record_digest : string }.
#[export] Instance Membership_eq_dec : EqDecision Membership.
Proof. solve_decision. Defined.
Definition Membership_json (m : Membership) : json :=
  JObj [("record_version", JStr "membership.v1"); ("membership_id", JStr (mb_membership_id m));
        ("organization_id", JStr (mb_organization_id m)); ("tenant_id", JStr (mb_tenant_id m));
        ("principal_id", JStr (mb_principal_id m)); ("role_id", JStr (mb_role_id m)); ("lifecycle", LifecycleState_json (mb_lifecycle m))].
Definition validate_Membership (m : Membership) : result () :=
  _ ← check_fields [("membership_id", Identifier (mb_membership_id m)); ("organization_id", Identifier (mb_organization_id m));
        ("tenant_id", Identifier (mb_tenant_id m)); ("principal_id", Identifier (mb_principal_id m)); ("role_id", Identifier (mb_role_id m));
        ("record_digest", Digest (mb_record_digest m))];
  in_validator (identity_is_stable "membership" "membership" (mb_membership_id m)
    (membership_id_for (mb_tenant_id m) (mb_principal_id m) (mb_role_id m)) (mb_record_digest m) (Membership_json m)).

Record Entitlement := mkEntitlement {
  en_entitlement_id : string; en_organization_id : string; en_tenant_id : string; en_subject_kind : SubjectKind;
  en_subject_id : string; en_entitlement_name : string; en_value_ref : string; en_lifecycle : LifecycleState; en_record_digest : string }.
#[export] Instance Entitlement_eq_dec : EqDecision Entitlement.
Proof. solve_decision. Defined.
Definition Entitlement_json (e : Entitlement) : json :=
  JObj [("record_version", JStr "entitlement.v1"); ("entitlement_id", JStr (en_entitlement_id e));
        ("organization_id", JStr (en_organization_id e)); ("tenant_id", JStr (en_tenant_id e));
        ("subject_kind", JStr (subject_kind_str (en_subject_kind e))); ("subject_id", JStr (en_subject_id e));
        ("entitlement_name", JStr (en_entitlement_name e)); ("value_ref", JStr (en_value_ref e));
        ("lifecycle", LifecycleState_json (en_lifecycle e))].
Definition validate_Entitlement (e : Entitlement) : result () :=
  _ ← check_fields [("entitlement_id", Identifier (en_entitlement_id e)); ("organization_id", Identifier (en_organization_id e));
        ("tenant_id", Identifier (en_tenant_id e)); ("subject_id", Identifier (en_subject_id e));
        ("entitlement_name", NameText (en_entitlement_name e)); ("value_ref", OpaqueRef (en_value_ref e));
        ("record_digest", Digest (en_record_digest e))];
  in_validator (
    _ ← opaque_ref (en_value_ref e) "value_ref";
    identity_is_stable "entitlement" "entitlement" (en_entitlement_id e)
      (entitlement_id_for (en_tenant_id e) (en_subject_kind e) (en_subject_id e) (en_entitlement_name e))
      (en_record_digest e) (Entitlement_json e)).

Record QuotaDimension := mkDimension { qd_dimension_name : string; qd_limit_value : Z; qd_window_seconds : Z }.
#[export] Instance QuotaDimension_eq_dec : EqDecision QuotaDimension.
Proof. solve_decision. Defined.
Definition QuotaDimension_json (d : QuotaDimension) : json :=
  JObj [("dimension_name", JStr (qd_dimension_name d)); ("limit_value", JInt (qd_limit_value d));
        ("window_seconds", JInt (qd_window_seconds d))].
Definition validate_QuotaDimension (d : QuotaDimension) : result () :=
  check_fields [("dimension_name", NameText (qd_dimension_name d)); ("limit_value", in_bounds 1 (10 ^ 12) (qd_limit_value d));
    ("window_seconds", in_bounds 1 31536000 (qd_window_seconds d))].
Record QuotaContract := mkQuota {
  qt_quota_id : string; qt_organization_id : string; qt_tenant_id : string; qt_subject_kind : SubjectKind; qt_subject_id : string;
  qt_dimensions : list QuotaDimension; qt_lifecycle : LifecycleState; qt_record_digest : string }.
#[export] Instance QuotaContract_eq_dec : EqDecision QuotaContract.
Proof. solve_decision. Defined.
Definition QuotaContract_json (q : QuotaContract) : json :=
  JObj [("record_version", JStr "quota-contract.v1"); ("quota_id", JStr (qt_quota_id q)); ("organization_id", JStr (qt_organization_id q));
        ("tenant_id", JStr (qt_tenant_id q)); ("subject_kind", JStr (subject_kind_str (qt_subject_kind q)));
        ("subject_id", JStr (qt_subject_id q)); ("dimensions", JArr (map QuotaDimension_json (qt_dimensions q)));
        ("lifecycle", LifecycleState_json (qt_lifecycle q))].
Definition validate_QuotaContract (q : QuotaContract) : result () :=
  _ ← check_fields [("quota_id", Identifier (qt_quota_id q)); ("organization_id", Identifier (qt_organization_id q));
        ("tenant_id", Identifier (qt_tenant_id q)); ("subject_id", Identifier (qt_subject_id q));
        ("dimensions", tuple_len 1 MAX_LIST (qt_dimensions q)); ("record_digest", Digest (qt_record_digest q))];
  in_validator (
    _ ← sorted_unique (map qd_dimension_name (qt_dimensions q)) "quota dimension names";
    identity_is_stable "quota" "quota" (qt_quota_id q) (quota_id_for (qt_tenant_id q) (qt_subject_kind q) (qt_subject_id q))
      (qt_record_digest q) (QuotaContract_json q)).

(** ** Gateway versions *)
Record GatewayUpstreamVersion := mkUpstream {
  up_upstream_id : string; up_organization_id : string; up_tenant_id : string; up_upstream_name : string; up_version : Z;
  up_endpoint_ref : string; up_tls_key_ref : option string; up_ca_ref : option string; up_lifecycle : LifecycleState;
  up_record_digest : string }.
#[export] Instance GatewayUpstreamVersion_eq_dec : EqDecision GatewayUpstreamVersion.
Proof. solve_decision. Defined.
Definition GatewayUpstreamVersion_json (u : GatewayUpstreamVersion) : json :=
  JObj [("record_version", JStr "gateway-upstream.v1"); ("upstream_id", JStr (up_upstream_id u));
        ("organization_id", JStr (up_organization_id u)); ("tenant_id", JStr (up_tenant_id u));
        ("upstream_name", JStr (up_upstream_name u)); ("version", JInt (up_version u)); ("endpoint_ref", JStr (up_endpoint_ref u));
        ("tls_key_ref", null_or JStr (up_tls_key_ref u)); ("ca_ref", null_or JStr (up_ca_ref u));
        ("lifecycle", LifecycleState_json (up_lifecycle u))].
Definition validate_GatewayUpstreamVersion (u : GatewayUpstreamVersion) : result () :=
  _ ← check_fields [("upstream_id", Identifier (up_upstream_id u)); ("organization_id", Identifier (up_organization_id u));
        ("tenant_id", Identifier (up_tenant_id u)); ("upstream_name", NameText (up_upstream_name u)); ("version", 1 <=? up_version u);
        ("endpoint_ref", OpaqueRef (up_endpoint_ref u)); ("tls_key_ref", OptField OpaqueRef (up_tls_key_ref u));
        ("ca_ref", OptField OpaqueRef (up_ca_ref u)); ("record_digest", Digest (up_record_digest u))];
  in_validator (
    _ ← opaque_ref (up_endpoint_ref u) "endpoint_ref";
    _ ← match up_tls_key_ref u with Some r => key_ref r "tls_key_ref" | None => Ok () end;
    _ ← match up_ca_ref u with Some r => opaque_ref r "ca_ref" | None => Ok () end;
    identity_is_stable "upstream" "upstream" (up_upstream_id u) (upstream_id_for (up_tenant_id u) (up_upstream_name u))
      (up_record_digest u) (GatewayUpstreamVersion_json u)).

Record GatewayRouteVersion := mkRoute {
  rt_route_id : string; rt_organization_id : string; rt_tenant_id : string; rt_route_name : string; rt_version : Z;
  rt_path_template : string; rt_upstream_id : string; rt_upstream_version : Z; rt_auth_policy_ref : string;
  rt_lifecycle : LifecycleState; rt_record_digest : string }.
#[export] Instance GatewayRouteVersion_eq_dec : EqDecision GatewayRouteVersion.
Proof. solve_decision. Defined.
Definition GatewayRouteVersion_json (r : GatewayRouteVersion) : json :=
  JObj [("record_version", JStr "gateway-route.v1"); ("route_id", JStr (rt_route_id r));
        ("organization_id", JStr (rt_organization_id r)); ("tenant_id", JStr (rt_tenant_id r)); ("route_name", JStr (rt_route_name r));
        ("version", JInt (rt_version r)); ("path_template", JStr (rt_path_template r)); ("upstream_id", JStr (rt_upstream_id r));
        ("upstream_version", JInt (rt_upstream_version r)); ("auth_policy_ref", JStr (rt_auth_policy_ref r));
        ("lifecycle", LifecycleState_json (rt_lifecycle r))].
Definition path_is_safe (path_template : string) : result () :=
  raise_if (negb (py_startswith path_template "/") || bool_decide (".." ∈ py_split "/" path_template))
    (ValueError "gateway route path must be absolute and escape-free").
Definition validate_GatewayRouteVersion (r : GatewayRouteVersion) : result () :=
  _ ← check_fields [("route_id", Identifier (rt_route_id r)); ("organization_id", Identifier (rt_organization_id r));
        ("tenant_id", Identifier (rt_tenant_id r)); ("route_name", NameText (rt_route_name r)); ("version", 1 <=? rt_version r);
        ("path_template", PathText (rt_path_template r)); ("upstream_id", Identifier (rt_upstream_id r));
        ("upstream_version", 1 <=? rt_upstream_version r); ("auth_policy_ref", OpaqueRef (rt_auth_policy_ref r));
        ("record_digest", Digest (rt_record_digest r))];
  in_validator (
    _ ← path_is_safe (rt_path_template r);
    _ ← opaque_ref (rt_auth_policy_ref r) "auth_policy_ref";
    identity_is_stable "route" "route" (rt_route_id r) (route_id_for (rt_tenant_id r) (rt_route_name r))
      (rt_record_digest r) (GatewayRouteVersion_json r)).

Record GatewayVersionRef := mkVersionRef {
  vr_organization_id : string; vr_tenant_id : string; vr_target_kind : TargetKind; vr_target_id : string; vr_target_version : Z;
  vr_target_digest : string; vr_ref_digest : string }.
#[export] Instance GatewayVersionRef_eq_dec : EqDecision GatewayVersionRef.
Proof. solve_decision. Defined.
(** [model_dump] of a reference, without and with its digest *)
Definition version_ref_fields (r : GatewayVersionRef) : list (string * json) :=
  [("ref_version", JStr "gateway-version-ref.v1"); ("organization_id", JStr (vr_organization_id r));
   ("tenant_id", JStr (vr_tenant_id r)); ("target_kind", JStr (target_kind_str (vr_target_kind r)));
   ("target_id", JStr (vr_target_id r)); ("target_version", JInt (vr_target_version r)); ("target_digest", JStr (vr_target_digest r))].
Definition GatewayVersionRef_json (r : GatewayVersionRef) : json :=
  JObj (version_ref_fields r ++ [("ref_digest", JStr (vr_ref_digest r))]).
Definition validate_GatewayVersionRef (r : GatewayVersionRef) : result () :=
  _ ← check_fields [("organization_id", Identifier (vr_organization_id r)); ("tenant_id", Identifier (vr_tenant_id r));
        ("target_id", Identifier (vr_target_id r)); ("target_version", 1 <=? vr_target_version r);
        ("target_digest", Digest (vr_target_digest r)); ("ref_digest", Digest (vr_ref_digest r))];
  in_validator (digest_is_stable "gateway version reference" (vr_ref_digest r) (JObj (version_ref_fields r))).

Record GatewayConfigVersion := mkConfig {
  cf_config_id : string; cf_organization_id : string; cf_tenant_id : string; cf_config_name : string; cf_version : Z;
  cf_component_refs : list GatewayVersionRef; cf_lifecycle : LifecycleState; cf_record_digest : string }.
#[export] Instance GatewayConfigVersion_eq_dec : EqDecision GatewayConfigVersion.
Proof. solve_decision. Defined.
Definition GatewayConfigVersion_json (c : GatewayConfigVersion) : json :=
  JObj [("record_version", JStr "gateway-config.v1"); ("config_id", JStr (cf_config_id c));
        ("organization_id", JStr (cf_organization_id c)); ("tenant_id", JStr (cf_tenant_id c)); ("config_name", JStr (cf_config_name c));
        ("version", JInt (cf_version c)); ("component_refs", JArr (map GatewayVersionRef_json (cf_component_refs c)));
        ("lifecycle", LifecycleState_json (cf_lifecycle c))].
Definition component_key (r : GatewayVersionRef) : string * string * Z :=
  (target_kind_str (vr_target_kind r), vr_target_id r, vr_target_version r).
Definition component_order (x y : string * string * Z) : Prop :=
  then_cmp (String.compare x.1.1 y.1.1) (then_cmp (String.compare x.1.2 y.1.2) (x.2 ?= y.2)) ≠ Gt.
#[export] Instance component_order_dec x y : Decision (component_order x y).
Proof. unfold component_order. apply _. Defined.
Definition validate_GatewayConfigVersion (c : GatewayConfigVersion) : result () :=
  _ ← check_fields [("config_id", Identifier (cf_config_id c)); ("organization_id", Identifier (cf_organization_id c));
        ("tenant_id", Identifier (cf_tenant_id c)); ("config_name", NameText (cf_config_name c)); ("version", 1 <=? cf_version c);
        ("component_refs", tuple_len 1 MAX_LIST (cf_component_refs c)); ("record_digest", Digest (cf_record_digest c))];
  in_validator (
    let refs := map component_key (cf_component_refs c) in
    _ ← raise_if (bool_decide (merge_sort component_order refs ≠ refs) || has_duplicates refs)
          (ValueError "gateway config component references must be unique and sorted");
    identity_is_stable "config" "config" (cf_config_id c) (config_id_for (cf_tenant_id c) (cf_config_name c))
      (cf_record_digest c) (GatewayConfigVersion_json c)).

Record GatewayFeatureVersion := mkFeature {
  ft_feature_id : string; ft_organization_id : string; ft_tenant_id : string; ft_feature_name : string; ft_version : Z;
  ft_enabled : bool; ft_config_ref : option GatewayVersionRef; ft_lifecycle : LifecycleState; ft_record_digest : string }.
#[export] Instance GatewayFeatureVersion_eq_dec : EqDecision GatewayFeatureVersion.
Proof. solve_decision. Defined.
Definition GatewayFeatureVersion_json (f : GatewayFeatureVersion) : json :=
  JObj [("record_version", JStr "gateway-feature.v1"); ("feature_id", JStr (ft_feature_id f));
        ("organization_id", JStr (ft_organization_id f)); ("tenant_id", JStr (ft_tenant_id f)); ("feature_name", JStr (ft_feature_name f));
        ("version", JInt (ft_version f)); ("enabled", JBool (ft_enabled f));
        ("config_ref", null_or GatewayVersionRef_json (ft_config_ref f)); ("lifecycle", LifecycleState_json (ft_lifecycle f))].
Definition validate_GatewayFeatureVersion (f : GatewayFeatureVersion) : result () :=
  _ ← check_fields [("feature_id", Identifier (ft_feature_id f)); ("organization_id", Identifier (ft_organization_id f));
        ("tenant_id", Identifier (ft_tenant_id f)); ("feature_name", NameText (ft_feature_name f)); ("version", 1 <=? ft_version f);
        ("record_digest", Digest (ft_record_digest f))];
  in_validator (
    _ ← raise_if (match ft_config_ref f with Some r => bool_decide (vr_target_kind r ≠ Config) | None => false end)
          (ValueError "feature config_ref must target a config version");
    identity_is_stable "feature" "feature" (ft_feature_id f) (feature_id_for (ft_tenant_id f) (ft_feature_name f))
      (ft_record_digest f) (GatewayFeatureVersion_json f)).

(** ** Evidence *)
Record CircuitHistory := mkCircuit {
  ch_circuit_id : string; ch_organization_id : string; ch_tenant_id : string; ch_state : CircuitState; ch_history_refs : list string;
  ch_transition_count : Z; ch_observed_at : string; ch_record_digest : string }.
#[export] Instance CircuitHistory_eq_dec : EqDecision CircuitHistory.
Proof. solve_decision. Defined.
Definition CircuitHistory_json (c : CircuitHistory) : json :=
  JObj [("record_version", JStr "circuit-history.v1"); ("circuit_id", JStr (ch_circuit_id c));
        ("organization_id", JStr (ch_organization_id c)); ("tenant_id", JStr (ch_tenant_id c)); ("state", JStr (circuit_state_str (ch_state c)));
        ("history_refs", JStrs (ch_history_refs c)); ("transition_count", JInt (ch_transition_count c));
        ("observed_at", JStr (ch_observed_at c))].
Definition validate_CircuitHistory (c : CircuitHistory) : result () :=
  _ ← check_fields [("circuit_id", Identifier (ch_circuit_id c)); ("organization_id", Identifier (ch_organization_id c));
        ("tenant_id", Identifier (ch_tenant_id c));
        ("history_refs", tuple_len 0 MAX_CIRCUIT_REFS (ch_history_refs c) && forallb OpaqueRef (ch_history_refs c));
        ("transition_count", in_bounds 0 (10 ^ 9) (ch_transition_count c)); ("observed_at", Timestamp (ch_observed_at c));
        ("record_digest", Digest (ch_record_digest c))];
  in_validator (
    _ ← sorted_unique (ch_history_refs c) "history_refs";
    _ ← for_each (λ ref, opaque_ref ref "history_ref") (ch_history_refs c);
    digest_is_stable "circuit history" (ch_record_digest c) (CircuitHistory_json c)).

Record TombstoneRecord := mkTombstone {
  tb_tombstone_id : string; tb_organization_id : string; tb_tenant_id : string; tb_resource_kind : TargetKind;
  tb_resource_id : string; tb_resource_version : Z; tb_retention_policy_ref : string; tb_reason_ref : string;
  tb_tombstoned_at : string; tb_purge_after : string; tb_tombstone_digest : string }.
#[export] Instance TombstoneRecord_eq_dec : EqDecision TombstoneRecord.
Proof. solve_decision. Defined.
Definition TombstoneRecord_json (t : TombstoneRecord) : json :=
  JObj [("tombstone_version", JStr "tombstone.v1"); ("tombstone_id", JStr (tb_tombstone_id t));
        ("organization_id", JStr (tb_organization_id t)); ("tenant_id", JStr (tb_tenant_id t));
        ("resource_kind", JStr (target_kind_str (tb_resource_kind t))); ("resource_id", JStr (tb_resource_id t));
        ("resource_version", JInt (tb_resource_version t)); ("retention_policy_ref", JStr (tb_retention_policy_ref t));
        ("reason_ref", JStr (tb_reason_ref t)); ("tombstoned_at", JStr (tb_tombstoned_at t)); ("purge_after", JStr (tb_purge_after t))].
Definition validate_TombstoneRecord (t : TombstoneRecord) : result () :=
  _ ← check_fields [("tombstone_id", Identifier (tb_tombstone_id t)); ("organization_id", Identifier (tb_organization_id t));
        ("tenant_id", Identifier (tb_tenant_id t)); ("resource_id", Identifier (tb_resource_id t));
        ("resource_version", 1 <=? tb_resource_version t); ("retention_policy_ref", OpaqueRef (tb_retention_policy_ref t));
        ("reason_ref", OpaqueRef (tb_reason_ref t)); ("tombstoned_at", Timestamp (tb_tombstoned_at t));
        ("purge_after", Timestamp (tb_purge_after t)); ("tombstone_digest", Digest (tb_tombstone_digest t))];
  in_validator (
    _ ← opaque_ref (tb_retention_policy_ref t) "retention_policy_ref";
    _ ← opaque_ref (tb_reason_ref t) "reason_ref";
    identity_is_stable "tombstone" "tombstone" (tb_tombstone_id t)
      (tombstone_id (tb_tenant_id t) (tb_resource_kind t) (tb_resource_id t) (tb_resource_version t))
      (tb_tombstone_digest t) (TombstoneRecord_json t)).

(** ** Releases *)
Record ReleasePointer := mkPointer {
  pt_pointer_id : string; pt_organization_id : string; pt_tenant_id : string; pt_target_kind : TargetKind; pt_target_id : string;
  pt_target_version : Z; pt_target_digest : string; pt_revision : Z; pt_updated_by_principal_id : string; pt_pointer_digest : string }.
#[export] Instance ReleasePointer_eq_dec : EqDecision ReleasePointer.
Proof. solve_decision. Defined.
Definition ReleasePointer_json (p : ReleasePointer) : json :=
  JObj [("pointer_version", JStr "release-pointer.v1"); ("pointer_id", JStr (pt_pointer_id p));
        ("organization_id", JStr (pt_organization_id p)); ("tenant_id", JStr (pt_tenant_id p));
        ("target_kind", JStr (target_kind_str (pt_target_kind p))); ("target_id", JStr (pt_target_id p));
        ("target_version", JInt (pt_target_version p)); ("target_digest", JStr (pt_target_digest p)); ("revision", JInt (pt_revision p));
        ("updated_by_principal_id", JStr (pt_updated_by_principal_id p))].
Definition validate_ReleasePointer (p : ReleasePointer) : result () :=
  _ ← check_fields [("pointer_id", Identifier (pt_pointer_id p)); ("organization_id", Identifier (pt_organization_id p));
        ("tenant_id", Identifier (pt_tenant_id p)); ("target_id", Identifier (pt_target_id p)); ("target_version", 1 <=? pt_target_version p);
        ("target_digest", Digest (pt_target_digest p)); ("revision", 1 <=? pt_revision p);
        ("updated_by_principal_id", Identifier (pt_updated_by_principal_id p)); ("pointer_digest", Digest (pt_pointer_digest p))];
  in_validator (identity_is_stable "release pointer" "release pointer" (pt_pointer_id p)
    (release_pointer_id (pt_tenant_id p) (pt_target_kind p) (pt_target_id p)) (pt_pointer_digest p) (ReleasePointer_json p)).

Record ActivationRecord := mkActivation {
  av_activation_id : string; av_pointer_id : string; av_organization_id : string; av_tenant_id : string;
  av_operation : ReleaseOperation; av_target_kind : TargetKind; av_target_id : string; av_target_version : Z;
  av_target_digest : string; av_previous_target_version : option Z; av_release_revision : Z; av_actor_principal_id : string;
  av_change_ref : string; av_activated_at : string; av_activation_digest : string }.
#[export] Instance ActivationRecord_eq_dec : EqDecision ActivationRecord.
Proof. solve_decision. Defined.
Definition ActivationRecord_json (a : ActivationRecord) : json :=
  JObj [("activation_version", JStr "activation-record.v1"); ("pointer_id", JStr (av_pointer_id a));
        ("organization_id", JStr (av_organization_id a)); ("tenant_id", JStr (av_tenant_id a));
        ("operation", JStr (operation_str (av_operation a))); ("target_kind", JStr (target_kind_str (av_target_kind a)));
        ("target_id", JStr (av_target_id a)); ("target_version", JInt (av_target_version a));
        ("target_digest", JStr (av_target_digest a)); ("previous_target_version", null_or JInt (av_previous_target_version a));
        ("release_revision", JInt (av_release_revision a)); ("actor_principal_id", JStr (av_actor_principal_id a));
        ("change_ref", JStr (av_change_ref a)); ("activated_at", JStr (av_activated_at a))].
Definition validate_ActivationRecord (a : ActivationRecord) : result () :=
  _ ← check_fields [("activation_id", Identifier (av_activation_id a)); ("pointer_id", Identifier (av_pointer_id a));
        ("organization_id", Identifier (av_organization_id a)); ("tenant_id", Identifier (av_tenant_id a));
        ("target_id", Identifier (av_target_id a)); ("target_version", 1 <=? av_target_version a);
        ("target_digest", Digest (av_target_digest a)); ("previous_target_version", OptField (λ v, 1 <=? v) (av_previous_target_version a));
        ("release_revision", 1 <=? av_release_revision a); ("actor_principal_id", Identifier (av_actor_principal_id a));
        ("change_ref", OpaqueRef (av_change_ref a)); ("activated_at", Timestamp (av_activated_at a));
        ("activation_digest", Digest (av_activation_digest a))];
  in_validator (
    _ ← opaque_ref (av_change_ref a) "change_ref";
    _ ← raise_if (bool_decide (av_operation a = Rollback) && bool_decide (av_previous_target_version a = None))
          (ValueError "rollback activation requires a previous target");
    identity_is_stable "activation" "activation" (av_activation_id a)
      (activation_id_for (av_pointer_id a) (av_release_revision a) (av_activation_digest a))
      (av_activation_digest a) (ActivationRecord_json a)).

Record ReleaseMutation := mkReleaseMutation {
  mu_pointer_id : string; mu_organization_id : string; mu_tenant_id : string; mu_expected_revision : Z;
  mu_expected_pointer_digest : option string; mu_operation : ReleaseOperation; mu_target_kind : TargetKind; mu_target_id : string;
  mu_target_version : Z; mu_target_digest : string; mu_actor_principal_id : string; mu_change_ref : string }.
Definition validate_ReleaseMutation (m : ReleaseMutation) : result () :=
  _ ← check_fields [("pointer_id", Identifier (mu_pointer_id m)); ("organization_id", Identifier (mu_organization_id m));
        ("tenant_id", Identifier (mu_tenant_id m)); ("expected_revision", 0 <=? mu_expected_revision m);
        ("expected_pointer_digest", OptField Digest (mu_expected_pointer_digest m)); ("target_id", Identifier (mu_target_id m));
        ("target_version", 1 <=? mu_target_version m); ("target_digest", Digest (mu_target_digest m));
        ("actor_principal_id", Identifier (mu_actor_principal_id m)); ("change_ref", OpaqueRef (mu_change_ref m))];
  in_validator (
    _ ← opaque_ref (mu_change_ref m) "change_ref";
    raise_if ((mu_expected_revision m =? 0) && bool_decide (mu_expected_pointer_digest m ≠ None))
      (ValueError "an empty release pointer cannot have a prior digest")).

(** * Facts *)
Lemma lang_star_class f l : re_lang (RStar (RClass f)) l ↔ is_true_all f l.
Proof.
  split.
  - intros H. remember (RStar (RClass f)) as r eqn:E.
    induction H as [| | | | | |r' l1 l2 H1 _ _ IH| |]; simplify_eq; [constructor|]. inv H1. constructor; [done|by apply IH].
  - induction 1 as [|c l Hc _ IH]; [constructor|]. apply (lang_star_app _ [c] l); [by constructor|done].
Qed.
Lemma identifier_match s :
  re_match IDENTIFIER_RE s = true ↔ ∃ c l, chars s = c :: l ∧ alnum c = true ∧ is_true_all identifier_char l.
Proof.
  rewrite re_match_correct. split.
  - intros (l1 & l2 & E & H1 & H2)%lang_cat_inv. apply lang_star_class in H2. inv H1. by eexists _, _.
  - intros (c & l & -> & Hc & Hl). apply (lang_cat _ _ [c] l); [by constructor|]. by apply lang_star_class.
Qed.

(** Derived identities are identifiers. *)
Lemma hex_identifier c : hex_lower c = true → identifier_char c = true.
Proof. destruct c as [[] [] [] [] [] [] [] []]; done. Qed.
Lemma derived_Identifier prefix first rest :
  (∃ c l, chars prefix = c :: l ∧ alnum c = true ∧ is_true_all identifier_char l ∧ (length l ≤ 127)%nat) →
  Identifier (derived_id prefix first rest) = true.
Proof.
  intros (c & l & Ep & Hc & Hl & Hn). unfold Identifier, derived_id. set (h := hexdigest _).
  assert (length (chars h) = 64%nat) as Eh by apply hexdigest_length.
  apply andb_true_iff. split.
  - apply str_len_chars. rewrite chars_app, Ep. cbn [app length]. rewrite length_app. lia.
  - apply identifier_match. rewrite chars_app, Ep. exists c, (l ++ chars h). split; [done|]. split; [done|].
    apply Forall_app. split; [done|]. eapply Forall_impl; [apply hexdigest_lower|]. apply hex_identifier.
Qed.
Lemma digest_payload_Digest v : Digest (digest_payload v) = true.
Proof. apply canonical_digest_Digest. Qed.

(** The first part of a derived text, an identifier, can be told from it. *)
Definition separator : ascii := ascii_of_N 31.
Lemma Identifier_no_separator s : Identifier s = true → separator ∉ chars s.
Proof.
  intros [_ (c & l & -> & Hc & Hl)%identifier_match]%andb_true_iff [<-|Hin]%elem_of_cons; [done|].
  pose proof (proj1 (Forall_forall _ _) Hl _ Hin) as H. done.
Qed.
Lemma split_at_separator (x y l1 l2 : list ascii) : separator ∉ x → separator ∉ y → x ++ separator :: l1 = y ++ separator :: l2 → x = y.
Proof.
  revert y. induction x as [|a x IH]; intros [|b y] Hx Hy E; cbn in E; [done|..].
  - injection E as <- _. destruct Hy. by left.
  - injection E as -> _. destruct Hx. by left.
  - injection E as -> E. f_equal. apply IH; [set_solver|set_solver|done].
Qed.
Lemma joined_first t1 t2 p1 p2 rest1 rest2 : Identifier t1 = true → Identifier t2 = true →
  joined t1 (p1 :: rest1) = joined t2 (p2 :: rest2) → t1 = t2.
Proof.
  intros H1%Identifier_no_separator H2%Identifier_no_separator E%(f_equal chars). apply chars_inj.
  cbn [joined] in E. rewrite !chars_app in E. exact (split_at_separator (chars t1) (chars t2) _ _ H1 H2 E).
Qed.
