(* ===== verification/FoundationRepository.v ===== *)
(** The in-memory foundation repository, [InMemoryFoundationRepository] of
    [arbora/control_plane/foundation/service.py] (the protocol it implements is
    [foundation/repository.py]): scoped reads, immutable records, and the
    compare-and-swap of release pointers with their activation history. *)
From S2P Require Export FoundationModels.
Local Open Scope Z_scope.

Definition FoundationRepositoryError (code : string) : pyexn := PyExn ["FoundationRepositoryError"; "RuntimeError"] code "".
Definition ReleaseConflict (code : string) : pyexn :=
  PyExn ["ReleaseConflict"; "FoundationRepositoryError"; "RuntimeError"] code "".

Record Repository := mkRepository {
  organizations : gmap string OrganizationIdentity;
  tenants : gmap string TenantIdentity;
  principals : gmap string PrincipalIdentity;
  clients : gmap string ApiClientIdentity;
  retention_policies : gmap string RetentionPolicy;
  permissions : gmap string Permission;
  roles : gmap string Role;
  memberships : gmap string Membership;
  entitlements : gmap string Entitlement;
  quotas : gmap string QuotaContract;
  upstreams : gmap (string * Z) GatewayUpstreamVersion;
  routes : gmap (string * Z) GatewayRouteVersion;
  configs : gmap (string * Z) GatewayConfigVersion;
  features : gmap (string * Z) GatewayFeatureVersion;
  circuit_histories : gmap string CircuitHistory;
  tombstones : gmap (TargetKind * string * Z) TombstoneRecord;
  release_pointers : gmap string ReleasePointer;
  activation_history : gmap string (list ActivationRecord) }.
Definition new_repository : Repository := mkRepository ∅ ∅ ∅ ∅ ∅ ∅ ∅ ∅ ∅ ∅ ∅ ∅ ∅ ∅ ∅ ∅ ∅ ∅.

(** * Scopes *)

(** The organization and the tenant that a record belongs to *)
Definition owner : Type := string * string.
(** [_ScopedRecord] *)
Class Scoped (R : Type) := owner_of : R → owner.
Definition scope_owner (s : TenantScope) : owner := (ts_organization_id s, ts_tenant_id s).

#[export] Instance TenantIdentity_scoped : Scoped TenantIdentity := λ r, (tn_organization_id r, tn_tenant_id r).
#[export] Instance PrincipalIdentity_scoped : Scoped PrincipalIdentity := λ r, (pn_organization_id r, pn_tenant_id r).
#[export] Instance ApiClientIdentity_scoped : Scoped ApiClientIdentity := λ r, (ac_organization_id r, ac_tenant_id r).
#[export] Instance RetentionPolicy_scoped : Scoped RetentionPolicy := λ r, (rp_organization_id r, rp_tenant_id r).
#[export] Instance Permission_scoped : Scoped Permission := λ r, (pm_organization_id r, pm_tenant_id r).
#[export] Instance Role_scoped : Scoped Role := λ r, (rl_organization_id r, rl_tenant_id r).
#[export] Instance Membership_scoped : Scoped Membership := λ r, (mb_organization_id r, mb_tenant_id r).
#[export] Instance Entitlement_scoped : Scoped Entitlement := λ r, (en_organization_id r, en_tenant_id r).
#[export] Instance QuotaContract_scoped : Scoped QuotaContract := λ r, (qt_organization_id r, qt_tenant_id r).
#[export] Instance GatewayUpstreamVersion_scoped : Scoped GatewayUpstreamVersion := λ r, (up_organization_id r, up_tenant_id r).
#[export] Instance GatewayRouteVersion_scoped : Scoped GatewayRouteVersion := λ r, (rt_organization_id r, rt_tenant_id r).
#[export] Instance GatewayConfigVersion_scoped : Scoped GatewayConfigVersion := λ r, (cf_organization_id r, cf_tenant_id r).
#[export] Instance GatewayFeatureVersion_scoped : Scoped GatewayFeatureVersion := λ r, (ft_organization_id r, ft_tenant_id r).
#[export] Instance CircuitHistory_scoped : Scoped CircuitHistory := λ r, (ch_organization_id r, ch_tenant_id r).
#[export] Instance TombstoneRecord_scoped : Scoped TombstoneRecord := λ r, (tb_organization_id r, tb_tenant_id r).
#[export] Instance ReleasePointer_scoped : Scoped ReleasePointer := λ r, (pt_organization_id r, pt_tenant_id r).

(** [_scope_record] *)
Definition scope_record {R} `{Scoped R} (o : owner) (record : option R) : option R :=
  match record with
  | None => None
  | Some r => if bool_decide ((owner_of r).1 ≠ o.1) || bool_decide ((owner_of r).2 ≠ o.2) then None else Some r
  end.

(** * Tables *)

(** [_retain] *)
Definition retain {K R} `{Countable K, EqDecision R} (key : K) (value : R) : M (gmap K R) () :=
  mapping ← get_state;
  _ ← raise_if (match mapping !! key with Some prior => bool_decide (prior ≠ value) | None => false end)
        (FoundationRepositoryError "immutable foundation record mutation");
  put_state (<[key := value]> mapping).

(** One dict of the repository *)
Record table (K R : Type) `{Countable K} := Table {
  rows : Repository → gmap K R; set_rows : gmap K R → Repository → Repository }.
Arguments Table {K R _ _} _ _.
Arguments rows {K R _ _} _ _.
Arguments set_rows {K R _ _} _ _ _.

Definition organizations_table : table string OrganizationIdentity := Table organizations
  (λ x '(mkRepository a b c d e f g h i j k l m n o p q r), mkRepository x b c d e f g h i j k l m n o p q r).
Definition tenants_table : table string TenantIdentity := Table tenants
  (λ x '(mkRepository a b c d e f g h i j k l m n o p q r), mkRepository a x c d e f g h i j k l m n o p q r).
Definition principals_table : table string PrincipalIdentity := Table principals
  (λ x '(mkRepository a b c d e f g h i j k l m n o p q r), mkRepository a b x d e f g h i j k l m n o p q r).
Definition clients_table : table string ApiClientIdentity := Table clients
  (λ x '(mkRepository a b c d e f g h i j k l m n o p q r), mkRepository a b c x e f g h i j k l m n o p q r).
Definition retention_policies_table : table string RetentionPolicy := Table retention_policies
  (λ x '(mkRepository a b c d e f g h i j k l m n o p q r), mkRepository a b c d x f g h i j k l m n o p q r).
Definition permissions_table : table string Permission := Table permissions
  (λ x '(mkRepository a b c d e f g h i j k l m n o p q r), mkRepository a b c d e x g h i j k l m n o p q r).
Definition roles_table : table string Role := Table roles
  (λ x '(mkRepository a b c d e f g h i j k l m n o p q r), mkRepository a b c d e f x h i j k l m n o p q r).
Definition memberships_table : table string Membership := Table memberships
  (λ x '(mkRepository a b c d e f g h i j k l m n o p q r), mkRepository a b c d e f g x i j k l m n o p q r).
Definition entitlements_table : table string Entitlement := Table entitlements
  (λ x '(mkRepository a b c d e f g h i j k l m n o p q r), mkRepository a b c d e f g h x j k l m n o p q r).
Definition quotas_table : table string QuotaContract := Table quotas
  (λ x '(mkRepository a b c d e f g h i j k l m n o p q r), mkRepository a b c d e f g h i x k l m n o p q r).
Definition upstreams_table : table (string * Z) GatewayUpstreamVersion := Table upstreams
  (λ x '(mkRepository a b c d e f g h i j k l m n o p q r), mkRepository a b c d e f g h i j x l m n o p q r).
Definition routes_table : table (string * Z) GatewayRouteVersion := Table routes
  (λ x '(mkRepository a b c d e f g h i j k l m n o p q r), mkRepository a b c d e f g h i j k x m n o p q r).
Definition configs_table : table (string * Z) GatewayConfigVersion := Table configs
  (λ x '(mkRepository a b c d e f g h i j k l m n o p q r), mkRepository a b c d e f g h i j k l x n o p q r).
Definition features_table : table (string * Z) GatewayFeatureVersion := Table features
  (λ x '(mkRepository a b c d e f g h i j k l m n o p q r), mkRepository a b c d e f g h i j k l m x o p q r).
Definition circuit_histories_table : table string CircuitHistory := Table circuit_histories
  (λ x '(mkRepository a b c d e f g h i j k l m n o p q r), mkRepository a b c d e f g h i j k l m n x p q r).
Definition tombstones_table : table (TargetKind * string * Z) TombstoneRecord := Table tombstones
  (λ x '(mkRepository a b c d e f g h i j k l m n o p q r), mkRepository a b c d e f g h i j k l m n o x q r).
Definition release_pointers_table : table string ReleasePointer := Table release_pointers
  (λ x '(mkRepository a b c d e f g h i j k l m n o p q r), mkRepository a b c d e f g h i j k l m n o p x r).

Definition on_table {K R A} `{Countable K} (t : table K R) (m : M (gmap K R) A) : M Repository A := λ self,
  let '(r, x) := m (rows t self) in (r, set_rows t x self).
(** A scoped read *)
Definition get_scoped {K R} `{Countable K, Scoped R} (t : table K R) (scope : TenantScope) (key : K) : M Repository (option R) :=
  gets (λ self, scope_record (scope_owner scope) (rows t self !! key)).

Definition put_organization (r : OrganizationIdentity) : M Repository () := on_table organizations_table (retain (og_organization_id r) r).
Definition get_organization (organization_id : string) : M Repository (option OrganizationIdentity) :=
  gets (λ self, organizations self !! organization_id).
Definition put_tenant (r : TenantIdentity) : M Repository () := on_table tenants_table (retain (tn_tenant_id r) r).
Definition get_tenant (scope : TenantScope) (id : string) : M Repository (option TenantIdentity) := get_scoped tenants_table scope id.
Definition put_principal (r : PrincipalIdentity) : M Repository () := on_table principals_table (retain (pn_principal_id r) r).
Definition get_principal (scope : TenantScope) (id : string) : M Repository (option PrincipalIdentity) := get_scoped principals_table scope id.
Definition put_client (r : ApiClientIdentity) : M Repository () := on_table clients_table (retain (ac_client_id r) r).
Definition get_client (scope : TenantScope) (id : string) : M Repository (option ApiClientIdentity) := get_scoped clients_table scope id.
Definition put_retention_policy (r : RetentionPolicy) : M Repository () :=
  on_table retention_policies_table (retain (rp_retention_policy_id r) r).
Definition get_retention_policy (scope : TenantScope) (id : string) : M Repository (option RetentionPolicy) :=
  get_scoped retention_policies_table scope id.
Definition put_permission (r : Permission) : M Repository () := on_table permissions_table (retain (pm_permission_id r) r).
Definition get_permission (scope : TenantScope) (id : string) : M Repository (option Permission) := get_scoped permissions_table scope id.
Definition put_role (r : Role) : M Repository () := on_table roles_table (retain (rl_role_id r) r).
Definition get_role (scope : TenantScope) (id : string) : M Repository (option Role) := get_scoped roles_table scope id.
Definition put_membership (r : Membership) : M Repository () := on_table memberships_table (retain (mb_membership_id r) r).
Definition get_membership (scope : TenantScope) (id : string) : M Repository (option Membership) := get_scoped memberships_table scope id.
Definition put_entitlement (r : Entitlement) : M Repository () := on_table entitlements_table (retain (en_entitlement_id r) r).
Definition get_entitlement (scope : TenantScope) (id : string) : M Repository (option Entitlement) := get_scoped entitlements_table scope id.
Definition put_quota (r : QuotaContract) : M Repository () := on_table quotas_table (retain (qt_quota_id r) r).
Definition get_quota (scope : TenantScope) (id : string) : M Repository (option QuotaContract) := get_scoped quotas_table scope id.
Definition put_upstream (r : GatewayUpstreamVersion) : M Repository () := on_table upstreams_table (retain (up_upstream_id r, up_version r) r).
Definition get_upstream (scope : TenantScope) (id : string) (version : Z) : M Repository (option GatewayUpstreamVersion) :=
  get_scoped upstreams_table scope (id, version).
Definition put_route (r : GatewayRouteVersion) : M Repository () := on_table routes_table (retain (rt_route_id r, rt_version r) r).
Definition get_route (scope : TenantScope) (id : string) (version : Z) : M Repository (option GatewayRouteVersion) :=
  get_scoped routes_table scope (id, version).
Definition put_config (r : GatewayConfigVersion) : M Repository () := on_table configs_table (retain (cf_config_id r, cf_version r) r).
Definition get_config (scope : TenantScope) (id : string) (version : Z) : M Repository (option GatewayConfigVersion) :=
  get_scoped configs_table scope (id, version).
Definition put_feature (r : GatewayFeatureVersion) : M Repository () := on_table features_table (retain (ft_feature_id r, ft_version r) r).
Definition get_feature (scope : TenantScope) (id : string) (version : Z) : M Repository (option GatewayFeatureVersion) :=
  get_scoped features_table scope (id, version).
Definition put_circuit_history (r : CircuitHistory) : M Repository () := on_table circuit_histories_table (retain (ch_circuit_id r) r).
Definition put_tombstone (r : TombstoneRecord) : M Repository () :=
  on_table tombstones_table (retain (tb_resource_kind r, tb_resource_id r, tb_resource_version r) r).
Definition get_tombstone (scope : TenantScope) (kind : TargetKind) (id : string) (version : Z) : M Repository (option TombstoneRecord) :=
  get_scoped tombstones_table scope (kind, id, version).
Definition get_release_pointer (scope : TenantScope) (id : string) : M Repository (option ReleasePointer) :=
  get_scoped release_pointers_table scope id.

(** * Releases *)
Definition history_at (id : string) (self : Repository) : list ActivationRecord := default [] (activation_history self !! id).
Definition get_activation_history (scope : TenantScope) (pointer_id : string) : M Repository (list ActivationRecord) :=
  gets (λ self, match scope_record (scope_owner scope) (release_pointers self !! pointer_id) with
                | None => [] | Some _ => history_at pointer_id self end).
Definition has_activation_target (scope : TenantScope) (pointer_id : string) (target_version : Z) : M Repository bool :=
  history ← get_activation_history scope pointer_id;
  mret (existsb (λ event, av_target_version event =? target_version) history).

Definition assert_cas_identity (p : ReleasePointer) (m : ReleaseMutation) (a : ActivationRecord) : result () :=
  raise_if (bool_decide (pt_pointer_id p ≠ mu_pointer_id m) || bool_decide (av_pointer_id a ≠ pt_pointer_id p))
    (FoundationRepositoryError "release CAS record identity mismatch").
Definition assert_cas_scope (s : TenantScope) (p : ReleasePointer) (m : ReleaseMutation) : result () :=
  raise_if (bool_decide (pt_organization_id p ≠ ts_organization_id s) || bool_decide (pt_tenant_id p ≠ ts_tenant_id s) ||
            bool_decide (mu_organization_id m ≠ ts_organization_id s) || bool_decide (mu_tenant_id m ≠ ts_tenant_id s))
    (FoundationRepositoryError "release CAS scope mismatch").
Definition assert_cas_target (m : ReleaseMutation) (p : ReleasePointer) (a : ActivationRecord) : result () :=
  raise_if (bool_decide (mu_operation m ≠ av_operation a) || bool_decide (mu_target_kind m ≠ pt_target_kind p) ||
            bool_decide (mu_target_id m ≠ pt_target_id p) || bool_decide (mu_target_version m ≠ pt_target_version p) ||
            bool_decide (mu_target_digest m ≠ pt_target_digest p) || bool_decide (av_target_digest a ≠ pt_target_digest p) ||
            bool_decide (av_release_revision a ≠ pt_revision p))
    (FoundationRepositoryError "release CAS target mismatch").

Definition revision_of (current : option ReleasePointer) : Z := from_option pt_revision 0 current.
Definition assert_cas_revision (m : ReleaseMutation) (p : ReleasePointer) : M Repository () :=
  current ← gets (λ self, release_pointers self !! pt_pointer_id p);
  _ ← raise_if (bool_decide (mu_expected_revision m ≠ revision_of current) ||
                bool_decide (mu_expected_pointer_digest m ≠ pt_pointer_digest <$> current))
        (ReleaseConflict "release pointer CAS conflict");
  raise_if (bool_decide (pt_revision p ≠ revision_of current + 1))
    (FoundationRepositoryError "release pointer revision is not monotonic").

Definition cas_prior_event (p : ReleasePointer) (a : ActivationRecord) : M Repository (option ActivationRecord) :=
  prior_event ← gets (λ self, find (λ event, bool_decide (av_activation_id event = av_activation_id a)) (history_at (pt_pointer_id p) self));
  _ ← raise_if (match prior_event with Some prior => bool_decide (prior ≠ a) | None => false end)
        (FoundationRepositoryError "activation evidence mutation");
  mret prior_event.

Definition set_pointer (p : ReleasePointer) (self : Repository) : Repository :=
  set_rows release_pointers_table (<[pt_pointer_id p := p]> (release_pointers self)) self.
(** [self.activation_history.setdefault(id, []).append(activation)] *)
Definition append_activation (id : string) (activation : ActivationRecord) (self : Repository) : Repository :=
  let '(mkRepository a b c d e f g h i j k l m n o p q r) := self in
  mkRepository a b c d e f g h i j k l m n o p q (<[id := default [] (r !! id) ++ [activation]]> r).

Definition compare_and_swap_release (s : TenantScope) (m : ReleaseMutation) (p : ReleasePointer) (a : ActivationRecord) :
    M Repository ReleasePointer :=
  _ ← lift (assert_cas_identity p m a);
  _ ← lift (assert_cas_scope s p m);
  _ ← lift (assert_cas_target m p a);
  _ ← assert_cas_revision m p;
  prior_event ← cas_prior_event p a;
  _ ← modify (set_pointer p);
  _ ← match prior_event with None => modify (append_activation (pt_pointer_id p) a) | Some _ => mret () end;
  mret p.
