(* ===== verification/FoundationService.v ===== *)
(** The foundation service, [FoundationControlPlane] of
    [arbora/control_plane/foundation/service.py], over the in-memory
    repository.

    [Activate] requests carry their arguments as [_ActivationRequest] bundles
    them; the operation is the string that [activate] is given. *)
From S2P Require Export FoundationRepository.
Local Open Scope Z_scope.

Definition FoundationLifecycleError (code : string) : pyexn := PyExn ["FoundationLifecycleError"; "ValueError"] code "".

Record ActivationRequest := mkRequest {
  aq_target_kind : TargetKind; aq_target_id : string; aq_target_version : Z; aq_actor_principal_id : string;
  aq_expected_revision : Z; aq_expected_pointer_digest : option string; aq_change_ref : string; aq_activated_at : string;
  aq_operation : string }.
Record ReleaseTarget := mkTarget {
  rg_target_kind : TargetKind; rg_target_id : string; rg_target_version : Z; rg_target_digest : string }.

(** * Scopes *)
Definition assert_scope_principal (scope : TenantScope) : M Repository () :=
  principal ← get_principal scope (ts_principal_id scope);
  principal ← require principal (FoundationLifecycleError "scope_principal_unavailable");
  _ ← raise_if (negb (active (pn_lifecycle principal))) (FoundationLifecycleError "scope_principal_not_active");
  match ts_client_id scope with
  | None => mret ()
  | Some client_id =>
      client ← get_client scope client_id;
      raise_if (match client with None => true | Some c => bool_decide (ac_principal_id c ≠ ts_principal_id scope) end)
        (FoundationLifecycleError "scope_client_mismatch")
  end.

Definition require_tenant_scope (scope : TenantScope) (o : owner) (require_principal : bool) : M Repository TenantIdentity :=
  _ ← raise_if (bool_decide (ts_organization_id scope ≠ o.1) || bool_decide (ts_tenant_id scope ≠ o.2))
        (FoundationLifecycleError "cross_tenant_scope");
  tenant ← get_tenant scope o.2;
  tenant ← require tenant (FoundationLifecycleError "tenant_unavailable");
  _ ← raise_if (negb (active (tn_lifecycle tenant))) (FoundationLifecycleError "tenant_not_active");
  _ ← (if require_principal then assert_scope_principal scope else mret ());
  mret tenant.

Definition require_subject (scope : TenantScope) (kind : SubjectKind) (subject_id : string) : M Repository () :=
  match kind with
  | SubjectTenant => raise_if (bool_decide (subject_id ≠ ts_tenant_id scope)) (FoundationLifecycleError "cross_tenant_subject")
  | SubjectPrincipal =>
      principal ← get_principal scope subject_id;
      _ ← require principal (FoundationLifecycleError "subject_scope_or_missing"); mret ()
  | SubjectClient =>
      client ← get_client scope subject_id;
      _ ← require client (FoundationLifecycleError "subject_scope_or_missing"); mret ()
  end.

(** * Gateway versions of any kind *)
Inductive GatewayVersion :=
  | UpstreamVersion (r : GatewayUpstreamVersion) | RouteVersion (r : GatewayRouteVersion)
  | ConfigVersion (r : GatewayConfigVersion) | FeatureVersion (r : GatewayFeatureVersion).
Definition version_lifecycle (v : GatewayVersion) : LifecycleState :=
  match v with
  | UpstreamVersion r => up_lifecycle r | RouteVersion r => rt_lifecycle r
  | ConfigVersion r => cf_lifecycle r | FeatureVersion r => ft_lifecycle r
  end.
Definition version_digest (v : GatewayVersion) : string :=
  match v with
  | UpstreamVersion r => up_record_digest r | RouteVersion r => rt_record_digest r
  | ConfigVersion r => cf_record_digest r | FeatureVersion r => ft_record_digest r
  end.

Definition lookup_version (scope : TenantScope) (kind : TargetKind) (target_id : string) (target_version : Z) :
    M Repository (option GatewayVersion) :=
  match kind with
  | Upstream => r ← get_upstream scope target_id target_version; mret (UpstreamVersion <$> r)
  | Route => r ← get_route scope target_id target_version; mret (RouteVersion <$> r)
  | Config => r ← get_config scope target_id target_version; mret (ConfigVersion <$> r)
  | Feature => r ← get_feature scope target_id target_version; mret (FeatureVersion <$> r)
  end.

Definition get_version (scope : TenantScope) (reference : GatewayVersionRef) : M Repository (option GatewayVersion) :=
  if bool_decide (vr_organization_id reference ≠ ts_organization_id scope) || bool_decide (vr_tenant_id reference ≠ ts_tenant_id scope)
  then mret None
  else
    target ← lookup_version scope (vr_target_kind reference) (vr_target_id reference) (vr_target_version reference);
    mret (match target with
          | Some v => if bool_decide (version_digest v ≠ vr_target_digest reference) then None else Some v
          | None => None
          end).

(** The reference by which a config or a feature names a version. No method of
    the service calls it. *)
Definition version_ref (scope : TenantScope) (kind : TargetKind) (target_id : string) (target_version : Z) (target_digest : string) :
    result GatewayVersionRef :=
  let make d := mkVersionRef (ts_organization_id scope) (ts_tenant_id scope) kind target_id target_version target_digest d in
  construct validate_GatewayVersionRef (make (digest_payload (JObj (version_ref_fields (make ""))))).

(** * Registration *)
Definition register_organization (r : OrganizationIdentity) : M Repository () := put_organization r.

Definition register_tenant (r : TenantIdentity) : M Repository () :=
  organization ← get_organization (tn_organization_id r);
  organization ← require organization (FoundationLifecycleError "organization_unavailable");
  _ ← raise_if (negb (active (og_lifecycle organization))) (FoundationLifecycleError "organization_not_active");
  put_tenant r.

Definition register_principal (scope : TenantScope) (r : PrincipalIdentity) : M Repository () :=
  _ ← require_tenant_scope scope (owner_of r) false;
  put_principal r.

Definition register_client (scope : TenantScope) (r : ApiClientIdentity) : M Repository () :=
  _ ← require_tenant_scope scope (owner_of r) true;
  _ ← raise_if (bool_decide (ac_principal_id r ≠ ts_principal_id scope)) (FoundationLifecycleError "client_principal_scope_mismatch");
  principal ← get_principal scope (ac_principal_id r);
  principal ← require principal (FoundationLifecycleError "client_principal_unavailable");
  _ ← raise_if (negb (active (pn_lifecycle principal))) (FoundationLifecycleError "client_principal_not_active");
  put_client r.

Definition register_retention_policy (scope : TenantScope) (r : RetentionPolicy) : M Repository () :=
  _ ← require_tenant_scope scope (owner_of r) true;
  put_retention_policy r.

Definition register_permission (scope : TenantScope) (r : Permission) : M Repository () :=
  _ ← require_tenant_scope scope (owner_of r) true;
  put_permission r.

(** The loop of [register_role] *)
Fixpoint check_permissions (scope : TenantScope) (permission_ids : list string) : M Repository () :=
  match permission_ids with
  | [] => mret ()
  | permission_id :: permission_ids =>
      permission ← get_permission scope permission_id;
      _ ← require permission (FoundationLifecycleError "role_permission_scope_or_missing");
      check_permissions scope permission_ids
  end.
Definition register_role (scope : TenantScope) (r : Role) : M Repository () :=
  _ ← require_tenant_scope scope (owner_of r) true;
  _ ← check_permissions scope (rl_permission_ids r);
  put_role r.

Definition register_membership (scope : TenantScope) (r : Membership) : M Repository () :=
  _ ← require_tenant_scope scope (owner_of r) true;
  principal ← get_principal scope (mb_principal_id r);
  role ← get_role scope (mb_role_id r);
  principal ← require principal (FoundationLifecycleError "membership_scope_or_reference_missing");
  role ← require role (FoundationLifecycleError "membership_scope_or_reference_missing");
  _ ← raise_if (negb (active (pn_lifecycle principal)) || negb (active (rl_lifecycle role)))
        (FoundationLifecycleError "membership_reference_not_active");
  put_membership r.

Definition register_entitlement (scope : TenantScope) (r : Entitlement) : M Repository () :=
  _ ← require_tenant_scope scope (owner_of r) true;
  _ ← require_subject scope (en_subject_kind r) (en_subject_id r);
  put_entitlement r.

Definition register_quota (scope : TenantScope) (r : QuotaContract) : M Repository () :=
  _ ← require_tenant_scope scope (owner_of r) true;
  _ ← require_subject scope (qt_subject_kind r) (qt_subject_id r);
  put_quota r.

Definition register_upstream (scope : TenantScope) (r : GatewayUpstreamVersion) : M Repository () :=
  _ ← require_tenant_scope scope (owner_of r) true;
  put_upstream r.

Definition register_route (scope : TenantScope) (r : GatewayRouteVersion) : M Repository () :=
  _ ← require_tenant_scope scope (owner_of r) true;
  upstream ← get_upstream scope (rt_upstream_id r) (rt_upstream_version r);
  _ ← raise_if (match upstream with None => true | Some u => negb (active (up_lifecycle u)) end)
        (FoundationLifecycleError "route_upstream_scope_or_version_missing");
  put_route r.

(** The loop of [register_config] *)
Fixpoint check_components (scope : TenantScope) (components : list GatewayVersionRef) : M Repository () :=
  match components with
  | [] => mret ()
  | component :: components =>
      _ ← raise_if (bool_decide (vr_target_kind component ∉ [Route; Upstream])) (FoundationLifecycleError "config_component_kind_not_allowed");
      component_record ← get_version scope component;
      _ ← raise_if (match component_record with None => true | Some v => negb (active (version_lifecycle v)) end)
            (FoundationLifecycleError "config_component_scope_or_version_missing");
      check_components scope components
  end.
Definition register_config (scope : TenantScope) (r : GatewayConfigVersion) : M Repository () :=
  _ ← require_tenant_scope scope (owner_of r) true;
  _ ← check_components scope (cf_component_refs r);
  put_config r.

Definition register_feature (scope : TenantScope) (r : GatewayFeatureVersion) : M Repository () :=
  _ ← require_tenant_scope scope (owner_of r) true;
  _ ← match ft_config_ref r with
      | None => mret ()
      | Some config_ref =>
          config ← get_version scope config_ref;
          raise_if (match config with None => true | Some v => negb (active (version_lifecycle v)) end)
            (FoundationLifecycleError "feature_config_scope_or_version_missing")
      end;
  put_feature r.

Definition register_circuit_history (scope : TenantScope) (r : CircuitHistory) : M Repository () :=
  _ ← require_tenant_scope scope (owner_of r) true;
  put_circuit_history r.

Definition register_tombstone (scope : TenantScope) (r : TombstoneRecord) : M Repository () :=
  _ ← require_tenant_scope scope (owner_of r) true;
  policy ← get_retention_policy scope (tb_retention_policy_ref r);
  _ ← require policy (FoundationLifecycleError "tombstone_retention_policy_missing");
  target ← lookup_version scope (tb_resource_kind r) (tb_resource_id r) (tb_resource_version r);
  _ ← require target (FoundationLifecycleError "tombstone_target_scope_or_version_missing");
  pointer ← get_release_pointer scope (release_pointer_id (ts_tenant_id scope) (tb_resource_kind r) (tb_resource_id r));
  _ ← raise_if (match pointer with Some p => pt_target_version p =? tb_resource_version r | None => false end)
        (FoundationLifecycleError "active_release_cannot_be_tombstoned");
  put_tombstone r.

(** * Releases *)
Definition resolve_release_operation (operation : string) : result ReleaseOperation :=
  if String.eqb operation "activate" then Ok Activate
  else if String.eqb operation "rollback" then Ok Rollback
  else Raise (FoundationLifecycleError "unknown_release_operation").

Definition assert_release_actor (scope : TenantScope) (actor_principal_id : string) : M Repository () :=
  _ ← raise_if (bool_decide (actor_principal_id ≠ ts_principal_id scope)) (FoundationLifecycleError "release_actor_scope_mismatch");
  principal ← get_principal scope actor_principal_id;
  raise_if (match principal with None => true | Some p => negb (active (pn_lifecycle p)) end)
    (FoundationLifecycleError "release_actor_not_active_in_scope").

Definition resolve_release_target (scope : TenantScope) (kind : TargetKind) (target_id : string) (target_version : Z) :
    M Repository GatewayVersion :=
  target ← lookup_version scope kind target_id target_version;
  target ← require target (FoundationLifecycleError "release_target_scope_or_version_missing");
  _ ← raise_if (negb (active (version_lifecycle target))) (FoundationLifecycleError "release_target_not_active");
  tombstone ← get_tombstone scope kind target_id target_version;
  _ ← raise_if (bool_decide (tombstone ≠ None)) (FoundationLifecycleError "release_target_tombstoned");
  mret target.

Definition pointer_cas_state (scope : TenantScope) (pointer_id : string) (expected_revision : Z)
    (expected_pointer_digest : option string) (target_version : Z) : M Repository (option ReleasePointer * Z) :=
  current ← get_release_pointer scope pointer_id;
  _ ← raise_if (bool_decide (expected_revision ≠ revision_of current) ||
                bool_decide (expected_pointer_digest ≠ pt_pointer_digest <$> current))
        (FoundationLifecycleError "release_pointer_stale_cas");
  _ ← raise_if (match current with Some p => pt_target_version p =? target_version | None => false end)
        (FoundationLifecycleError "release_target_already_active");
  mret (current, revision_of current + 1).

Definition assert_rollback_valid (scope : TenantScope) (pointer_id operation : string) (current : option ReleasePointer)
    (target_version : Z) : M Repository () :=
  if negb (String.eqb operation "rollback") then mret ()
  else
    _ ← require current (FoundationLifecycleError "rollback_requires_existing_release");
    known ← has_activation_target scope pointer_id target_version;
    raise_if (negb known) (FoundationLifecycleError "rollback_target_not_in_history").

(** The records of a release, with their digests *)
Definition pointer_with_digest (p : ReleasePointer) : ReleasePointer :=
  let '(mkPointer i o t k id v d r u _) := p in mkPointer i o t k id v d r u (digest_payload (ReleasePointer_json p)).
Definition build_release_pointer (scope : TenantScope) (pointer_id : string) (target : ReleaseTarget) (next_revision : Z)
    (actor_principal_id : string) : result ReleasePointer :=
  construct validate_ReleasePointer (pointer_with_digest
    (mkPointer pointer_id (ts_organization_id scope) (ts_tenant_id scope) (rg_target_kind target) (rg_target_id target)
       (rg_target_version target) (rg_target_digest target) next_revision actor_principal_id "")).

Definition activation_with_digest (a : ActivationRecord) : ActivationRecord :=
  let digest := digest_payload (ActivationRecord_json a) in
  let '(mkActivation _ p o t op k id v d pv r ac c at_ _) := a in
  mkActivation (activation_id_for p r digest) p o t op k id v d pv r ac c at_ digest.
Definition build_activation_record (scope : TenantScope) (pointer_id : string) (target : ReleaseTarget) (req : ActivationRequest)
    (release_operation : ReleaseOperation) (previous_target_version : option Z) (next_revision : Z) : result ActivationRecord :=
  construct validate_ActivationRecord (activation_with_digest
    (mkActivation "" pointer_id (ts_organization_id scope) (ts_tenant_id scope) release_operation (rg_target_kind target)
       (rg_target_id target) (rg_target_version target) (rg_target_digest target) previous_target_version next_revision
       (aq_actor_principal_id req) (aq_change_ref req) (aq_activated_at req) "")).

Definition build_release_mutation (scope : TenantScope) (pointer_id : string) (target : ReleaseTarget) (req : ActivationRequest)
    (release_operation : ReleaseOperation) : result ReleaseMutation :=
  construct validate_ReleaseMutation
    (mkReleaseMutation pointer_id (ts_organization_id scope) (ts_tenant_id scope) (aq_expected_revision req)
       (aq_expected_pointer_digest req) release_operation (rg_target_kind target) (rg_target_id target) (rg_target_version target)
       (rg_target_digest target) (aq_actor_principal_id req) (aq_change_ref req)).

Definition apply_cas (scope : TenantScope) (m : ReleaseMutation) (p : ReleasePointer) (a : ActivationRecord) :
    M Repository (ReleasePointer * ActivationRecord) := λ self,
  match compare_and_swap_release scope m p a self with
  | (Raise exc, self') =>
      (Raise (if isinstance exc "ReleaseConflict" then FoundationLifecycleError "release_pointer_stale_cas" else exc), self')
  | (Ok applied, self') =>
      if bool_decide (applied ≠ p) then (Raise (FoundationRepositoryError "repository returned a different release pointer"), self')
      else (Ok (p, a), self')
  end.

Definition activate (scope : TenantScope) (req : ActivationRequest) : M Repository (ReleasePointer * ActivationRecord) :=
  release_operation ← lift (resolve_release_operation (aq_operation req));
  _ ← assert_release_actor scope (aq_actor_principal_id req);
  target ← resolve_release_target scope (aq_target_kind req) (aq_target_id req) (aq_target_version req);
  let target_ref := mkTarget (aq_target_kind req) (aq_target_id req) (aq_target_version req) (version_digest target) in
  let pointer_id := release_pointer_id (ts_tenant_id scope) (aq_target_kind req) (aq_target_id req) in
  state ← pointer_cas_state scope pointer_id (aq_expected_revision req) (aq_expected_pointer_digest req) (aq_target_version req);
  let '(current, next_revision) := state in
  _ ← assert_rollback_valid scope pointer_id (aq_operation req) current (aq_target_version req);
  pointer ← lift (build_release_pointer scope pointer_id target_ref next_revision (aq_actor_principal_id req));
  activation ← lift (build_activation_record scope pointer_id target_ref req release_operation (pt_target_version <$> current) next_revision);
  mutation ← lift (build_release_mutation scope pointer_id target_ref req release_operation);
  apply_cas scope mutation pointer activation.

(** * Calls *)
Inductive call :=
  | RegisterOrganization (r : OrganizationIdentity)
  | RegisterTenant (r : TenantIdentity)
  | RegisterPrincipal (scope : TenantScope) (r : PrincipalIdentity)
  | RegisterClient (scope : TenantScope) (r : ApiClientIdentity)
  | RegisterRetentionPolicy (scope : TenantScope) (r : RetentionPolicy)
  | RegisterPermission (scope : TenantScope) (r : Permission)
  | RegisterRole (scope : TenantScope) (r : Role)
  | RegisterMembership (scope : TenantScope) (r : Membership)
  | RegisterEntitlement (scope : TenantScope) (r : Entitlement)
  | RegisterQuota (scope : TenantScope) (r : QuotaContract)
  | RegisterUpstream (scope : TenantScope) (r : GatewayUpstreamVersion)
  | RegisterRoute (scope : TenantScope) (r : GatewayRouteVersion)
  | RegisterConfig (scope : TenantScope) (r : GatewayConfigVersion)
  | RegisterFeature (scope : TenantScope) (r : GatewayFeatureVersion)
  | RegisterCircuitHistory (scope : TenantScope) (r : CircuitHistory)
  | RegisterTombstone (scope : TenantScope) (r : TombstoneRecord)
  | ActivateRelease (scope : TenantScope) (req : ActivationRequest).

Definition quietly (m : M Repository ()) : M Repository (option (ReleasePointer * ActivationRecord)) := _ ← m; mret None.
Definition run_call (c : call) : M Repository (option (ReleasePointer * ActivationRecord)) :=
  match c with
  | RegisterOrganization r => quietly (register_organization r)
  | RegisterTenant r => quietly (register_tenant r)
  | RegisterPrincipal s r => quietly (register_principal s r)
  | RegisterClient s r => quietly (register_client s r)
  | RegisterRetentionPolicy s r => quietly (register_retention_policy s r)
  | RegisterPermission s r => quietly (register_permission s r)
  | RegisterRole s r => quietly (register_role s r)
  | RegisterMembership s r => quietly (register_membership s r)
  | RegisterEntitlement s r => quietly (register_entitlement s r)
  | RegisterQuota s r => quietly (register_quota s r)
  | RegisterUpstream s r => quietly (register_upstream s r)
  | RegisterRoute s r => quietly (register_route s r)
  | RegisterConfig s r => quietly (register_config s r)
  | RegisterFeature s r => quietly (register_feature s r)
  | RegisterCircuitHistory s r => quietly (register_circuit_history s r)
  | RegisterTombstone s r => quietly (register_tombstone s r)
  | ActivateRelease s req => r ← activate s req; mret (Some r)
  end.

(** The outcomes of a sequence of calls, and the repository after it *)
Fixpoint run_calls (calls : list call) (w : Repository) :
    list (result (option (ReleasePointer * ActivationRecord))) * Repository :=
  match calls with
  | [] => ([], w)
  | c :: calls => let '(r, w') := run_call c w in let '(rs, w'') := run_calls calls w' in (r :: rs, w'')
  end.
