(* ===== verification/FoundationSafety.v ===== *)
(** What every repository reached by the foundation service satisfies.

    Records are only ever added ([grows]); each is stored under its own key, was
    accepted by its validator, belongs to a registered tenant and refers to
    records of that tenant ([row_ok]); each release pointer stands at the end of
    a linear history and targets a version that is live ([release_ok]). *)
From S2P Require Export FoundationService.
From S2P Require Import Sha256.
From stdpp Require Import pretty.
From Stdlib Require Import Lia.
Local Open Scope Z_scope.

(** * Reads *)
Lemma scope_record_ok {R} `{Scoped R} o (x : option R) r : scope_record o x = Some r ↔ x = Some r ∧ owner_of r = o.
Proof.
  unfold scope_record. destruct x as [r'|]; [|by split; [|intros [? _]]]. destruct (owner_of r') as [a b] eqn:E, o as [c d]; cbn.
  destruct (decide (a = c)) as [->|Hne]; [|rewrite bool_decide_eq_true_2 by done; split; [done|intros [[= ->] Eo]; congruence]].
  destruct (decide (b = d)) as [->|Hne]; [|rewrite bool_decide_eq_false_2, bool_decide_eq_true_2 by (done || tauto); split; [done|intros [[= ->] Eo]; congruence]].
  rewrite !bool_decide_eq_false_2 by tauto. cbn. split; [by intros [= ->]|by intros [[= ->] _]].
Qed.

(** A row of [t] that belongs to [o] *)
Definition holds {K R} `{Countable K, Scoped R} (w : Repository) (o : owner) (t : table K R) (k : K) (P : R → Prop) : Prop :=
  ∃ r, rows t w !! k = Some r ∧ owner_of r = o ∧ P r.
Definition present {R} (r : R) : Prop := True.
Definition is_active (l : LifecycleState) : Prop := lc_status l = Active.
Lemma active_ok l : active l = true ↔ is_active l.
Proof. apply bool_decide_eq_true. Qed.

Lemma get_scoped_ok {K R} `{Countable K, Scoped R} (t : table K R) s k w r w' :
  get_scoped t s k w = (Ok (Some r), w') → w' = w ∧ rows t w !! k = Some r ∧ owner_of r = scope_owner s.
Proof. unfold get_scoped, gets. intros [= E ->]. by apply scope_record_ok in E. Qed.

(** The organization and the tenant are registered and the tenant is active. *)
Definition tenant_ok (w : Repository) (o : owner) : Prop := holds w o tenants_table o.2 (λ t, is_active (tn_lifecycle t)).
Definition principal_ok (w : Repository) (s : TenantScope) : Prop :=
  holds w (scope_owner s) principals_table (ts_principal_id s) (λ p, is_active (pn_lifecycle p)) ∧
  ∀ id, ts_client_id s = Some id → holds w (scope_owner s) clients_table id (λ c, ac_principal_id c = ts_principal_id s).

(** Computations that only read *)
Definition reads {A} (m : M Repository A) : Prop := ∀ w, (m w).2 = w.
Lemma reads_ok {A} (m : M Repository A) w a w' : reads m → m w = (a, w') → w' = w.
Proof. intros Hm E. specialize (Hm w). by rewrite E in Hm. Qed.
Lemma reads_ret {A} (a : A) : reads (mret a).
Proof. done. Qed.
Lemma reads_throw {A} (e : pyexn) : reads (mthrow e : M Repository A).
Proof. done. Qed.
Lemma reads_gets {A} (f : Repository → A) : reads (gets f).
Proof. done. Qed.
Lemma reads_lift {A} (x : result A) : reads (lift x).
Proof. done. Qed.
Lemma reads_raise_if b e : reads (raise_if b e).
Proof. by destruct b. Qed.
Lemma reads_require {A} (o : option A) e : reads (require o e).
Proof. by destruct o. Qed.
Lemma reads_bind {A B} (m : M Repository A) (k : A → M Repository B) : reads m → (∀ a, reads (k a)) → reads (m ≫= k).
Proof. intros Hm Hk w. specialize (Hm w). unfold mbind, M_bind. destruct (m w) as [[a|e] w'] eqn:E; cbn in Hm; subst; [apply Hk|done]. Qed.
Create HintDb reads.
#[export] Hint Resolve reads_ret reads_throw reads_gets reads_lift reads_raise_if reads_require : reads.
Ltac read := repeat first
  [ solve [auto 2 with reads] | progress cbv zeta
  | match goal with |- reads (mbind _ _) => apply reads_bind; [|intros ?] end | case_match ].

Lemma get_scoped_reads {K R} `{Countable K, Scoped R} (t : table K R) s k : reads (get_scoped t s k).
Proof. apply reads_gets. Qed.
#[export] Hint Extern 1 (reads _) => apply get_scoped_reads : reads.

Lemma assert_scope_principal_reads s : reads (assert_scope_principal s).
Proof. unfold assert_scope_principal. read. Qed.
#[export] Hint Resolve assert_scope_principal_reads : reads.
Lemma require_tenant_scope_reads s o b : reads (require_tenant_scope s o b).
Proof. unfold require_tenant_scope. read. Qed.
Lemma require_subject_reads s k i : reads (require_subject s k i).
Proof. unfold require_subject. read. Qed.
Lemma lookup_version_reads s k i v : reads (lookup_version s k i v).
Proof. unfold lookup_version. read. Qed.
#[export] Hint Resolve require_tenant_scope_reads require_subject_reads lookup_version_reads : reads.
Lemma get_version_reads s r : reads (get_version s r).
Proof. unfold get_version. read. Qed.
#[export] Hint Resolve get_version_reads : reads.
Lemma check_permissions_reads s ids : reads (check_permissions s ids).
Proof. induction ids; cbn; read. Qed.
Lemma check_components_reads s cs : reads (check_components s cs).
Proof. induction cs; cbn; read. Qed.
#[export] Hint Resolve check_permissions_reads check_components_reads : reads.

(** ** Inversion of successful methods *)
Lemma get_scoped_run {K R} `{Countable K, Scoped R} (t : table K R) s k w x w' :
  get_scoped t s k w = (Ok x, w') → x = scope_record (scope_owner s) (rows t w !! k) ∧ w' = w.
Proof. by intros [= <- <-]. Qed.

(** Collects what the checks of a successful run have established *)
Ltac same_state Hw :=
  lazymatch type of Hw with
  | ?a = ?a => clear Hw
  | ?a = ?b => first [is_var a; subst a | is_var b; subst b]
  end.
Ltac run_step :=
  let Hw := fresh "Hw" in
  match goal with
  | H : raise_if (M := M _) _ _ _ = (Ok ?u, _) |- _ => destruct u; apply raise_if_run in H as [H Hw]; same_state Hw
  | H : require (M := M _) _ _ _ = (Ok _, _) |- _ => apply require_run in H as [H Hw]; same_state Hw
  | H : get_scoped _ _ _ _ = (Ok _, _) |- _ => apply get_scoped_run in H as [-> Hw]; same_state Hw
  | H : scope_record _ _ = Some _ |- _ => apply scope_record_ok in H as [H ?]
  | H : active _ = true |- _ => apply active_ok in H
  | H : Some _ = Some _ |- _ => injection H as H
  | H : ?m ?w = (_, ?w') |- _ => is_var w'; assert_fails (unify w w');
      pose proof (reads_ok m w _ w' ltac:(solve [read]) H) as Hw; same_state Hw
  end.
Ltac checks := unfold get_tenant, get_principal, get_client, get_retention_policy, get_permission, get_role, get_upstream,
  get_route, get_config, get_feature, get_tombstone, get_release_pointer in *; repeat first [guard_step | run_step].

Lemma assert_scope_principal_ok s w u w' : assert_scope_principal s w = (Ok u, w') → principal_ok w s.
Proof.
  intros E. unfold assert_scope_principal in E. checks. split; [by eexists|]. intros id Hid. rewrite Hid in E. checks.
  destruct (scope_record _ _) as [c|] eqn:Ec; [|done]. checks. by exists c.
Qed.
Lemma require_tenant_scope_ok s o b w t w' : require_tenant_scope s o b w = (Ok t, w') →
  w' = w ∧ scope_owner s = o ∧ tenant_ok w o ∧ (b = true → principal_ok w s).
Proof.
  intros E. pose proof (reads_ok _ _ _ _ (require_tenant_scope_reads s o b) E) as ->. split; [done|].
  unfold require_tenant_scope in E. checks.
  assert (scope_owner s = o) as <- by (destruct o; unfold scope_owner; cbn in *; congruence).
  split; [done|]. split; [by eexists|]. intros ->. by eapply assert_scope_principal_ok.
Qed.

(** * References *)
Definition subject_ok (w : Repository) (o : owner) (kind : SubjectKind) (id : string) : Prop :=
  match kind with
  | SubjectTenant => id = o.2
  | SubjectPrincipal => holds w o principals_table id present
  | SubjectClient => holds w o clients_table id present
  end.
Definition version_ok (w : Repository) (o : owner) (kind : TargetKind) (id : string) (v : Z) (P : GatewayVersion → Prop) : Prop :=
  match kind with
  | Upstream => holds w o upstreams_table (id, v) (λ r, P (UpstreamVersion r))
  | Route => holds w o routes_table (id, v) (λ r, P (RouteVersion r))
  | Config => holds w o configs_table (id, v) (λ r, P (ConfigVersion r))
  | Feature => holds w o features_table (id, v) (λ r, P (FeatureVersion r))
  end.
(** An active version, by its digest *)
Definition live (digest : string) (v : GatewayVersion) : Prop := is_active (version_lifecycle v) ∧ version_digest v = digest.
Definition component_ok (w : Repository) (o : owner) (r : GatewayVersionRef) : Prop :=
  (vr_organization_id r, vr_tenant_id r) = o ∧
  version_ok w o (vr_target_kind r) (vr_target_id r) (vr_target_version r) (live (vr_target_digest r)).

Lemma require_subject_ok s k i w u w' : require_subject s k i w = (Ok u, w') → subject_ok w (scope_owner s) k i.
Proof. intros E. unfold require_subject in E. destruct k; checks; [done|by eexists|by eexists]. Qed.
Lemma lookup_version_ok s k i v w x w' : lookup_version s k i v w = (Ok (Some x), w') → version_ok w (scope_owner s) k i v (eq x).
Proof.
  intros E. unfold lookup_version in E. destruct k; checks;
    match goal with H : _ <$> _ = Some _ |- _ => apply fmap_Some in H as (r & H & ->) end; checks; by exists r.
Qed.
Lemma version_ok_mono w o k i v (P Q : GatewayVersion → Prop) : (∀ x, P x → Q x) → version_ok w o k i v P → version_ok w o k i v Q.
Proof. intros HPQ. destruct k; intros (r & ? & ? & ?); exists r; auto. Qed.
Lemma get_version_ok s r w x w' : get_version s r w = (Ok (Some x), w') →
  (vr_organization_id r, vr_tenant_id r) = scope_owner s ∧
  version_ok w (scope_owner s) (vr_target_kind r) (vr_target_id r) (vr_target_version r) (λ y, y = x ∧ version_digest y = vr_target_digest r).
Proof.
  intros E. unfold get_version in E. destruct (_ || _) eqn:Es; [checks; done|]. guards.
  destruct x0 as [y|]; [|done]. case_bool_decide as Hd; [done|]. match goal with H : Some _ = Some _ |- _ => injection H as -> end.
  split; [unfold scope_owner; congruence|]. eapply version_ok_mono; [|by eapply lookup_version_ok]. by intros ? <-.
Qed.
Lemma check_permissions_ok s ids w u w' : check_permissions s ids w = (Ok u, w') →
  Forall (λ id, holds w (scope_owner s) permissions_table id present) ids.
Proof. intros E. revert w u w' E. induction ids as [|id ids IH]; intros w u w' E; cbn in E; [done|]. checks. constructor; [by eexists|by eapply IH]. Qed.
Definition allowed_component (w : Repository) (o : owner) (r : GatewayVersionRef) : Prop :=
  vr_target_kind r ∈ [Route; Upstream] ∧ component_ok w o r.
Lemma live_version_ok s r w x w' :
  get_version s r w = (Ok x, w') → match x with None => true | Some v => negb (active (version_lifecycle v)) end = false →
  component_ok w (scope_owner s) r.
Proof.
  intros E Hl. destruct x as [v|]; [|done]. checks. apply get_version_ok in E as [Ho Hv]. split; [done|].
  eapply version_ok_mono; [|exact Hv]. by intros ? [-> ?].
Qed.
Lemma check_components_ok s cs w u w' : check_components s cs w = (Ok u, w') → Forall (allowed_component w (scope_owner s)) cs.
Proof.
  intros E. revert w u w' E. induction cs as [|c cs IH]; intros w u w' E; cbn in E; [done|].
  guards. checks. constructor; [split; [done|by eapply live_version_ok]|by eapply IH].
Qed.

(** * Growth *)
Record grows (w w' : Repository) : Prop := {
  grows_organizations : organizations w ⊆ organizations w'; grows_tenants : tenants w ⊆ tenants w';
  grows_principals : principals w ⊆ principals w'; grows_clients : clients w ⊆ clients w';
  grows_retention_policies : retention_policies w ⊆ retention_policies w'; grows_permissions : permissions w ⊆ permissions w';
  grows_roles : roles w ⊆ roles w'; grows_memberships : memberships w ⊆ memberships w';
  grows_entitlements : entitlements w ⊆ entitlements w'; grows_quotas : quotas w ⊆ quotas w';
  grows_upstreams : upstreams w ⊆ upstreams w'; grows_routes : routes w ⊆ routes w'; grows_configs : configs w ⊆ configs w';
  grows_features : features w ⊆ features w'; grows_circuit_histories : circuit_histories w ⊆ circuit_histories w';
  grows_tombstones : tombstones w ⊆ tombstones w';
  grows_history id : history_at id w `prefix_of` history_at id w' }.
#[export] Instance grows_preorder : PreOrder grows.
Proof.
  split; [by split|]. intros w1 w2 w3 [] []. split; [etrans; eassumption..|]. intros id. by trans (history_at id w2).
Qed.

Lemma holds_mono {K R} `{Countable K, Scoped R} (t : table K R) w w' o k (P : R → Prop) :
  rows t w ⊆ rows t w' → holds w o t k P → holds w' o t k P.
Proof. intros Hsub (r & Hr & ?). exists r. split; [by eapply lookup_weaken|done]. Qed.
Ltac hold_on Hg := (eapply holds_mono; [|eassumption]); destruct Hg; assumption.

Lemma tenant_ok_grows w w' o : grows w w' → tenant_ok w o → tenant_ok w' o.
Proof. intros Hg H. hold_on Hg. Qed.
Lemma subject_ok_grows w w' o k i : grows w w' → subject_ok w o k i → subject_ok w' o k i.
Proof. intros Hg. destruct k; cbn; [done|..]; intros H; hold_on Hg. Qed.
Lemma version_ok_grows w w' o k i v P : grows w w' → version_ok w o k i v P → version_ok w' o k i v P.
Proof. intros Hg. destruct k; cbn; intros H; hold_on Hg. Qed.
Lemma component_ok_grows w w' o r : grows w w' → component_ok w o r → component_ok w' o r.
Proof. intros Hg [? H]. split; [done|by eapply version_ok_grows]. Qed.

(** * Rows

    Where an identity comes from: the text it is the hash of, or its owner. *)
Inductive origin :=
  | Derived (text : string)
  | Chosen (kind id : string) (o : owner).

(** What is known of the records of one table *)
Class Row (K R : Type) `{Countable K, Scoped R} := {
  row_table : table K R;
  row_key : R → K;
  row_valid : R → Prop;
  row_origin : R → origin;
  row_refs : Repository → R → Prop;
  row_set w x : rows row_table (set_rows row_table x w) = x;
  row_same w : set_rows row_table (rows row_table w) w = w;
  row_refs_grows w w' r : grows w w' → row_refs w r → row_refs w' r }.

Definition tenant_derived (tenant : string) (rest : list string) : origin := Derived (joined tenant rest).

(** The laws of a row's table are computations; references persist. *)
Ltac row_laws := [> by intros [] ? | by intros [] | intros w w' r Hg; cbn ].
Ltac refs_persist Hg := let Hr := fresh "Hr" in intros Hr; hold_on Hg.

#[export] Instance PrincipalIdentity_row : Row string PrincipalIdentity.
Proof.
  refine (Build_Row _ _ _ _ _ principals_table pn_principal_id (λ r, validate_PrincipalIdentity r = Ok ()) (λ r, tenant_derived (pn_tenant_id r) [pn_subject_ref r])
    (λ w r, True) _ _ _); row_laws.
  done.
Defined.
#[export] Instance ApiClientIdentity_row : Row string ApiClientIdentity.
Proof.
  refine (Build_Row _ _ _ _ _ clients_table ac_client_id (λ r, validate_ApiClientIdentity r = Ok ()) (λ r, tenant_derived (ac_tenant_id r) [ac_client_name r])
    (λ w r, holds w (owner_of r) principals_table (ac_principal_id r) (λ p, is_active (pn_lifecycle p))) _ _ _); row_laws.
  refs_persist Hg.
Defined.
#[export] Instance RetentionPolicy_row : Row string RetentionPolicy.
Proof.
  refine (Build_Row _ _ _ _ _ retention_policies_table rp_retention_policy_id (λ r, validate_RetentionPolicy r = Ok ()) (λ r, Chosen "retention_policies" (rp_retention_policy_id r) (owner_of r))
    (λ w r, True) _ _ _); row_laws.
  done.
Defined.
#[export] Instance Permission_row : Row string Permission.
Proof.
  refine (Build_Row _ _ _ _ _ permissions_table pm_permission_id (λ r, validate_Permission r = Ok ()) (λ r, tenant_derived (pm_tenant_id r) [pm_action r; pm_resource_ref r])
    (λ w r, True) _ _ _); row_laws.
  done.
Defined.
#[export] Instance Role_row : Row string Role.
Proof.
  refine (Build_Row _ _ _ _ _ roles_table rl_role_id (λ r, validate_Role r = Ok ()) (λ r, tenant_derived (rl_tenant_id r) [rl_role_name r])
    (λ w r, Forall (λ id, holds w (owner_of r) permissions_table id present) (rl_permission_ids r)) _ _ _); row_laws.
  intros H. eapply Forall_impl; [exact H|]. cbn. intros id. refs_persist Hg.
Defined.
#[export] Instance Membership_row : Row string Membership.
Proof.
  refine (Build_Row _ _ _ _ _ memberships_table mb_membership_id (λ r, validate_Membership r = Ok ()) (λ r, tenant_derived (mb_tenant_id r) [mb_principal_id r; mb_role_id r])
    (λ w r, holds w (owner_of r) principals_table (mb_principal_id r) (λ p, is_active (pn_lifecycle p)) ∧
         holds w (owner_of r) roles_table (mb_role_id r) (λ l, is_active (rl_lifecycle l))) _ _ _); row_laws.
  intros [H1 H2]. split; [revert H1|revert H2]; refs_persist Hg.
Defined.
#[export] Instance Entitlement_row : Row string Entitlement.
Proof.
  refine (Build_Row _ _ _ _ _ entitlements_table en_entitlement_id (λ r, validate_Entitlement r = Ok ()) (λ r, tenant_derived (en_tenant_id r) [subject_kind_str (en_subject_kind r); en_subject_id r; en_entitlement_name r])
    (λ w r, subject_ok w (owner_of r) (en_subject_kind r) (en_subject_id r)) _ _ _); row_laws.
  by apply subject_ok_grows.
Defined.
#[export] Instance QuotaContract_row : Row string QuotaContract.
Proof.
  refine (Build_Row _ _ _ _ _ quotas_table qt_quota_id (λ r, validate_QuotaContract r = Ok ()) (λ r, tenant_derived (qt_tenant_id r) [subject_kind_str (qt_subject_kind r); qt_subject_id r])
    (λ w r, subject_ok w (owner_of r) (qt_subject_kind r) (qt_subject_id r)) _ _ _); row_laws.
  by apply subject_ok_grows.
Defined.
#[export] Instance GatewayUpstreamVersion_row : Row (string * Z) GatewayUpstreamVersion.
Proof.
  refine (Build_Row _ _ _ _ _ upstreams_table (λ r, (up_upstream_id r, up_version r)) (λ r, validate_GatewayUpstreamVersion r = Ok ()) (λ r, tenant_derived (up_tenant_id r) [up_upstream_name r])
    (λ w r, True) _ _ _); row_laws.
  done.
Defined.
#[export] Instance GatewayRouteVersion_row : Row (string * Z) GatewayRouteVersion.
Proof.
  refine (Build_Row _ _ _ _ _ routes_table (λ r, (rt_route_id r, rt_version r)) (λ r, validate_GatewayRouteVersion r = Ok ()) (λ r, tenant_derived (rt_tenant_id r) [rt_route_name r])
    (λ w r, version_ok w (owner_of r) Upstream (rt_upstream_id r) (rt_upstream_version r) (λ v, is_active (version_lifecycle v))) _ _ _); row_laws.
  refs_persist Hg.
Defined.
#[export] Instance GatewayConfigVersion_row : Row (string * Z) GatewayConfigVersion.
Proof.
  refine (Build_Row _ _ _ _ _ configs_table (λ r, (cf_config_id r, cf_version r)) (λ r, validate_GatewayConfigVersion r = Ok ()) (λ r, tenant_derived (cf_tenant_id r) [cf_config_name r])
    (λ w r, Forall (allowed_component w (owner_of r)) (cf_component_refs r)) _ _ _); row_laws.
  intros H. eapply Forall_impl; [exact H|]. cbn. intros c [? ?]. split; [done|]. by eapply component_ok_grows.
Defined.
#[export] Instance GatewayFeatureVersion_row : Row (string * Z) GatewayFeatureVersion.
Proof.
  refine (Build_Row _ _ _ _ _ features_table (λ r, (ft_feature_id r, ft_version r)) (λ r, validate_GatewayFeatureVersion r = Ok ()) (λ r, tenant_derived (ft_tenant_id r) [ft_feature_name r])
    (λ w r, ∀ c, ft_config_ref r = Some c → component_ok w (owner_of r) c) _ _ _); row_laws.
  intros H c Hc. eapply component_ok_grows; [done|]. by apply H.
Defined.
#[export] Instance CircuitHistory_row : Row string CircuitHistory.
Proof.
  refine (Build_Row _ _ _ _ _ circuit_histories_table ch_circuit_id (λ r, validate_CircuitHistory r = Ok ()) (λ r, Chosen "circuit_histories" (ch_circuit_id r) (owner_of r))
    (λ w r, True) _ _ _); row_laws.
  done.
Defined.
#[export] Instance TombstoneRecord_row : Row (TargetKind * string * Z) TombstoneRecord.
Proof.
  refine (Build_Row _ _ _ _ _ tombstones_table (λ r, (tb_resource_kind r, tb_resource_id r, tb_resource_version r))
    (λ r, validate_TombstoneRecord r = Ok ())
    (λ r, tenant_derived (tb_tenant_id r) [target_kind_str (tb_resource_kind r); tb_resource_id r; pretty (tb_resource_version r)])
    (λ w r, holds w (owner_of r) retention_policies_table (tb_retention_policy_ref r) present ∧
            version_ok w (owner_of r) (tb_resource_kind r) (tb_resource_id r) (tb_resource_version r) (λ _, True)) _ _ _); row_laws.
  intros [H1 H2]. split; [revert H1; refs_persist Hg|by eapply version_ok_grows].
Defined.

(** ** Registration *)
Section registers.
Context {K R : Type} `{Row K R}.

(** The row is stored; one that is there already is the same. *)
Definition adds (r : R) (w w' : Repository) : Prop :=
  w' = set_rows row_table (<[row_key r := r]> (rows row_table w)) w ∧ ∀ r0, rows row_table w !! row_key r = Some r0 → r0 = r.
Definition permitted (s : TenantScope) (r : R) (w : Repository) : Prop :=
  scope_owner s = owner_of r ∧ tenant_ok w (owner_of r) ∧ row_refs w r.
(** The method either leaves the repository as it is or adds the permitted row. *)
Definition registers (s : TenantScope) (r : R) (m : M Repository ()) (w : Repository) : Prop :=
  ∀ x w', m w = (x, w') → w' = w ∨ (x = Ok () ∧ permitted s r w ∧ adds r w w').

Lemma registers_read {A} s r (m : M Repository A) k w : reads m →
  (∀ a, m w = (Ok a, w) → registers s r (k a) w) → registers s r (m ≫= k) w.
Proof.
  intros Hm Hk x w'. unfold mbind, M_bind. specialize (Hm w). destruct (m w) as [[a|e] w1] eqn:E; cbn in Hm; subst w1.
  - by apply Hk.
  - intros [= _ <-]. by left.
Qed.
Lemma registers_put `{EqDecision R} s r w : permitted s r w → registers s r (on_table row_table (retain (row_key r) r)) w.
Proof.
  intros Hp x w'. unfold on_table, retain, mbind, M_bind, get_state, raise_if, put_state.
  destruct (rows row_table w !! row_key r) as [r0|] eqn:E; [case_bool_decide as Hr|]; cbn; intros [= <- <-].
  - left. apply row_same.
  - right. split; [done|]. split; [done|]. split; [done|]. intros r1. rewrite E. by intros [= <-].
  - right. split; [done|]. split; [done|]. split; [done|]. by rewrite E.
Qed.
End registers.

(** Follows a registration through its checks to the row it adds *)
Ltac registering := repeat (apply registers_read; [solve [read]|intros ? ?]);
  match goal with |- registers ?s ?r _ ?w => refine (registers_put s r w _) end;
  match goal with
  | H : require_tenant_scope _ _ _ _ = _ |- _ => apply require_tenant_scope_ok in H as (_ & ? & ? & _)
  end; split; [done|split; [done|]].

Ltac own_scope := cbn; match goal with E : scope_owner _ = owner_of ?r |- context [owner_of ?r] => rewrite <- E end.

Lemma register_principal_registers s r w : registers s r (register_principal s r) w.
Proof. unfold register_principal. registering. done. Qed.
Lemma register_client_registers s r w : registers s r (register_client s r) w.
Proof. unfold register_client. registering. checks. eexists. split; [done|]. split; [congruence|done]. Qed.
Lemma register_retention_policy_registers s r w : registers s r (register_retention_policy s r) w.
Proof. unfold register_retention_policy. registering. done. Qed.
Lemma register_permission_registers s r w : registers s r (register_permission s r) w.
Proof. unfold register_permission. registering. done. Qed.
Lemma register_role_registers s r w : registers s r (register_role s r) w.
Proof. unfold register_role. registering. own_scope. by eapply check_permissions_ok. Qed.
Lemma register_membership_registers s r w : registers s r (register_membership s r) w.
Proof. unfold register_membership. registering. own_scope. checks. split; by eexists. Qed.
Lemma register_entitlement_registers s r w : registers s r (register_entitlement s r) w.
Proof. unfold register_entitlement. registering. own_scope. by eapply require_subject_ok. Qed.
Lemma register_quota_registers s r w : registers s r (register_quota s r) w.
Proof. unfold register_quota. registering. own_scope. by eapply require_subject_ok. Qed.
Lemma register_upstream_registers s r w : registers s r (register_upstream s r) w.
Proof. unfold register_upstream. registering. done. Qed.
Lemma register_route_registers s r w : registers s r (register_route s r) w.
Proof.
  unfold register_route. registering. own_scope. checks. destruct (scope_record _ _) as [u|] eqn:E; [|done]. checks. by exists u.
Qed.
Lemma register_config_registers s r w : registers s r (register_config s r) w.
Proof. unfold register_config. registering. own_scope. by eapply check_components_ok. Qed.
Lemma register_feature_registers s r w : registers s r (register_feature s r) w.
Proof.
  unfold register_feature. registering. own_scope. intros c Hc. rewrite Hc in *. guards. checks. by eapply live_version_ok.
Qed.
Lemma register_circuit_history_registers s r w : registers s r (register_circuit_history s r) w.
Proof. unfold register_circuit_history. registering. done. Qed.

Lemma register_tombstone_registers s r w : registers s r (register_tombstone s r) w.
Proof.
  unfold register_tombstone. registering. own_scope. checks. split; [by eexists|].
  match goal with H : lookup_version _ _ _ _ _ = (Ok ?x, _) |- _ => rename x into target, H into Ht end.
  destruct target as [v|]; [|done]. apply lookup_version_ok in Ht. by eapply version_ok_mono; [|exact Ht].
Qed.

(** A version that its own tenant has released is not tombstoned. *)
Lemma register_tombstone_inactive s r w u w' p : register_tombstone s r w = (Ok u, w') →
  release_pointers w !! release_pointer_id (ts_tenant_id s) (tb_resource_kind r) (tb_resource_id r) = Some p →
  owner_of p = scope_owner s → pt_target_version p ≠ tb_resource_version r.
Proof.
  intros E Ep Eo Hv. unfold register_tombstone in E. guards. checks.
  match goal with H : match scope_record _ ?x with _ => _ end = false |- _ =>
    change x with (release_pointers w !! release_pointer_id (ts_tenant_id s) (tb_resource_kind r) (tb_resource_id r)) in H;
    rewrite Ep, (proj2 (scope_record_ok _ (Some p) p)) in H by done end.
  guards. done.
Qed.

Lemma register_organization_cases r w x w' : register_organization r w = (x, w') →
  w' = w ∨ (w' = set_rows organizations_table (<[og_organization_id r := r]> (organizations w)) w ∧
            ∀ r0, organizations w !! og_organization_id r = Some r0 → r0 = r).
Proof.
  unfold register_organization, put_organization, on_table, retain, mbind, M_bind, get_state, raise_if, put_state. cbn.
  destruct (organizations w !! og_organization_id r) as [r0|] eqn:E; [case_bool_decide as Hr|]; cbn; intros [= <- <-];
    [left; by destruct w|right; split; [done|]; by intros ? [= <-]|by right].
Qed.
Lemma register_tenant_cases r w x w' : register_tenant r w = (x, w') →
  w' = w ∨ (w' = set_rows tenants_table (<[tn_tenant_id r := r]> (tenants w)) w ∧
            (∀ r0, tenants w !! tn_tenant_id r = Some r0 → r0 = r) ∧
            ∃ o, organizations w !! tn_organization_id r = Some o ∧ is_active (og_lifecycle o)).
Proof.
  unfold register_tenant, get_organization, put_tenant, on_table, retain, mbind, M_bind, gets, require, get_state, raise_if, put_state. cbn.
  destruct (organizations w !! tn_organization_id r) as [o|] eqn:Eo; [|intros [= <- <-]; by left]. cbn.
  destruct (active _) eqn:Ea; [|intros [= <- <-]; by left]. apply active_ok in Ea. cbn.
  destruct (tenants w !! tn_tenant_id r) as [r0|] eqn:E; [case_bool_decide as Hr|]; cbn; intros [= <- <-];
    [left; by destruct w|right; split; [done|]; split; [by intros ? [= <-]|by exists o]|right; split; [done|]; split; [done|by exists o]].
Qed.

(** * The invariant *)
Definition table_ok {K R} `{Row K R} (os : list origin) (w : Repository) : Prop :=
  ∀ k r, rows row_table w !! k = Some r →
    row_key r = k ∧ row_valid r ∧ row_origin r ∈ os ∧ tenant_ok w (owner_of r) ∧ row_refs w r.

Definition prior (h : list ActivationRecord) (i : nat) : option ActivationRecord :=
  match i with O => None | S i => h !! i end.
(** Numbered from one, each event naming the version before it, which it
    changes; a rollback returns to a version of the history. *)
Definition linear (id : string) (h : list ActivationRecord) : Prop := ∀ i a, h !! i = Some a →
  av_pointer_id a = id ∧ validate_ActivationRecord a = Ok () ∧ av_release_revision a = Z.of_nat (S i) ∧
  av_previous_target_version a = av_target_version <$> prior h i ∧
  (∀ b, prior h i = Some b → av_target_version b ≠ av_target_version a) ∧
  (av_operation a = Rollback → ∃ j b, (j < i)%nat ∧ h !! j = Some b ∧ av_target_version b = av_target_version a).
(** The pointer and the event of one release *)
Definition same_release (p : ReleasePointer) (a : ActivationRecord) : Prop :=
  (av_organization_id a, av_tenant_id a, av_target_kind a, av_target_id a, av_target_version a, av_target_digest a,
   av_release_revision a, av_actor_principal_id a) =
  (pt_organization_id p, pt_tenant_id p, pt_target_kind p, pt_target_id p, pt_target_version p, pt_target_digest p,
   pt_revision p, pt_updated_by_principal_id p).
Definition pointer_origin (p : ReleasePointer) : origin :=
  tenant_derived (pt_tenant_id p) [target_kind_str (pt_target_kind p); pt_target_id p].

Record release_ok (os : list origin) (w : Repository) (id : string) (p : ReleasePointer) : Prop := {
  rel_id : pt_pointer_id p = id;
  rel_valid : validate_ReleasePointer p = Ok ();
  rel_origin : pointer_origin p ∈ os;
  rel_tenant : tenant_ok w (owner_of p);
  rel_live : version_ok w (owner_of p) (pt_target_kind p) (pt_target_id p) (pt_target_version p) (live (pt_target_digest p));
  rel_kept : tombstones w !! (pt_target_kind p, pt_target_id p, pt_target_version p) = None;
  rel_linear : linear id (history_at id w);
  rel_last : ∃ a, last (history_at id w) = Some a ∧ same_release p a }.

Record repository_ok (os : list origin) (w : Repository) : Prop := {
  ok_organizations k o : organizations w !! k = Some o → og_organization_id o = k ∧ validate_OrganizationIdentity o = Ok ();
  ok_tenants k t : tenants w !! k = Some t → tn_tenant_id t = k ∧ validate_TenantIdentity t = Ok () ∧
    ∃ o, organizations w !! tn_organization_id t = Some o ∧ is_active (og_lifecycle o);
  ok_principals : table_ok (R := PrincipalIdentity) os w; ok_clients : table_ok (R := ApiClientIdentity) os w;
  ok_retention_policies : table_ok (R := RetentionPolicy) os w; ok_permissions : table_ok (R := Permission) os w;
  ok_roles : table_ok (R := Role) os w; ok_memberships : table_ok (R := Membership) os w;
  ok_entitlements : table_ok (R := Entitlement) os w; ok_quotas : table_ok (R := QuotaContract) os w;
  ok_upstreams : table_ok (R := GatewayUpstreamVersion) os w; ok_routes : table_ok (R := GatewayRouteVersion) os w;
  ok_configs : table_ok (R := GatewayConfigVersion) os w; ok_features : table_ok (R := GatewayFeatureVersion) os w;
  ok_circuit_histories : table_ok (R := CircuitHistory) os w; ok_tombstones : table_ok (R := TombstoneRecord) os w;
  ok_releases id p : release_pointers w !! id = Some p → release_ok os w id p;
  ok_history id : release_pointers w !! id = None → activation_history w !! id = None }.

(** * Preservation: registrations *)
Lemma retained_subseteq {K A} `{Countable K} (m : gmap K A) k (x : A) : (∀ y, m !! k = Some y → y = x) → m ⊆ <[k := x]> m.
Proof.
  intros Hx. apply map_subseteq_spec. intros j y Hj. destruct (decide (j = k)) as [->|Hne].
  - rewrite lookup_insert_eq. by rewrite (Hx y Hj).
  - by rewrite lookup_insert_ne.
Qed.
(** Only one table changes, by a row that does not displace another. *)
Ltac grow_one := intros [-> Hs]; match goal with w : Repository |- _ => destruct w end;
  split; cbn in *; first [done|by apply retained_subseteq].

Section tables.
Context {K R : Type} `{Row K R} (os : list origin).

Lemma table_ok_add w w' r : adds r w w' → grows w w' → row_valid r → row_origin r ∈ os → tenant_ok w (owner_of r) → row_refs w r →
  table_ok os w → table_ok os w'.
Proof.
  intros [-> _] Hg Hv Ho Ht Hr Hok k r' Hk. rewrite row_set in Hk. apply lookup_insert_Some in Hk as [[<- <-]|[_ Hk]].
  - split; [done|]. split; [done|]. split; [done|]. split; [by eapply tenant_ok_grows|by eapply row_refs_grows].
  - destruct (Hok k r' Hk) as (? & ? & ? & ? & ?). split; [done|]. split; [done|]. split; [done|].
    split; [by eapply tenant_ok_grows|by eapply row_refs_grows].
Qed.
Lemma table_ok_frame w w' : rows row_table w' = rows row_table w → grows w w' → table_ok os w → table_ok os w'.
Proof.
  intros E Hg Hok k r Hk. rewrite E in Hk. destruct (Hok k r Hk) as (? & ? & ? & ? & ?).
  split; [done|]. split; [done|]. split; [done|]. split; [by eapply tenant_ok_grows|by eapply row_refs_grows].
Qed.
End tables.

Lemma release_ok_frame os w w' id p : grows w w' → history_at id w' = history_at id w →
  tombstones w' !! (pt_target_kind p, pt_target_id p, pt_target_version p) = None → release_ok os w id p → release_ok os w' id p.
Proof.
  intros Hg Eh Et [? ? ? ? ? ? Hl Ha]. split; [done|done|done|by eapply tenant_ok_grows|by eapply version_ok_grows|done|by rewrite Eh|by rewrite Eh].
Qed.

(** The part of the repository a registration of gateway or access records leaves alone *)
Definition same_releases (w w' : Repository) : Prop :=
  release_pointers w' = release_pointers w ∧ activation_history w' = activation_history w.
Lemma releases_frame os w w' id p : grows w w' → same_releases w w' → tombstones w' = tombstones w →
  (∀ id p, release_pointers w !! id = Some p → release_ok os w id p) → release_pointers w' !! id = Some p → release_ok os w' id p.
Proof.
  intros Hg [Ep Eh] Et Hok Hp. rewrite Ep in Hp. apply Hok in Hp. eapply release_ok_frame; [done|unfold history_at; by rewrite Eh| |done].
  rewrite Et. apply Hp.
Qed.

(** One row [r] added to a table other than the tombstones *)
Ltac same_part Ew w := rewrite Ew; by destruct w.
Ltac row_added_ok os w w' r Hadd Hg Hok :=
  let Ew := fresh "Ew" in
  pose proof (proj1 Hadd) as Ew; split;
  lazymatch goal with
  | |- table_ok _ _ =>
      first [ apply (table_ok_add os w w' r); [exact Hadd|exact Hg|done|done|done|done|by apply Hok]
            | apply (table_ok_frame os w w'); [same_part Ew w|exact Hg|by apply Hok] ]
  | |- ∀ k o, organizations w' !! k = Some o → _ =>
      replace (organizations w') with (organizations w) by same_part Ew w; apply Hok
  | |- ∀ k t, tenants w' !! k = Some t → _ =>
      replace (organizations w') with (organizations w) by same_part Ew w;
      replace (tenants w') with (tenants w) by same_part Ew w; apply Hok
  | |- ∀ id p, release_pointers w' !! id = Some p → _ =>
      try solve [intros ? ?; apply (releases_frame os w w'); [exact Hg|split; same_part Ew w|same_part Ew w|by apply Hok]]
  | |- _ =>
      replace (release_pointers w') with (release_pointers w) by same_part Ew w;
      replace (activation_history w') with (activation_history w) by same_part Ew w; by apply Hok
  end.

(** A permitted registration of a valid record keeps the repository in order. *)
Definition keeps_ok {K R} `{Row K R} (os : list origin) (s : TenantScope) (r : R) (m : M Repository ()) (w : Repository) : Prop :=
  row_valid r → row_origin r ∈ os → repository_ok os w → ∀ x w', m w = (x, w') → repository_ok os w' ∧ grows w w'.
Ltac keep_row os s r w lem :=
  let Hv := fresh in let Ho := fresh in let Hok := fresh in let Hadd := fresh in let E := fresh in let Hg := fresh "Hg" in
  let x := fresh "x" in let w' := fresh "w'" in
  intros Hv Ho Hok x w' E; destruct (lem s r w x w' E) as [->|(_ & (_ & ? & ?) & Hadd)]; [done|];
  assert (grows w w') as Hg by (clear -Hadd; revert Hadd; grow_one); split; [row_added_ok os w w' r Hadd Hg Hok|exact Hg].

Lemma register_principal_ok os s r w : keeps_ok os s r (register_principal s r) w.
Proof. keep_row os s r w register_principal_registers. Qed.
Lemma register_client_ok os s r w : keeps_ok os s r (register_client s r) w.
Proof. keep_row os s r w register_client_registers. Qed.
Lemma register_retention_policy_ok os s r w : keeps_ok os s r (register_retention_policy s r) w.
Proof. keep_row os s r w register_retention_policy_registers. Qed.
Lemma register_permission_ok os s r w : keeps_ok os s r (register_permission s r) w.
Proof. keep_row os s r w register_permission_registers. Qed.
Lemma register_role_ok os s r w : keeps_ok os s r (register_role s r) w.
Proof. keep_row os s r w register_role_registers. Qed.
Lemma register_membership_ok os s r w : keeps_ok os s r (register_membership s r) w.
Proof. keep_row os s r w register_membership_registers. Qed.
Lemma register_entitlement_ok os s r w : keeps_ok os s r (register_entitlement s r) w.
Proof. keep_row os s r w register_entitlement_registers. Qed.
Lemma register_quota_ok os s r w : keeps_ok os s r (register_quota s r) w.
Proof. keep_row os s r w register_quota_registers. Qed.
Lemma register_upstream_ok os s r w : keeps_ok os s r (register_upstream s r) w.
Proof. keep_row os s r w register_upstream_registers. Qed.
Lemma register_route_ok os s r w : keeps_ok os s r (register_route s r) w.
Proof. keep_row os s r w register_route_registers. Qed.
Lemma register_config_ok os s r w : keeps_ok os s r (register_config s r) w.
Proof. keep_row os s r w register_config_registers. Qed.
Lemma register_feature_ok os s r w : keeps_ok os s r (register_feature s r) w.
Proof. keep_row os s r w register_feature_registers. Qed.
Lemma register_circuit_history_ok os s r w : keeps_ok os s r (register_circuit_history s r) w.
Proof. keep_row os s r w register_circuit_history_registers. Qed.

(** ** Tombstones *)
Lemma version_ok_owner w o o' k i v P Q : version_ok w o k i v P → version_ok w o' k i v Q → o = o'.
Proof. destruct k; intros (r & Hr & <- & _) (r' & Hr' & <- & _); by simplify_eq. Qed.
Lemma ReleasePointer_identity p : validate_ReleasePointer p = Ok () →
  pt_pointer_id p = release_pointer_id (pt_tenant_id p) (pt_target_kind p) (pt_target_id p).
Proof. unfold validate_ReleasePointer, identity_is_stable. intros Hv. by guards. Qed.

(** A version is not tombstoned while a pointer targets it, whoever registers the tombstone. *)
Lemma register_tombstone_unreleased os s r w u w' id p : repository_ok os w → register_tombstone s r w = (Ok u, w') →
  permitted s r w → release_pointers w !! id = Some p →
  (tb_resource_kind r, tb_resource_id r, tb_resource_version r) ≠ (pt_target_kind p, pt_target_id p, pt_target_version p).
Proof.
  intros Hok E (Es & _ & _ & Hv) Hp [= Ek Ei Ev]. pose proof (ok_releases _ _ Hok _ _ Hp) as Hrel.
  rewrite Ek, Ei, Ev in Hv. pose proof (version_ok_owner _ _ _ _ _ _ _ _ (rel_live _ _ _ _ Hrel) Hv) as Eo.
  apply (register_tombstone_inactive s r w u w' p E); [|by rewrite Es|done].
  rewrite <- Hp, <- (rel_id _ _ _ _ Hrel), (ReleasePointer_identity p) by apply Hrel. rewrite Ek, Ei.
  by assert (ts_tenant_id s = pt_tenant_id p) as -> by (pose proof (f_equal snd (eq_trans Es (eq_sym Eo))); done).
Qed.

Lemma register_tombstone_ok os s r w : keeps_ok os s r (register_tombstone s r) w.
Proof.
  intros Hv Ho Hok x w' E. destruct (register_tombstone_registers s r w x w' E) as [->|(-> & Hp & Hadd)]; [done|].
  destruct (Hp) as (_ & ? & ?). assert (grows w w') as Hg by (clear -Hadd; revert Hadd; grow_one). split; [|done].
  row_added_ok os w w' r Hadd Hg Hok. intros id p Ep.
  replace (release_pointers w') with (release_pointers w) in Ep by same_part Ew w.
  apply (release_ok_frame os w w'); [done|unfold history_at; by replace (activation_history w') with (activation_history w) by same_part Ew w| |by apply Hok].
  pose proof (register_tombstone_unreleased os s r w () w' id p Hok E Hp Ep) as Hne.
  replace (tombstones w') with (<[row_key r := r]> (tombstones w)) by same_part Ew w.
  rewrite lookup_insert_ne by exact Hne. by eapply rel_kept, ok_releases.
Qed.

(** ** Organizations and tenants *)
Lemma register_organization_grows r w x w' : register_organization r w = (x, w') → grows w w'.
Proof. intros [->|[-> Hs]]%register_organization_cases; [done|]. destruct w. split; cbn in *; first [done|by apply retained_subseteq]. Qed.
Lemma register_tenant_grows r w x w' : register_tenant r w = (x, w') → grows w w'.
Proof. intros [->|(-> & Hs & _)]%register_tenant_cases; [done|]. destruct w. split; cbn in *; first [done|by apply retained_subseteq]. Qed.

(** The tables below the identities are as they were. *)
Ltac identities_changed os w Hg Hok := lazymatch goal with
  | |- table_ok _ _ => apply (table_ok_frame os w); [by destruct w|exact Hg|by apply Hok]
  | |- ∀ id p, release_pointers _ !! id = Some p → _ =>
      intros ? ?; apply (releases_frame os w); [exact Hg|split; by destruct w|by destruct w|by apply Hok]
  | |- _ => idtac
  end.
Lemma register_organization_ok os r w x w' : validate_OrganizationIdentity r = Ok () → repository_ok os w →
  register_organization r w = (x, w') → repository_ok os w'.
Proof.
  intros Hv Hok E. pose proof (register_organization_grows r w x w' E) as Hg.
  apply register_organization_cases in E as [->|[-> Hs]]; [done|]. split; identities_changed os w Hg Hok.
  - intros k o Hk. assert (<[og_organization_id r := r]> (organizations w) !! k = Some o) as Hk' by by destruct w.
    apply lookup_insert_Some in Hk' as [[<- <-]|[_ ?]]; [done|by apply Hok].
  - intros k t Hk. destruct (ok_tenants _ _ Hok k t) as (? & ? & o & ? & ?); [by destruct w|]. split; [done|]. split; [done|].
    exists o. split; [|done]. eapply lookup_weaken; [done|]. apply Hg.
  - intros id Hid. destruct (ok_history _ _ Hok id); by destruct w.
Qed.
Lemma register_tenant_ok os r w x w' : validate_TenantIdentity r = Ok () → repository_ok os w →
  register_tenant r w = (x, w') → repository_ok os w'.
Proof.
  intros Hv Hok E. pose proof (register_tenant_grows r w x w' E) as Hg.
  apply register_tenant_cases in E as [->|(-> & Hs & o & Ho & Ha)]; [done|]. split; identities_changed os w Hg Hok.
  - intros k o' Hk. apply Hok. by destruct w.
  - intros k t Hk. assert (<[tn_tenant_id r := r]> (tenants w) !! k = Some t) as Hk' by by destruct w.
    replace (organizations _) with (organizations w) by by destruct w.
    apply lookup_insert_Some in Hk' as [[<- <-]|[_ ?]]; [split; [done|]; split; [done|]; by exists o|by apply Hok].
  - intros id Hid. destruct (ok_history _ _ Hok id); by destruct w.
Qed.
