(* ===== verification/FoundationRelease.v ===== *)
(** Releases: exactly which activations succeed and what they publish
    ([activate_run]), and that a history of calls keeps the repository in order
    ([calls_ok]), from which the invariants of the component follow. *)
From S2P Require Export FoundationSafety.
From S2P Require Import Sha256.
From Stdlib Require Import Lia.
Local Open Scope Z_scope.

(** * The specification of [activate] *)
Definition request_pointer (s : TenantScope) (req : ActivationRequest) : string :=
  release_pointer_id (ts_tenant_id s) (aq_target_kind req) (aq_target_id req).
Definition current_pointer (w : Repository) (s : TenantScope) (req : ActivationRequest) : option ReleasePointer :=
  release_pointers w !! request_pointer s req.
Definition request_key (req : ActivationRequest) : TargetKind * string * Z :=
  (aq_target_kind req, aq_target_id req, aq_target_version req).

(** The pointer and the event that the release publishes *)
Definition next_pointer (w : Repository) (s : TenantScope) (req : ActivationRequest) (v : GatewayVersion) : ReleasePointer :=
  pointer_with_digest
    (mkPointer (request_pointer s req) (ts_organization_id s) (ts_tenant_id s) (aq_target_kind req) (aq_target_id req)
       (aq_target_version req) (version_digest v) (revision_of (current_pointer w s req) + 1) (aq_actor_principal_id req) "").
Definition next_activation (w : Repository) (s : TenantScope) (req : ActivationRequest) (op : ReleaseOperation) (v : GatewayVersion) :
    ActivationRecord :=
  activation_with_digest
    (mkActivation "" (request_pointer s req) (ts_organization_id s) (ts_tenant_id s) op (aq_target_kind req) (aq_target_id req)
       (aq_target_version req) (version_digest v) (pt_target_version <$> current_pointer w s req)
       (revision_of (current_pointer w s req) + 1) (aq_actor_principal_id req) (aq_change_ref req) (aq_activated_at req) "").
Definition publish (p : ReleasePointer) (a : ActivationRecord) (w : Repository) : Repository :=
  append_activation (pt_pointer_id p) a (set_pointer p w).

(** What [activate] requires: the operation is known; the actor is the active
    principal of the scope; the target is an active version of the tenant that
    is not tombstoned; the caller knows the pointer's revision and digest; the
    release changes the version, on a rollback to one released before; and the
    reference and the time of the change are well formed. (Event identities
    are hashes: a colliding one is refused.) *)
Record admissible (w : Repository) (s : TenantScope) (req : ActivationRequest) (op : ReleaseOperation) (v : GatewayVersion) : Prop := {
  adm_operation : aq_operation req = operation_str op;
  adm_actor : aq_actor_principal_id req = ts_principal_id s;
  adm_principal : holds w (scope_owner s) principals_table (aq_actor_principal_id req) (λ p, is_active (pn_lifecycle p));
  adm_target : version_ok w (scope_owner s) (aq_target_kind req) (aq_target_id req) (aq_target_version req) (eq v);
  adm_active : is_active (version_lifecycle v);
  adm_kept : tombstones w !! request_key req = None;
  adm_owner p : current_pointer w s req = Some p → owner_of p = scope_owner s;
  adm_revision : aq_expected_revision req = revision_of (current_pointer w s req);
  adm_digest : aq_expected_pointer_digest req = pt_pointer_digest <$> current_pointer w s req;
  adm_change p : current_pointer w s req = Some p → pt_target_version p ≠ aq_target_version req;
  adm_rollback : op = Rollback → ∃ a, a ∈ history_at (request_pointer s req) w ∧ av_target_version a = aq_target_version req;
  adm_change_ref : OpaqueRef (aq_change_ref req) = true ∧ opaque_ref (aq_change_ref req) "change_ref" = Ok ();
  adm_time : Timestamp (aq_activated_at req) = true;
  adm_fresh a : a ∈ history_at (request_pointer s req) w → av_activation_id a ≠ av_activation_id (next_activation w s req op v) }.

(** * Facts of an orderly repository *)
(** The constraints that a validator imposes on the fields *)
Ltac field_facts := constraints; rewrite ?check_field_ok, ?Z.leb_le.
Lemma stored_version_fields os w o k i v x : repository_ok os w → version_ok w o k i v (eq x) →
  Identifier i = true ∧ 1 ≤ v ∧ Digest (version_digest x) = true.
Proof.
  intros Hok. destruct k; intros (r & Hr & _ & ->);
    [apply (ok_upstreams _ _ Hok) in Hr|apply (ok_routes _ _ Hok) in Hr|apply (ok_configs _ _ Hok) in Hr|apply (ok_features _ _ Hok) in Hr];
    destruct Hr as ([= <- <-] & Hv & _); cbn in Hv;
    [unfold validate_GatewayUpstreamVersion in Hv|unfold validate_GatewayRouteVersion in Hv
    |unfold validate_GatewayConfigVersion in Hv|unfold validate_GatewayFeatureVersion in Hv];
    revert Hv; field_facts; tauto.
Qed.

Section releases.
Context (os : list origin) (w : Repository) (Hok : repository_ok os w).

Lemma principal_tenant_ok o k P : holds w o principals_table k P → tenant_ok w o.
Proof. intros (r & Hr & <- & _). by apply (ok_principals _ _ Hok) in Hr as (_ & _ & _ & ? & _). Qed.

Lemma history_length id p : release_pointers w !! id = Some p → Z.of_nat (length (history_at id w)) = pt_revision p.
Proof.
  intros Hp%(ok_releases _ _ Hok). destruct (rel_last _ _ _ _ Hp) as (a & Ha & Hs).
  rewrite last_lookup in Ha. destruct (rel_linear _ _ _ _ Hp _ _ Ha) as (_ & _ & Er & _).
  unfold same_release in Hs. injection Hs as _ _ _ _ _ _ Erev _. rewrite <- Erev, Er.
  apply lookup_lt_Some in Ha. lia.
Qed.
Lemma history_revision id : Z.of_nat (length (history_at id w)) = revision_of (release_pointers w !! id).
Proof.
  destruct (release_pointers w !! id) as [p|] eqn:E; [by apply history_length|].
  unfold history_at. by rewrite (ok_history _ _ Hok id E).
Qed.
Lemma history_linear id : linear id (history_at id w).
Proof.
  destruct (release_pointers w !! id) as [p|] eqn:E; [by eapply rel_linear, ok_releases|].
  unfold history_at. rewrite (ok_history _ _ Hok id E). by intros i a.
Qed.
Lemma history_last id : (av_target_version <$> last (history_at id w)) = (pt_target_version <$> release_pointers w !! id).
Proof.
  destruct (release_pointers w !! id) as [p|] eqn:E.
  - destruct (rel_last _ _ _ _ (ok_releases _ _ Hok _ _ E)) as (a & -> & Hs). cbn. unfold same_release in Hs. congruence.
  - unfold history_at. by rewrite (ok_history _ _ Hok id E).
Qed.
Lemma pointer_revision_positive id p : release_pointers w !! id = Some p → 1 ≤ pt_revision p.
Proof.
  intros Hp%(ok_releases _ _ Hok)%rel_valid. unfold validate_ReleasePointer in Hp. revert Hp. field_facts. tauto.
Qed.

(** A tombstone of a tenant's version is the tenant's. *)
Lemma tombstone_owner k t o P : tombstones w !! k = Some t → version_ok w o k.1.1 k.1.2 k.2 P → owner_of t = o.
Proof.
  intros Ht Hv. apply (ok_tombstones _ _ Hok) in Ht as (<- & _ & _ & _ & _ & Hv'). cbn in *. by eapply version_ok_owner.
Qed.
End releases.

(** ** The steps of an activation

    The checks of [activate], each an equivalence: it passes exactly when what
    it states holds, and it only reads. *)
Lemma resolve_operation_run o op : resolve_release_operation o = Ok op ↔ o = operation_str op.
Proof.
  unfold resolve_release_operation. destruct (String.eqb_spec o "activate") as [->|Ha]; [by destruct op|].
  destruct (String.eqb_spec o "rollback") as [->|Hr]; [by destruct op|]. by destruct op.
Qed.
Lemma release_actor_run s a w u w' : assert_release_actor s a w = (Ok u, w') ↔
  w' = w ∧ a = ts_principal_id s ∧ holds w (scope_owner s) principals_table a (λ p, is_active (pn_lifecycle p)).
Proof.
  split.
  - intros E. unfold assert_release_actor in E. checks. split; [done|]. split; [done|].
    destruct (scope_record _ _) as [p|] eqn:Ep; [|done]. checks. by exists p.
  - intros (-> & -> & p & Hp & Ho & Ha). destruct u. unfold assert_release_actor, mbind, M_bind.
    rewrite bool_decide_eq_false_2 by tauto. cbn. unfold get_principal, get_scoped, gets.
    rewrite (proj2 (scope_record_ok _ _ p)) by done. by rewrite (proj2 (active_ok _) Ha).
Qed.
Lemma scoped_version_run s k i v w x : version_ok w (scope_owner s) k i v (eq x) → lookup_version s k i v w = (Ok (Some x), w).
Proof.
  destruct k; intros (r & Hr & Ho & ->); unfold lookup_version, get_upstream, get_route, get_config, get_feature, get_scoped, gets, mbind, M_bind;
    by rewrite (proj2 (scope_record_ok _ _ r)).
Qed.
Lemma release_target_run s k i v w x w' : resolve_release_target s k i v w = (Ok x, w') ↔
  w' = w ∧ version_ok w (scope_owner s) k i v (eq x) ∧ is_active (version_lifecycle x) ∧
  scope_record (scope_owner s) (tombstones w !! (k, i, v)) = None.
Proof.
  split.
  - intros E. unfold resolve_release_target in E. checks. subst.
    match goal with H : lookup_version _ _ _ _ _ = _ |- _ => apply lookup_version_ok in H end.
    split; [done|]. split; [done|]. done.
  - intros (-> & Hv & Ha & Ht). unfold resolve_release_target, mbind, M_bind. rewrite (scoped_version_run _ _ _ _ _ x Hv). cbn.
    rewrite (proj2 (active_ok _) Ha). cbn. unfold get_tombstone, get_scoped, gets. cbn. by rewrite Ht.
Qed.
Lemma pointer_cas_run s id er ed v w current rev w' : pointer_cas_state s id er ed v w = (Ok (current, rev), w') ↔
  w' = w ∧ current = scope_record (scope_owner s) (release_pointers w !! id) ∧ rev = revision_of current + 1 ∧
  er = revision_of current ∧ ed = pt_pointer_digest <$> current ∧ (∀ p, current = Some p → pt_target_version p ≠ v).
Proof.
  split.
  - intros E. unfold pointer_cas_state in E. checks. repeat match goal with H : (_, _) = (_, _) |- _ => injection H as <- <- end.
    subst. do 5 (split; [done|]). change (rows release_pointers_table w') with (release_pointers w') in *.
    intros p Ep. rewrite Ep in *. by guards.
  - intros (-> & -> & -> & -> & -> & Hv). unfold pointer_cas_state, get_release_pointer, get_scoped, gets, mbind, M_bind.
    change (rows release_pointers_table w) with (release_pointers w). rewrite !bool_decide_eq_false_2 by tauto. cbn.
    destruct (scope_record _ _) as [p|]; cbn; [|done]. by rewrite (proj2 (Z.eqb_neq _ _)) by auto.
Qed.
Lemma rollback_run s id op v w u w' :
  let current := scope_record (scope_owner s) (release_pointers w !! id) in
  assert_rollback_valid s id (operation_str op) current v w = (Ok u, w') ↔
  w' = w ∧ (op = Rollback → current ≠ None ∧ ∃ a, a ∈ history_at id w ∧ av_target_version a = v).
Proof.
  intros current. destruct u, op; unfold assert_rollback_valid; cbn [negb String.eqb operation_str]; [split; [by intros [= ->]|by intros [-> _]]|].
  change (negb (String.eqb "rollback" "rollback")) with false. cbv iota.
  unfold has_activation_target, get_activation_history, mbind, M_bind, gets, require. cbv beta zeta.
  subst current. destruct (scope_record _ _) as [p|] eqn:Ep; cbn; rewrite ?Ep; cbn; [|split; [done|intros [_ H]; by destruct (H eq_refl)]].
  destruct (existsb _ _) eqn:Ex; cbn.
  - split; [intros [= <-]|by intros [-> _]]. split; [done|]. intros _. split; [done|].
    apply existsb_exists in Ex as (a & Ha%list_elem_of_In & E%Z.eqb_eq). by exists a.
  - split; [done|]. intros [_ H]. destruct (H eq_refl) as (_ & a & Ha & Ev). rewrite existsb_false in Ex.
    apply Ex in Ha. by apply Z.eqb_neq in Ha.
Qed.

(** ** What a successful activation has established *)
Lemma cas_inv s m p a q w w' : compare_and_swap_release s m p a w = (Ok q, w') →
  mu_expected_revision m = revision_of (release_pointers w !! pt_pointer_id p) ∧
  mu_expected_pointer_digest m = pt_pointer_digest <$> release_pointers w !! pt_pointer_id p ∧
  ((∀ e, e ∈ history_at (pt_pointer_id p) w → av_activation_id e ≠ av_activation_id a) ∧ w' = publish p a w ∨
   a ∈ history_at (pt_pointer_id p) w).
Proof.
  intros E. unfold compare_and_swap_release, assert_cas_identity, assert_cas_scope, assert_cas_target, assert_cas_revision, cas_prior_event in E.
  guards. checks. subst. split; [done|]. split; [done|]. destruct (find _ _) as [e|] eqn:Ef; guards; subst.
  - right. apply find_some in Ef as [Hin _]. by apply list_elem_of_In.
  - left. split; [|done]. intros e He Eid. pose proof (find_none _ _ Ef e (proj1 (list_elem_of_In _ _) He)) as Hn.
    by apply bool_decide_eq_false in Hn.
Qed.
Lemma apply_cas_run s m p a w x w' : apply_cas s m p a w = (Ok x, w') ↔ compare_and_swap_release s m p a w = (Ok p, w') ∧ x = (p, a).
Proof.
  unfold apply_cas. destruct (compare_and_swap_release s m p a w) as [[q|e] w1] eqn:E; [|by split; [|intros [? _]]].
  assert (q = p) as -> by (unfold compare_and_swap_release in E; by guards).
  rewrite bool_decide_eq_false_2 by tauto. split; [by intros [= <- <-]|by intros [[= ->] ->]].
Qed.

(** The pointer that the scope sees is the stored one, once their revisions agree. *)
Lemma scoped_pointer os w o id : repository_ok os w →
  revision_of (scope_record o (release_pointers w !! id)) = revision_of (release_pointers w !! id) →
  scope_record o (release_pointers w !! id) = release_pointers w !! id ∧ ∀ p, release_pointers w !! id = Some p → owner_of p = o.
Proof.
  intros Hok E. destruct (release_pointers w !! id) as [p|] eqn:Ep; [|done].
  destruct (scope_record o (Some p)) as [q|] eqn:Eq.
  - apply scope_record_ok in Eq as [[= ->] Ho]. split; [done|]. by intros ? [= <-].
  - cbn in E. pose proof (pointer_revision_positive os w Hok id p Ep). lia.
Qed.

Lemma activate_inv os s req w p a w' : repository_ok os w → activate s req w = (Ok (p, a), w') →
  ∃ op v, admissible w s req op v ∧ p = next_pointer w s req v ∧ a = next_activation w s req op v ∧ w' = publish p a w.
Proof.
  intros Hok E. unfold activate in E. guards. subst.
  match goal with H : resolve_release_operation _ = Ok ?o |- _ => rename o into op; apply resolve_operation_run in H as Hop end.
  match goal with H : assert_release_actor _ _ _ = _ |- _ => apply release_actor_run in H as (-> & Hactor & Hprincipal) end.
  match goal with H : resolve_release_target _ _ _ _ _ = (Ok ?x, _) |- _ => rename x into v; apply release_target_run in H as (-> & Hv & Ha & Ht) end.
  match goal with x : (_ * _)%type |- _ => destruct x as [current rev] end. guards.
  match goal with H : pointer_cas_state _ _ _ _ _ _ = _ |- _ => apply pointer_cas_run in H as (-> & -> & -> & Her & Hed & Hc) end.
  match goal with H : assert_rollback_valid _ _ _ _ _ _ = _ |- _ => rewrite Hop in H; apply rollback_run in H as (-> & Hroll) end.
  unfold build_release_pointer, build_activation_record, build_release_mutation in *.
  repeat match goal with H : construct _ _ = Ok _ |- _ => apply construct_ok in H as [-> ?] end.
  apply apply_cas_run in E as [E [= -> ->]]. apply cas_inv in E as (Er & Ed & E). cbn [mu_expected_revision] in Er.
  change (release_pointers w !! _) with (current_pointer w s req) in *.
  destruct (scoped_pointer os w (scope_owner s) (request_pointer s req) Hok (eq_trans (eq_sym Her) Er)) as [Esc Howner].
  change (release_pointers w !! _) with (current_pointer w s req) in *. rewrite Esc in *.
  change (pointer_with_digest _) with (next_pointer w s req v) in *. change (activation_with_digest _) with (next_activation w s req op v) in *.
  change (pt_pointer_id (next_pointer w s req v)) with (request_pointer s req) in *.
  destruct E as [[Hfresh ->]|Hin].
  2:{ apply list_elem_of_lookup in Hin as [i Hi]. destruct (history_linear os w Hok _ _ _ Hi) as (_ & _ & Ei & _).
      change (av_release_revision _) with (revision_of (current_pointer w s req) + 1) in Ei. apply lookup_lt_Some in Hi.
      pose proof (history_revision os w Hok (request_pointer s req)) as El. unfold current_pointer in Ei. lia. }
  exists op, v. split; [|done]. match goal with H : validate_ActivationRecord _ = Ok () |- _ => rename H into Hact end.
  unfold validate_ActivationRecord in Hact. revert Hact. field_facts. intros Hact.
  split; try done; [|by intros (_ & ?)%Hroll|tauto|tauto].
  destruct (tombstones w !! request_key req) as [t|] eqn:Et; [|done].
  pose proof (tombstone_owner os w Hok _ t (scope_owner s) (eq v) Et Hv) as Ho.
  by rewrite (proj2 (scope_record_ok _ (tombstones w !! request_key req) t)) in Ht.
Qed.

(** ** Every admissible activation succeeds *)
Lemma identity_stable_ok what digested id expected digest material :
  identity_is_stable what digested id expected digest material = Ok () ↔ id = expected ∧ digest = digest_payload material.
Proof. unfold identity_is_stable, digest_is_stable. by rewrite bind_unit_ok, !raise_if_ok, !bool_decide_not_false. Qed.

Section admissible.
Context (os : list origin) (w : Repository) (s : TenantScope) (req : ActivationRequest) (op : ReleaseOperation) (v : GatewayVersion).
Context (Hok : repository_ok os w) (Hs : validate_TenantScope s = Ok ()) (Hadm : admissible w s req op v).

Lemma scope_fields : Identifier (ts_organization_id s) = true ∧ Identifier (ts_tenant_id s) = true ∧ Identifier (ts_principal_id s) = true.
Proof. unfold validate_TenantScope in Hs. revert Hs. field_facts. tauto. Qed.
Lemma target_fields :
  Identifier (aq_target_id req) = true ∧ 1 ≤ aq_target_version req ∧ Digest (version_digest v) = true.
Proof. eapply stored_version_fields; [exact Hok|]. apply Hadm. Qed.
Lemma request_pointer_Identifier : Identifier (request_pointer s req) = true.
Proof. apply derived_Identifier. eexists "r"%char, _. split; [reflexivity|]. split; [done|]. split; [by repeat constructor|cbn; lia]. Qed.
Lemma current_revision_nonneg : 0 ≤ revision_of (current_pointer w s req).
Proof. unfold current_pointer. rewrite <- (history_revision os w Hok). lia. Qed.

Lemma next_pointer_valid : validate_ReleasePointer (next_pointer w s req v) = Ok ().
Proof.
  destruct scope_fields as (? & ? & ?), target_fields as (? & ? & ?). pose proof current_revision_nonneg.
  unfold validate_ReleasePointer. field_facts. rewrite identity_stable_ok. cbn.
  rewrite request_pointer_Identifier, (adm_actor _ _ _ _ _ Hadm). repeat split; try done; [lia|apply digest_payload_Digest].
Qed.
Lemma rollback_current : op = Rollback → current_pointer w s req ≠ None.
Proof.
  intros Eo E. destruct (adm_rollback _ _ _ _ _ Hadm Eo) as (a & Ha & _). pose proof (history_revision os w Hok (request_pointer s req)) as El.
  unfold current_pointer in E. rewrite E in El. destruct (history_at _ w) as [|? ?]; [by apply not_elem_of_nil in Ha|cbn in El; lia].
Qed.
Lemma next_activation_valid : validate_ActivationRecord (next_activation w s req op v) = Ok ().
Proof.
  destruct scope_fields as (? & ? & ?), target_fields as (? & ? & ?), (adm_change_ref _ _ _ _ _ Hadm). pose proof current_revision_nonneg.
  unfold validate_ActivationRecord. field_facts. rewrite identity_stable_ok. cbn.
  rewrite request_pointer_Identifier, (adm_actor _ _ _ _ _ Hadm). repeat split; try done.
  - apply derived_Identifier. eexists "a"%char, _. split; [reflexivity|]. split; [done|]. split; [by repeat constructor|cbn; lia].
  - unfold current_pointer. destruct (release_pointers w !! _) as [p|] eqn:Ep; cbn; [|done].
    pose proof (rel_valid _ _ _ _ (ok_releases _ _ Hok _ _ Ep)) as Hv. unfold validate_ReleasePointer in Hv.
    revert Hv. field_facts. tauto.
  - lia.
  - by apply (adm_time _ _ _ _ _ Hadm).
  - apply digest_payload_Digest.
  - apply andb_false_iff. destruct (decide (op = Rollback)) as [Eo|Hn]; [right|left]; apply bool_decide_eq_false; [|done].
    intros E%fmap_None. by apply rollback_current.
Qed.
Lemma release_mutation_valid : construct validate_ReleaseMutation
    (mkReleaseMutation (request_pointer s req) (ts_organization_id s) (ts_tenant_id s) (aq_expected_revision req)
       (aq_expected_pointer_digest req) op (aq_target_kind req) (aq_target_id req) (aq_target_version req) (version_digest v)
       (aq_actor_principal_id req) (aq_change_ref req)) =
  Ok (mkReleaseMutation (request_pointer s req) (ts_organization_id s) (ts_tenant_id s) (aq_expected_revision req)
       (aq_expected_pointer_digest req) op (aq_target_kind req) (aq_target_id req) (aq_target_version req) (version_digest v)
       (aq_actor_principal_id req) (aq_change_ref req)).
Proof.
  destruct scope_fields as (? & ? & ?), target_fields as (? & ? & ?), (adm_change_ref _ _ _ _ _ Hadm). pose proof current_revision_nonneg.
  apply construct_ok. split; [done|]. unfold validate_ReleaseMutation. field_facts. cbn.
  rewrite request_pointer_Identifier, (adm_actor _ _ _ _ _ Hadm), (adm_revision _ _ _ _ _ Hadm), (adm_digest _ _ _ _ _ Hadm).
  unfold current_pointer in *. destruct (release_pointers w !! _) as [p|] eqn:Ep; [|by repeat split].
  pose proof (rel_valid _ _ _ _ (ok_releases _ _ Hok _ _ Ep)) as Hv. unfold validate_ReleasePointer in Hv. revert Hv. field_facts.
  cbn. intros Hv. repeat split; try done; [tauto|]. rewrite (proj2 (Z.eqb_neq _ _)) by lia. done.
Qed.

Lemma cas_publishes m p a : pt_pointer_id p = request_pointer s req → pt_pointer_id p = mu_pointer_id m → av_pointer_id a = pt_pointer_id p →
  owner_of p = scope_owner s → (mu_organization_id m, mu_tenant_id m) = scope_owner s →
  assert_cas_target m p a = Ok () → mu_expected_revision m = revision_of (current_pointer w s req) →
  mu_expected_pointer_digest m = pt_pointer_digest <$> current_pointer w s req →
  pt_revision p = revision_of (current_pointer w s req) + 1 →
  (∀ e, e ∈ history_at (request_pointer s req) w → av_activation_id e ≠ av_activation_id a) →
  compare_and_swap_release s m p a w = (Ok p, publish p a w).
Proof.
  intros Ei Em Ea Eo [= Emo Emt] Et Er Ed Ep Hf. injection Eo as Eo1 Eo2. unfold compare_and_swap_release, assert_cas_identity, assert_cas_scope.
  rewrite Et. unfold assert_cas_revision, cas_prior_event, mbind, M_bind, lift, raise_if, gets, modify.
  rewrite !bool_decide_eq_false_2 by congruence. cbn. rewrite Ei. fold (current_pointer w s req).
  rewrite Er, Ed, Ep, !bool_decide_eq_false_2 by tauto. cbn.
  assert (find (λ event, bool_decide (av_activation_id event = av_activation_id a)) (history_at (request_pointer s req) w) = None) as Ef.
  { destruct (find _ _) as [e|] eqn:E; [|done]. apply find_some in E as [Hin%list_elem_of_In Hid%bool_decide_eq_true].
    by destruct (Hf e Hin). }
  rewrite Ef. cbn. by rewrite <- Ei.
Qed.

Lemma activate_admissible :
  activate s req w = (Ok (next_pointer w s req v, next_activation w s req op v), publish (next_pointer w s req v) (next_activation w s req op v) w).
Proof.
  destruct Hadm as [Eop Hactor Hprin Hv Ha Hkept Howner Her Hed Hch Hroll Href Ht Hfresh].
  assert (scope_record (scope_owner s) (current_pointer w s req) = current_pointer w s req) as Esc.
  { destruct (current_pointer w s req) as [p|] eqn:Ep; [|done]. apply scope_record_ok. split; [done|by apply Howner]. }
  unfold activate. rewrite Eop, (proj2 (resolve_operation_run _ op) eq_refl).
  fold (request_pointer s req). unfold current_pointer in *.
  apply M_bind_ok. exists op, w. split; [done|].
  apply M_bind_ok. exists (), w. split; [by apply release_actor_run|].
  apply M_bind_ok. exists v, w. split; [apply release_target_run; fold (request_key req); by rewrite Hkept|]. cbv zeta.
  apply M_bind_ok. set (current := release_pointers w !! _) in *. exists (current, revision_of current + 1), w.
  split; [apply pointer_cas_run; fold current; by rewrite Esc|].
  apply M_bind_ok. exists (), w. split.
  { pose proof (rollback_run s (request_pointer s req) op (aq_target_version req) w () w) as Hrun. cbv zeta in Hrun. fold current in Hrun. rewrite Esc in Hrun.
    apply Hrun. split; [done|]. intros Eo. split; [by apply rollback_current|by apply Hroll]. }
  apply M_bind_ok. exists (next_pointer w s req v), w. split; [unfold lift; f_equal; apply construct_ok; split; [done|apply next_pointer_valid]|].
  apply M_bind_ok. exists (next_activation w s req op v), w. split; [unfold lift; f_equal; apply construct_ok; split; [done|apply next_activation_valid]|].
  apply M_bind_ok. eexists _, w. split; [unfold lift; f_equal; exact release_mutation_valid|].
  apply apply_cas_run. split; [|done]. apply cas_publishes; try done.
  unfold assert_cas_target. cbn. by rewrite !bool_decide_eq_false_2 by tauto.
Qed.
End admissible.

(** * Preservation: releases *)
Lemma prior_snoc h a i : (i ≤ length h)%nat → prior (h ++ [a]) i = prior h i.
Proof. destruct i as [|i]; [done|]. intros Hi. cbn. by rewrite lookup_app_l by lia. Qed.
Lemma prior_last h : prior h (length h) = last h.
Proof. rewrite last_lookup. by destruct (length h) eqn:E; [destruct h|]. Qed.
Lemma linear_snoc id h a : linear id h →
  av_pointer_id a = id → validate_ActivationRecord a = Ok () → av_release_revision a = Z.of_nat (S (length h)) →
  av_previous_target_version a = av_target_version <$> last h → (∀ b, last h = Some b → av_target_version b ≠ av_target_version a) →
  (av_operation a = Rollback → ∃ b, b ∈ h ∧ av_target_version b = av_target_version a) → linear id (h ++ [a]).
Proof.
  intros Hl Hid Hv Hr Hp Hch Hro i b Hi. pose proof (lookup_lt_Some _ _ _ Hi) as Hlt. rewrite length_app in Hlt. cbn in Hlt.
  rewrite prior_snoc by lia. destruct (decide (i = length h)) as [->|Hne].
  - rewrite list_lookup_middle in Hi by done. injection Hi as <-. rewrite prior_last. do 5 (split; [done|]). intros Eo.
    destruct (Hro Eo) as (b & (j & Hj)%list_elem_of_lookup & Eb). exists j, b. pose proof (lookup_lt_Some _ _ _ Hj).
    split; [done|]. by rewrite lookup_app_l.
  - rewrite lookup_app_l in Hi by lia. destruct (Hl i b Hi) as (? & ? & ? & ? & ? & Hb). do 5 (split; [done|]). intros Eo.
    destruct (Hb Eo) as (j & c & ? & Hj & ?). exists j, c. split; [done|]. split; [|done]. by apply lookup_app_l_Some.
Qed.

Lemma history_publish p a w id :
  history_at id (publish p a w) = if decide (id = pt_pointer_id p) then history_at id w ++ [a] else history_at id w.
Proof.
  unfold history_at, publish. destruct w. cbn. case_decide as E; [subst; by rewrite lookup_insert_eq|by rewrite lookup_insert_ne].
Qed.
Lemma pointers_publish p a w : release_pointers (publish p a w) = <[pt_pointer_id p := p]> (release_pointers w).
Proof. by destruct w. Qed.
Lemma publish_grows p a w : grows w (publish p a w).
Proof.
  split; try by destruct w. intros id. rewrite history_publish. case_decide; [by apply prefix_app_r|done].
Qed.
Lemma next_pointer_id w s req v : pt_pointer_id (next_pointer w s req v) = request_pointer s req.
Proof. done. Qed.

Section publish.
Context (os : list origin) (w : Repository) (s : TenantScope) (req : ActivationRequest) (op : ReleaseOperation) (v : GatewayVersion).
Context (Hok : repository_ok os w) (Hs : validate_TenantScope s = Ok ()) (Hadm : admissible w s req op v).
Let p := next_pointer w s req v.
Let a := next_activation w s req op v.

Lemma next_history_linear : linear (request_pointer s req) (history_at (request_pointer s req) w ++ [a]).
Proof.
  pose proof (history_revision os w Hok (request_pointer s req)) as Hn. pose proof (history_last os w Hok (request_pointer s req)) as Hl.
  apply linear_snoc.
  - by apply (history_linear os).
  - done.
  - by eapply next_activation_valid.
  - change (av_release_revision a) with (revision_of (current_pointer w s req) + 1). unfold current_pointer. lia.
  - by rewrite Hl.
  - intros b Hb. rewrite Hb in Hl. cbn in Hl. symmetry in Hl. apply fmap_Some in Hl as (q & Hq & ->).
    by apply (adm_change _ _ _ _ _ Hadm).
  - intros Eo. destruct (adm_rollback _ _ _ _ _ Hadm Eo) as (b & ? & ?). by exists b.
Qed.
Lemma released_ok : pointer_origin p ∈ os → release_ok os (publish p a w) (request_pointer s req) p.
Proof.
  intros Ho. pose proof (publish_grows p a w) as Hg. split.
  - done.
  - by eapply next_pointer_valid.
  - done.
  - eapply tenant_ok_grows; [done|]. eapply principal_tenant_ok; [done|apply Hadm].
  - eapply version_ok_grows; [done|]. eapply version_ok_mono; [|apply Hadm]. intros ? <-. split; [apply Hadm|done].
  - replace (tombstones (publish p a w)) with (tombstones w) by by destruct w. apply (adm_kept _ _ _ _ _ Hadm).
  - rewrite history_publish, decide_True by done. apply next_history_linear.
  - rewrite history_publish, decide_True by done. exists a. split; [apply last_snoc|done].
Qed.
Lemma publish_ok : pointer_origin p ∈ os → repository_ok os (publish p a w).
Proof.
  intros Ho. pose proof (publish_grows p a w) as Hg. split;
    try (lazymatch goal with |- table_ok _ _ => apply (table_ok_frame os w); [by destruct w|exact Hg|by apply Hok] end).
  - replace (organizations _) with (organizations w) by by destruct w. apply Hok.
  - replace (organizations _) with (organizations w) by by destruct w. replace (tenants _) with (tenants w) by by destruct w. apply Hok.
  - intros id q Hq. rewrite pointers_publish in Hq. apply lookup_insert_Some in Hq as [[<- <-]|[Hne Hq]]; [by apply released_ok|].
    apply (release_ok_frame os w); [done|by rewrite history_publish, decide_False by done| |by apply Hok].
    replace (tombstones _) with (tombstones w) by by destruct w. by eapply rel_kept, ok_releases.
  - intros id. rewrite pointers_publish. intros [Hid Hne]%lookup_insert_None.
    assert (activation_history (publish p a w) !! id = activation_history w !! id) as -> by (destruct w; cbn; by rewrite lookup_insert_ne).
    by apply (ok_history _ _ Hok).
Qed.
End publish.

(** ** A refused activation changes nothing *)
Definition refuses {A} (m : M Repository A) : Prop := ∀ w e w', m w = (Raise e, w') → w' = w.
Lemma refuses_read {A B} (m : M Repository A) (k : A → M Repository B) : reads m → (∀ a, refuses (k a)) → refuses (m ≫= k).
Proof.
  intros Hm Hk w e w'. unfold mbind, M_bind. specialize (Hm w). destruct (m w) as [[a|e'] w1]; cbn in Hm; subst w1; [apply Hk|].
  by intros [= _ <-].
Qed.
Lemma assert_rollback_valid_reads s id o c v : reads (assert_rollback_valid s id o c v).
Proof. unfold assert_rollback_valid, has_activation_target, get_activation_history. read. Qed.
Lemma pointer_cas_state_reads s id er ed v : reads (pointer_cas_state s id er ed v).
Proof. unfold pointer_cas_state, get_release_pointer. read. Qed.
Lemma resolve_release_target_reads s k i v : reads (resolve_release_target s k i v).
Proof. unfold resolve_release_target, get_tombstone. read. Qed.
Lemma assert_release_actor_reads s a : reads (assert_release_actor s a).
Proof. unfold assert_release_actor, get_principal. read. Qed.
Lemma assert_cas_revision_reads m p : reads (assert_cas_revision m p).
Proof. unfold assert_cas_revision. read. Qed.
Lemma cas_prior_event_reads p a : reads (cas_prior_event p a).
Proof. unfold cas_prior_event. read. Qed.
#[export] Hint Resolve assert_rollback_valid_reads pointer_cas_state_reads resolve_release_target_reads assert_release_actor_reads
  assert_cas_revision_reads cas_prior_event_reads : reads.
Ltac refuse := repeat (apply refuses_read; [solve [read]|intros ?]).

Lemma compare_and_swap_refuses s m p a : refuses (compare_and_swap_release s m p a).
Proof. unfold compare_and_swap_release. refuse. intros w e w'. by match goal with x : option ActivationRecord |- _ => destruct x end. Qed.
Lemma apply_cas_refuses s m p a : refuses (apply_cas s m p a).
Proof.
  intros w e w'. unfold apply_cas. destruct (compare_and_swap_release s m p a w) as [[q|e'] w1] eqn:E.
  - assert (q = p) as -> by (unfold compare_and_swap_release in E; by guards). by rewrite bool_decide_eq_false_2 by tauto.
  - intros [= _ <-]. by apply compare_and_swap_refuses in E.
Qed.
Lemma activate_refuses s req : refuses (activate s req).
Proof. unfold activate. refuse. case_match. refuse. apply apply_cas_refuses. Qed.

(** The outcomes of an activation: the release, or nothing *)
Lemma activate_run os s req w : repository_ok os w → validate_TenantScope s = Ok () →
  (∃ op v, admissible w s req op v ∧
    activate s req w = (Ok (next_pointer w s req v, next_activation w s req op v), publish (next_pointer w s req v) (next_activation w s req op v) w)) ∨
  ((¬ ∃ op v, admissible w s req op v) ∧ ∃ e, activate s req w = (Raise e, w)).
Proof.
  intros Hok Hs. destruct (activate s req w) as [[[p a]|e] w'] eqn:E.
  - left. apply (activate_inv os) in E as (op & v & Hadm & -> & -> & ->); [|done]. by exists op, v.
  - right. pose proof (activate_refuses s req w e w' E) as ->. split; [|by exists e].
    intros (op & v & Hadm). by rewrite (activate_admissible os w s req op v Hok Hs Hadm) in E.
Qed.

(** * Histories of calls *)

(** The models of a call are built by their classes, so they are valid. *)
Definition genuine (c : call) : Prop :=
  match c with
  | RegisterOrganization r => validate_OrganizationIdentity r = Ok ()
  | RegisterTenant r => validate_TenantIdentity r = Ok ()
  | RegisterPrincipal s r => validate_TenantScope s = Ok () ∧ row_valid r
  | RegisterClient s r => validate_TenantScope s = Ok () ∧ row_valid r
  | RegisterRetentionPolicy s r => validate_TenantScope s = Ok () ∧ row_valid r
  | RegisterPermission s r => validate_TenantScope s = Ok () ∧ row_valid r
  | RegisterRole s r => validate_TenantScope s = Ok () ∧ row_valid r
  | RegisterMembership s r => validate_TenantScope s = Ok () ∧ row_valid r
  | RegisterEntitlement s r => validate_TenantScope s = Ok () ∧ row_valid r
  | RegisterQuota s r => validate_TenantScope s = Ok () ∧ row_valid r
  | RegisterUpstream s r => validate_TenantScope s = Ok () ∧ row_valid r
  | RegisterRoute s r => validate_TenantScope s = Ok () ∧ row_valid r
  | RegisterConfig s r => validate_TenantScope s = Ok () ∧ row_valid r
  | RegisterFeature s r => validate_TenantScope s = Ok () ∧ row_valid r
  | RegisterCircuitHistory s r => validate_TenantScope s = Ok () ∧ row_valid r
  | RegisterTombstone s r => validate_TenantScope s = Ok () ∧ row_valid r
  | ActivateRelease s _ => validate_TenantScope s = Ok ()
  end.
(** The origins of the identities that a call may store *)
Definition request_origin (s : TenantScope) (req : ActivationRequest) : origin :=
  tenant_derived (ts_tenant_id s) [target_kind_str (aq_target_kind req); aq_target_id req].
Definition call_origins (c : call) : list origin :=
  match c with
  | RegisterOrganization _ | RegisterTenant _ => []
  | RegisterPrincipal _ r => [row_origin r]
  | RegisterClient _ r => [row_origin r]
  | RegisterRetentionPolicy _ r => [row_origin r]
  | RegisterPermission _ r => [row_origin r]
  | RegisterRole _ r => [row_origin r]
  | RegisterMembership _ r => [row_origin r]
  | RegisterEntitlement _ r => [row_origin r]
  | RegisterQuota _ r => [row_origin r]
  | RegisterUpstream _ r => [row_origin r]
  | RegisterRoute _ r => [row_origin r]
  | RegisterConfig _ r => [row_origin r]
  | RegisterFeature _ r => [row_origin r]
  | RegisterCircuitHistory _ r => [row_origin r]
  | RegisterTombstone _ r => [row_origin r]
  | ActivateRelease s req => [request_origin s req]
  end.
Definition origins (cs : list call) : list origin := concat (map call_origins cs).

Lemma quietly_run m w x w' : quietly m w = (x, w') → ∃ y, m w = (y, w') ∧ x = (y ≫= λ _, Ok None).
Proof. unfold quietly, mbind, M_bind. destruct (m w) as [[[]|e] w1]; intros [= <- <-]; by eexists. Qed.
Lemma activate_call_run s req w x w' : run_call (ActivateRelease s req) w = (x, w') →
  ∃ y, activate s req w = (y, w') ∧ x = (y ≫= λ r, Ok (Some r)).
Proof. unfold run_call, mbind, M_bind. destruct (activate s req w) as [[r|e] w1]; intros [= <- <-]; by eexists. Qed.

Lemma activate_ok os s req w x w' : validate_TenantScope s = Ok () → request_origin s req ∈ os → repository_ok os w →
  activate s req w = (x, w') → repository_ok os w' ∧ grows w w'.
Proof.
  intros Hs Ho Hok E. destruct (activate_run os s req w Hok Hs) as [(op & v & Hadm & E')|[_ [e E']]]; rewrite E' in E; injection E as _ <-; [|done].
  split; [by apply publish_ok|apply publish_grows].
Qed.

Create HintDb registrations.
#[export] Hint Resolve register_principal_ok register_client_ok register_retention_policy_ok register_permission_ok register_role_ok
  register_membership_ok register_entitlement_ok register_quota_ok register_upstream_ok register_route_ok register_config_ok
  register_feature_ok register_circuit_history_ok register_tombstone_ok : registrations.

(** A registration by its lemma *)
Ltac registration os s r w Hv Ho Hok E :=
  lazymatch type of E with
  | ?m _ = _ => let Hk := fresh in assert (keeps_ok os s r m w) as Hk by auto 1 with registrations nocore; exact (Hk Hv Ho Hok _ _ E)
  end.
Lemma call_ok os c w x w' : genuine c → (∀ o, o ∈ call_origins c → o ∈ os) → repository_ok os w →
  run_call c w = (x, w') → repository_ok os w' ∧ grows w w'.
Proof.
  intros Hc Ho Hok E. destruct c as [r|r|s r|s r|s r|s r|s r|s r|s r|s r|s r|s r|s r|s r|s r|s r|s req];
    cbn [genuine call_origins run_call] in Hc, Ho, E; first [apply quietly_run in E as (y & E & _)|apply activate_call_run in E as (y & E & _)].
  { split; [by eapply register_organization_ok|by eapply register_organization_grows]. }
  { split; [by eapply register_tenant_ok|by eapply register_tenant_grows]. }
  15: { eapply activate_ok; [done| |done|done]. apply Ho. by left. }
  all: destruct Hc as [Hs Hv]; specialize (Ho _ (list_elem_of_here _ _)); registration os s r w Hv Ho Hok E.
Qed.

Lemma run_calls_cons c cs w rs w' : run_calls (c :: cs) w = (rs, w') →
  ∃ r rs' w1, run_call c w = (r, w1) ∧ run_calls cs w1 = (rs', w') ∧ rs = r :: rs'.
Proof. cbn. destruct (run_call c w) as [r w1] eqn:E1, (run_calls cs w1) as [rs' w2] eqn:E2. intros [= <- <-]. by eexists _, _, _. Qed.
Lemma calls_ok os cs w rs w' : Forall genuine cs → (∀ o, o ∈ origins cs → o ∈ os) → repository_ok os w →
  run_calls cs w = (rs, w') → repository_ok os w' ∧ grows w w'.
Proof.
  revert w rs. induction cs as [|c cs IH]; intros w rs Hc Ho Hok E; [by injection E as <- <-|].
  apply Forall_cons in Hc as [Hc Hcs]. apply run_calls_cons in E as (r & rs' & w1 & E1 & E2 & ->). unfold origins in Ho. cbn in Ho.
  destruct (call_ok os c w r w1 Hc (λ o H, Ho o (proj2 (elem_of_app _ _ o) (or_introl H))) Hok E1) as [Hok1 Hg1].
  destruct (IH w1 rs' Hcs (λ o H, Ho o (proj2 (elem_of_app _ _ o) (or_intror H))) Hok1 E2) as [Hok2 Hg2]. split; [done|by trans w1].
Qed.
Lemma new_repository_ok os : repository_ok os new_repository.
Proof. split; try done. Qed.
Lemma reachable_ok cs rs w : Forall genuine cs → run_calls cs new_repository = (rs, w) → repository_ok (origins cs) w.
Proof. intros Hc E. by apply (calls_ok (origins cs) cs new_repository rs w Hc) in E as [? _]; [|done|apply new_repository_ok]. Qed.

(** A call of a run, between the repositories before and after it *)
Lemma run_calls_at os cs w rs w' i c r : Forall genuine cs → (∀ o, o ∈ origins cs → o ∈ os) → repository_ok os w →
  run_calls cs w = (rs, w') → cs !! i = Some c → rs !! i = Some r →
  ∃ wi wi', repository_ok os wi ∧ repository_ok os wi' ∧ grows w wi ∧ run_call c wi = (r, wi') ∧
    run_calls (drop (S i) cs) wi' = (drop (S i) rs, w').
Proof.
  revert w rs i. induction cs as [|c0 cs IH]; intros w rs i Hg Ho Hok E Hc Hr; [done|]. apply Forall_cons in Hg as [Hg0 Hg].
  apply run_calls_cons in E as (r0 & rs' & w1 & E1 & E2 & ->). unfold origins in Ho. cbn in Ho.
  destruct (call_ok os c0 w r0 w1 Hg0 (λ o H, Ho o (proj2 (elem_of_app _ _ o) (or_introl H))) Hok E1) as [Hok1 Hg1]. destruct i as [|i].
  - cbn in Hc, Hr. simplify_eq. by exists w, w1.
  - destruct (IH w1 rs' i Hg (λ o H, Ho o (proj2 (elem_of_app _ _ o) (or_intror H))) Hok1 E2 Hc Hr) as (wi & wi' & ? & ? & ? & ? & ?). exists wi, wi'.
    split; [done|]. split; [done|]. split; [by trans w1|done].
Qed.
Lemma origins_drop n cs o : o ∈ origins (drop n cs) → o ∈ origins cs.
Proof.
  unfold origins. intros (l & Hl & (c & -> & Hc)%list_elem_of_fmap)%elem_of_concat.
  apply elem_of_concat. exists (call_origins c). split; [done|]. apply list_elem_of_fmap. exists c. split; [done|].
  apply list_elem_of_lookup in Hc as [i Hi]. rewrite lookup_drop in Hi. by eapply list_elem_of_lookup_2.
Qed.
Lemma activation_published os s req w p a w' : repository_ok os w → run_call (ActivateRelease s req) w = (Ok (Some (p, a)), w') →
  aq_expected_revision req = revision_of (release_pointers w !! pt_pointer_id p) ∧
  pt_revision p = aq_expected_revision req + 1 ∧ release_pointers w' !! pt_pointer_id p = Some p.
Proof.
  intros Hok E. apply activate_call_run in E as ([[p' a']|e] & E & Er); [|done]. cbn in Er. injection Er as <- <-.
  apply (activate_inv os) in E as (op & v & Hadm & -> & -> & ->); [|done]. split; [apply Hadm|]. split.
  - rewrite (adm_revision _ _ _ _ _ Hadm). done.
  - rewrite pointers_publish. by rewrite lookup_insert_eq.
Qed.
Lemma revision_grows os os' w w' id : repository_ok os w → repository_ok os' w' → grows w w' →
  revision_of (release_pointers w !! id) ≤ revision_of (release_pointers w' !! id).
Proof.
  intros Hok Hok' Hg. rewrite <- (history_revision os w Hok), <- (history_revision os' w' Hok').
  pose proof (prefix_length _ _ (grows_history _ _ Hg id)). lia.
Qed.

(** * The properties of the component *)

(** A stored record stands under its own key, satisfies its validator, and
    belongs to a registered active tenant in which all that it refers to exists. *)
Definition stored_ok {K R} `{Row K R} (w : Repository) : Prop := ∀ k r, rows row_table w !! k = Some r →
  row_key r = k ∧ row_valid r ∧ tenant_ok w (owner_of r) ∧ row_refs w r.
Lemma table_stored {K R} `{Row K R} os w : table_ok os w → stored_ok w.
Proof. intros Hok k r Hr. by destruct (Hok k r Hr) as (? & ? & _ & ? & ?). Qed.

Definition references_ok (w : Repository) : Prop :=
  (∀ k o, organizations w !! k = Some o → og_organization_id o = k ∧ validate_OrganizationIdentity o = Ok ()) ∧
  (∀ k t, tenants w !! k = Some t → tn_tenant_id t = k ∧ validate_TenantIdentity t = Ok () ∧
     ∃ o, organizations w !! tn_organization_id t = Some o ∧ is_active (og_lifecycle o)) ∧
  stored_ok (R := PrincipalIdentity) w ∧ stored_ok (R := ApiClientIdentity) w ∧ stored_ok (R := RetentionPolicy) w ∧
  stored_ok (R := Permission) w ∧ stored_ok (R := Role) w ∧ stored_ok (R := Membership) w ∧ stored_ok (R := Entitlement) w ∧
  stored_ok (R := QuotaContract) w ∧ stored_ok (R := GatewayUpstreamVersion) w ∧ stored_ok (R := GatewayRouteVersion) w ∧
  stored_ok (R := GatewayConfigVersion) w ∧ stored_ok (R := GatewayFeatureVersion) w ∧ stored_ok (R := CircuitHistory) w ∧
  stored_ok (R := TombstoneRecord) w.

(** C23: Referential integrity. After any calls, whoever made them and whichever
    of them were refused, every record in the repository but those of releases
    ([released_target_live], [release_history_linear]) satisfies its validator and
    is stored under its own identity, and all its references resolve within its own tenant: a client names an active
    principal, a role permissions, a membership an active principal and role,
    an entitlement or a quota its subject, a route an active upstream version,
    a config active routes and upstreams by their digests, a feature its active
    config, a tombstone its retention policy and its version; and every tenant
    belongs to an active organization. *)
Theorem references_resolve cs rs w : Forall genuine cs → run_calls cs new_repository = (rs, w) → references_ok w.
Proof.
  intros Hc E. destruct (reachable_ok cs rs w Hc E). split; [done|]. split; [done|]. do 13 (split; [by eapply table_stored|]). by eapply table_stored.
Qed.

(** C24: The releases of a target form one linear history: its events are
    numbered from one without a gap, each names the version before it and
    changes it, a rollback returns to a version released earlier, and the
    pointer, whose revision counts the events, shows the last of them. *)
Theorem release_history_linear cs rs w id : Forall genuine cs → run_calls cs new_repository = (rs, w) →
  linear id (history_at id w) ∧ Z.of_nat (length (history_at id w)) = revision_of (release_pointers w !! id) ∧
  ∀ p, release_pointers w !! id = Some p →
    pt_pointer_id p = id ∧ validate_ReleasePointer p = Ok () ∧ ∃ a, last (history_at id w) = Some a ∧ same_release p a.
Proof.
  intros Hc E. pose proof (reachable_ok cs rs w Hc E) as Hok. split; [by eapply history_linear|]. split; [by eapply history_revision|].
  intros p Hp%(ok_releases _ _ Hok). destruct Hp. done.
Qed.

(** C14: What is released is live: a release pointer targets a stored version of
    its own tenant, active and with the digest it names, and no tombstone covers
    that version, neither one registered before the release nor one after. *)
Theorem released_target_live cs rs w id p : Forall genuine cs → run_calls cs new_repository = (rs, w) →
  release_pointers w !! id = Some p →
  tenant_ok w (owner_of p) ∧
  version_ok w (owner_of p) (pt_target_kind p) (pt_target_id p) (pt_target_version p) (live (pt_target_digest p)) ∧
  tombstones w !! (pt_target_kind p, pt_target_id p, pt_target_version p) = None.
Proof. intros Hc E Hp. pose proof (reachable_ok cs rs w Hc E) as Hok. by destruct (ok_releases _ _ Hok _ _ Hp). Qed.

(** C13: An activation succeeds exactly when it is admissible, and then it
    publishes exactly the pointer with the next revision and the event that
    records it; otherwise it raises and changes nothing. *)
Theorem activate_exact cs rs w s req : Forall genuine cs → run_calls cs new_repository = (rs, w) → validate_TenantScope s = Ok () →
  (∀ op v, admissible w s req op v → let p := next_pointer w s req v in let a := next_activation w s req op v in
     activate s req w = (Ok (p, a), publish p a w)) ∧
  ((∀ op v, ¬ admissible w s req op v) → ∃ e, activate s req w = (Raise e, w)).
Proof.
  intros Hc E Hs. pose proof (reachable_ok cs rs w Hc E) as Hok. split.
  - intros op v Hadm. by eapply activate_admissible.
  - intros Hn. destruct (activate_run (origins cs) s req w Hok Hs) as [(op & v & Hadm & _)|[_ ?]]; [by destruct (Hn op v)|done].
Qed.

(** Of the activations of one target that expect the same revision at most
    one is published: a later success expects, and publishes, a higher one. *)
Theorem activations_serialize cs rs w i j s1 req1 s2 req2 p1 a1 p2 a2 : Forall genuine cs → run_calls cs new_repository = (rs, w) →
  (i < j)%nat → cs !! i = Some (ActivateRelease s1 req1) → cs !! j = Some (ActivateRelease s2 req2) →
  rs !! i = Some (Ok (Some (p1, a1))) → rs !! j = Some (Ok (Some (p2, a2))) → pt_pointer_id p1 = pt_pointer_id p2 →
  aq_expected_revision req1 < aq_expected_revision req2 ∧ pt_revision p1 < pt_revision p2.
Proof.
  intros Hc E Hij Hi Hj Hri Hrj Eid.
  destruct (run_calls_at (origins cs) cs new_repository rs w i _ _ Hc ltac:(done) (new_repository_ok _) E Hi Hri)
    as (wi & wi' & Hoki & Hoki' & _ & Eci & Edi).
  assert (j = S i + (j - S i))%nat as Ej by lia. rewrite Ej, <- lookup_drop in Hj. rewrite Ej, <- lookup_drop in Hrj.
  destruct (run_calls_at (origins cs) (drop (S i) cs) wi' (drop (S i) rs) w (j - S i) _ _ (Forall_drop _ _ _ Hc)
    (origins_drop _ cs) Hoki' Edi Hj Hrj) as (wj & wj' & Hokj & _ & Hg & Ecj & _).
  destruct (activation_published _ _ _ _ _ _ _ Hoki Eci) as (E1 & E2 & E3), (activation_published _ _ _ _ _ _ _ Hokj Ecj) as (E4 & E5 & _).
  pose proof (revision_grows _ _ _ _ (pt_pointer_id p1) Hoki' Hokj Hg) as Hle. rewrite E3, Eid in Hle. cbn in Hle. lia.
Qed.

(** The record is append-only: whatever calls follow, every stored record
    stays as it is and every activation history keeps its events in order. *)
Theorem records_are_immutable cs rs w cs' rs' w' : Forall genuine cs → run_calls cs new_repository = (rs, w) →
  Forall genuine cs' → run_calls cs' w = (rs', w') → grows w w'.
Proof.
  intros Hc E Hc' E'. eapply (calls_ok (origins cs ++ origins cs') cs' w rs' w'); [done|set_solver| |done].
  eapply (calls_ok (origins cs ++ origins cs') cs new_repository rs w); [done|set_solver|apply new_repository_ok|done].
Qed.
