(* ===== verification/FoundationIsolation.v ===== *)
(** Tenant isolation: what the calls of one tenant return, and what they leave
    behind, does not depend on the calls of the others.

    [view o w] is the part of the repository that the owner [o] can see. A call
    of [o] does in [view o w] what it does in [w] ([local]); a call of another
    owner does not change [view o w] ([view_foreign_call]). Both need the
    identities of different owners to differ: they are hashes that cover the
    tenant, except those of retention policies and circuits, which are chosen
    ([clash]). *)
From S2P Require Export FoundationRelease.
From S2P Require Import Sha256.
Local Open Scope Z_scope.

(** * Views *)
Definition keep {K R} `{Countable K, Scoped R} (o : owner) (m : gmap K R) : gmap K R := filter (λ kv, owner_of kv.2 = o) m.
Definition visible (o : owner) (pointers : gmap string ReleasePointer) (id : string) : Prop := scope_record o (pointers !! id) ≠ None.
Definition view (o : owner) (w : Repository) : Repository :=
  mkRepository (organizations w) (tenants w) (keep o (principals w)) (keep o (clients w)) (keep o (retention_policies w))
    (keep o (permissions w)) (keep o (roles w)) (keep o (memberships w)) (keep o (entitlements w)) (keep o (quotas w))
    (keep o (upstreams w)) (keep o (routes w)) (keep o (configs w)) (keep o (features w)) (keep o (circuit_histories w))
    (keep o (tombstones w)) (keep o (release_pointers w)) (filter (λ kv, visible o (release_pointers w) kv.1) (activation_history w)).

Section keep.
Context {K R : Type} `{Countable K, Scoped R} (o : owner).
Implicit Types (m : gmap K R) (r : R).

Lemma keep_lookup m k r : keep o m !! k = Some r ↔ m !! k = Some r ∧ owner_of r = o.
Proof. apply map_lookup_filter_Some. Qed.
Lemma keep_scoped m k : scope_record o (keep o m !! k) = scope_record o (m !! k).
Proof. apply option_eq. intros r. rewrite !scope_record_ok, keep_lookup. tauto. Qed.
Lemma keep_own m k : (∀ r, m !! k = Some r → owner_of r = o) → keep o m !! k = m !! k.
Proof. intros Ho. apply option_eq. intros r. rewrite keep_lookup. naive_solver. Qed.
Lemma keep_insert m k r : owner_of r = o → keep o (<[k := r]> m) = <[k := r]> (keep o m).
Proof. intros Ho. unfold keep. by rewrite map_filter_insert_True. Qed.
Lemma keep_insert_foreign m k r : owner_of r ≠ o → (∀ r0, m !! k = Some r0 → owner_of r0 ≠ o) → keep o (<[k := r]> m) = keep o m.
Proof.
  intros Ho Hk. unfold keep. rewrite map_filter_insert_False by done. apply map_filter_delete_not. intros r0 Hr0. by apply Hk.
Qed.
End keep.

(** A table of owned rows, below the view *)
Class Viewed {K R} `{Countable K, Scoped R} (t : table K R) : Prop := {
  view_rows o w : rows t (view o w) = keep o (rows t w);
  view_set_rows o w x : view o (set_rows t x w) = set_rows t (keep o x) (view o w) }.
Ltac viewed := split; [done|by intros ? [] ?].
#[export] Instance principals_viewed : Viewed principals_table. Proof. viewed. Qed.
#[export] Instance clients_viewed : Viewed clients_table. Proof. viewed. Qed.
#[export] Instance retention_policies_viewed : Viewed retention_policies_table. Proof. viewed. Qed.
#[export] Instance permissions_viewed : Viewed permissions_table. Proof. viewed. Qed.
#[export] Instance roles_viewed : Viewed roles_table. Proof. viewed. Qed.
#[export] Instance memberships_viewed : Viewed memberships_table. Proof. viewed. Qed.
#[export] Instance entitlements_viewed : Viewed entitlements_table. Proof. viewed. Qed.
#[export] Instance quotas_viewed : Viewed quotas_table. Proof. viewed. Qed.
#[export] Instance upstreams_viewed : Viewed upstreams_table. Proof. viewed. Qed.
#[export] Instance routes_viewed : Viewed routes_table. Proof. viewed. Qed.
#[export] Instance configs_viewed : Viewed configs_table. Proof. viewed. Qed.
#[export] Instance features_viewed : Viewed features_table. Proof. viewed. Qed.
#[export] Instance circuit_histories_viewed : Viewed circuit_histories_table. Proof. viewed. Qed.
#[export] Instance tombstones_viewed : Viewed tombstones_table. Proof. viewed. Qed.

(** * Local computations *)
Definition local {A} (o : owner) (m : M Repository A) (w : Repository) : Prop := m (view o w) = ((m w).1, view o (m w).2).

Section local.
Context (o : owner).

Lemma local_ret {A} (a : A) w : local o (mret a) w.
Proof. done. Qed.
Lemma local_throw {A} (e : pyexn) w : local o (mthrow e : M Repository A) w.
Proof. done. Qed.
Lemma local_lift {A} (x : result A) w : local o (lift x) w.
Proof. done. Qed.
Lemma local_raise_if b e w : local o (raise_if b e) w.
Proof. by destruct b. Qed.
Lemma local_require {A} (x : option A) e w : local o (require x e) w.
Proof. by destruct x. Qed.
Lemma local_bind {A B} (m : M Repository A) (k : A → M Repository B) w : local o m w →
  (∀ a w1, m w = (Ok a, w1) → local o (k a) w1) → local o (m ≫= k) w.
Proof.
  intros Hm Hk. unfold local, mbind, M_bind in *. rewrite Hm. destruct (m w) as [[a|e] w1] eqn:E; cbn; [|done]. by apply Hk.
Qed.
Lemma local_read {A B} (m : M Repository A) (k : A → M Repository B) w : reads m → local o m w →
  (∀ a, m w = (Ok a, w) → local o (k a) w) → local o (m ≫= k) w.
Proof. intros Hr Hm Hk. apply local_bind; [done|]. intros a w1 E. pose proof (reads_ok _ _ _ _ Hr E) as ->. by apply Hk. Qed.
Lemma local_viewed {K R} `{Countable K, Scoped R} (t : table K R) `{!Viewed t} s k w : scope_owner s = o → local o (get_scoped t s k) w.
Proof. intros <-. unfold local, get_scoped, gets. cbn. by rewrite view_rows, keep_scoped. Qed.
Lemma local_get_tenant s k w : local o (get_tenant s k) w.
Proof. done. Qed.
Lemma local_get_release_pointer s id w : scope_owner s = o → local o (get_release_pointer s id) w.
Proof. intros <-. unfold local, get_release_pointer, get_scoped, gets. cbn. by rewrite keep_scoped. Qed.
End local.

Create HintDb local.
#[export] Hint Resolve local_ret local_throw local_lift local_raise_if local_require local_get_tenant : local.
#[export] Hint Extern 1 (local _ (get_scoped _ _ _) _) => apply local_viewed; [apply _|first [assumption|reflexivity]] : local.
#[export] Hint Extern 1 (local _ (get_release_pointer _ _) _) => apply local_get_release_pointer; first [assumption|reflexivity] : local.
(** Follows a method along its binds *)
Ltac localize := repeat first
  [ solve [auto 2 with local] | progress cbv zeta
  | match goal with |- local _ (mbind _ _) _ => apply local_bind; [|intros ? ? ?] end | case_match ].

Section methods.
Context (o : owner) (s : TenantScope) (Ho : scope_owner s = o).

Lemma assert_scope_principal_local w : local o (assert_scope_principal s) w.
Proof. unfold assert_scope_principal, get_principal, get_client. localize. Qed.
#[local] Hint Resolve assert_scope_principal_local : local.
Lemma require_tenant_scope_local ow b w : local o (require_tenant_scope s ow b) w.
Proof. unfold require_tenant_scope. localize. Qed.
Lemma require_subject_local k i w : local o (require_subject s k i) w.
Proof. unfold require_subject, get_principal, get_client. localize. Qed.
Lemma lookup_version_local k i v w : local o (lookup_version s k i v) w.
Proof. unfold lookup_version, get_upstream, get_route, get_config, get_feature. localize. Qed.
#[local] Hint Resolve lookup_version_local : local.
Lemma get_version_local r w : local o (get_version s r) w.
Proof. unfold get_version. localize. Qed.
#[local] Hint Resolve get_version_local : local.
Lemma check_permissions_local ids w : local o (check_permissions s ids) w.
Proof. revert w. induction ids as [|id ids IH]; intros w; cbn; unfold get_permission; localize. Qed.
Lemma check_components_local cs w : local o (check_components s cs) w.
Proof. revert w. induction cs as [|c cs IH]; intros w; cbn; localize. Qed.
Lemma get_activation_history_local id w : local o (get_activation_history s id) w.
Proof.
  unfold local, get_activation_history, gets. rewrite Ho. change (release_pointers (view o w)) with (keep o (release_pointers w)).
  rewrite keep_scoped. destruct (scope_record o (release_pointers w !! id)) as [p|] eqn:Ep; cbn; rewrite ?Ep; [|done].
  f_equal. f_equal. unfold history_at. cbn. destruct (activation_history w !! id) as [h|] eqn:Eh.
  - rewrite (proj2 (map_lookup_filter_Some _ _ _ h)); [done|]. split; [done|]. unfold visible. cbn. by rewrite Ep.
  - by rewrite (proj2 (map_lookup_filter_None _ _ _)) by by left.
Qed.
#[local] Hint Resolve get_activation_history_local : local.
Lemma assert_release_actor_local a w : local o (assert_release_actor s a) w.
Proof. unfold assert_release_actor, get_principal. localize. Qed.
Lemma resolve_release_target_local k i v w : local o (resolve_release_target s k i v) w.
Proof. unfold resolve_release_target, get_tombstone. localize. Qed.
Lemma pointer_cas_state_local id er ed v w : local o (pointer_cas_state s id er ed v) w.
Proof. unfold pointer_cas_state. localize. Qed.
Lemma assert_rollback_valid_local id op c v w : local o (assert_rollback_valid s id op c v) w.
Proof. unfold assert_rollback_valid, has_activation_target. localize. Qed.
End methods.
#[export] Hint Resolve require_tenant_scope_local require_subject_local lookup_version_local get_version_local check_permissions_local
  check_components_local assert_release_actor_local resolve_release_target_local pointer_cas_state_local assert_rollback_valid_local : local.

(** * Clashes of identities

    Two derivations with one SHA-256 digest, or one chosen identity under two
    owners *)
Definition clash (a b : origin) : Prop :=
  match a, b with
  | Derived x, Derived y => sha256_collision x y
  | Chosen kind id o, Chosen kind' id' o' => kind = kind' ∧ id = id' ∧ o ≠ o'
  | _, _ => False
  end.
Definition no_clash (os : list origin) : Prop := ∀ a b, a ∈ os → b ∈ os → ¬ clash a b.

Lemma derived_clash prefix t1 t2 p1 p2 rest1 rest2 : Identifier t1 = true → Identifier t2 = true →
  derived_id prefix t1 (p1 :: rest1) = derived_id prefix t2 (p2 :: rest2) →
  clash (tenant_derived t1 (p1 :: rest1)) (tenant_derived t2 (p2 :: rest2)) ∨ t1 = t2.
Proof.
  intros H1 H2 E%string_app_inj. destruct (decide (joined t1 (p1 :: rest1) = joined t2 (p2 :: rest2))) as [Ej|Hne].
  - right. by eapply joined_first.
  - left. by split.
Qed.

(** Rows of one key have one tenant, or clash. *)
Class Identified (K R : Type) `{Row K R} : Prop :=
  row_identity r r0 : row_valid r → row_valid r0 → row_key r = row_key r0 → clash (row_origin r) (row_origin r0) ∨ (owner_of r).2 = (owner_of r0).2.
Ltac identified_by validate :=
  let r := fresh "r" in let r0 := fresh "r" in let Hv := fresh "Hv" in let Hv0 := fresh "Hv" in let Ek := fresh "Ek" in
  intros r r0 Hv Hv0 Ek; cbn in Hv, Hv0, Ek; revert Hv Hv0; unfold validate; field_facts; rewrite !identity_stable_ok;
  intros Hv Hv0; try injection Ek as Ek _; eapply derived_clash; [tauto|tauto|];
  destruct_and?; etransitivity; [symmetry; eassumption|]; etransitivity; [exact Ek|eassumption].
#[export] Instance PrincipalIdentity_identified : Identified string PrincipalIdentity. Proof. identified_by validate_PrincipalIdentity. Qed.
#[export] Instance ApiClientIdentity_identified : Identified string ApiClientIdentity. Proof. identified_by validate_ApiClientIdentity. Qed.
#[export] Instance Permission_identified : Identified string Permission. Proof. identified_by validate_Permission. Qed.
#[export] Instance Role_identified : Identified string Role. Proof. identified_by validate_Role. Qed.
#[export] Instance Membership_identified : Identified string Membership. Proof. identified_by validate_Membership. Qed.
#[export] Instance Entitlement_identified : Identified string Entitlement. Proof. identified_by validate_Entitlement. Qed.
#[export] Instance QuotaContract_identified : Identified string QuotaContract. Proof. identified_by validate_QuotaContract. Qed.
#[export] Instance GatewayUpstreamVersion_identified : Identified (string * Z) GatewayUpstreamVersion. Proof. identified_by validate_GatewayUpstreamVersion. Qed.
#[export] Instance GatewayRouteVersion_identified : Identified (string * Z) GatewayRouteVersion. Proof. identified_by validate_GatewayRouteVersion. Qed.
#[export] Instance GatewayConfigVersion_identified : Identified (string * Z) GatewayConfigVersion. Proof. identified_by validate_GatewayConfigVersion. Qed.
#[export] Instance GatewayFeatureVersion_identified : Identified (string * Z) GatewayFeatureVersion. Proof. identified_by validate_GatewayFeatureVersion. Qed.
(** An identity that the tenant chooses *)
Ltac chosen := let r := fresh "r" in let r0 := fresh "r" in let Ek := fresh "Ek" in
  intros r r0 _ _ Ek; destruct (decide (owner_of r = owner_of r0)) as [->|?]; [by right|left; split; [done|split; [exact Ek|done]]].
#[export] Instance RetentionPolicy_identified : Identified string RetentionPolicy. Proof. chosen. Qed.
#[export] Instance CircuitHistory_identified : Identified string CircuitHistory. Proof. chosen. Qed.

Lemma tenant_owner w o o' : tenant_ok w o → tenant_ok w o' → o.2 = o'.2 → o = o'.
Proof. intros (t & Ht & <- & _) (t' & Ht' & <- & _) E. rewrite E in Ht. by simplify_eq. Qed.

(** * Registrations *)
Section put.
Context {K R : Type} `{Row K R} `{!EqDecision R} (os : list origin) (w : Repository).

(** What is stored under the key of a row belongs to the row's owner. *)
Definition owned_key (r : R) : Prop := ∀ r0, rows row_table w !! row_key r = Some r0 → owner_of r0 = owner_of r.
Lemma identified_owned `{!Identified K R} r : table_ok os w → no_clash os → row_valid r → row_origin r ∈ os → tenant_ok w (owner_of r) →
  owned_key r.
Proof.
  intros Hok Hn Hv Ho Ht r0 Hr0. destruct (Hok _ _ Hr0) as (Ek & Hv0 & Ho0 & Ht0 & _).
  destruct (row_identity r r0 Hv Hv0 (eq_sym Ek)) as [Hc|E]; [by destruct (Hn _ _ Ho Ho0)|]. by apply (tenant_owner w).
Qed.
Lemma local_put r : Viewed row_table → owned_key r → local (owner_of r) (on_table row_table (retain (row_key r) r)) w.
Proof.
  intros Hview Hown. unfold local, on_table. rewrite view_rows. unfold retain, mbind, M_bind, get_state, raise_if, put_state.
  rewrite keep_own by exact Hown. destruct (rows row_table w !! row_key r) as [r0|]; [case_bool_decide|]; cbn;
    by rewrite view_set_rows, ?keep_insert.
Qed.
(** In a foreign view nothing changes. *)
Lemma view_adds o r w' : Viewed row_table → adds r w w' → owner_of r ≠ o → view o w' = view o w.
Proof.
  intros Hview [-> Hs] Ho. rewrite view_set_rows, keep_insert_foreign, <- view_rows; [apply row_same|done|]. by intros r0 ->%Hs.
Qed.
End put.

Definition local_in {K R} `{Row K R} (os : list origin) (s : TenantScope) (r : R) (m : M Repository ()) (w : Repository) : Prop :=
  row_valid r → row_origin r ∈ os → no_clash os → repository_ok os w → local (scope_owner s) m w.
(** Follows a registration to the row it puts *)
Ltac registering_locally os :=
  let Hv := fresh "Hv" in let Ho := fresh "Ho" in let Hn := fresh "Hn" in let Hok := fresh "Hok" in
  let Es := fresh "Es" in let Ht := fresh "Ht" in
  intros Hv Ho Hn Hok; repeat (apply local_read; [solve [read]|solve [unfold get_tenant, get_principal, get_client, get_retention_policy,
    get_permission, get_role, get_upstream, get_route, get_config, get_feature, get_tombstone; localize]|intros ? ?]);
  match goal with
  | H : require_tenant_scope _ _ _ _ = _ |- _ => apply require_tenant_scope_ok in H as (_ & Es & Ht & _)
  end; rewrite Es; match goal with |- local (owner_of ?r) _ ?w =>
    refine (local_put w r _ _); try (apply (identified_owned os); [apply _|by apply Hok|exact Hn|exact Hv|exact Ho|exact Ht]) end.

Lemma register_principal_local os s r w : local_in os s r (register_principal s r) w.
Proof. unfold local_in, register_principal. registering_locally os. Qed.
Lemma register_client_local os s r w : local_in os s r (register_client s r) w.
Proof. unfold local_in, register_client. registering_locally os. Qed.
Lemma register_retention_policy_local os s r w : local_in os s r (register_retention_policy s r) w.
Proof. unfold local_in, register_retention_policy. registering_locally os. Qed.
Lemma register_permission_local os s r w : local_in os s r (register_permission s r) w.
Proof. unfold local_in, register_permission. registering_locally os. Qed.
Lemma register_role_local os s r w : local_in os s r (register_role s r) w.
Proof. unfold local_in, register_role. registering_locally os. Qed.
Lemma register_membership_local os s r w : local_in os s r (register_membership s r) w.
Proof. unfold local_in, register_membership. registering_locally os. Qed.
Lemma register_entitlement_local os s r w : local_in os s r (register_entitlement s r) w.
Proof. unfold local_in, register_entitlement. registering_locally os. Qed.
Lemma register_quota_local os s r w : local_in os s r (register_quota s r) w.
Proof. unfold local_in, register_quota. registering_locally os. Qed.
Lemma register_upstream_local os s r w : local_in os s r (register_upstream s r) w.
Proof. unfold local_in, register_upstream. registering_locally os. Qed.
Lemma register_route_local os s r w : local_in os s r (register_route s r) w.
Proof. unfold local_in, register_route. registering_locally os. Qed.
Lemma register_config_local os s r w : local_in os s r (register_config s r) w.
Proof. unfold local_in, register_config. registering_locally os. Qed.
Lemma register_feature_local os s r w : local_in os s r (register_feature s r) w.
Proof. unfold local_in, register_feature. registering_locally os. Qed.
Lemma register_circuit_history_local os s r w : local_in os s r (register_circuit_history s r) w.
Proof. unfold local_in, register_circuit_history. registering_locally os. Qed.
Lemma register_tombstone_local os s r w : local_in os s r (register_tombstone s r) w.
Proof.
  unfold local_in, register_tombstone. registering_locally os. intros r0 Hr0.
  apply (ok_tombstones _ _ Hok) in Hr0 as ([= Ek Ei Ev] & _ & _ & _ & _ & Hv0).
  match goal with H : lookup_version _ _ _ _ _ = (Ok ?x, _), H' : require ?x _ _ = _ |- _ =>
    apply require_run in H' as [-> _]; apply lookup_version_ok in H end.
  rewrite Ek, Ei, Ev in Hv0. rewrite <- Es. by eapply version_ok_owner.
Qed.

(** * Releases *)
Lemma view_pointers o w : release_pointers (view o w) = keep o (release_pointers w).
Proof. done. Qed.
Section release.
Context (os : list origin) (o : owner) (w : Repository) (Hok : repository_ok os w).

Lemma history_view id : (∀ p, release_pointers w !! id = Some p → owner_of p = o) → history_at id (view o w) = history_at id w.
Proof.
  intros Ho. unfold history_at. f_equal. cbn. apply option_eq. intros h. rewrite map_lookup_filter_Some. split; [by intros [? _]|].
  intros Hh. split; [done|]. unfold visible. cbn. destruct (release_pointers w !! id) as [p|] eqn:Ep.
  - by rewrite (proj2 (scope_record_ok o (Some p) p)) by auto.
  - by rewrite (ok_history _ _ Hok id Ep) in Hh.
Qed.
End release.

Lemma visible_insert o ps p id : visible o (<[pt_pointer_id p := p]> ps) id ↔ if decide (id = pt_pointer_id p) then owner_of p = o else visible o ps id.
Proof.
  unfold visible. case_decide as E; [subst; rewrite lookup_insert_eq|by rewrite lookup_insert_ne].
  split; [destruct (scope_record o (Some p)) as [q|] eqn:Eq; [|done]; by apply scope_record_ok in Eq as [[= ->] ?]|].
  intros Ho. by rewrite (proj2 (scope_record_ok o (Some p) p)).
Qed.
Lemma visible_own o ps id p : ps !! id = Some p → visible o ps id → owner_of p = o.
Proof.
  unfold visible. intros ->. destruct (scope_record o (Some p)) as [q|] eqn:Eq; [|done]. by apply scope_record_ok in Eq as [[= ->] ?].
Qed.

(** The histories after a publication, to its owner and to the others *)
Lemma histories_own o ps p a (hs : gmap string (list ActivationRecord)) : owner_of p = o →
  (visible o ps (pt_pointer_id p) ∨ hs !! pt_pointer_id p = None) →
  filter (λ kv, visible o (<[pt_pointer_id p := p]> ps) kv.1) (<[pt_pointer_id p := default [] (hs !! pt_pointer_id p) ++ [a]]> hs) =
  <[pt_pointer_id p := default [] (filter (λ kv, visible o ps kv.1) hs !! pt_pointer_id p) ++ [a]]> (filter (λ kv, visible o ps kv.1) hs).
Proof.
  intros Ho Hv. assert (filter (λ kv, visible o ps kv.1) hs !! pt_pointer_id p = hs !! pt_pointer_id p) as Ef.
  { apply option_eq. intros h. rewrite map_lookup_filter_Some. cbn. destruct Hv as [Hv|Hv]; [tauto|]. rewrite Hv. by split; [intros [? _]|]. }
  rewrite Ef. apply map_eq. intros i. apply option_eq. intros h. rewrite map_lookup_filter_Some, visible_insert. cbn.
  case_decide as E; [subst i; rewrite !lookup_insert_eq; tauto|]. by rewrite !lookup_insert_ne, map_lookup_filter_Some.
Qed.
Lemma histories_foreign o ps p a (hs : gmap string (list ActivationRecord)) : owner_of p ≠ o → ¬ visible o ps (pt_pointer_id p) →
  filter (λ kv, visible o (<[pt_pointer_id p := p]> ps) kv.1) (<[pt_pointer_id p := default [] (hs !! pt_pointer_id p) ++ [a]]> hs) =
  filter (λ kv, visible o ps kv.1) hs.
Proof.
  intros Ho Hv. apply map_eq. intros i. apply option_eq. intros h. rewrite !map_lookup_filter_Some, visible_insert. cbn.
  case_decide as E; [subst i; tauto|]. by rewrite lookup_insert_ne.
Qed.

Lemma view_publish os o w p a : repository_ok os w → owner_of p = o →
  (∀ q, release_pointers w !! pt_pointer_id p = Some q → owner_of q = o) → view o (publish p a w) = publish p a (view o w).
Proof.
  intros Hok Ho Hq. unfold view, publish, set_pointer, append_activation. pose proof (ok_history _ _ Hok (pt_pointer_id p)) as Hh.
  destruct w. cbn in *. f_equal; [by apply keep_insert|]. apply histories_own; [done|].
  destruct (release_pointers !! pt_pointer_id p) as [q|] eqn:Eq; [left|right; by apply Hh].
  unfold visible. rewrite Eq, (proj2 (scope_record_ok o (Some q) q)); [done|]. split; [done|by apply Hq].
Qed.
Lemma view_publish_foreign o w p a : owner_of p ≠ o →
  (∀ q, release_pointers w !! pt_pointer_id p = Some q → owner_of q ≠ o) → view o (publish p a w) = view o w.
Proof.
  intros Ho Hq. unfold view, publish, set_pointer, append_activation. destruct w. cbn in *.
  f_equal; [by apply keep_insert_foreign|]. apply histories_foreign; [done|]. intros Hv.
  destruct (release_pointers !! pt_pointer_id p) as [q|] eqn:Eq; [by apply (Hq q), (visible_own o release_pointers (pt_pointer_id p))|].
  unfold visible in Hv. by rewrite Eq in Hv.
Qed.

(** The pointer that a request names is its tenant's, or there is a clash. *)
Lemma pointer_owned os w s req p : repository_ok os w → no_clash os → validate_TenantScope s = Ok () → request_origin s req ∈ os →
  tenant_ok w (scope_owner s) → release_pointers w !! request_pointer s req = Some p → owner_of p = scope_owner s.
Proof.
  intros Hok Hn Hs Ho Ht Hp. pose proof (ok_releases _ _ Hok _ _ Hp) as Hr.
  assert (Identifier (ts_tenant_id s) = true ∧ Identifier (pt_tenant_id p) = true) as [Hi Hi'].
  { pose proof (rel_valid _ _ _ _ Hr) as Hv. unfold validate_TenantScope in Hs. unfold validate_ReleasePointer in Hv.
    revert Hs Hv. field_facts. tauto. }
  pose proof (rel_id _ _ _ _ Hr) as Eid. rewrite (ReleasePointer_identity p) in Eid by apply Hr.
  destruct (derived_clash "release:" _ _ _ _ _ _ Hi' Hi Eid) as [Hc|E].
  - by destruct (Hn _ _ (rel_origin _ _ _ _ Hr) Ho).
  - by apply (tenant_owner w); [apply Hr|..].
Qed.
Lemma view_set_pointer o w p q : owner_of p = o → release_pointers w !! pt_pointer_id p = Some q → owner_of q = o →
  view o (set_pointer p w) = set_pointer p (view o w).
Proof.
  intros Ho Hq Eq. unfold view, set_pointer. destruct w. cbn in *. f_equal; [by apply keep_insert|].
  apply map_filter_ext. intros i h _. cbn. rewrite visible_insert. case_decide as E; [|done]. subst i.
  unfold visible. rewrite Hq, (proj2 (scope_record_ok o (Some q) q)) by done. by split.
Qed.

Section cas.
Context (os : list origin) (o : owner) (w : Repository) (p : ReleasePointer).
Context (Hok : repository_ok os w) (Hp : owner_of p = o) (Hown : ∀ q, release_pointers w !! pt_pointer_id p = Some q → owner_of q = o).

Lemma assert_cas_revision_local m : local o (assert_cas_revision m p) w.
Proof.
  unfold assert_cas_revision. apply local_bind; [|intros; localize].
  unfold local, gets. cbn [fst snd]. rewrite view_pointers. by rewrite (keep_own _ _ _ Hown).
Qed.
Lemma cas_prior_event_local a : local o (cas_prior_event p a) w.
Proof.
  unfold cas_prior_event. apply local_bind; [|intros; localize]. unfold local, gets. cbn [fst snd]. by rewrite (history_view os).
Qed.
Lemma cas_prior_event_run a x w' : cas_prior_event p a w = (Ok x, w') →
  x = None ∨ ∃ q, release_pointers w !! pt_pointer_id p = Some q.
Proof.
  intros E. destruct (release_pointers w !! pt_pointer_id p) as [q|] eqn:Eq; [right; by exists q|left].
  unfold cas_prior_event, mbind, M_bind, gets, history_at in E. rewrite (ok_history _ _ Hok _ Eq) in E. cbn in E. by injection E as <- _.
Qed.
Lemma compare_and_swap_local s m a : local o (compare_and_swap_release s m p a) w.
Proof.
  unfold compare_and_swap_release. do 3 (apply local_read; [read|localize|intros ? _]).
  apply local_read; [read|apply assert_cas_revision_local|intros _ _].
  apply local_read; [read|apply cas_prior_event_local|intros prior Hprior]. apply cas_prior_event_run in Hprior as [->|[q Hq]].
  - assert (view o (publish p a w) = publish p a (view o w)) as E by by apply (view_publish os).
    unfold local. change ((Ok p, publish p a (view o w)) = (Ok p, view o (publish p a w))). by rewrite E.
  - assert (view o (publish p a w) = publish p a (view o w)) as E by by apply (view_publish os).
    assert (view o (set_pointer p w) = set_pointer p (view o w)) as E' by (apply (view_set_pointer o w p q); auto).
    unfold local. destruct prior; [change ((Ok p, set_pointer p (view o w)) = (Ok p, view o (set_pointer p w)))
      |change ((Ok p, publish p a (view o w)) = (Ok p, view o (publish p a w)))]; congruence.
Qed.
Lemma apply_cas_local s m a : local o (apply_cas s m p a) w.
Proof.
  pose proof (compare_and_swap_local s m a) as Hl. unfold local, apply_cas in *. rewrite Hl.
  destruct (compare_and_swap_release s m p a w) as [[q|e] w1]; cbn; [by case_bool_decide|done].
Qed.
End cas.

Lemma activate_local os s req w : repository_ok os w → no_clash os → validate_TenantScope s = Ok () → request_origin s req ∈ os →
  local (scope_owner s) (activate s req) w.
Proof.
  intros Hok Hn Hs Ho. unfold activate. apply local_read; [read|localize|intros op _].
  apply local_read; [read|localize|intros [] Hactor]. apply release_actor_run in Hactor as (_ & _ & Hactor).
  pose proof (principal_tenant_ok os w Hok _ _ _ Hactor) as Ht.
  apply local_read; [read|localize|intros v _]. cbv zeta. apply local_read; [read|localize|intros [current rev] _].
  apply local_read; [read|localize|intros _ _]. apply local_read; [read|localize|intros p Hp].
  unfold lift in Hp. injection Hp as Hp. apply construct_ok in Hp as [-> _].
  apply local_read; [read|localize|intros a _]. apply local_read; [read|localize|intros m _].
  apply (apply_cas_local os); [done|done|]. intros q Hq. by eapply (pointer_owned os w s req).
Qed.

(** * Calls *)

(** The tenant on whose behalf a call is made; organizations and tenants are
    registered on nobody's. *)
Definition call_owner (c : call) : option owner :=
  match c with
  | RegisterOrganization _ | RegisterTenant _ => None
  | RegisterPrincipal s _ | RegisterClient s _ | RegisterRetentionPolicy s _ | RegisterPermission s _ | RegisterRole s _
  | RegisterMembership s _ | RegisterEntitlement s _ | RegisterQuota s _ | RegisterUpstream s _ | RegisterRoute s _
  | RegisterConfig s _ | RegisterFeature s _ | RegisterCircuitHistory s _ | RegisterTombstone s _ | ActivateRelease s _ =>
      Some (scope_owner s)
  end.
Definition concerns (o : owner) (c : call) : Prop := call_owner c = None ∨ call_owner c = Some o.
#[export] Instance concerns_dec o c : Decision (concerns o c).
Proof. unfold concerns. apply _. Defined.

Create HintDb registrations_local.
#[export] Hint Resolve register_principal_local register_client_local register_retention_policy_local register_permission_local
  register_role_local register_membership_local register_entitlement_local register_quota_local register_upstream_local
  register_route_local register_config_local register_feature_local register_circuit_history_local register_tombstone_local : registrations_local.
Create HintDb registers.
#[export] Hint Resolve register_principal_registers register_client_registers register_retention_policy_registers
  register_permission_registers register_role_registers register_membership_registers register_entitlement_registers
  register_quota_registers register_upstream_registers register_route_registers register_config_registers register_feature_registers
  register_circuit_history_registers register_tombstone_registers : registers.

Lemma quietly_local o m w : local o m w → local o (quietly m) w.
Proof. intros Hm. apply local_bind; [done|]. intros. localize. Qed.
Lemma identity_table_local {K R} `{Countable K, EqDecision R} (t : table K R) o k r w : (∀ w, rows t (view o w) = rows t w) →
  (∀ w x, view o (set_rows t x w) = set_rows t x (view o w)) → local o (on_table t (retain k r)) w.
Proof.
  intros Hrows Hset. unfold local, on_table. rewrite Hrows. destruct (retain k r (rows t w)) as [x m]. cbn. by rewrite Hset.
Qed.
Lemma register_organization_local o r w : local o (register_organization r) w.
Proof. apply identity_table_local; [done|by intros []]. Qed.
Lemma register_tenant_local o r w : local o (register_tenant r) w.
Proof.
  unfold register_tenant. apply local_bind; [done|]. intros ? ? _. localize. apply identity_table_local; [done|by intros []].
Qed.

Lemma call_local os o c w : genuine c → (∀ a, a ∈ call_origins c → a ∈ os) → no_clash os → repository_ok os w → concerns o c →
  local o (run_call c) w.
Proof.
  intros Hc Ho Hn Hok Hcon. destruct c as [r|r|s r|s r|s r|s r|s r|s r|s r|s r|s r|s r|s r|s r|s r|s r|s req];
    cbn [genuine call_origins run_call] in Hc, Ho |- *;
    try (apply quietly_local; first [apply register_organization_local|apply register_tenant_local|idtac]);
    (destruct Hcon as [?|[= <-]]; [done|]); specialize (Ho _ (list_elem_of_here _ _)).
  15: { apply local_bind; [by apply (activate_local os)|intros; localize]. }
  all: destruct Hc as [Hs Hv]; lazymatch goal with |- local _ ?m _ =>
    let Hk := fresh in assert (local_in os s r m w) as Hk by auto 1 with registrations_local nocore; exact (Hk Hv Ho Hn Hok) end.
Qed.
Lemma registers_foreign {K R} `{Row K R} o s r m w x w' : Viewed row_table → registers s r m w → scope_owner s ≠ o →
  m w = (x, w') → view o w' = view o w.
Proof. intros Hview Hm Ho E. destruct (Hm _ _ E) as [->|(_ & (Es & _) & Hadd)]; [done|]. eapply view_adds; [done|exact Hadd|congruence]. Qed.
Lemma call_foreign os o c w x w' : repository_ok os w → ¬ concerns o c → run_call c w = (x, w') → view o w' = view o w.
Proof.
  intros Hok Hcon E. destruct c as [r|r|s r|s r|s r|s r|s r|s r|s r|s r|s r|s r|s r|s r|s r|s r|s req]; try (by destruct Hcon; left);
    assert (scope_owner s ≠ o) as Ho by (intros <-; apply Hcon; by right);
    first [apply quietly_run in E as (y & E & _)|apply activate_call_run in E as (y & E & _)].
  15: { destruct y as [[p a]|e]; [|by apply activate_refuses in E as ->].
    apply (activate_inv os) in E as (op & v & Hadm & -> & -> & ->); [|done]. apply view_publish_foreign; [done|].
    intros q Hq. by rewrite (adm_owner _ _ _ _ _ Hadm q Hq). }
  all: lazymatch type of E with ?m _ = _ =>
    assert (registers s r m w) as Hm by auto 1 with registers nocore; exact (registers_foreign o s r m w y w' _ Hm Ho E) end.
Qed.

(** * Isolation *)
(** The outcomes of the calls that concern [o] *)
Definition outcomes_of {A} (o : owner) (cs : list call) (rs : list A) : list A := (filter (λ cr, concerns o cr.1) (zip cs rs)).*2.

Lemma view_new o : view o new_repository = new_repository.
Proof. done. Qed.
Lemma run_calls_view os o cs w rs w' : Forall genuine cs → (∀ a, a ∈ origins cs → a ∈ os) → no_clash os → repository_ok os w →
  run_calls cs w = (rs, w') → run_calls (filter (concerns o) cs) (view o w) = (outcomes_of o cs rs, view o w').
Proof.
  revert w rs. induction cs as [|c cs IH]; intros w rs Hc Ho Hn Hok E; [by injection E as <- <-|].
  apply Forall_cons in Hc as [Hc Hcs]. apply run_calls_cons in E as (r & rs' & w1 & E1 & E2 & ->). unfold origins in Ho. cbn in Ho.
  assert (∀ a, a ∈ call_origins c → a ∈ os) as Ho1 by (intros a Ha; apply Ho, elem_of_app; by left).
  assert (∀ a, a ∈ origins cs → a ∈ os) as Ho2 by (intros a Ha; apply Ho, elem_of_app; by right).
  destruct (call_ok os c w r w1 Hc Ho1 Hok E1) as [Hok1 _]. specialize (IH w1 rs' Hcs Ho2 Hn Hok1 E2).
  unfold outcomes_of. cbn [zip zip_with]. rewrite !filter_cons. cbn [fst]. destruct (decide (concerns o c)) as [Hcon|Hcon].
  - cbn [run_calls fmap list_fmap snd]. pose proof (call_local os o c w Hc Ho1 Hn Hok Hcon) as Hl. unfold local in Hl. rewrite E1 in Hl. cbn [fst snd] in Hl. by rewrite Hl, IH.
  - by rewrite <- (call_foreign os o c w r w1 Hok Hcon E1), IH.
Qed.

(** C4: Tenants cannot observe each other. In any sequence of calls of any
    tenants, the calls of one of them (with those that register organizations
    and tenants) return what they would have returned had no other tenant made
    a call, and leave it with the same records, unless two identities clash. *)
Theorem tenant_isolation o cs rs w : Forall genuine cs → no_clash (origins cs) → run_calls cs new_repository = (rs, w) →
  run_calls (filter (concerns o) cs) new_repository = (outcomes_of o cs rs, view o w).
Proof. intros Hc Hn E. rewrite <- (view_new o) at 1. by apply (run_calls_view (origins cs)); [| | |apply new_repository_ok|]. Qed.
