(* ===== verification/FoundationExample.v ===== *)
(** The fixtures of [tests/control_plane/test_foundation.py] with a second
    tenant, the instances of the foundation theorems, and the findings. *)
From S2P Require Export FoundationIsolation.
From S2P Require Import Sha256.
Local Open Scope Z_scope.

#[export] Instance genuine_dec c : Decision (genuine c).
Proof. destruct c; cbn; apply _. Defined.
#[export] Instance clash_dec a b : Decision (clash a b).
Proof. destruct a, b; cbn; unfold sha256_collision; apply _. Defined.

(** * Fixtures *)
Definition lifecycle : LifecycleState := mkLifecycle Active "retention:default".
Definition organization (slug : string) : OrganizationIdentity :=
  let make d := mkOrganization (organization_id_for slug) slug 1 lifecycle d in make (digest_payload (OrganizationIdentity_json (make ""))).
Definition tenant (org : string) (slug : string) : TenantIdentity :=
  let o := organization_id_for org in
  let make d := mkTenant (tenant_id_for o slug) o slug 1 lifecycle d in make (digest_payload (TenantIdentity_json (make ""))).
Definition principal (t : TenantIdentity) : PrincipalIdentity :=
  let make d := mkPrincipal (principal_id_for (tn_tenant_id t) "idp:user-1") (tn_organization_id t) (tn_tenant_id t) User "idp:user-1" 1 lifecycle d in
  make (digest_payload (PrincipalIdentity_json (make ""))).
Definition scope_with (t : TenantIdentity) (client : option string) : TenantScope :=
  let make d := mkScope (tn_organization_id t) (tn_tenant_id t) (pn_principal_id (principal t)) client [] d in
  make (digest_payload (scope_json (make ""))).
Definition scope (t : TenantIdentity) : TenantScope := scope_with t None.
Definition retention (t : TenantIdentity) (id : string) : RetentionPolicy :=
  let make d := mkRetention id (tn_organization_id t) (tn_tenant_id t) 30 false 1 d in make (digest_payload (RetentionPolicy_json (make ""))).
Definition upstream (t : TenantIdentity) (version : Z) (endpoint : string) : GatewayUpstreamVersion :=
  let make d := mkUpstream (upstream_id_for (tn_tenant_id t) "api") (tn_organization_id t) (tn_tenant_id t) "api" version endpoint
    (Some "keyref:gateway-tls") (Some "artifact:gateway-ca") lifecycle d in
  make (digest_payload (GatewayUpstreamVersion_json (make ""))).
Definition permission (t : TenantIdentity) : Permission :=
  let make d := mkPermission (permission_id_for (tn_tenant_id t) "read" "resource:all") (tn_organization_id t) (tn_tenant_id t) "read" "resource:all" lifecycle d in
  make (digest_payload (Permission_json (make ""))).
Definition role (t : TenantIdentity) : Role :=
  let make d := mkRole (role_id_for (tn_tenant_id t) "reader") (tn_organization_id t) (tn_tenant_id t) "reader" [pm_permission_id (permission t)] lifecycle d in
  make (digest_payload (Role_json (make ""))).
Definition client (t : TenantIdentity) (l : LifecycleState) : ApiClientIdentity :=
  let make d := mkClient (client_id_for (tn_tenant_id t) "cli") (tn_organization_id t) (tn_tenant_id t) (pn_principal_id (principal t)) "cli"
    "keyref:cli" 1 l d in
  make (digest_payload (ApiClientIdentity_json (make ""))).
Definition route (t : TenantIdentity) (u : GatewayUpstreamVersion) : GatewayRouteVersion :=
  let make d := mkRoute (route_id_for (tn_tenant_id t) "gateway") (tn_organization_id t) (tn_tenant_id t) "gateway" 1 "/api"
    (up_upstream_id u) (up_version u) "policy:default" lifecycle d in
  make (digest_payload (GatewayRouteVersion_json (make ""))).
Definition tombstone (u : GatewayUpstreamVersion) : TombstoneRecord :=
  let make d := mkTombstone (tombstone_id (up_tenant_id u) Upstream (up_upstream_id u) (up_version u)) (up_organization_id u) (up_tenant_id u)
    Upstream (up_upstream_id u) (up_version u) "retention:default" "reason:operator" "2026-08-19T00:04:00Z" "2026-09-19T00:04:00Z" d in
  make (digest_payload (TombstoneRecord_json (make ""))).

Definition prod : TenantIdentity := tenant "acme" "prod".
Definition other : TenantIdentity := tenant "globex" "main".
Definition api (version : Z) : GatewayUpstreamVersion :=
  upstream prod version (if version =? 1 then "endpoint:api:v1" else "endpoint:api:v2").

Definition request (version expected : Z) (digest : option string) (operation : string) : ActivationRequest :=
  mkRequest Upstream (up_upstream_id (api 1)) version (pn_principal_id (principal prod)) expected digest "change:release:1"
    "2026-08-19T00:00:00Z" operation.
Definition pointer_id : string := release_pointer_id (tn_tenant_id prod) Upstream (up_upstream_id (api 1)).
Definition after (cs : list call) : Repository := (run_calls cs new_repository).2.
Definition outcomes (cs : list call) : list (option string) :=
  map (λ r, match r with Ok _ => None | Raise e => Some (exn_code e) end) (run_calls cs new_repository).1.
(** The digest of the current pointer *)
Definition current_digest (cs : list call) : option string := pt_pointer_digest <$> release_pointers (after cs) !! pointer_id.

Definition setup : list call :=
  [RegisterOrganization (organization "acme"); RegisterOrganization (organization "globex"); RegisterTenant prod; RegisterTenant other;
   RegisterPrincipal (scope prod) (principal prod); RegisterPrincipal (scope other) (principal other);
   RegisterRetentionPolicy (scope prod) (retention prod "retention:default");
   RegisterRetentionPolicy (scope other) (retention other "retention:globex");
   RegisterUpstream (scope prod) (api 1); RegisterUpstream (scope other) (upstream other 1 "endpoint:globex");
   RegisterUpstream (scope prod) (api 2); RegisterPermission (scope prod) (permission prod); RegisterRole (scope prod) (role prod)].
Definition first_release : call := ActivateRelease (scope prod) (request 1 0 None "activate").
Definition released : list call := setup ++ [first_release; RegisterTombstone (scope prod) (tombstone (api 1))].
Definition second_request : ActivationRequest := request 2 1 (current_digest released) "activate".
Definition stale : call := ActivateRelease (scope prod) (request 1 1 None "activate").
Definition upgraded : list call := released ++ [ActivateRelease (scope prod) second_request; stale].
Definition rollback : call := ActivateRelease (scope prod) (request 1 2 (current_digest upgraded) "rollback").
Definition history : list call :=
  upgraded ++ [rollback; RegisterRoute (scope prod) (route prod (api 1)); RegisterTombstone (scope prod) (tombstone (api 2));
    RegisterRoute (scope other) (route prod (api 1))].

Example history_outcomes : drop (length setup) (outcomes history) =
  [None; Some "active_release_cannot_be_tombstoned"; None; Some "release_pointer_stale_cas"; None; None; None; Some "cross_tenant_scope"].
Proof. vm_compute. reflexivity. Qed.

(** * The instances of the theorems *)
Module FoundationExample.

Lemma history_genuine : Forall genuine history.
Proof. by_compute. Qed.
Lemma history_no_clash : no_clash (origins history).
Proof.
  assert (Forall (λ a, Forall (λ b, ¬ clash a b) (origins history)) (origins history)) as H by by_compute.
  intros a b Ha Hb. rewrite Forall_forall in H. specialize (H a Ha). rewrite Forall_forall in H. by apply H.
Qed.
Definition results (cs : list call) := (run_calls cs new_repository).1.
Lemma run_of cs : run_calls cs new_repository = (results cs, after cs).
Proof. apply surjective_pairing. Qed.

Lemma references_resolve_witness : references_ok (after history).
Proof. exact (references_resolve history (results history) (after history) history_genuine (run_of history)). Defined.

Lemma release_history_linear_witness :
  linear pointer_id (history_at pointer_id (after history)) ∧
  Z.of_nat (length (history_at pointer_id (after history))) = revision_of (release_pointers (after history) !! pointer_id) ∧
  revision_of (release_pointers (after history) !! pointer_id) = 3.
Proof.
  destruct (release_history_linear history (results history) (after history) pointer_id history_genuine (run_of history)) as (Hl & Hn & _).
  split; [exact Hl|]. split; [exact Hn|]. by_compute.
Defined.

Definition current : ReleasePointer :=
  default (mkPointer "" "" "" Upstream "" 0 "" 0 "" "") (release_pointers (after history) !! pointer_id).
Lemma released_target_live_witness : tombstones (after history) !! (pt_target_kind current, pt_target_id current, pt_target_version current) = None.
Proof.
  assert (release_pointers (after history) !! pointer_id = Some current) as E by by_compute.
  exact (proj2 (proj2 (released_target_live history (results history) (after history) pointer_id current history_genuine (run_of history) E))).
Defined.

Lemma upgraded_genuine : Forall genuine upgraded.
Proof. by_compute. Qed.
Lemma option_all {A} (P : A → Prop) `{!∀ a, Decision (P a)} (x : option A) : from_option (λ a, bool_decide (P a)) true x = true →
  ∀ a, x = Some a → P a.
Proof. intros Hx a ->. by apply bool_decide_eq_true in Hx. Qed.
(** The upgrade is admissible before it is made, and stale after it. *)
Lemma upgrade_admissible : ∃ v, admissible (after released) (scope prod) second_request Activate v.
Proof.
  exists (UpstreamVersion (api 2)). split; try by_compute.
  - exists (principal prod). by_compute.
  - exists (api 2). split; [by_compute|]. by split; [by_compute|].
  - apply (option_all (λ q, owner_of q = scope_owner (scope prod))). by_compute.
  - apply (option_all (λ q, pt_target_version q ≠ aq_target_version second_request)). by_compute.
  - done.
  - apply Forall_forall. by_compute.
Qed.
Lemma released_genuine : Forall genuine released.
Proof. by_compute. Qed.
Lemma activate_exact_witness : (∃ p a w', activate (scope prod) second_request (after released) = (Ok (p, a), w')) ∧
  ∃ e, activate (scope prod) (request 1 1 None "activate") (after upgraded) = (Raise e, after upgraded).
Proof.
  assert (validate_TenantScope (scope prod) = Ok ()) as Hs by by_compute. split.
  - destruct upgrade_admissible as [v Hadm].
    destruct (activate_exact released (results released) (after released) (scope prod) second_request released_genuine (run_of released) Hs) as [H _].
    specialize (H Activate v Hadm). cbv zeta in H. do 3 eexists. exact H.
  - apply (activate_exact upgraded (results upgraded) (after upgraded) (scope prod) (request 1 1 None "activate") upgraded_genuine (run_of upgraded) Hs).
    assert (revision_of (current_pointer (after upgraded) (scope prod) (request 1 1 None "activate")) = 2) as Hr by by_compute.
    intros op v' Hadm'. pose proof (eq_trans (adm_revision _ _ _ _ _ Hadm') Hr) as H. discriminate H.
Defined.

(** The first activation and the second: the latter expects the revision of the former. *)
Lemma activations_serialize_witness : ∃ p1 a1 p2 a2,
  results history !! 13%nat = Some (Ok (Some (p1, a1))) ∧ results history !! 15%nat = Some (Ok (Some (p2, a2))) ∧ pt_revision p1 < pt_revision p2.
Proof.
  assert (∃ p1 a1 p2 a2, results history !! 13%nat = Some (Ok (Some (p1, a1))) ∧ results history !! 15%nat = Some (Ok (Some (p2, a2))) ∧
    pt_pointer_id p1 = pt_pointer_id p2) as (p1 & a1 & p2 & a2 & H1 & H2 & H3) by (do 4 eexists; vm_compute; split; [reflexivity|split; reflexivity]).
  exists p1, a1, p2, a2. split; [exact H1|]. split; [exact H2|].
  refine (proj2 (activations_serialize history (results history) (after history) 13 15 (scope prod) (request 1 0 None "activate") (scope prod)
    second_request p1 a1 p2 a2 history_genuine (run_of history) _ _ _ H1 H2 H3)); [lia|reflexivity|reflexivity].
Defined.

Definition rest : list call := drop (length released) history.
Lemma rest_genuine : Forall genuine rest.
Proof. by_compute. Qed.
Lemma records_are_immutable_witness : grows (after released) (run_calls rest (after released)).2.
Proof.
  exact (records_are_immutable released (results released) (after released) rest (run_calls rest (after released)).1
    (run_calls rest (after released)).2 released_genuine (run_of released) rest_genuine (surjective_pairing _)).
Defined.

(** What [globex] sees of the history: its own calls and the registrations of
    organizations and tenants *)
Definition globex : owner := owner_of other.
Lemma tenant_isolation_witness :
  run_calls (filter (concerns globex) history) new_repository = (outcomes_of globex history (results history), view globex (after history)) ∧
  length (filter (concerns globex) history) = 8%nat.
Proof.
  split; [exact (tenant_isolation globex history (results history) (after history) history_genuine history_no_clash (run_of history))|by_compute].
Defined.

(** * Findings *)

(** A retention policy's identity does not cover its tenant: the second tenant
    that names its policy as the first did is refused, and learns of the first. *)
Definition same_policy : list call := setup ++ [RegisterRetentionPolicy (scope other) (retention other "retention:default")].
Example chosen_identity_conflicts :
  Forall genuine same_policy ∧ last (outcomes same_policy) = Some (Some "immutable foundation record mutation") ∧
  last (outcomes (filter (concerns globex) same_policy)) = Some None.
Proof. split; [by_compute|]. split; by_compute. Qed.

(** A retired client acts: the scope's client is looked up, but its lifecycle
    is not read, here or when it is registered. *)
Definition retired : LifecycleState := mkLifecycle Retired "retention:default".
Definition retired_client : list call :=
  setup ++ [RegisterClient (scope prod) (client prod retired);
    RegisterUpstream (scope_with prod (Some (ac_client_id (client prod retired)))) (upstream prod 3 "endpoint:api:v3")].
Example retired_client_acts : Forall genuine retired_client ∧ drop (length setup) (outcomes retired_client) = [None; None].
Proof. split; by_compute. Qed.

(** Tables are keyed by identity alone, so an identity's next revision, and
    with it its retirement, is refused. *)
Definition next_revision : PrincipalIdentity :=
  let p := principal prod in
  let make d := mkPrincipal (pn_principal_id p) (pn_organization_id p) (pn_tenant_id p) User "idp:user-1" 2 retired d in
  make (digest_payload (PrincipalIdentity_json (make ""))).
Definition retirement : list call := setup ++ [RegisterPrincipal (scope prod) next_revision].
Example principals_cannot_retire : Forall genuine retirement ∧ last (outcomes retirement) = Some (Some "immutable foundation record mutation").
Proof. split; by_compute. Qed.

End FoundationExample.
