(* ===== verification/RetrievalModels.v ===== *)
(** References and evidence of governed retrieval,
    [arbora/control_plane/retrieval/models.py].

    One record per model; [X_json] is [model_dump]. A Python [float] is a
    binary64 number of the Standard Library's floating-point specification, so
    that scores compare as Python compares them: signed zeros are equal, a NaN is
    comparable with nothing. Digests of models that hold a score are not
    modelled: no operation of the package reads them. *)
From S2P Require Export Grammar.
From Stdlib Require Import Floats.SpecFloat.
From Stdlib Require Import Lia.
Local Open Scope Z_scope.

Definition MAX_HITS : nat := 128.
Definition MAX_CITATIONS : nat := 64.
Definition MAX_EVALUATION_METRICS : nat := 32.
Definition MAX_INDEX_CHUNKS : Z := 1000000.

(** * Fields *)

(** The identifier pattern of this package is the one of [Grammar.OpaqueRef]. *)
Definition StableId (s : string) : bool := OpaqueRef s.
Definition Version (s : string) : bool := SemVer s.
Definition Dimension (n : Z) : bool := in_bounds 1 65536 n.
Definition chunk_count (lo n : Z) : bool := in_bounds lo MAX_INDEX_CHUNKS n.

(** [raise ValueError(error)] at the first pair whose test fails *)
Definition check_all (checks : list (bool * string)) : result () :=
  for_each (λ c, raise_if (negb c.1) (ValueError c.2)) checks.

Definition require_exact_ref (value field_name : string) : result () :=
  raise_if (bool_decide (casefold value ∈ ["latest"; "current"; "default"])) (ValueError (field_name +:+ "_alias_forbidden")).

(** ** Floats *)
Record float64 := mkFloat { sf : spec_float; sf_valid : valid_binary 53 1024 sf = true }.

Lemma float64_eq x y : sf x = sf y → x = y.
Proof. destruct x as [x Hx], y as [y Hy]. cbn. intros ->. f_equal. apply (proof_irrel (A := _ = _)). Qed.

#[export] Instance spec_float_eq_dec : EqDecision spec_float.
Proof. solve_decision. Defined.
#[export] Instance float64_eq_dec : EqDecision float64.
Proof.
  refine (λ x y, match decide (sf x = sf y) with left E => left (float64_eq x y E) | right N => right _ end).
  intros ->. by apply N.
Defined.

Definition float_zero : float64 := mkFloat (S754_zero false) eq_refl.
Definition float_one : float64 := mkFloat (S754_finite false 4503599627370496 (-52)) eq_refl.
Definition float_neg (x : float64) : float64.
Proof. refine (mkFloat (SFopp (sf x)) _). abstract (destruct x as [[] H]; exact H). Defined.

Definition float_eqb (x y : float64) : bool := SFeqb (sf x) (sf y).
Definition float_ltb (x y : float64) : bool := SFltb (sf x) (sf y).
Definition isfinite (x : float64) : bool :=
  match sf x with S754_zero _ | S754_finite _ _ _ => true | _ => false end.

(** [Field(ge=lo, le=hi)]: a NaN is neither below nor above a bound. *)
Definition float_within (lo hi x : float64) : bool := negb (float_ltb x lo) && negb (float_ltb hi x).
Definition Score (x : float64) : bool := float_within (float_neg float_one) float_one x.

(** * Exact references *)
Record ArtifactRef := mkArtifact { ar_artifact_id : string; ar_digest : string; ar_media_type : string }.
#[export] Instance ArtifactRef_eq_dec : EqDecision ArtifactRef.
Proof. solve_decision. Defined.
Definition validate_ArtifactRef (a : ArtifactRef) : result () :=
  check_fields [("artifact_id", StableId (ar_artifact_id a)); ("digest", Digest (ar_digest a)); ("media_type", OpaqueRef (ar_media_type a))].
Definition ArtifactRef_json (a : ArtifactRef) : json :=
  JObj [("artifact_id", JStr (ar_artifact_id a)); ("digest", JStr (ar_digest a)); ("media_type", JStr (ar_media_type a))].
Definition artifact_digest (a : ArtifactRef) : string := canonical_digest (ArtifactRef_json a).

Record DocumentRef := mkDocument {
  do_tenant_ref : string; do_graph_ref : string; do_document_id : string; do_source_ref : string; do_source_version : string;
  do_content_digest : string; do_generation_id : string; do_artifact_ref : ArtifactRef }.
#[export] Instance DocumentRef_eq_dec : EqDecision DocumentRef.
Proof. solve_decision. Defined.
Definition validate_DocumentRef (d : DocumentRef) : result () :=
  _ ← check_fields [("tenant_ref", OpaqueRef (do_tenant_ref d)); ("graph_ref", OpaqueRef (do_graph_ref d));
        ("document_id", StableId (do_document_id d)); ("source_ref", OpaqueRef (do_source_ref d));
        ("source_version", OpaqueRef (do_source_version d)); ("content_digest", Digest (do_content_digest d));
        ("generation_id", StableId (do_generation_id d))];
  in_validator (
    _ ← require_exact_ref (do_source_version d) "source_version";
    _ ← require_exact_ref (do_generation_id d) "generation";
    raise_if (bool_decide (do_content_digest d ≠ ar_digest (do_artifact_ref d))) (ValueError "document_artifact_digest_drift")).
Definition DocumentRef_json (d : DocumentRef) : json :=
  JObj [("tenant_ref", JStr (do_tenant_ref d)); ("graph_ref", JStr (do_graph_ref d)); ("document_id", JStr (do_document_id d));
        ("source_ref", JStr (do_source_ref d)); ("source_version", JStr (do_source_version d));
        ("content_digest", JStr (do_content_digest d)); ("generation_id", JStr (do_generation_id d));
        ("artifact_ref", ArtifactRef_json (do_artifact_ref d))].
Definition document_digest (d : DocumentRef) : string := canonical_digest (DocumentRef_json d).

Record ChunkRef := mkChunk {
  ch_document : DocumentRef; ch_chunk_id : string; ch_ordinal : Z; ch_content_digest : string; ch_artifact_ref : ArtifactRef }.
#[export] Instance ChunkRef_eq_dec : EqDecision ChunkRef.
Proof. solve_decision. Defined.
Definition validate_ChunkRef (c : ChunkRef) : result () :=
  _ ← check_fields [("chunk_id", StableId (ch_chunk_id c)); ("ordinal", chunk_count 0 (ch_ordinal c));
        ("content_digest", Digest (ch_content_digest c))];
  in_validator (raise_if (bool_decide (ch_content_digest c ≠ ar_digest (ch_artifact_ref c))) (ValueError "chunk_artifact_digest_drift")).
Definition ChunkRef_json (c : ChunkRef) : json :=
  JObj [("document", DocumentRef_json (ch_document c)); ("chunk_id", JStr (ch_chunk_id c)); ("ordinal", JInt (ch_ordinal c));
        ("content_digest", JStr (ch_content_digest c)); ("artifact_ref", ArtifactRef_json (ch_artifact_ref c))].
Definition chunk_key (c : ChunkRef) : string := do_document_id (ch_document c) +:+ ":" +:+ ch_chunk_id c.
Definition chunk_digest (c : ChunkRef) : string := canonical_digest (ChunkRef_json c).

Record EmbeddingModelRef := mkModel { em_model_id : string; em_version : string; em_digest : string; em_dimension : Z }.
#[export] Instance EmbeddingModelRef_eq_dec : EqDecision EmbeddingModelRef.
Proof. solve_decision. Defined.
Definition validate_EmbeddingModelRef (m : EmbeddingModelRef) : result () :=
  check_fields [("model_id", StableId (em_model_id m)); ("version", Version (em_version m)); ("digest", Digest (em_digest m));
    ("dimension", Dimension (em_dimension m))].
Definition EmbeddingModelRef_json (m : EmbeddingModelRef) : json :=
  JObj [("model_id", JStr (em_model_id m)); ("version", JStr (em_version m)); ("digest", JStr (em_digest m));
        ("dimension", JInt (em_dimension m))].
Definition model_digest (m : EmbeddingModelRef) : string := canonical_digest (EmbeddingModelRef_json m).

Record VectorAuthorityRef := mkVector {
  va_tenant_ref : string; va_graph_ref : string; va_generation_id : string; va_model : EmbeddingModelRef; va_dimension : Z;
  va_vector_ref : string; va_vector_digest : string; va_source_content_digest : string }.
#[export] Instance VectorAuthorityRef_eq_dec : EqDecision VectorAuthorityRef.
Proof. solve_decision. Defined.
Definition validate_VectorAuthorityRef (v : VectorAuthorityRef) : result () :=
  _ ← check_fields [("tenant_ref", OpaqueRef (va_tenant_ref v)); ("graph_ref", OpaqueRef (va_graph_ref v));
        ("generation_id", StableId (va_generation_id v)); ("dimension", Dimension (va_dimension v));
        ("vector_ref", OpaqueRef (va_vector_ref v)); ("vector_digest", Digest (va_vector_digest v));
        ("source_content_digest", Digest (va_source_content_digest v))];
  in_validator (
    _ ← require_exact_ref (va_generation_id v) "generation";
    raise_if (bool_decide (va_dimension v ≠ em_dimension (va_model v))) (ValueError "vector_dimension_drift")).
Definition VectorAuthorityRef_json (v : VectorAuthorityRef) : json :=
  JObj [("tenant_ref", JStr (va_tenant_ref v)); ("graph_ref", JStr (va_graph_ref v)); ("generation_id", JStr (va_generation_id v));
        ("model", EmbeddingModelRef_json (va_model v)); ("dimension", JInt (va_dimension v)); ("vector_ref", JStr (va_vector_ref v));
        ("vector_digest", JStr (va_vector_digest v)); ("source_content_digest", JStr (va_source_content_digest v))].
Definition authority_digest (v : VectorAuthorityRef) : string := canonical_digest (VectorAuthorityRef_json v).

Record IndexRef := mkIndex {
  ix_tenant_ref : string; ix_graph_ref : string; ix_index_id : string; ix_version : string; ix_digest : string;
  ix_generation_id : string; ix_model : EmbeddingModelRef; ix_dimension : Z }.
#[export] Instance IndexRef_eq_dec : EqDecision IndexRef.
Proof. solve_decision. Defined.
Definition validate_IndexRef (i : IndexRef) : result () :=
  _ ← check_fields [("tenant_ref", OpaqueRef (ix_tenant_ref i)); ("graph_ref", OpaqueRef (ix_graph_ref i));
        ("index_id", StableId (ix_index_id i)); ("version", Version (ix_version i)); ("digest", Digest (ix_digest i));
        ("generation_id", StableId (ix_generation_id i)); ("dimension", Dimension (ix_dimension i))];
  in_validator (
    _ ← require_exact_ref (ix_index_id i) "index";
    _ ← require_exact_ref (ix_generation_id i) "generation";
    raise_if (bool_decide (ix_dimension i ≠ em_dimension (ix_model i))) (ValueError "index_dimension_drift")).
Definition IndexRef_json (i : IndexRef) : json :=
  JObj [("tenant_ref", JStr (ix_tenant_ref i)); ("graph_ref", JStr (ix_graph_ref i)); ("index_id", JStr (ix_index_id i));
        ("version", JStr (ix_version i)); ("digest", JStr (ix_digest i)); ("generation_id", JStr (ix_generation_id i));
        ("model", EmbeddingModelRef_json (ix_model i)); ("dimension", JInt (ix_dimension i))].
Definition index_digest (i : IndexRef) : string := canonical_digest (IndexRef_json i).

(** * Generations *)
Record GenerationManifest := mkManifest {
  gm_tenant_ref : string; gm_graph_ref : string; gm_generation_id : string; gm_source_version : string; gm_source_digest : string;
  gm_index_ref : IndexRef; gm_model : EmbeddingModelRef; gm_expected_chunks : Z }.
#[export] Instance GenerationManifest_eq_dec : EqDecision GenerationManifest.
Proof. solve_decision. Defined.
Definition validate_GenerationManifest (m : GenerationManifest) : result () :=
  let index := gm_index_ref m in
  _ ← check_fields [("tenant_ref", OpaqueRef (gm_tenant_ref m)); ("graph_ref", OpaqueRef (gm_graph_ref m));
        ("generation_id", StableId (gm_generation_id m)); ("source_version", OpaqueRef (gm_source_version m));
        ("source_digest", Digest (gm_source_digest m)); ("expected_chunks", chunk_count 1 (gm_expected_chunks m))];
  in_validator (
    _ ← require_exact_ref (gm_generation_id m) "generation";
    _ ← require_exact_ref (gm_source_version m) "source_version";
    _ ← raise_if (bool_decide (ix_tenant_ref index ≠ gm_tenant_ref m) || bool_decide (ix_graph_ref index ≠ gm_graph_ref m))
          (ValueError "generation_tenant_graph_drift");
    _ ← raise_if (bool_decide (ix_generation_id index ≠ gm_generation_id m)) (ValueError "generation_index_binding_drift");
    raise_if (bool_decide (ix_model index ≠ gm_model m) || bool_decide (ix_dimension index ≠ em_dimension (gm_model m)))
      (ValueError "generation_model_binding_drift")).
Definition GenerationManifest_json (m : GenerationManifest) : json :=
  JObj [("tenant_ref", JStr (gm_tenant_ref m)); ("graph_ref", JStr (gm_graph_ref m)); ("generation_id", JStr (gm_generation_id m));
        ("source_version", JStr (gm_source_version m)); ("source_digest", JStr (gm_source_digest m));
        ("index_ref", IndexRef_json (gm_index_ref m)); ("model", EmbeddingModelRef_json (gm_model m));
        ("expected_chunks", JInt (gm_expected_chunks m))].
Definition manifest_digest (m : GenerationManifest) : string := canonical_digest (GenerationManifest_json m).

Record CleanupCheckpoint := mkCheckpoint {
  cc_tenant_ref : string; cc_graph_ref : string; cc_generation_id : string; cc_index_ref : IndexRef; cc_checkpoint_id : string;
  cc_checkpoint_digest : string; cc_expected_vectors : Z; cc_deleted_vectors : Z; cc_remaining_vectors : Z; cc_complete : bool;
  cc_recorded_at : Z }.
#[export] Instance CleanupCheckpoint_eq_dec : EqDecision CleanupCheckpoint.
Proof. solve_decision. Defined.
(** [model_dump(exclude={"checkpoint_digest"})] *)
Definition checkpoint_json (c : CleanupCheckpoint) : json :=
  JObj [("tenant_ref", JStr (cc_tenant_ref c)); ("graph_ref", JStr (cc_graph_ref c)); ("generation_id", JStr (cc_generation_id c));
        ("index_ref", IndexRef_json (cc_index_ref c)); ("checkpoint_id", JStr (cc_checkpoint_id c));
        ("expected_vectors", JInt (cc_expected_vectors c)); ("deleted_vectors", JInt (cc_deleted_vectors c));
        ("remaining_vectors", JInt (cc_remaining_vectors c)); ("complete", JBool (cc_complete c));
        ("recorded_at", JInt (cc_recorded_at c))].
Definition validate_CleanupCheckpoint (c : CleanupCheckpoint) : result () :=
  _ ← check_fields [("tenant_ref", OpaqueRef (cc_tenant_ref c)); ("graph_ref", OpaqueRef (cc_graph_ref c));
        ("generation_id", StableId (cc_generation_id c)); ("checkpoint_id", StableId (cc_checkpoint_id c));
        ("checkpoint_digest", Digest (cc_checkpoint_digest c)); ("expected_vectors", chunk_count 0 (cc_expected_vectors c));
        ("deleted_vectors", chunk_count 0 (cc_deleted_vectors c)); ("remaining_vectors", chunk_count 0 (cc_remaining_vectors c));
        ("recorded_at", Timestamp (cc_recorded_at c))];
  in_validator (
    _ ← raise_if (bool_decide (ix_tenant_ref (cc_index_ref c) ≠ cc_tenant_ref c)) (ValueError "cleanup_tenant_drift");
    _ ← raise_if (bool_decide (ix_graph_ref (cc_index_ref c) ≠ cc_graph_ref c)) (ValueError "cleanup_graph_drift");
    _ ← raise_if (bool_decide (ix_generation_id (cc_index_ref c) ≠ cc_generation_id c)) (ValueError "cleanup_generation_drift");
    _ ← raise_if (cc_expected_vectors c <? cc_deleted_vectors c) (ValueError "cleanup_deleted_count_invalid");
    _ ← raise_if (cc_expected_vectors c <? cc_remaining_vectors c) (ValueError "cleanup_remaining_count_invalid");
    _ ← raise_if (negb (cc_deleted_vectors c + cc_remaining_vectors c =? cc_expected_vectors c))
          (ValueError "cleanup_checkpoint_partial_accounting");
    _ ← raise_if (negb (Bool.eqb (cc_complete c)
            ((cc_deleted_vectors c =? cc_expected_vectors c) && (cc_remaining_vectors c =? 0))))
          (ValueError "cleanup_completion_claim_invalid");
    raise_if (bool_decide (cc_checkpoint_digest c ≠ canonical_digest (checkpoint_json c))) (ValueError "cleanup_checkpoint_digest_drift")).

Inductive GenerationState := Active | Retiring | Deleted | CleanupFailed.
#[export] Instance GenerationState_eq_dec : EqDecision GenerationState.
Proof. solve_decision. Defined.

Record GenerationRecord := mkGeneration {
  gr_manifest : GenerationManifest; gr_state : GenerationState; gr_cleanup_checkpoint : option CleanupCheckpoint }.
#[export] Instance GenerationRecord_eq_dec : EqDecision GenerationRecord.
Proof. solve_decision. Defined.
Definition validate_GenerationRecord (r : GenerationRecord) : result () :=
  let checkpoint := gr_cleanup_checkpoint r in
  in_validator (
    _ ← raise_if (bool_decide (gr_state r = Active) && bool_decide (checkpoint ≠ None))
          (ValueError "active_generation_has_cleanup_checkpoint");
    _ ← raise_if (bool_decide (gr_state r = Deleted) && match checkpoint with None => true | Some c => negb (cc_complete c) end)
          (ValueError "deleted_generation_cleanup_unproven");
    raise_if (match checkpoint with
              | None => false
              | Some c => bool_decide (cc_generation_id c ≠ gm_generation_id (gr_manifest r)) ||
                          bool_decide (cc_index_ref c ≠ gm_index_ref (gr_manifest r))
              end) (ValueError "generation_cleanup_binding_drift")).

(** * Authorization *)
Record AuthorizationEvidence := mkEvidence {
  ae_authorization_id : string; ae_request_id : string; ae_tenant_ref : string; ae_graph_ref : string; ae_index_ref : IndexRef;
  ae_generation_id : string; ae_policy_ref : string; ae_allowed_chunks : list ChunkRef; ae_denied_count : Z; ae_evaluated_at : Z;
  ae_expires_at : Z }.
#[export] Instance AuthorizationEvidence_eq_dec : EqDecision AuthorizationEvidence.
Proof. solve_decision. Defined.
Definition validate_authorization_scope (e : AuthorizationEvidence) : result () :=
  check_all [(bool_decide (ix_tenant_ref (ae_index_ref e) = ae_tenant_ref e), "authorization_tenant_drift");
    (bool_decide (ix_graph_ref (ae_index_ref e) = ae_graph_ref e), "authorization_graph_drift");
    (bool_decide (ix_generation_id (ae_index_ref e) = ae_generation_id e), "authorization_generation_drift")].
Definition validate_authorized_chunk (e : AuthorizationEvidence) (c : ChunkRef) : result () :=
  check_all [(bool_decide (do_tenant_ref (ch_document c) = ae_tenant_ref e), "authorization_chunk_tenant_drift");
    (bool_decide (do_graph_ref (ch_document c) = ae_graph_ref e), "authorization_chunk_graph_drift");
    (bool_decide (do_generation_id (ch_document c) = ae_generation_id e), "authorization_chunk_generation_drift")].
Definition validate_AuthorizationEvidence (e : AuthorizationEvidence) : result () :=
  _ ← check_fields [("authorization_id", StableId (ae_authorization_id e)); ("request_id", StableId (ae_request_id e));
        ("tenant_ref", OpaqueRef (ae_tenant_ref e)); ("graph_ref", OpaqueRef (ae_graph_ref e));
        ("generation_id", StableId (ae_generation_id e)); ("policy_ref", OpaqueRef (ae_policy_ref e));
        ("allowed_chunks", tuple_len 0 MAX_HITS (ae_allowed_chunks e)); ("denied_count", chunk_count 0 (ae_denied_count e));
        ("evaluated_at", Timestamp (ae_evaluated_at e)); ("expires_at", Timestamp (ae_expires_at e))];
  in_validator (
    _ ← raise_if (ae_expires_at e <=? ae_evaluated_at e) (ValueError "authorization_expiry_invalid");
    _ ← validate_authorization_scope e;
    _ ← for_each (validate_authorized_chunk e) (ae_allowed_chunks e);
    raise_if (has_duplicates (chunk_key <$> ae_allowed_chunks e)) (ValueError "authorization_chunk_duplicate")).
Definition AuthorizationEvidence_json (e : AuthorizationEvidence) : json :=
  JObj [("authorization_id", JStr (ae_authorization_id e)); ("request_id", JStr (ae_request_id e));
        ("tenant_ref", JStr (ae_tenant_ref e)); ("graph_ref", JStr (ae_graph_ref e)); ("index_ref", IndexRef_json (ae_index_ref e));
        ("generation_id", JStr (ae_generation_id e)); ("policy_ref", JStr (ae_policy_ref e));
        ("allowed_chunks", JArr (map ChunkRef_json (ae_allowed_chunks e))); ("denied_count", JInt (ae_denied_count e));
        ("evaluated_at", JInt (ae_evaluated_at e)); ("expires_at", JInt (ae_expires_at e))].
Definition evidence_digest (e : AuthorizationEvidence) : string := canonical_digest (AuthorizationEvidence_json e).
Definition allows (e : AuthorizationEvidence) (c : ChunkRef) : bool :=
  bool_decide (chunk_key c ∈ chunk_key <$> ae_allowed_chunks e).

(** * Requests and candidates *)
Record RetrievalRequest := mkRequest {
  rq_request_id : string; rq_tenant_ref : string; rq_graph_ref : string; rq_index_ref : IndexRef; rq_query_artifact_ref : ArtifactRef;
  rq_query_vector_ref : VectorAuthorityRef; rq_limit : Z }.
#[export] Instance RetrievalRequest_eq_dec : EqDecision RetrievalRequest.
Proof. solve_decision. Defined.
Definition validate_RetrievalRequest (r : RetrievalRequest) : result () :=
  let index := rq_index_ref r in
  let vector := rq_query_vector_ref r in
  _ ← check_fields [("request_id", StableId (rq_request_id r)); ("tenant_ref", OpaqueRef (rq_tenant_ref r));
        ("graph_ref", OpaqueRef (rq_graph_ref r)); ("limit", in_bounds 1 (Z.of_nat MAX_HITS) (rq_limit r))];
  in_validator (
    _ ← raise_if (bool_decide (ix_tenant_ref index ≠ rq_tenant_ref r) || bool_decide (ix_graph_ref index ≠ rq_graph_ref r))
          (ValueError "request_tenant_graph_drift");
    _ ← raise_if (bool_decide (va_tenant_ref vector ≠ rq_tenant_ref r) || bool_decide (va_graph_ref vector ≠ rq_graph_ref r))
          (ValueError "request_vector_tenant_graph_drift");
    _ ← raise_if (bool_decide (va_generation_id vector ≠ ix_generation_id index)) (ValueError "request_generation_drift");
    _ ← raise_if (bool_decide (va_model vector ≠ ix_model index) || bool_decide (va_dimension vector ≠ ix_dimension index))
          (ValueError "request_embedding_space_drift");
    raise_if (bool_decide (va_source_content_digest vector ≠ ar_digest (rq_query_artifact_ref r)))
      (ValueError "request_content_hash_drift")).
Definition RetrievalRequest_json (r : RetrievalRequest) : json :=
  JObj [("request_id", JStr (rq_request_id r)); ("tenant_ref", JStr (rq_tenant_ref r)); ("graph_ref", JStr (rq_graph_ref r));
        ("index_ref", IndexRef_json (rq_index_ref r)); ("query_artifact_ref", ArtifactRef_json (rq_query_artifact_ref r));
        ("query_vector_ref", VectorAuthorityRef_json (rq_query_vector_ref r)); ("limit", JInt (rq_limit r))].
Definition request_digest (r : RetrievalRequest) : string := canonical_digest (RetrievalRequest_json r).

Record EngineCandidate := mkCandidate {
  ec_chunk : ChunkRef; ec_index_ref : IndexRef; ec_vector_ref : VectorAuthorityRef; ec_score : float64; ec_engine_result_ref : string }.
#[export] Instance EngineCandidate_eq_dec : EqDecision EngineCandidate.
Proof. solve_decision. Defined.
Definition validate_candidate_document (c : EngineCandidate) : result () :=
  let document := ch_document (ec_chunk c) in
  check_all [(bool_decide (do_tenant_ref document = ix_tenant_ref (ec_index_ref c)), "candidate_tenant_drift");
    (bool_decide (do_graph_ref document = ix_graph_ref (ec_index_ref c)), "candidate_graph_drift");
    (bool_decide (do_generation_id document = ix_generation_id (ec_index_ref c)), "candidate_generation_drift")].
Definition validate_candidate_vector (c : EngineCandidate) : result () :=
  let vector := ec_vector_ref c in
  let index := ec_index_ref c in
  check_all [(bool_decide (va_tenant_ref vector = ix_tenant_ref index), "candidate_vector_tenant_drift");
    (bool_decide (va_graph_ref vector = ix_graph_ref index), "candidate_vector_graph_drift");
    (bool_decide (va_generation_id vector = ix_generation_id index), "candidate_vector_generation_drift");
    (bool_decide (va_model vector = ix_model index), "candidate_embedding_model_drift");
    (bool_decide (va_dimension vector = ix_dimension index), "candidate_dimension_drift");
    (bool_decide (va_source_content_digest vector = ch_content_digest (ec_chunk c)), "candidate_content_hash_drift")].
Definition validate_EngineCandidate (c : EngineCandidate) : result () :=
  _ ← check_fields [("score", Score (ec_score c)); ("engine_result_ref", OpaqueRef (ec_engine_result_ref c))];
  in_validator (
    _ ← raise_if (negb (isfinite (ec_score c))) (ValueError "candidate_score_non_finite");
    _ ← validate_candidate_document c;
    validate_candidate_vector c).

(** * Results *)
Record RankedHit := mkHit {
  rh_chunk : ChunkRef; rh_index_ref : IndexRef; rh_score : float64; rh_rank : Z; rh_authorization_digest : string;
  rh_engine_result_ref : string }.
Definition validate_RankedHit (h : RankedHit) : result () :=
  _ ← check_fields [("score", Score (rh_score h)); ("rank", in_bounds 1 (Z.of_nat MAX_HITS) (rh_rank h));
        ("authorization_digest", Digest (rh_authorization_digest h)); ("engine_result_ref", OpaqueRef (rh_engine_result_ref h))];
  in_validator (raise_if (negb (isfinite (rh_score h))) (ValueError "ranked_score_non_finite")).
(** Python's [==] on two hits *)
Definition hit_eqb (h h' : RankedHit) : bool :=
  bool_decide (rh_chunk h = rh_chunk h') && bool_decide (rh_index_ref h = rh_index_ref h') && float_eqb (rh_score h) (rh_score h') &&
  (rh_rank h =? rh_rank h') && bool_decide (rh_authorization_digest h = rh_authorization_digest h') &&
  bool_decide (rh_engine_result_ref h = rh_engine_result_ref h').

Record RetrievalResult := mkResult {
  rr_request : RetrievalRequest; rr_authorization : AuthorizationEvidence; rr_hits : list RankedHit }.
Definition validate_result_identity (r : RetrievalResult) : result () :=
  let a := rr_authorization r in
  let q := rr_request r in
  _ ← raise_if (bool_decide (ae_request_id a ≠ rq_request_id q)) (ValueError "result_request_identity_drift");
  _ ← raise_if (bool_decide (ae_tenant_ref a ≠ rq_tenant_ref q)) (ValueError "result_tenant_drift");
  _ ← raise_if (bool_decide (ae_graph_ref a ≠ rq_graph_ref q)) (ValueError "result_graph_drift");
  _ ← raise_if (bool_decide (ae_index_ref a ≠ rq_index_ref q)) (ValueError "result_index_drift");
  raise_if (bool_decide (ae_generation_id a ≠ ix_generation_id (rq_index_ref q))) (ValueError "result_generation_drift").
Definition validate_result_hit (r : RetrievalResult) (st : Z * list string) (h : RankedHit) : result (Z * list string) :=
  let '(expected_rank, seen) := st in
  _ ← raise_if (negb (rh_rank h =? expected_rank)) (ValueError "result_rank_not_contiguous");
  _ ← raise_if (bool_decide (rh_authorization_digest h ≠ evidence_digest (rr_authorization r))) (ValueError "result_authorization_drift");
  _ ← raise_if (bool_decide (rh_index_ref h ≠ rq_index_ref (rr_request r))) (ValueError "result_hit_index_drift");
  _ ← raise_if (negb (allows (rr_authorization r) (rh_chunk h))) (ValueError "result_contains_denied_chunk");
  _ ← raise_if (bool_decide (chunk_key (rh_chunk h) ∈ seen)) (ValueError "result_duplicate_chunk");
  Ok (expected_rank + 1, chunk_key (rh_chunk h) :: seen).
Definition validate_result_hits (r : RetrievalResult) : result () :=
  _ ← raise_if (rq_limit (rr_request r) <? Z.of_nat (length (rr_hits r))) (ValueError "result_limit_exceeded");
  _ ← for_fold (validate_result_hit r) (rr_hits r) (1, []);
  Ok ().
Definition validate_RetrievalResult (r : RetrievalResult) : result () :=
  _ ← check_fields [("hits", tuple_len 0 MAX_HITS (rr_hits r))];
  in_validator (_ ← validate_result_identity r; validate_result_hits r).
Fixpoint list_eqb {A} (eqb : A → A → bool) (xs ys : list A) : bool :=
  match xs, ys with
  | [], [] => true
  | x :: xs, y :: ys => eqb x y && list_eqb eqb xs ys
  | _, _ => false
  end.
Definition result_eqb (r r' : RetrievalResult) : bool :=
  bool_decide (rr_request r = rr_request r') && bool_decide (rr_authorization r = rr_authorization r') &&
  list_eqb hit_eqb (rr_hits r) (rr_hits r').

(** * Citations and evaluations *)
Record CitationRef := mkCitation {
  ci_citation_id : string; ci_request_id : string; ci_chunk : ChunkRef; ci_source_version : string; ci_source_artifact_ref : ArtifactRef;
  ci_generation_id : string }.
#[export] Instance CitationRef_eq_dec : EqDecision CitationRef.
Proof. solve_decision. Defined.
Definition validate_CitationRef (c : CitationRef) : result () :=
  _ ← check_fields [("citation_id", StableId (ci_citation_id c)); ("request_id", StableId (ci_request_id c));
        ("source_version", OpaqueRef (ci_source_version c)); ("generation_id", StableId (ci_generation_id c))];
  in_validator (
    _ ← raise_if (bool_decide (ci_request_id c = "")) (ValueError "citation_request_missing");
    _ ← raise_if (bool_decide (ci_source_version c ≠ do_source_version (ch_document (ci_chunk c)))) (ValueError "citation_source_version_drift");
    _ ← raise_if (bool_decide (ci_source_artifact_ref c ≠ ch_artifact_ref (ci_chunk c))) (ValueError "citation_source_artifact_drift");
    raise_if (bool_decide (ci_generation_id c ≠ do_generation_id (ch_document (ci_chunk c)))) (ValueError "citation_generation_drift")).
Definition CitationRef_json (c : CitationRef) : json :=
  JObj [("citation_id", JStr (ci_citation_id c)); ("request_id", JStr (ci_request_id c)); ("chunk", ChunkRef_json (ci_chunk c));
        ("source_version", JStr (ci_source_version c)); ("source_artifact_ref", ArtifactRef_json (ci_source_artifact_ref c));
        ("generation_id", JStr (ci_generation_id c))].
Definition citation_digest (c : CitationRef) : string := canonical_digest (CitationRef_json c).

Record CitationRecord := mkCitations { cz_retrieval : RetrievalResult; cz_citations : list CitationRef }.
Definition validate_citation (r : CitationRecord) (c : CitationRef) : result () :=
  let hit_keys := (λ h, chunk_key (rh_chunk h)) <$> rr_hits (cz_retrieval r) in
  _ ← raise_if (bool_decide (ci_request_id c ≠ rq_request_id (rr_request (cz_retrieval r)))) (ValueError "citation_request_drift");
  _ ← raise_if (bool_decide (chunk_key (ci_chunk c) ∉ hit_keys)) (ValueError "citation_not_in_retrieval");
  raise_if (negb (allows (rr_authorization (cz_retrieval r)) (ci_chunk c))) (ValueError "citation_contains_denied_chunk").
Definition validate_CitationRecord (r : CitationRecord) : result () :=
  _ ← check_fields [("citations", tuple_len 0 MAX_CITATIONS (cz_citations r))];
  in_validator (
    _ ← for_each (validate_citation r) (cz_citations r);
    raise_if (has_duplicates ((λ c, chunk_key (ci_chunk c)) <$> cz_citations r)) (ValueError "citation_duplicate_chunk")).

Record EvaluationMetric := mkMetric { mt_name : string; mt_value : float64 }.
Definition validate_EvaluationMetric (m : EvaluationMetric) : result () :=
  _ ← check_fields [("name", OpaqueRef (mt_name m)); ("value", float_within float_zero float_one (mt_value m))];
  in_validator (raise_if (negb (isfinite (mt_value m))) (ValueError "evaluation_metric_non_finite")).

Inductive Verdict := Pass | VFail | Inconclusive.
Record EvaluationRecord := mkEvaluation {
  ev_evaluation_id : string; ev_retrieval : RetrievalResult; ev_citation_record : option CitationRecord; ev_evaluator_ref : string;
  ev_dataset_artifact_ref : ArtifactRef; ev_metrics : list EvaluationMetric; ev_verdict : Verdict }.
Definition validate_EvaluationRecord (e : EvaluationRecord) : result () :=
  _ ← check_fields [("evaluation_id", StableId (ev_evaluation_id e)); ("evaluator_ref", OpaqueRef (ev_evaluator_ref e));
        ("metrics", tuple_len 1 MAX_EVALUATION_METRICS (ev_metrics e))];
  in_validator (
    _ ← raise_if (match ev_citation_record e with Some c => negb (result_eqb (cz_retrieval c) (ev_retrieval e)) | None => false end)
          (ValueError "evaluation_citation_retrieval_drift");
    raise_if (has_duplicates (mt_name <$> ev_metrics e)) (ValueError "evaluation_metric_duplicate")).

(** * Facts *)

(** ** Serializers determine their models *)
#[export] Instance ArtifactRef_json_inj : CanonicalInj ArtifactRef_json.
Proof. intros [] [] E. by_fields E ["artifact_id"; "digest"; "media_type"]. by simplify_eq. Qed.
#[export] Instance DocumentRef_json_inj : CanonicalInj DocumentRef_json.
Proof.
  intros [] [] E. by_fields E ["tenant_ref"; "graph_ref"; "document_id"; "source_ref"; "source_version"; "content_digest";
    "generation_id"; "artifact_ref"]. by simplify_eq.
Qed.
#[export] Instance ChunkRef_json_inj : CanonicalInj ChunkRef_json.
Proof. intros [] [] E. by_fields E ["document"; "chunk_id"; "ordinal"; "content_digest"; "artifact_ref"]. by simplify_eq. Qed.
#[export] Instance EmbeddingModelRef_json_inj : CanonicalInj EmbeddingModelRef_json.
Proof. intros [] [] E. by_fields E ["model_id"; "version"; "digest"; "dimension"]. by simplify_eq. Qed.
#[export] Instance VectorAuthorityRef_json_inj : CanonicalInj VectorAuthorityRef_json.
Proof.
  intros [] [] E. by_fields E ["tenant_ref"; "graph_ref"; "generation_id"; "model"; "dimension"; "vector_ref"; "vector_digest";
    "source_content_digest"]. by simplify_eq.
Qed.
#[export] Instance IndexRef_json_inj : CanonicalInj IndexRef_json.
Proof.
  intros [] [] E. by_fields E ["tenant_ref"; "graph_ref"; "index_id"; "version"; "digest"; "generation_id"; "model"; "dimension"].
  by simplify_eq.
Qed.
#[export] Instance AuthorizationEvidence_json_inj : CanonicalInj AuthorizationEvidence_json.
Proof.
  intros [] [] E. by_fields E ["authorization_id"; "request_id"; "tenant_ref"; "graph_ref"; "index_ref"; "generation_id"; "policy_ref";
    "allowed_chunks"; "denied_count"; "evaluated_at"; "expires_at"]. by simplify_eq.
Qed.
#[export] Instance RetrievalRequest_json_inj : CanonicalInj RetrievalRequest_json.
Proof.
  intros [] [] E. by_fields E ["request_id"; "tenant_ref"; "graph_ref"; "index_ref"; "query_artifact_ref"; "query_vector_ref"; "limit"].
  by simplify_eq.
Qed.
