(* ===== verification/RetrievalRepository.v ===== *)
(** The in-memory generation catalog and retrieval cache,
    [arbora/control_plane/retrieval/repository.py], and the errors of
    [retrieval/errors.py].

    Each method holds the lock of its object from its first to its last access,
    so a method is one step of its state. [gen_step] is the lifecycle of one
    generation and [catalog_later] what any catalog call may do to the catalog;
    [catalog_ok] and [cache_ok] are the invariants. *)
From S2P Require Export RetrievalModels.
From Stdlib Require Import Lia.
Local Open Scope Z_scope.

(** * Errors *)
Definition RetrievalDomainError (code : string) : pyexn := PyExn ["RetrievalDomainError"; "ValueError"] code "".
Definition RetrievalAuthorizationError (code : string) : pyexn :=
  PyExn ["RetrievalAuthorizationError"; "RetrievalDomainError"; "ValueError"] code "".
Definition StaleGenerationError (code : string) : pyexn :=
  PyExn ["StaleGenerationError"; "RetrievalDomainError"; "ValueError"] code "".
Definition GenerationConflictError (code : string) : pyexn :=
  PyExn ["GenerationConflictError"; "RetrievalDomainError"; "ValueError"] code "".
Definition GenerationNotFoundError (code : string) : pyexn :=
  PyExn ["GenerationNotFoundError"; "RetrievalDomainError"; "ValueError"] code "".
Definition CleanupIncompleteError (code : string) : pyexn :=
  PyExn ["CleanupIncompleteError"; "RetrievalDomainError"; "ValueError"] code "".
Definition RetrievalReplayError (code : string) : pyexn :=
  PyExn ["RetrievalReplayError"; "RetrievalDomainError"; "ValueError"] code "".

(** * The generation catalog *)
Notation record_key := (string * string * string)%type.
Record Catalog := mkCatalog { cg_records : gmap record_key GenerationRecord; cg_current : gmap (string * string) string }.
Definition new_catalog : Catalog := mkCatalog ∅ ∅.

Definition pointer_of (m : GenerationManifest) : string * string := (gm_tenant_ref m, gm_graph_ref m).
Definition key_of (m : GenerationManifest) : record_key := (gm_tenant_ref m, gm_graph_ref m, gm_generation_id m).

(** [self._records[key] = record] *)
Definition set_record (k : record_key) (r : GenerationRecord) : M Catalog () :=
  modify (λ s, mkCatalog (<[k := r]> (cg_records s)) (cg_current s)).
(** [self._current[key] = generation_id] *)
Definition set_current (k : string * string) (generation_id : string) : M Catalog () :=
  modify (λ s, mkCatalog (cg_records s) (<[k := generation_id]> (cg_current s))).

Definition current_record (s : Catalog) (tenant_ref graph_ref : string) : option GenerationRecord :=
  match cg_current s !! (tenant_ref, graph_ref) with
  | None => None
  | Some generation_id => cg_records s !! (tenant_ref, graph_ref, generation_id)
  end.
Definition current (tenant_ref graph_ref : string) : M Catalog (option GenerationRecord) :=
  gets (λ s, current_record s tenant_ref graph_ref).
Definition get (tenant_ref graph_ref generation_id : string) : M Catalog (option GenerationRecord) :=
  gets (λ s, cg_records s !! (tenant_ref, graph_ref, generation_id)).

Definition publish (manifest : GenerationManifest) (expected_current : option string) : M Catalog GenerationRecord :=
  s ← get_state;
  let actual_current := cg_current s !! pointer_of manifest in
  _ ← raise_if (bool_decide (actual_current ≠ expected_current)) (GenerationConflictError "generation_current_cas_mismatch");
  match cg_records s !! key_of manifest with
  | Some prior =>
      _ ← raise_if (bool_decide (gr_manifest prior ≠ manifest)) (GenerationConflictError "immutable_generation_conflict");
      if bool_decide (actual_current = Some (gm_generation_id manifest)) && bool_decide (gr_state prior = Active) then mret prior
      else mthrow (GenerationConflictError "generation_identity_reuse")
  | None =>
      record ← lift (construct validate_GenerationRecord (mkGeneration manifest Active None));
      _ ← set_record (key_of manifest) record;
      _ ← set_current (pointer_of manifest) (gm_generation_id manifest);
      mret record
  end.

Definition retire (generation : GenerationManifest) : M Catalog GenerationRecord :=
  s ← get_state;
  record ← require (cg_records s !! key_of generation) (GenerationNotFoundError "generation_missing");
  _ ← raise_if (bool_decide (gr_manifest record ≠ generation)) (GenerationConflictError "generation_manifest_drift");
  _ ← raise_if (bool_decide (cg_current s !! pointer_of generation = Some (gm_generation_id generation)))
        (GenerationConflictError "current_generation_cannot_retire");
  if bool_decide (gr_state record = Retiring) then mret record
  else
    _ ← raise_if (bool_decide (gr_state record ≠ Active)) (GenerationConflictError "generation_state_transition_invalid");
    updated ← lift (construct validate_GenerationRecord (mkGeneration generation Retiring None));
    _ ← set_record (key_of generation) updated;
    mret updated.

Definition require_cleanup_target (s : Catalog) (generation : GenerationManifest) (checkpoint : option CleanupCheckpoint) :
    result GenerationRecord :=
  record ← require (cg_records s !! key_of generation) (GenerationNotFoundError "generation_missing");
  _ ← raise_if (bool_decide (gr_manifest record ≠ generation)) (GenerationConflictError "generation_manifest_drift");
  _ ← raise_if (bool_decide (gr_state record ∉ [Retiring; CleanupFailed])) (GenerationConflictError "generation_not_retiring");
  _ ← match checkpoint with
      | None => mret ()
      | Some checkpoint =>
          _ ← raise_if (bool_decide (cc_generation_id checkpoint ≠ gm_generation_id generation))
                (GenerationConflictError "cleanup_generation_drift");
          _ ← raise_if (bool_decide (cc_index_ref checkpoint ≠ gm_index_ref generation)) (GenerationConflictError "cleanup_index_drift");
          raise_if (negb (cc_expected_vectors checkpoint =? gm_expected_chunks generation))
            (GenerationConflictError "cleanup_expected_count_drift")
      end;
  mret record.

Definition finish_cleanup (generation : GenerationManifest) (checkpoint : CleanupCheckpoint) : M Catalog GenerationRecord :=
  s ← get_state;
  _ ← lift (require_cleanup_target s generation (Some checkpoint));
  _ ← raise_if (negb (cc_complete checkpoint)) (CleanupIncompleteError "cleanup_checkpoint_incomplete");
  updated ← lift (construct validate_GenerationRecord (mkGeneration generation Deleted (Some checkpoint)));
  _ ← set_record (key_of generation) updated;
  mret updated.

Definition fail_cleanup (generation : GenerationManifest) (checkpoint : option CleanupCheckpoint) : M Catalog GenerationRecord :=
  s ← get_state;
  _ ← raise_if (match checkpoint with Some c => cc_complete c | None => false end)
        (GenerationConflictError "complete_checkpoint_requires_finish");
  target ← lift (require_cleanup_target s generation checkpoint);
  let persisted_checkpoint := match checkpoint with Some c => Some c | None => gr_cleanup_checkpoint target end in
  updated ← lift (construct validate_GenerationRecord (mkGeneration generation CleanupFailed persisted_checkpoint));
  _ ← set_record (key_of generation) updated;
  mret updated.

(** * The result cache *)
Record Cache := mkCache { ca_max_entries : Z; ca_items : gmap string RetrievalResult }.

Definition new_cache (max_entries : Z) : result Cache :=
  _ ← raise_if ((max_entries <? 1) || (65536 <? max_entries)) (ValueError "cache_capacity_invalid");
  Ok (mkCache max_entries ∅).

Definition cache_get (request_digest : string) : M Cache (option RetrievalResult) := gets (λ s, ca_items s !! request_digest).

Definition cache_put (result : RetrievalResult) : M Cache () :=
  let key := request_digest (rr_request result) in
  s ← get_state;
  let prior := ca_items s !! key in
  _ ← raise_if (match prior with Some prior => negb (result_eqb prior result) | None => false end)
        (RetrievalReplayError "cache_identity_conflict");
  _ ← raise_if (bool_decide (prior = None) && (ca_max_entries s <=? Z.of_nat (size (ca_items s))))
        (RetrievalReplayError "cache_capacity_exceeded");
  put_state (mkCache (ca_max_entries s) (<[key := result]> (ca_items s))).

Definition cache_delete (request_digest : string) : M Cache () :=
  modify (λ s, mkCache (ca_max_entries s) (delete request_digest (ca_items s))).

(** * What the calls do *)

Lemma construct_generation m st c r :
  construct validate_GenerationRecord (mkGeneration m st c) = Ok r → r = mkGeneration m st c ∧ validate_GenerationRecord r = Ok ().
Proof. rewrite construct_ok. by intros [-> ?]. Qed.

(** ** The lifecycle of a generation *)

(** A checkpoint that the engine recorded for this very generation *)
Definition checkpoint_of (m : GenerationManifest) (c : CleanupCheckpoint) : Prop :=
  cc_generation_id c = gm_generation_id m ∧ cc_index_ref c = gm_index_ref m ∧ cc_expected_vectors c = gm_expected_chunks m.

Inductive gen_step : GenerationRecord → GenerationRecord → Prop :=
  | step_retire m : gen_step (mkGeneration m Active None) (mkGeneration m Retiring None)
  | step_fail m st old new : st ∈ [Retiring; CleanupFailed] →
      new = old ∨ (∃ c, new = Some c ∧ cc_complete c = false ∧ checkpoint_of m c) →
      gen_step (mkGeneration m st old) (mkGeneration m CleanupFailed new)
  | step_delete m st old c : st ∈ [Retiring; CleanupFailed] → cc_complete c = true → checkpoint_of m c →
      gen_step (mkGeneration m st old) (mkGeneration m Deleted (Some c)).

Definition gen_path : relation GenerationRecord := rtc gen_step.

Record catalog_ok (s : Catalog) : Prop := {
  ok_key k r : cg_records s !! k = Some r → k = key_of (gr_manifest r);
  ok_valid k r : cg_records s !! k = Some r → validate_GenerationRecord r = Ok ();
  ok_current t g i : cg_current s !! (t, g) = Some i → ∃ r, cg_records s !! (t, g, i) = Some r ∧ gr_state r = Active;
  ok_evidence k r : cg_records s !! k = Some r →
    match gr_state r, gr_cleanup_checkpoint r with
    | Active, o | Retiring, o => o = None
    | CleanupFailed, None => True
    | CleanupFailed, Some c => cc_complete c = false ∧ checkpoint_of (gr_manifest r) c
    | Deleted, None => False
    | Deleted, Some c => cc_complete c = true ∧ checkpoint_of (gr_manifest r) c
    end }.

(** The record of a generation only moves along its lifecycle. *)
Definition records_later (s s' : Catalog) : Prop :=
  ∀ k r, cg_records s !! k = Some r → ∃ r', cg_records s' !! k = Some r' ∧ gen_path r r'.

(** What a call may do to a well-formed catalog *)
Definition catalog_later (s s' : Catalog) : Prop := catalog_ok s → catalog_ok s' ∧ records_later s s'.

#[export] Instance records_later_preorder : PreOrder records_later.
Proof.
  split; [intros s k r E; exists r; by split|].
  intros s1 s2 s3 H1 H2 k r E. destruct (H1 k r E) as (r2 & E2 & P2). destruct (H2 k r2 E2) as (r3 & E3 & P3).
  exists r3. split; [done|]. by trans r2.
Qed.
#[export] Instance catalog_later_preorder : PreOrder catalog_later.
Proof.
  split; [intros s H; by split|]. intros s1 s2 s3 H12 H23 H1. destruct (H12 H1) as [H2 L2]. destruct (H23 H2) as [H3 L3].
  split; [done|]. by trans s2.
Qed.

Lemma gen_step_manifest r r' : gen_step r r' → gr_manifest r' = gr_manifest r.
Proof. by destruct 1. Qed.
Lemma gen_path_manifest r r' : gen_path r r' → gr_manifest r' = gr_manifest r.
Proof. induction 1 as [|r1 r2 r3 H _ IH]; [done|]. by rewrite IH, (gen_step_manifest _ _ H). Qed.
(** A deleted generation stays as it is; an active one is not come back to. *)
Lemma gen_path_deleted r r' : gen_path r r' → gr_state r = Deleted → r' = r.
Proof. intros [->|(r2 & H & _)]%rtc_inv; [done|]. intros E. destruct H; cbn in E; set_solver. Qed.

Lemma new_catalog_ok : catalog_ok new_catalog.
Proof. split; intros *; cbn; by rewrite lookup_empty. Qed.

(** Replacing a record along its lifecycle *)
Lemma set_record_later s m r r' : catalog_ok s → cg_records s !! key_of m = Some r → gen_step r r' → gr_manifest r = m →
  validate_GenerationRecord r' = Ok () → cg_current s !! pointer_of m ≠ Some (gm_generation_id m) →
  let s' := mkCatalog (<[key_of m := r']> (cg_records s)) (cg_current s) in catalog_ok s' ∧ records_later s s'.
Proof.
  intros [K V C E] Hr Hstep Hm Hv Hc. cbn. split; [split|]; cbn [cg_records cg_current].
  - intros k x [(<- & <-)|(_ & Hx)]%lookup_insert_Some; [|by apply K]. by rewrite (gen_step_manifest _ _ Hstep), Hm.
  - intros k x [(_ & <-)|(_ & Hx)]%lookup_insert_Some; [done|by eapply V].
  - intros t g i Hi. destruct (C t g i Hi) as (x & Hx & Ha). exists x. split; [|done].
    apply lookup_insert_Some. right. split; [|done]. unfold key_of. intros [= <- <- <-]. by apply Hc.
  - intros k x [(_ & <-)|(_ & Hx)]%lookup_insert_Some; [|by eapply E]. pose proof (E _ _ Hr) as Er.
    destruct Hstep as [m'|m' st old new Hst Hnew|m' st old c Hst Hco Hof]; cbn in *; [done| |done].
    destruct Hnew as [->|(c & -> & ? & ?)]; [|done].
    destruct st; [set_solver|by subst old|set_solver|done].
  - intros k x Hx. cbn [cg_records]. destruct (decide (key_of m = k)) as [<-|Hne].
    + exists r'. rewrite lookup_insert_eq. split; [done|]. simplify_eq. by apply rtc_once.
    + exists x. by rewrite lookup_insert_ne.
Qed.
(** ** The methods *)

(** What a run that returned has passed, for methods of an object *)
Ltac run_guards := repeat (guards; try match goal with
  | H : raise_if (M := M _) _ _ _ = (Ok _, _) |- _ => apply raise_if_run in H as [H ->]
  | H : require (M := M _) _ _ _ = (Ok _, _) |- _ => apply require_run in H as [H ->]
  | H : construct validate_GenerationRecord _ = Ok _ |- _ => apply construct_generation in H as [-> H]
  end).
Definition with_record (k : record_key) (r : GenerationRecord) (s : Catalog) : Catalog :=
  mkCatalog (<[k := r]> (cg_records s)) (cg_current s).

Lemma publish_commits m e s : commits (λ r s', r = mkGeneration m Active None ∧ cg_current s !! pointer_of m = e ∧
    cg_records s !! key_of m = None ∧
    s' = mkCatalog (<[key_of m := r]> (cg_records s)) (<[pointer_of m := gm_generation_id m]> (cg_current s)))
  (publish m e) s.
Proof.
  unfold publish. commit_step. commit_step. destruct (cg_records s !! key_of m) as [prior|] eqn:Ep.
  { commit_step. case_match; commit_step. }
  commit_step. rename H into Hc, H0 into Hr. apply construct_generation in Hr as [-> _].
  eapply commits_done; [reflexivity|]. split_and!; try done. by apply bool_decide_not_false in Hc.
Qed.

Lemma catalog_publish_ok m e s r s' : publish m e s = (Ok r, s') →
  gr_manifest r = m ∧ gr_state r = Active ∧ cg_records s' !! key_of m = Some r ∧
  cg_current s' !! pointer_of m = Some (gm_generation_id m) ∧ cg_current s !! pointer_of m = e.
Proof.
  unfold publish. intros H. run_guards. destruct (cg_records s !! key_of m) as [prior|] eqn:Ep; run_guards.
  - case_match eqn:Eb; [|done]. run_guards. by subst.
  - unfold set_record, set_current in *. guards. subst. cbn. by rewrite !lookup_insert_eq.
Qed.

Lemma catalog_retire_commits m s : commits (λ r s', r = mkGeneration m Retiring None ∧
    cg_current s !! pointer_of m ≠ Some (gm_generation_id m) ∧
    (∃ old, cg_records s !! key_of m = Some old ∧ gr_manifest old = m ∧ gr_state old = Active) ∧ s' = with_record (key_of m) r s)
  (retire m) s.
Proof.
  unfold retire. do 4 commit_step. destruct (bool_decide (gr_state a = Retiring)); [commit_step|]. commit_step. commit_step.
  run_guards. eapply commits_done; [reflexivity|]. split_and!; try done. by exists a.
Qed.

Lemma retire_ok m s r s' : retire m s = (Ok r, s') →
  cg_records s' !! key_of m = Some r ∧ gr_manifest r = m ∧ gr_state r = Retiring.
Proof.
  unfold retire. intros H. run_guards. match type of H with (if bool_decide ?P then _ else _) _ = _ => destruct (bool_decide P) eqn:E end; run_guards; [by subst|].
  unfold set_record in *. guards. subst. cbn. by rewrite lookup_insert_eq.
Qed.

Lemma require_cleanup_target_ok s m c r : require_cleanup_target s m c = Ok r ↔
  cg_records s !! key_of m = Some r ∧ gr_manifest r = m ∧ gr_state r ∈ [Retiring; CleanupFailed] ∧
  match c with Some c => checkpoint_of m c | None => True end.
Proof.
  unfold require_cleanup_target, checkpoint_of.
  rewrite result_bind_ok. setoid_rewrite require_ok. setoid_rewrite bind_unit_ok. setoid_rewrite raise_if_ok.
  setoid_rewrite bool_decide_not_false. split.
  - intros (a & Ha & Hm & H). apply bind_unit_ok in H as [Hs H]. rewrite raise_if_ok, bool_decide_not_false in Hs.
    apply bind_unit_ok in H as [Hc [= ->]]. split_and!; try done. destruct c as [c|]; [|done].
    rewrite !bind_unit_ok, !raise_if_ok, !bool_decide_not_false in Hc. destruct_and!. guards. done.
  - intros (Ha & Hm & Hs & Hc). exists r. split_and!; try done. rewrite bind_unit_ok, raise_if_ok, bool_decide_not_false.
    split; [done|]. rewrite bind_unit_ok. split; [|done]. destruct c as [c|]; [|done].
    destruct Hc as (H1 & H2 & H3). rewrite !bind_unit_ok, !raise_if_ok, !bool_decide_not_false, H3, Z.eqb_refl. done.
Qed.

Lemma finish_cleanup_commits m c s : commits (λ r s', r = mkGeneration m Deleted (Some c) ∧ validate_GenerationRecord r = Ok () ∧
    (∃ old, require_cleanup_target s m (Some c) = Ok old) ∧ cc_complete c = true ∧ s' = with_record (key_of m) r s)
  (finish_cleanup m c) s.
Proof.
  unfold finish_cleanup. do 4 commit_step. run_guards. eapply commits_done; [reflexivity|]. split_and!; try done. by eexists.
Qed.

Lemma finish_cleanup_ok m c s r s' : finish_cleanup m c s = (Ok r, s') →
  r = mkGeneration m Deleted (Some c) ∧ cg_records s' !! key_of m = Some r ∧ cc_complete c = true ∧ checkpoint_of m c.
Proof.
  unfold finish_cleanup. intros H. run_guards. unfold set_record in *. guards. subst. cbn.
  apply require_cleanup_target_ok in Hok0 as (_ & _ & _ & ?). by rewrite lookup_insert_eq.
Qed.

Lemma finish_cleanup_run m c s old : cg_records s !! key_of m = Some old → gr_manifest old = m → gr_state old ∈ [Retiring; CleanupFailed] →
  checkpoint_of m c → cc_complete c = true →
  let r := mkGeneration m Deleted (Some c) in finish_cleanup m c s = (Ok r, with_record (key_of m) r s).
Proof.
  intros Hr Hm Hst Hof Hc. assert (require_cleanup_target s m (Some c) = Ok old) as E by (by apply require_cleanup_target_ok).
  assert (construct validate_GenerationRecord (mkGeneration m Deleted (Some c)) = Ok (mkGeneration m Deleted (Some c))) as Ev.
  { apply construct_ok. split; [done|]. unfold validate_GenerationRecord. destruct Hof as (H1 & H2 & _). cbn.
    by rewrite Hc, H1, H2, !bool_decide_false by (intros []; done). }
  unfold finish_cleanup. run_unfold. unfold set_record. run_unfold. by rewrite E, Hc, Ev.
Qed.

Lemma retire_run m s old : cg_records s !! key_of m = Some old → gr_manifest old = m → gr_state old = Active →
  cg_current s !! pointer_of m ≠ Some (gm_generation_id m) →
  let r := mkGeneration m Retiring None in retire m s = (Ok r, with_record (key_of m) r s).
Proof.
  intros Hr Hm Hst Hc. unfold retire. run_unfold. unfold set_record. run_unfold. rewrite Hr, Hm, Hst. cbn.
  by rewrite (bool_decide_false _ Hc), bool_decide_false by (intros []; done).
Qed.

Definition persisted (c old : option CleanupCheckpoint) : option CleanupCheckpoint := match c with Some c => Some c | None => old end.

Lemma fail_cleanup_commits m c s : commits (λ r s', validate_GenerationRecord r = Ok () ∧
    (∃ old, require_cleanup_target s m c = Ok old ∧ r = mkGeneration m CleanupFailed (persisted c (gr_cleanup_checkpoint old))) ∧
    match c with Some c => cc_complete c = false | None => True end ∧ s' = with_record (key_of m) r s)
  (fail_cleanup m c) s.
Proof.
  unfold fail_cleanup. do 4 commit_step. run_guards. eapply commits_done; [reflexivity|].
  split_and!; try done; [by eexists|by destruct c].
Qed.

(** ** Every method keeps the catalog well-formed and moves records along. *)
Lemma cleanup_state st : st ∈ [Retiring; CleanupFailed] → st ≠ Active.
Proof. destruct st; [|done..]. rewrite !elem_of_cons, elem_of_nil. by intros [?|[?|?]]. Qed.

Lemma not_current s m r : catalog_ok s → cg_records s !! key_of m = Some r → gr_state r ≠ Active →
  cg_current s !! pointer_of m ≠ Some (gm_generation_id m).
Proof. intros Hok Hr Hst Hc. apply (ok_current _ Hok) in Hc as (x & Hx & Ha). unfold key_of in Hr. assert (Some r = Some x) as [= <-] by (by rewrite <- Hr, <- Hx). contradiction. Qed.

Lemma publish_later m e : evolves catalog_later (publish m e).
Proof.
  intros s r s' E Hok. destruct (publish_commits m e s r s' E) as [->|(x & -> & -> & _ & Hn & ->)]; [done|].
  destruct Hok as [K V C Ev]. split; [split|]; cbn.
  - intros k x [(<- & <-)|(_ & Hx)]%lookup_insert_Some; [done|by apply K].
  - intros k x [(_ & <-)|(_ & Hx)]%lookup_insert_Some; [done|by eapply V].
  - intros t g i [(E1 & <-)|(Hne & Hi)]%lookup_insert_Some; [injection E1 as <- <-; eexists; by rewrite lookup_insert_eq|].
    destruct (C t g i Hi) as (x & Hx & Ha). exists x. split; [|done]. apply lookup_insert_Some. right. split; [|done].
    intros [= <- <- _]. by apply Hne.
  - intros k x [(_ & <-)|(_ & Hx)]%lookup_insert_Some; [done|by eapply Ev].
  - intros k x Hx. exists x. split; [|done]. apply lookup_insert_Some. right. split; [|done]. congruence.
Qed.

Lemma retire_later m : evolves catalog_later (retire m).
Proof.
  intros s r s' E Hok. destruct (catalog_retire_commits m s r s' E) as [->|(x & -> & -> & Hc & (old & Ho & Hm & Hst) & ->)]; [done|].
  eapply (set_record_later s m old); try done. pose proof (ok_evidence _ Hok _ _ Ho) as He.
  destruct old as [m' st c]. cbn in *. subst. apply step_retire.
Qed.

Lemma finish_cleanup_later m c : evolves catalog_later (finish_cleanup m c).
Proof.
  intros s r s' E Hok. destruct (finish_cleanup_commits m c s r s' E) as [->|(x & -> & -> & Hv & (old & Ho) & Hco & ->)]; [done|].
  apply require_cleanup_target_ok in Ho as (Ho & Hm & Hst & Hof).
  eapply (set_record_later s m old); try done.
  - destruct old as [m' st o]. cbn in *. subst. by apply step_delete.
  - eapply not_current; [done..|]. by apply cleanup_state.
Qed.

Lemma fail_cleanup_later m c : evolves catalog_later (fail_cleanup m c).
Proof.
  intros s r s' E Hok. destruct (fail_cleanup_commits m c s r s' E) as [->|(x & -> & Hv & (old & Ho & ->) & Hco & ->)]; [done|].
  apply require_cleanup_target_ok in Ho as (Ho & Hm & Hst & Hof).
  eapply (set_record_later s m old); try done.
  - destruct old as [m' st o]. cbn in *. subst. apply step_fail; [done|]. destruct c as [c|]; [right; by exists c|by left].
  - eapply not_current; [done..|]. by apply cleanup_state.
Qed.
#[export] Hint Resolve publish_later retire_later finish_cleanup_later fail_cleanup_later : evolves.

(** * The cache *)

(** An entry is stored under the digest of its request; there are never more
    than the capacity. *)
Record cache_ok (s : Cache) : Prop := {
  ok_entry k r : ca_items s !! k = Some r → k = request_digest (rr_request r);
  ok_size : Z.of_nat (size (ca_items s)) ≤ ca_max_entries s }.

Lemma new_cache_ok n s : new_cache n = Ok s → cache_ok s ∧ 1 ≤ ca_max_entries s ≤ 65536.
Proof.
  unfold new_cache. intros H. guards. subst s. cbn. split; [|lia].
  split; cbn; [intros k r; by rewrite lookup_empty|rewrite map_size_empty; lia].
Qed.

Lemma cache_put_commits res s : commits (λ _ s',
    (∀ prior, ca_items s !! request_digest (rr_request res) = Some prior → result_eqb prior res = true) ∧
    (ca_items s !! request_digest (rr_request res) = None → Z.of_nat (size (ca_items s)) < ca_max_entries s) ∧
    s' = mkCache (ca_max_entries s) (<[request_digest (rr_request res) := res]> (ca_items s)))
  (cache_put res) s.
Proof.
  unfold cache_put. do 3 commit_step. eapply commits_done; [reflexivity|]. split_and!; [| |done].
  - intros prior E. rewrite E in *. by apply negb_false_iff.
  - intros E. rewrite E in *. cbn in *. lia.
Qed.

Definition entries_from (P : RetrievalResult → Prop) (s : Cache) : Prop := ∀ k r, ca_items s !! k = Some r → P r.

Lemma cache_put_ok res s r s' : cache_put res s = (r, s') → cache_ok s → cache_ok s'.
Proof.
  intros E [He Hs]. destruct (cache_put_commits res s r s' E) as [->|(x & -> & Hp & Hc & ->)]; [done|]. split; cbn.
  - intros k y [(<- & <-)|(_ & Hy)]%lookup_insert_Some; [done|by apply He].
  - rewrite map_size_insert. destruct (ca_items s !! _); [done|]. specialize (Hc eq_refl). lia.
Qed.
Lemma cache_delete_ok d s r s' : cache_delete d s = (r, s') → cache_ok s → cache_ok s'.
Proof.
  intros [= _ <-] [He Hs]. split; cbn.
  - intros k y [_ Hy]%lookup_delete_Some. by apply He.
  - rewrite map_size_delete. destruct (ca_items s !! d); cbn; lia.
Qed.
