(* ===== verification/RetrievalService.v ===== *)
(** Governed retrieval, [arbora/control_plane/retrieval/service.py], as programs
    over the adapters of [retrieval/protocols.py].

    The catalog and the cache are the in-memory ones of [RetrievalRepository];
    the clock, the access-control authority and the engine lie outside the
    source. [retrieve] and [cleanup] hold no lock between their calls. A [try]
    whose handler returns from the enclosing function yields a sum: [inl] is the
    early return. *)
From S2P Require Export Interaction RetrievalRepository.
From Stdlib Require Import Lia.
Local Open Scope Z_scope.

(** * Calls *)

(** What [cleanup_generation] may answer: a checkpoint, [None], or an object of
    another class *)
Inductive cleanup_answer := Checkpoint (c : CleanupCheckpoint) | NoCheckpoint | ForeignObject.

Inductive retrieval_op :=
  | CatalogCurrent (tenant_ref graph_ref : string)
  | CatalogGet (tenant_ref graph_ref generation_id : string)
  | CatalogPublish (manifest : GenerationManifest) (expected_current : option string)
  | CatalogRetire (generation : GenerationManifest)
  | CatalogFinishCleanup (generation : GenerationManifest) (checkpoint : CleanupCheckpoint)
  | CatalogFailCleanup (generation : GenerationManifest) (checkpoint : cleanup_answer)
  | CacheGet (request_digest : string)
  | CachePut (result : RetrievalResult)
  | CacheDelete (request_digest : string)
  | Clock
  | Authorize (request : RetrievalRequest)
  | Search (request : RetrievalRequest) (authorization : AuthorizationEvidence)
  | CleanupGeneration (generation : GenerationManifest).

Definition retrieval_resp (o : retrieval_op) : Type :=
  match o with
  | CatalogCurrent _ _ | CatalogGet _ _ _ => option GenerationRecord
  | CatalogPublish _ _ | CatalogRetire _ | CatalogFinishCleanup _ _ | CatalogFailCleanup _ _ => GenerationRecord
  | CacheGet _ => option RetrievalResult
  | CachePut _ | CacheDelete _ => ()
  | Clock => Z
  | Authorize _ => AuthorizationEvidence
  | Search _ _ => list EngineCandidate
  | CleanupGeneration _ => cleanup_answer
  end.
Notation proc := (prog retrieval_resp).
Definition adapter (o : retrieval_op) : proc (retrieval_resp o) := call o.
Definition pure {A} (r : result A) : proc A := Done r.

(** * Ranking *)

(** Tuples compare by [==] and then by [<]. *)
Definition score_cmp (x y : float64) : comparison := if float_eqb x y then Eq else if float_ltb x y then Lt else Gt.

(** The key [(-score, chunk_key, engine_result_ref)] *)
Definition rank_cmp (c d : EngineCandidate) : comparison :=
  then_cmp (score_cmp (float_neg (ec_score c)) (float_neg (ec_score d)))
    (then_cmp (String.compare (chunk_key (ec_chunk c)) (chunk_key (ec_chunk d)))
      (String.compare (ec_engine_result_ref c) (ec_engine_result_ref d))).
Definition rank_le (c d : EngineCandidate) : Prop := rank_cmp c d ≠ Gt.
#[export] Instance rank_le_dec : RelDecision rank_le.
Proof. unfold rank_le. intros c d. apply _. Defined.

(** [sorted] is stable. *)
Fixpoint insert_ranked (c : EngineCandidate) (l : list EngineCandidate) : list EngineCandidate :=
  match l with
  | [] => [c]
  | d :: l' => if decide (rank_le c d) then c :: d :: l' else d :: insert_ranked c l'
  end.
Definition sort_ranked (l : list EngineCandidate) : list EngineCandidate := foldr insert_ranked [] l.

(** [sorted(verified, key=...)[:limit]] *)
Definition ranked (limit : Z) (verified : list EngineCandidate) : list EngineCandidate :=
  take (Z.to_nat limit) (sort_ranked verified).

Definition hit_of (evidence : AuthorizationEvidence) (rank : Z) (c : EngineCandidate) : RankedHit :=
  mkHit (ec_chunk c) (ec_index_ref c) (ec_score c) rank (evidence_digest evidence) (ec_engine_result_ref c).

(** [tuple(RankedHit(...) for rank, candidate in enumerate(ranked, start=rank))] *)
Fixpoint build_hits (evidence : AuthorizationEvidence) (rank : Z) (cs : list EngineCandidate) : result (list RankedHit) :=
  match cs with
  | [] => Ok []
  | c :: cs =>
      h ← construct validate_RankedHit (hit_of evidence rank c);
      hs ← build_hits evidence (rank + 1) cs;
      Ok (h :: hs)
  end.

(** * Retrieval *)
Definition check_evidence_chunks (current : GenerationRecord) (evidence : AuthorizationEvidence) : result () :=
  for_each (λ c, raise_if (bool_decide (do_source_version (ch_document c) ≠ gm_source_version (gr_manifest current)))
      (RetrievalAuthorizationError "acl_source_version_drift"))
    (ae_allowed_chunks evidence).

Definition validate_evidence (request : RetrievalRequest) (current : GenerationRecord) (evidence : AuthorizationEvidence) (now : Z) :
    result () :=
  _ ← raise_if ((now <? ae_evaluated_at evidence) || (ae_expires_at evidence <=? now))
        (RetrievalAuthorizationError "acl_evidence_expired_or_future");
  _ ← raise_if (bool_decide (ae_request_id evidence ≠ rq_request_id request)) (RetrievalAuthorizationError "acl_request_drift");
  _ ← raise_if (bool_decide (ae_tenant_ref evidence ≠ rq_tenant_ref request)) (RetrievalAuthorizationError "acl_tenant_drift");
  _ ← raise_if (bool_decide (ae_graph_ref evidence ≠ rq_graph_ref request)) (RetrievalAuthorizationError "acl_graph_drift");
  _ ← raise_if (bool_decide (ae_index_ref evidence ≠ rq_index_ref request)) (RetrievalAuthorizationError "acl_index_drift");
  _ ← raise_if (bool_decide (ae_generation_id evidence ≠ gm_generation_id (gr_manifest current)))
        (RetrievalAuthorizationError "acl_generation_stale");
  check_evidence_chunks current evidence.

Definition verify_candidate (request : RetrievalRequest) (evidence : AuthorizationEvidence) (seen : list string) (c : EngineCandidate) :
    result (list string) :=
  _ ← raise_if (bool_decide (ec_index_ref c ≠ rq_index_ref request)) (RetrievalDomainError "engine_index_drift");
  _ ← raise_if (negb (allows evidence (ec_chunk c))) (RetrievalAuthorizationError "engine_returned_denied_candidate");
  _ ← raise_if (bool_decide (chunk_key (ec_chunk c) ∈ seen)) (RetrievalDomainError "engine_candidate_duplicate");
  Ok (chunk_key (ec_chunk c) :: seen).

Definition verify_candidates (request : RetrievalRequest) (evidence : AuthorizationEvidence) (candidates : list EngineCandidate) :
    result (list EngineCandidate) :=
  _ ← raise_if (bool_decide (MAX_HITS < length candidates)%nat) (RetrievalDomainError "engine_candidate_bound_exceeded");
  _ ← for_fold (verify_candidate request evidence) candidates [];
  Ok candidates.

Definition validate_cached (cached : RetrievalResult) (request : RetrievalRequest) (evidence : AuthorizationEvidence)
    (current : GenerationRecord) (now : Z) : result () :=
  _ ← raise_if (bool_decide (rr_request cached ≠ request)) (RetrievalDomainError "cache_request_drift");
  _ ← raise_if (bool_decide (evidence_digest (rr_authorization cached) ≠ evidence_digest evidence))
        (RetrievalAuthorizationError "cache_acl_evidence_drift");
  validate_evidence request current (rr_authorization cached) now.

Definition require_current (request : RetrievalRequest) : proc GenerationRecord :=
  current ← adapter (CatalogCurrent (rq_tenant_ref request) (rq_graph_ref request));
  match current with
  | None => mthrow (StaleGenerationError "current_generation_unresolved")
  | Some current =>
      _ ← raise_if (bool_decide (gr_state current ≠ Active)) (StaleGenerationError "current_generation_unresolved");
      let manifest := gr_manifest current in
      _ ← raise_if (bool_decide (gm_tenant_ref manifest ≠ rq_tenant_ref request) ||
                    bool_decide (gm_graph_ref manifest ≠ rq_graph_ref request) ||
                    bool_decide (gm_generation_id manifest ≠ ix_generation_id (rq_index_ref request)) ||
                    bool_decide (gm_index_ref manifest ≠ rq_index_ref request))
            (StaleGenerationError "request_generation_stale");
      mret current
  end.

Section retriever.
(** [self.cache is not None] *)
Context (has_cache : bool).

Definition cache_result (result : RetrievalResult) : proc () :=
  if has_cache then prog_try (λ _, mthrow (RetrievalDomainError "cache_write_failed")) (adapter (CachePut result))
  else mret ().

(** The cached answer that [retrieve] returns early, if any *)
Definition read_cache (request : RetrievalRequest) (evidence : AuthorizationEvidence) (current : GenerationRecord) (now : Z) :
    proc (option RetrievalResult) :=
  if has_cache then
    cached ← adapter (CacheGet (request_digest request));
    match cached with
    | None => mret None
    | Some cached =>
        match validate_cached cached request evidence current now with
        | Ok () => mret (Some cached)
        | Raise exc =>
            if isinstance exc "RetrievalDomainError" then
              _ ← adapter (CacheDelete (request_digest request)); mret None
            else mthrow exc
        end
    end
  else mret None.

Definition authorize_request (request : RetrievalRequest) : proc AuthorizationEvidence :=
  prog_try (λ _, mthrow (RetrievalAuthorizationError "acl_authorization_failed")) (adapter (Authorize request)).

Definition search_engine (request : RetrievalRequest) (evidence : AuthorizationEvidence) : proc (list EngineCandidate) :=
  prog_try (λ _, mthrow (RetrievalDomainError "engine_search_failed")) (adapter (Search request evidence)).

(** From the ranked candidates to the returned result *)
Definition return_result (request : RetrievalRequest) (evidence : AuthorizationEvidence) (hits : list RankedHit) : proc RetrievalResult :=
  result ← pure (construct validate_RetrievalResult (mkResult request evidence hits));
  _ ← cache_result result;
  mret result.

Definition retrieve (request : RetrievalRequest) : proc RetrievalResult :=
  current ← require_current request;
  now ← adapter Clock;
  evidence ← authorize_request request;
  _ ← pure (validate_evidence request current evidence now);
  cached ← read_cache request evidence current now;
  match cached with
  | Some cached => mret cached
  | None =>
      if bool_decide (ae_allowed_chunks evidence = []) then return_result request evidence []
      else
        candidates ← search_engine request evidence;
        verified ← pure (verify_candidates request evidence candidates);
        hits ← pure (build_hits evidence 1 (ranked (rq_limit request) verified));
        return_result request evidence hits
  end.
End retriever.

(** * Generation lifecycle *)
Definition lifecycle_publish (manifest : GenerationManifest) (expected_current : option string) : proc GenerationRecord :=
  adapter (CatalogPublish manifest expected_current).

Definition prepare_cleanup (generation : GenerationManifest) : proc () :=
  record ← adapter (CatalogGet (gm_tenant_ref generation) (gm_graph_ref generation) (gm_generation_id generation));
  match record with
  | None => mthrow (GenerationNotFoundError "generation_missing")
  | Some record =>
      _ ← raise_if (bool_decide (gr_manifest record ≠ generation)) (GenerationConflictError "generation_manifest_drift");
      if bool_decide (gr_state record = Active) then _ ← adapter (CatalogRetire generation); mret ()
      else raise_if (bool_decide (gr_state record ∉ [Retiring; CleanupFailed])) (GenerationConflictError "generation_not_cleanup_eligible")
  end.

Definition validate_cleanup_checkpoint (generation : GenerationManifest) (checkpoint : cleanup_answer) : proc CleanupCheckpoint :=
  match checkpoint with
  | Checkpoint c =>
      if negb (cc_expected_vectors c =? gm_expected_chunks generation) then
        _ ← adapter (CatalogFailCleanup generation NoCheckpoint); mthrow (CleanupIncompleteError "cleanup_expected_count_drift")
      else if negb (cc_complete c) then
        _ ← adapter (CatalogFailCleanup generation checkpoint); mthrow (CleanupIncompleteError "cleanup_checkpoint_incomplete")
      else mret c
  | _ => _ ← adapter (CatalogFailCleanup generation NoCheckpoint); mthrow (CleanupIncompleteError "cleanup_checkpoint_invalid")
  end.

Definition record_cleanup_failure (generation : GenerationManifest) (checkpoint : cleanup_answer) : proc GenerationRecord :=
  _ ← prog_try (λ _, mthrow (CleanupIncompleteError "cleanup_failure_state_unrecorded"))
        (adapter (CatalogFailCleanup generation checkpoint));
  mthrow (CleanupIncompleteError "cleanup_failed").

(** The handlers of [cleanup]'s [try], when [checkpoint] has been assigned *)
Definition cleanup_handler (generation : GenerationManifest) (checkpoint : cleanup_answer) (exc : pyexn) : proc GenerationRecord :=
  if isinstance exc "CleanupIncompleteError" then mthrow exc else record_cleanup_failure generation checkpoint.

(** The [try] of [cleanup] *)
Definition cleanup_vectors (generation : GenerationManifest) : proc GenerationRecord :=
  answered ← prog_try (λ exc, r ← cleanup_handler generation NoCheckpoint exc; mret (inl r))
    (checkpoint ← adapter (CleanupGeneration generation); mret (inr checkpoint));
  match answered with
  | inl r => mret r
  | inr checkpoint =>
      prog_try (cleanup_handler generation checkpoint)
        (c ← validate_cleanup_checkpoint generation checkpoint; adapter (CatalogFinishCleanup generation c))
  end.

Definition cleanup (generation : GenerationManifest) : proc GenerationRecord :=
  _ ← prepare_cleanup generation;
  cleanup_vectors generation.

Definition reembed (old_generation new_generation : GenerationManifest) : proc GenerationRecord :=
  _ ← raise_if (bool_decide (gm_tenant_ref old_generation ≠ gm_tenant_ref new_generation) ||
                bool_decide (gm_graph_ref old_generation ≠ gm_graph_ref new_generation))
        (GenerationConflictError "reembed_tenant_graph_drift");
  current ← adapter (CatalogCurrent (gm_tenant_ref old_generation) (gm_graph_ref old_generation));
  _ ← raise_if (match current with
                | None => true
                | Some current => bool_decide (gr_manifest current ≠ old_generation) || bool_decide (gr_state current ≠ Active)
                end) (StaleGenerationError "reembed_old_generation_stale");
  new_record ← lifecycle_publish new_generation (Some (gm_generation_id old_generation));
  _ ← adapter (CatalogRetire old_generation);
  _ ← cleanup old_generation;
  mret new_record.

(** * The world *)

(** What the outside has answered, oldest first *)
Inductive event :=
  | TimeRead (now : Z)
  | Granted (request : RetrievalRequest) (evidence : AuthorizationEvidence)
  | Searched (request : RetrievalRequest) (evidence : AuthorizationEvidence) (candidates : list EngineCandidate)
  | Cleaned (generation : GenerationManifest) (answer : cleanup_answer).

Record World := mkWorld { w_catalog : Catalog; w_cache : Cache; w_log : list event }.

Definition on_catalog {A} (m : M Catalog A) : M World A :=
  λ w, let '(r, s) := m (w_catalog w) in (r, mkWorld s (w_cache w) (w_log w)).
Definition on_cache {A} (m : M Cache A) : M World A :=
  λ w, let '(r, s) := m (w_cache w) in (r, mkWorld (w_catalog w) s (w_log w)).
Definition logged (e : event) (w : World) : World := mkWorld (w_catalog w) (w_cache w) (w_log w ++ [e]).

(** The calls that the repository's own code answers *)
Definition local_call (o : retrieval_op) : option (M World (retrieval_resp o)) :=
  match o return option (M World (retrieval_resp o)) with
  | CatalogCurrent t g => Some (on_catalog (current t g))
  | CatalogGet t g i => Some (on_catalog (get t g i))
  | CatalogPublish m e => Some (on_catalog (publish m e))
  | CatalogRetire m => Some (on_catalog (retire m))
  | CatalogFinishCleanup m c => Some (on_catalog (finish_cleanup m c))
  | CatalogFailCleanup m (Checkpoint c) => Some (on_catalog (fail_cleanup m (Some c)))
  | CatalogFailCleanup m NoCheckpoint => Some (on_catalog (fail_cleanup m None))
  | CatalogFailCleanup m ForeignObject => Some (mthrow (AttributeError "complete"))
  | CacheGet d => Some (on_cache (cache_get d))
  | CachePut r => Some (on_cache (cache_put r))
  | CacheDelete d => Some (on_cache (cache_delete d))
  | _ => None
  end.

(** The answers of the outside that are instances of the declared classes, and
    the entry each leaves in the log *)
Definition answer_event (o : retrieval_op) : retrieval_resp o → option event :=
  match o return retrieval_resp o → option event with
  | Clock => λ now, Some (TimeRead now)
  | Authorize q => λ e, if bool_decide (validate_AuthorizationEvidence e = Ok ()) then Some (Granted q e) else None
  | Search q e => λ cs, if forallb (λ c, bool_decide (validate_EngineCandidate c = Ok ())) cs then Some (Searched q e cs) else None
  | CleanupGeneration m => λ a,
      if match a with Checkpoint c => bool_decide (validate_CleanupCheckpoint c = Ok ()) | _ => true end then Some (Cleaned m a) else None
  | _ => λ _, None
  end.

(** An outside call answers an instance or raises; the clock does not raise. *)
Definition handle (o : retrieval_op) (w : World) (r : result (retrieval_resp o)) (w' : World) : Prop :=
  match local_call o with
  | Some m => m w = (r, w')
  | None => (∃ a e, r = Ok a ∧ answer_event o a = Some e ∧ w' = logged e w) ∨ (o ≠ Clock ∧ ∃ exc, r = Raise exc ∧ w' = w)
  end.
