(* ===== verification/RetrievalRanking.v ===== *)
(** What the ranking of [GovernedRetriever.retrieve] returns.

    [float_key] embeds the finite binary64 numbers into the integers; Python's
    comparisons of finite scores are the comparisons of their keys
    ([float_compare_key]). On finite scores the sort key is therefore a total
    order, and what [retrieve] keeps is the best [limit] candidates, in an order
    that does not depend on the engine's. *)
From S2P Require Export RetrievalService.
From Stdlib Require Import Floats.SpecFloat Lia.
Local Open Scope Z_scope.

(** * Finite floats as integers *)
Lemma digits2_pos_bound m : Z.pos m < 2 ^ Z.pos (digits2_pos m).
Proof.
  induction m as [m IH|m IH|]; cbn [digits2_pos]; [..|done]; rewrite Pos2Z.inj_succ, Z.pow_succ_r by lia; lia.
Qed.

Lemma mantissa_bound s m e : valid_binary 53 1024 (S754_finite s m e) = true → Z.pos m < 2 ^ 53 ∧ -1074 ≤ e.
Proof.
  cbn. unfold bounded, canonical_mantissa, fexp, emin. intros [H%Z.eqb_eq _]%andb_true_iff.
  assert (Z.pos (digits2_pos m) ≤ 53) by lia. split; [|lia].
  eapply Z.lt_le_trans; [apply digits2_pos_bound|]. by apply Z.pow_le_mono_r; lia.
Qed.

Definition magnitude (m : positive) (e : Z) : Z := (e + 1074) * 2 ^ 53 + Z.pos m.
Definition float_key (x : float64) : Z :=
  match sf x with
  | S754_finite false m e => magnitude m e
  | S754_finite true m e => - magnitude m e
  | _ => 0
  end.

Lemma float_key_neg x : float_key (float_neg x) = - float_key x.
Proof. destruct x as [[s|s| |s m e] H]; try done. destruct s; unfold float_key; cbn [sf float_neg SFopp negb]; lia. Qed.
Lemma isfinite_neg x : isfinite (float_neg x) = isfinite x.
Proof. by destruct x as [[] H]. Qed.

Lemma magnitude_compare m1 e1 m2 e2 : Z.pos m1 < 2 ^ 53 → Z.pos m2 < 2 ^ 53 →
  (magnitude m1 e1 ?= magnitude m2 e2) = match e1 ?= e2 with Eq => Pos.compare_cont Eq m1 m2 | c => c end.
Proof.
  intros H1 H2. unfold magnitude. change (Pos.compare_cont Eq m1 m2) with (Z.pos m1 ?= Z.pos m2).
  destruct (Z.compare_spec e1 e2) as [->|?|?].
  - destruct (Z.compare_spec (Z.pos m1) (Z.pos m2)); [apply Z.compare_eq_iff|apply Z.compare_lt_iff|apply Z.compare_gt_iff]; lia.
  - apply Z.compare_lt_iff. nia.
  - apply Z.compare_gt_iff. nia.
Qed.

Lemma magnitude_pos s m e : valid_binary 53 1024 (S754_finite s m e) = true → 0 < magnitude m e.
Proof. intros [_ ?]%mantissa_bound. unfold magnitude. lia. Qed.

Lemma float_compare_key x y : isfinite x = true → isfinite y = true →
  SFcompare (sf x) (sf y) = Some (float_key x ?= float_key y).
Proof.
  destruct x as [[s1|s1| |s1 m1 e1] Hx], y as [[s2|s2| |s2 m2 e2] Hy]; try done; intros _ _; unfold float_key; cbn [sf SFcompare].
  - pose proof (magnitude_pos _ _ _ Hy). destruct s2; f_equal; symmetry; [apply Z.compare_gt_iff|apply Z.compare_lt_iff]; lia.
  - pose proof (magnitude_pos _ _ _ Hx). destruct s1; f_equal; symmetry; [apply Z.compare_lt_iff|apply Z.compare_gt_iff]; lia.
  - pose proof (magnitude_pos _ _ _ Hx). pose proof (magnitude_pos _ _ _ Hy).
    apply mantissa_bound in Hx as [Hx _], Hy as [Hy _]. f_equal. destruct s1, s2.
    + rewrite Z.compare_opp, magnitude_compare by done. rewrite (Z.compare_antisym e1 e2).
      change (Pos.compare_cont Eq m1 m2) with (m1 ?= m2)%positive. change (Pos.compare_cont Eq m2 m1) with (m2 ?= m1)%positive.
      rewrite (Pos.compare_antisym m1 m2). by destruct (e1 ?= e2), (m1 ?= m2)%positive.
    + symmetry. apply Z.compare_lt_iff. lia.
    + symmetry. apply Z.compare_gt_iff. lia.
    + symmetry. by apply magnitude_compare.
Qed.

Lemma score_cmp_key x y : isfinite x = true → isfinite y = true → score_cmp x y = (float_key x ?= float_key y).
Proof.
  intros Hx Hy. unfold score_cmp, float_eqb, float_ltb, SFeqb, SFltb. rewrite float_compare_key by done.
  by destruct (float_key x ?= float_key y).
Qed.

(** * The order of the ranking *)
Definition finite (c : EngineCandidate) : Prop := isfinite (ec_score c) = true.
Definition candidate_key (c : EngineCandidate) : string := chunk_key (ec_chunk c).

(** A higher score, or the same score and the smaller chunk key *)
Definition ranks_before (c d : EngineCandidate) : Prop :=
  float_ltb (ec_score d) (ec_score c) = true ∨
  (float_eqb (ec_score c) (ec_score d) = true ∧ String.compare (candidate_key c) (candidate_key d) = Lt).

Lemma rank_cmp_key c d : finite c → finite d →
  rank_cmp c d = then_cmp (float_key (ec_score d) ?= float_key (ec_score c))
    (then_cmp (String.compare (candidate_key c) (candidate_key d)) (String.compare (ec_engine_result_ref c) (ec_engine_result_ref d))).
Proof.
  intros Hc Hd. unfold rank_cmp. rewrite score_cmp_key by (rewrite isfinite_neg; done).
  by rewrite !float_key_neg, Z.compare_opp.
Qed.

Lemma ranks_before_key c d : finite c → finite d → ranks_before c d ↔
  float_key (ec_score d) < float_key (ec_score c) ∨
  (float_key (ec_score d) = float_key (ec_score c) ∧ String.compare (candidate_key c) (candidate_key d) = Lt).
Proof.
  intros Hc Hd. unfold ranks_before, float_ltb, float_eqb, SFltb, SFeqb. rewrite !float_compare_key by done.
  destruct (Z.compare_spec (float_key (ec_score d)) (float_key (ec_score c))),
    (Z.compare_spec (float_key (ec_score c)) (float_key (ec_score d))); intuition (lia || discriminate).
Qed.

Lemma compare_flip s1 s2 : String.compare s1 s2 = CompOpp (String.compare s2 s1).
Proof. apply String.compare_antisym. Qed.
Lemma compare_refl (s : string) : String.compare s s = Eq.
Proof. pose proof (compare_flip s s) as E. by destruct (String.compare s s). Qed.
Lemma compare_eq s1 s2 : String.compare s1 s2 = Eq ↔ s1 = s2.
Proof. split; [apply String.compare_eq_iff|intros ->; apply compare_refl]. Qed.
Lemma string_le_not_gt s1 s2 : String.le s1 s2 ↔ String.compare s1 s2 ≠ Gt.
Proof. unfold String.le, String.leb. by destruct (String.compare s1 s2). Qed.
Lemma compare_trans s1 s2 s3 : String.compare s1 s2 = Lt → String.compare s2 s3 = Lt → String.compare s1 s3 = Lt.
Proof.
  intros H1 H2. assert (String.le s1 s3) as Hle by (trans s2; apply string_le_not_gt; congruence).
  apply string_le_not_gt in Hle. destruct (String.compare s1 s3) eqn:E; [|done|done].
  apply compare_eq in E as ->. rewrite compare_flip, H2 in H1. done.
Qed.

Lemma rank_le_cases c d : finite c → finite d → candidate_key c ≠ candidate_key d →
  (rank_le c d ↔ ranks_before c d) ∧ (¬ rank_le c d ↔ ranks_before d c).
Proof.
  intros Hc Hd Hne. unfold rank_le. rewrite rank_cmp_key, !ranks_before_key by done.
  assert (String.compare (candidate_key c) (candidate_key d) ≠ Eq) as Hk by (by rewrite compare_eq).
  rewrite (compare_flip (candidate_key d)).
  destruct (Z.compare_spec (float_key (ec_score d)) (float_key (ec_score c))), (String.compare (candidate_key c) (candidate_key d));
    cbn [then_cmp CompOpp] in *; intuition (lia || congruence).
Qed.

Lemma ranks_before_trans c d e : finite c → finite d → finite e → ranks_before c d → ranks_before d e → ranks_before c e.
Proof.
  intros Hc Hd He. rewrite !ranks_before_key by done.
  intros [?|[E1 L1]] [?|[E2 L2]]; [left; lia|left; lia|left; lia|right]. split; [lia|]. by eapply compare_trans.
Qed.

Lemma ranks_before_asym c d : finite c → finite d → ranks_before c d → ranks_before d c → False.
Proof.
  intros Hc Hd. rewrite !ranks_before_key by done. rewrite (compare_flip (candidate_key d)).
  intros [?|[? L1]] [?|[? L2]]; try lia. by rewrite L1 in L2.
Qed.

Lemma ranks_before_total c d : finite c → finite d → candidate_key c ≠ candidate_key d → ranks_before c d ∨ ranks_before d c.
Proof. intros Hc Hd Hne. destruct (rank_le_cases c d) as [H1 H2]; [done..|]. destruct (decide (rank_le c d)); naive_solver. Qed.

(** * Sorting *)
Lemma insert_ranked_perm c l : insert_ranked c l ≡ₚ c :: l.
Proof. induction l as [|d l IH]; cbn; [done|]. case_decide; [done|]. rewrite IH. apply Permutation_swap. Qed.
Lemma sort_ranked_perm l : sort_ranked l ≡ₚ l.
Proof. induction l as [|c l IH]; cbn; [done|]. by rewrite insert_ranked_perm, IH. Qed.

(** Candidates that can be ranked: finite scores, distinct chunks *)
Definition rankable (l : list EngineCandidate) : Prop := Forall finite l ∧ NoDup (candidate_key <$> l).

Lemma rankable_perm l l' : l ≡ₚ l' → rankable l → rankable l'.
Proof. unfold rankable. by intros ->. Qed.
Lemma rankable_cons c l : rankable (c :: l) →
  finite c ∧ Forall (λ d, finite d ∧ candidate_key c ≠ candidate_key d) l ∧ rankable l.
Proof.
  intros [Hf Hn]. apply Forall_cons in Hf as [Hc Hf]. cbn in Hn. apply NoDup_cons in Hn as [Hin Hn].
  split; [done|]. split; [|by split]. rewrite Forall_forall in Hf |- *. intros d Hd. split; [by apply Hf|].
  intros E. apply Hin. rewrite E. by apply list_elem_of_fmap_2.
Qed.

Lemma insert_ranked_sorted c l : rankable (c :: l) → StronglySorted ranks_before l → StronglySorted ranks_before (insert_ranked c l).
Proof.
  induction l as [|d l IH]; intros Hr Hs; cbn; [by repeat constructor|].
  pose proof (rankable_cons _ _ Hr) as (Hc & Hall & Hr'). apply Forall_cons in Hall as [[Hd Hne] Hall].
  pose proof (rankable_cons _ _ Hr') as (_ & Hall' & Hr2). inversion Hs as [|? ? Hs' Hdl]; subst.
  destruct (rank_le_cases c d) as [H1 H2]; [done..|]. case_decide as Hle.
  - constructor; [done|]. apply H1 in Hle. constructor; [done|].
    rewrite Forall_forall in Hdl, Hall |- *. intros e He. apply (ranks_before_trans c d e); auto. by apply Hall.
  - constructor.
    + apply IH; [|done]. destruct Hr as [Hf Hn]. split.
      * apply Forall_cons. split; [done|]. by destruct Hr2.
      * cbn in Hn |- *. apply NoDup_cons in Hn as [Hin [_ Hn]%NoDup_cons]. apply NoDup_cons. split; [set_solver|done].
    + rewrite insert_ranked_perm. constructor; [by apply H2|done].
Qed.

Lemma sort_ranked_sorted l : rankable l → StronglySorted ranks_before (sort_ranked l).
Proof.
  induction l as [|c l IH]; intros Hr; cbn; [constructor|]. apply insert_ranked_sorted.
  - by eapply rankable_perm; [|exact Hr]; rewrite sort_ranked_perm.
  - apply IH. by apply rankable_cons in Hr as (_ & _ & ?).
Qed.

Lemma sort_ranked_unique l l' : rankable l → l ≡ₚ l' → sort_ranked l = sort_ranked l'.
Proof.
  intros Hr HP. assert (rankable l') as Hr' by (by eapply rankable_perm).
  apply (StronglySorted_unique_strong ranks_before); [|by apply sort_ranked_sorted..|by rewrite !sort_ranked_perm].
  intros c d Hc Hd H1 H2. rewrite sort_ranked_perm in Hc, Hd. rewrite <- HP in Hd. destruct Hr as [Hf _].
  rewrite Forall_forall in Hf. exfalso. by eapply (ranks_before_asym c d); [apply Hf..| |].
Qed.

Lemma StronglySorted_split {A} (R : relation A) l l' : StronglySorted R (l ++ l') →
  StronglySorted R l ∧ ∀ x y, x ∈ l → y ∈ l' → R x y.
Proof.
  induction l as [|x l IH]; cbn; intros H; [split; [constructor|set_solver]|].
  inversion H as [|? ? Hs Hx]; subst. destruct (IH Hs) as [Hl Hll]. rewrite Forall_app in Hx. destruct Hx as [Hx Hx'].
  split; [by constructor|]. rewrite Forall_forall in Hx'. intros y z [->|Hy]%elem_of_cons Hz; auto.
Qed.

(** C16: what is returned of the verified candidates is the best [limit] of
    them, best first: by score, and by chunk key where scores are equal. Whatever
    was left out ranks behind everything returned, and the order in which the
    engine listed its candidates makes no difference. *)
Theorem ranking_exact limit candidates reordered :
  rankable candidates → candidates ≡ₚ reordered →
  let top := ranked limit candidates in
  ranked limit reordered = top ∧
  StronglySorted ranks_before top ∧
  length top = Nat.min (Z.to_nat limit) (length candidates) ∧
  ∃ rest, candidates ≡ₚ top ++ rest ∧ ∀ c d, c ∈ top → d ∈ rest → ranks_before c d.
Proof.
  intros Hr HP. unfold ranked. cbn zeta. rewrite <- (sort_ranked_unique candidates reordered) by done.
  pose proof (sort_ranked_sorted _ Hr) as Hs. rewrite <- (take_drop (Z.to_nat limit)) in Hs.
  apply StronglySorted_split in Hs as [Hs Hrest]. split_and!; [done|done| |].
  - by rewrite length_take, (Permutation_length (sort_ranked_perm candidates)).
  - exists (drop (Z.to_nat limit) (sort_ranked candidates)). split; [|done]. by rewrite take_drop, sort_ranked_perm.
Qed.
