(* ===== verification/RetrievalSafety.v ===== *)
(** What retrievers and generation lifecycles guarantee together.

    Any number of [retrieve], [publish], [cleanup] and [reembed] calls run
    interleaved on one catalog and one cache; each adapter call is a step, a call
    that is never continued has crashed, and the clock, the authority and the
    engine answer anything. [world_ok] is the invariant, [later] what every
    program may rely on, [allowed] what must hold when a call is made. *)
From S2P Require Export RetrievalRanking.
From S2P Require Import Sha256.
From Stdlib Require Import Lia.
Local Open Scope Z_scope.

(** * Vocabulary *)

(** Evidence for exactly this request, inside its validity window *)
Record accepted (q : RetrievalRequest) (e : AuthorizationEvidence) (now : Z) : Prop := {
  acc_window : ae_evaluated_at e ≤ now < ae_expires_at e;
  acc_request : ae_request_id e = rq_request_id q;
  acc_tenant : ae_tenant_ref e = rq_tenant_ref q;
  acc_graph : ae_graph_ref e = rq_graph_ref q;
  acc_index : ae_index_ref e = rq_index_ref q }.

(** A generation of the catalog that the request and the evidence are bound to *)
Definition bound_generation (w : World) (q : RetrievalRequest) (e : AuthorizationEvidence) (m : GenerationManifest) : Prop :=
  (∃ r, cg_records (w_catalog w) !! key_of m = Some r ∧ gr_manifest r = m) ∧
  gm_tenant_ref m = rq_tenant_ref q ∧ gm_graph_ref m = rq_graph_ref q ∧ gm_index_ref m = rq_index_ref q ∧
  ae_generation_id e = gm_generation_id m ∧
  Forall (λ c, do_source_version (ch_document c) = gm_source_version m) (ae_allowed_chunks e).

(** The authority granted [e] for [q], and a clock reading lay in its window. *)
Definition authorized (w : World) (q : RetrievalRequest) (e : AuthorizationEvidence) : Prop :=
  Granted q e ∈ w_log w ∧ validate_AuthorizationEvidence e = Ok () ∧
  (∃ now, TimeRead now ∈ w_log w ∧ accepted q e now) ∧ ∃ m, bound_generation w q e m.

Definition verified (q : RetrievalRequest) (e : AuthorizationEvidence) (cs : list EngineCandidate) : Prop :=
  Forall (λ c, validate_EngineCandidate c = Ok ()) cs ∧ verify_candidates q e cs = Ok cs.

(** The hits for the candidates [cs], ranked from [rank] *)
Fixpoint hits_of (e : AuthorizationEvidence) (rank : Z) (cs : list EngineCandidate) : list RankedHit :=
  match cs with [] => [] | c :: cs => hit_of e rank c :: hits_of e (rank + 1) cs end.

(** The result was built from an authorization and what an engine search under
    it returned. *)
Definition produced (w : World) (res : RetrievalResult) : Prop :=
  let q := rr_request res in
  let e := rr_authorization res in
  validate_RetrievalResult res = Ok () ∧ authorized w q e ∧
  ((ae_allowed_chunks e = [] ∧ rr_hits res = []) ∨
   ∃ cs, Searched q e cs ∈ w_log w ∧ verified q e cs ∧ rr_hits res = hits_of e 1 (ranked (rq_limit q) cs)).

Record world_ok (w : World) : Prop := {
  ok_catalog : catalog_ok (w_catalog w);
  ok_cache : cache_ok (w_cache w);
  ok_produced : entries_from (produced w) (w_cache w);
  (** The engine answered the checkpoint of a deleted generation. *)
  ok_deleted k m c : cg_records (w_catalog w) !! k = Some (mkGeneration m Deleted (Some c)) → Cleaned m (Checkpoint c) ∈ w_log w }.

Record later (w w' : World) : Prop := {
  later_catalog : catalog_later (w_catalog w) (w_catalog w');
  later_log : w_log w `prefix_of` w_log w';
  later_ok : world_ok w → world_ok w' }.

#[export] Instance later_preorder : PreOrder later.
Proof.
  split; [intros w; by split|]. intros w1 w2 w3 [C1 L1 O1] [C2 L2 O2].
  split; [by trans (w_catalog w2)|by trans (w_log w2)|auto].
Qed.

Definition registered (w : World) (m : GenerationManifest) (P : GenerationRecord → Prop) : Prop :=
  ∃ r, cg_records (w_catalog w) !! key_of m = Some r ∧ gr_manifest r = m ∧ P r.

Definition allowed (o : retrieval_op) (w : World) : Prop :=
  match o with
  | CacheGet d | CacheDelete d => ∃ q e, d = request_digest q ∧ authorized w q e
  | Search q e => authorized w q e ∧ ae_allowed_chunks e ≠ []
  | CachePut res => produced w res
  | CleanupGeneration m => registered w m (λ r, gr_state r ≠ Active)
  | CatalogFinishCleanup m c =>
      Cleaned m (Checkpoint c) ∈ w_log w ∧ cc_complete c = true ∧ cc_expected_vectors c = gm_expected_chunks m
  | _ => True
  end.

(** * Stability *)
Lemma later_records w w' m r : later w w' → catalog_ok (w_catalog w) → cg_records (w_catalog w) !! key_of m = Some r →
  ∃ r', cg_records (w_catalog w') !! key_of m = Some r' ∧ gen_path r r'.
Proof. intros [C _ _] Hok. destruct (C Hok) as [_ L]. apply L. Qed.

Lemma log_later w w' e : later w w' → e ∈ w_log w → e ∈ w_log w'.
Proof. intros [_ [l E] _]. rewrite E. set_solver. Qed.

Lemma bound_generation_later w w' q e m : later w w' → catalog_ok (w_catalog w) → bound_generation w q e m → bound_generation w' q e m.
Proof.
  intros L Hok ((r & Hr & Hm) & H). split; [|done]. destruct (later_records w w' m r L Hok Hr) as (r' & Hr' & Hp).
  exists r'. split; [done|]. by rewrite (gen_path_manifest _ _ Hp).
Qed.

Lemma authorized_later w w' q e : later w w' → catalog_ok (w_catalog w) → authorized w q e → authorized w' q e.
Proof.
  intros L Hok (Hg & Hv & (now & Hn & Ha) & m & Hm). split; [by eapply log_later|]. split; [done|]. split.
  - exists now. split; [by eapply log_later|done].
  - exists m. by eapply bound_generation_later.
Qed.

Lemma produced_later w w' res : later w w' → catalog_ok (w_catalog w) → produced w res → produced w' res.
Proof.
  intros L Hok (Hv & Ha & H). split; [done|]. split; [by eapply authorized_later|].
  destruct H as [?|(cs & Hs & ?)]; [by left|right]. exists cs. split; [by eapply log_later|done].
Qed.

Lemma gen_path_inactive r r' : gen_path r r' → gr_state r ≠ Active → gr_state r' ≠ Active.
Proof.
  induction 1 as [|r1 r2 r3 H _ IH]; [done|]. intros Hn. apply IH. by destruct H.
Qed.

Lemma registered_inactive_later w w' m : later w w' → catalog_ok (w_catalog w) →
  registered w m (λ r, gr_state r ≠ Active) → registered w' m (λ r, gr_state r ≠ Active).
Proof.
  intros L Hok (r & Hr & Hm & Hn). destruct (later_records w w' m r L Hok Hr) as (r' & Hr' & Hp).
  exists r'. split; [done|]. rewrite (gen_path_manifest _ _ Hp). split; [done|]. by eapply gen_path_inactive.
Qed.

Lemma world_eta w : mkWorld (w_catalog w) (w_cache w) (w_log w) = w.
Proof. by destruct w. Qed.

(** * Steps *)

(** The world after a step is well-formed again. *)
Lemma step_later w w' : catalog_later (w_catalog w) (w_catalog w') → w_log w `prefix_of` w_log w' →
  (cache_ok (w_cache w) → cache_ok (w_cache w')) →
  (∀ k r, ca_items (w_cache w') !! k = Some r → ca_items (w_cache w) !! k = Some r ∨ produced w r) →
  (∀ k m c, cg_records (w_catalog w') !! k = Some (mkGeneration m Deleted (Some c)) →
     cg_records (w_catalog w) !! k = Some (mkGeneration m Deleted (Some c)) ∨ Cleaned m (Checkpoint c) ∈ w_log w) → later w w'.
Proof.
  intros C L Hc He Hd. split; [done|done|]. intros [Hcat Hcache Hp HD]. destruct (C Hcat) as [Hcat' R].
  split; [done|auto| |].
  2:{ intros k m c Hk. destruct L as [l E]. rewrite E. apply elem_of_app. left. destruct (Hd k m c Hk); eauto. }
  intros k r Hr. assert (produced w r) as (Hv & (Hg & Hae & (now & Hn & Ha) & m & (x & Hx & Hm) & Hb) & Hs).
  { destruct (He k r Hr) as [H|H]; [by eapply Hp|done]. }
  assert (∀ e, e ∈ w_log w → e ∈ w_log w') as HL by (destruct L as [l E]; intros e; rewrite E; set_solver).
  split; [done|]. split.
  - split; [by apply HL|]. split; [done|]. split; [exists now; split; [by apply HL|done]|]. exists m. split; [|done].
    destruct (R _ _ Hx) as (x' & Hx' & Hpath). exists x'. split; [done|]. by rewrite (gen_path_manifest _ _ Hpath).
  - destruct Hs as [?|(cs & Hcs & ?)]; [by left|right]. exists cs. split; [by apply HL|done].
Qed.

(** The method deletes no generation. *)
Definition deletes_nothing {A} (m : M Catalog A) : Prop := ∀ s r s' k x,
  m s = (r, s') → cg_records s' !! k = Some x → gr_state x = Deleted → cg_records s !! k = Some x.

Lemma catalog_step {A} (m : M Catalog A) w r w' : evolves catalog_later m → on_catalog m w = (r, w') →
  (∀ s k g c, m (w_catalog w) = (r, s) → cg_records s !! k = Some (mkGeneration g Deleted (Some c)) →
     cg_records (w_catalog w) !! k = Some (mkGeneration g Deleted (Some c)) ∨ Cleaned g (Checkpoint c) ∈ w_log w) → later w w'.
Proof.
  intros Hm. unfold on_catalog. destruct (m (w_catalog w)) as [r0 s] eqn:E. intros [= <- <-] Hd. apply Hm in E as Hl.
  apply step_later; cbn; [done|done|done|by left|]. intros k g c. by apply Hd.
Qed.
Lemma catalog_step_later {A} (m : M Catalog A) w r w' : evolves catalog_later m → deletes_nothing m → on_catalog m w = (r, w') → later w w'.
Proof. intros Hm Hd E. eapply catalog_step; [done..|]. intros s k g c Em Hk. left. by eapply Hd. Qed.

Lemma gets_deletes_nothing {A} (f : Catalog → A) : deletes_nothing (gets f).
Proof. by intros s r s' k x [= _ <-]. Qed.
Lemma publish_deletes_nothing m e : deletes_nothing (publish m e).
Proof.
  intros s r s' k x E Hk Hx. destruct (publish_commits m e s r s' E) as [->|(y & _ & -> & _ & _ & ->)]; [done|].
  by cbn in Hk; apply lookup_insert_Some in Hk as [(_ & <-)|(_ & ?)].
Qed.
Lemma retire_deletes_nothing m : deletes_nothing (retire m).
Proof.
  intros s r s' k x E Hk Hx. destruct (catalog_retire_commits m s r s' E) as [->|(y & _ & -> & _ & _ & ->)]; [done|].
  by cbn in Hk; apply lookup_insert_Some in Hk as [(_ & <-)|(_ & ?)].
Qed.
Lemma fail_cleanup_deletes_nothing m c : deletes_nothing (fail_cleanup m c).
Proof.
  intros s r s' k x E Hk Hx. destruct (fail_cleanup_commits m c s r s' E) as [->|(y & _ & _ & (old & _ & ->) & _ & ->)]; [done|].
  by cbn in Hk; apply lookup_insert_Some in Hk as [(_ & <-)|(_ & ?)].
Qed.

Lemma logged_later e w : later w (logged e w).
Proof. apply step_later; cbn; [done|by eexists|done|by left|by left]. Qed.

Lemma current_later t g : evolves catalog_later (current t g).
Proof. apply evolves_gets, _. Qed.
Lemma get_later t g i : evolves catalog_later (get t g i).
Proof. apply evolves_gets, _. Qed.

Lemma handle_later o w r w' : allowed o w → handle o w r w' → later w w'.
Proof.
  unfold handle. destruct o; cbn [local_call allowed]; intros Ha.
  - apply catalog_step_later; [apply current_later|apply gets_deletes_nothing].
  - apply catalog_step_later; [apply get_later|apply gets_deletes_nothing].
  - apply catalog_step_later; [apply publish_later|apply publish_deletes_nothing].
  - apply catalog_step_later; [apply retire_later|apply retire_deletes_nothing].
  - intros E. eapply catalog_step; [apply finish_cleanup_later|exact E|]. intros s k g c Es Hk.
    destruct (finish_cleanup_commits _ _ _ _ _ Es) as [->|(x & _ & -> & _ & _ & _ & ->)]; [by left|].
    cbn in Hk. apply lookup_insert_Some in Hk as [(_ & [= <- <-])|(_ & ?)]; [right; apply Ha|by left].
  - destruct checkpoint; [apply catalog_step_later; [apply fail_cleanup_later|apply fail_cleanup_deletes_nothing]..|]. by intros [= _ <-].
  - unfold on_cache, cache_get, gets. intros [= _ <-]. by destruct w.
  - unfold on_cache. destruct (cache_put result (w_cache w)) as [r0 s] eqn:E. intros [= _ <-].
    apply step_later; cbn; [done|done|by eapply cache_put_ok| |by left]. intros k x.
    destruct (cache_put_commits _ _ _ _ E) as [->|(? & _ & _ & _ & ->)]; [by left|]. cbn.
    intros [(_ & <-)|(_ & Hx)]%lookup_insert_Some; [by right|by left].
  - unfold on_cache. destruct (cache_delete request_digest (w_cache w)) as [r0 s] eqn:E. intros [= _ <-].
    apply step_later; cbn; [done|done|by eapply cache_delete_ok| |by left]. intros k x. injection E as _ <-. cbn.
    intros [_ Hx]%lookup_delete_Some. by left.
  - intros [(a & e & _ & _ & ->)|(_ & exc & _ & ->)]; [apply logged_later|done].
  - intros [(a & e & _ & _ & ->)|(_ & exc & _ & ->)]; [apply logged_later|done].
  - intros [(a & e & _ & _ & ->)|(_ & exc & _ & ->)]; [apply logged_later|done].
  - intros [(a & e & _ & _ & ->)|(_ & exc & _ & ->)]; [apply logged_later|done].
Qed.

Notation guarded := (rg handle later allowed).

(** One call: allowed whatever others have done, and [Q] of its answer *)
Lemma adapter_rg (o : retrieval_op) (Q : result (retrieval_resp o) → World → Prop) w :
  world_ok w → (∀ w0, later w w0 → world_ok w0 → allowed o w0) →
  (∀ w0 r w1, later w w0 → world_ok w0 → handle o w0 r w1 → later w0 w1 → world_ok w1 → Q r w1) →
  guarded (adapter o) Q w.
Proof.
  intros Hok Ha HQ. apply rg_call. intros w0 L. assert (world_ok w0) as Hok0 by (by apply (later_ok _ _ L)).
  split; [auto|]. intros r w1 Hh. assert (later w0 w1) as L1 by (eapply handle_later; [|done]; auto).
  split; [done|]. apply (HQ w0); auto. by apply (later_ok _ _ L1).
Qed.

(** * Candidates, hits and results *)

(** A candidate that may be shown for the request *)
Definition shown (q : RetrievalRequest) (e : AuthorizationEvidence) (c : EngineCandidate) : Prop :=
  ec_index_ref c = rq_index_ref q ∧ allows e (ec_chunk c) = true.

Lemma verify_candidate_fold q e cs seen seen' : for_fold (verify_candidate q e) cs seen = Ok seen' →
  Forall (shown q e) cs ∧ NoDup (candidate_key <$> cs) ∧ ∀ c, c ∈ cs → candidate_key c ∉ seen.
Proof.
  revert seen. induction cs as [|c cs IH]; intros seen; cbn [for_fold]; intros H; [split_and!; [done|constructor|set_solver]|].
  unfold verify_candidate in H. guards. subst x. destruct (IH _ H) as (Hs & Hn & Hd). split_and!.
  - by constructor.
  - cbn. constructor; [|done]. intros (d & Ed & Hin)%list_elem_of_fmap. apply (Hd d Hin). rewrite <- Ed. by left.
  - intros d [->|Hin]%elem_of_cons; [done|]. specialize (Hd d Hin). set_solver.
Qed.

Lemma valid_candidate_score c : validate_EngineCandidate c = Ok () → Score (ec_score c) = true ∧ finite c ∧ OpaqueRef (ec_engine_result_ref c) = true.
Proof.
  unfold validate_EngineCandidate. constraints. intros [(Hs & Hr & _) (Hf & _)]. cbn in Hs, Hr, Hf.
  split_and!; [done| |done]. unfold finite. by apply negb_false_iff.
Qed.

Lemma verified_facts q e cs : verified q e cs →
  (length cs ≤ MAX_HITS)%nat ∧ Forall (shown q e) cs ∧ rankable cs.
Proof.
  intros [Hv H]. unfold verify_candidates in H. guards. destruct (verify_candidate_fold _ _ _ _ _ Hok0) as (Hs & Hn & _).
  split; [lia|]. split; [done|]. split; [|done].
  eapply Forall_impl; [exact Hv|]. intros c. by intros (_ & ? & _)%valid_candidate_score.
Qed.

Lemma ranked_subset limit cs c : c ∈ ranked limit cs → c ∈ cs.
Proof. unfold ranked. intros (i & Hi & _)%elem_of_take. rewrite <- (sort_ranked_perm cs). by eapply list_elem_of_lookup_2. Qed.
Lemma ranked_length limit cs : (length (ranked limit cs) ≤ Z.to_nat limit)%nat.
Proof. unfold ranked. rewrite length_take. lia. Qed.
Lemma ranked_keys limit cs : NoDup (candidate_key <$> cs) → NoDup (candidate_key <$> ranked limit cs).
Proof.
  intros H. rewrite <- (sort_ranked_perm cs), <- (take_drop (Z.to_nat limit) (sort_ranked cs)), fmap_app in H.
  by apply NoDup_app in H as [? _].
Qed.

Lemma build_hits_ok e rank cs : Forall (λ c, validate_EngineCandidate c = Ok ()) cs →
  1 ≤ rank → rank + Z.of_nat (length cs) ≤ Z.of_nat MAX_HITS + 1 → build_hits e rank cs = Ok (hits_of e rank cs).
Proof.
  intros Hv. revert rank. induction Hv as [|c cs Hc Hv IH]; intros rank H1 H2; [done|]. cbn [build_hits hits_of].
  cbn [length] in H2. rewrite IH by lia.
  assert (construct validate_RankedHit (hit_of e rank c) = Ok (hit_of e rank c)) as ->; [|done].
  apply construct_ok. split; [done|]. apply valid_candidate_score in Hc as (Hs & Hf & Hr). unfold validate_RankedHit, in_bounds.
  constraints. cbn [hit_of rh_score rh_rank rh_authorization_digest rh_engine_result_ref]. unfold evidence_digest.
  rewrite canonical_digest_Digest, Hs, Hr, Hf, andb_true_iff, !Z.leb_le. split_and!; try done; lia.
Qed.

Lemma hits_of_length e rank cs : length (hits_of e rank cs) = length cs.
Proof. revert rank. induction cs as [|c cs IH]; intros rank; cbn; [done|]. by rewrite IH. Qed.

Lemma result_hits_fold res cs rank seen : Forall (shown (rr_request res) (rr_authorization res)) cs →
  NoDup (candidate_key <$> cs) → (∀ c, c ∈ cs → candidate_key c ∉ seen) →
  ∃ st, for_fold (validate_result_hit res) (hits_of (rr_authorization res) rank cs) (rank, seen) = Ok st.
Proof.
  intros Hs. revert rank seen. induction Hs as [|c cs [Hi Ha] Hs IH]; intros rank seen Hn Hd; [by eexists|].
  cbn [hits_of for_fold]. apply NoDup_cons in Hn as [Hc Hn].
  destruct (IH (rank + 1) (candidate_key c :: seen) Hn) as [st Est].
  { intros d Hin. apply not_elem_of_cons. split; [|by apply Hd; right]. intros E. apply Hc. rewrite <- E. by apply list_elem_of_fmap_2. }
  exists st. assert (validate_result_hit res (rank, seen) (hit_of (rr_authorization res) rank c) =
    Ok (rank + 1, candidate_key c :: seen)) as ->; [|done].
  unfold validate_result_hit. cbn [hit_of rh_rank rh_authorization_digest rh_index_ref rh_chunk].
  rewrite Z.eqb_refl, Hi, Ha, !bool_decide_false; [done|first [by intros []|apply (Hd c); by left]..].
Qed.

Lemma check_all_ok cs : check_all cs = Ok () ↔ Forall (λ c, c.1 = true) cs.
Proof. unfold check_all. rewrite for_each_ok. by setoid_rewrite raise_if_ok; setoid_rewrite negb_false_iff. Qed.

Lemma accepted_generation q e now : accepted q e now → validate_AuthorizationEvidence e = Ok () →
  ae_generation_id e = ix_generation_id (rq_index_ref q).
Proof.
  intros Ha Hv. rewrite <- (acc_index _ _ _ Ha). revert Hv.
  unfold validate_AuthorizationEvidence, validate_authorization_scope. constraints. rewrite check_all_ok, !Forall_cons.
  cbn [fst]. rewrite !bool_decide_eq_true. naive_solver.
Qed.

Lemma request_limit q : validate_RetrievalRequest q = Ok () → 1 ≤ rq_limit q ≤ Z.of_nat MAX_HITS.
Proof.
  unfold validate_RetrievalRequest. constraints. intros [(_ & _ & _ & H & _) _]. cbn in H. unfold in_bounds in H. guards. lia.
Qed.

(** What [return_result] constructs is always valid. *)
Lemma result_valid q e now cs : validate_RetrievalRequest q = Ok () → validate_AuthorizationEvidence e = Ok () → accepted q e now →
  Forall (shown q e) cs → NoDup (candidate_key <$> cs) → Z.of_nat (length cs) ≤ rq_limit q →
  validate_RetrievalResult (mkResult q e (hits_of e 1 cs)) = Ok ().
Proof.
  intros Hq He Ha Hs Hn Hl. pose proof (request_limit _ Hq).
  destruct (result_hits_fold (mkResult q e (hits_of e 1 cs)) cs 1 [] Hs Hn) as [st Est]; [set_solver|].
  unfold validate_RetrievalResult, validate_result_identity, validate_result_hits. constraints.
  cbn [rr_request rr_authorization rr_hits] in *. unfold tuple_len. rewrite bool_decide_eq_true, hits_of_length.
  rewrite (accepted_generation _ _ _ Ha He). destruct Ha as [_ Hr Ht Hg Hi]. rewrite Hr, Ht, Hg, Hi, Est.
  rewrite !bool_decide_false by (intros []; done). split_and!; try done; [lia|lia|apply Z.ltb_ge; lia].
Qed.

(** * Retrieval *)

(** The answer was given between [w] and [w']. *)
Definition since (w w' : World) (e : event) : Prop := ∃ l, w_log w' = w_log w ++ l ∧ e ∈ l.

Record served (w : World) (q : RetrievalRequest) (w' : World) (res : RetrievalResult) : Prop := {
  served_request : rr_request res = q;
  served_now : ∃ e now m, since w w' (Granted q e) ∧ since w w' (TimeRead now) ∧ accepted q e now ∧
    evidence_digest (rr_authorization res) = evidence_digest e ∧ accepted q (rr_authorization res) now ∧
    bound_generation w' q (rr_authorization res) m;
  served_produced : produced w' res }.

Definition evidence_errors : list pyexn :=
  RetrievalAuthorizationError <$> ["acl_evidence_expired_or_future"; "acl_request_drift"; "acl_tenant_drift"; "acl_graph_drift";
    "acl_index_drift"; "acl_generation_stale"; "acl_source_version_drift"].
Definition candidate_errors : list pyexn :=
  [RetrievalDomainError "engine_candidate_bound_exceeded"; RetrievalDomainError "engine_index_drift";
   RetrievalAuthorizationError "engine_returned_denied_candidate"; RetrievalDomainError "engine_candidate_duplicate"].
Definition retrieval_errors : list pyexn :=
  [StaleGenerationError "current_generation_unresolved"; StaleGenerationError "request_generation_stale";
   RetrievalAuthorizationError "acl_authorization_failed"; RetrievalDomainError "engine_search_failed";
   RetrievalDomainError "cache_write_failed"] ++ evidence_errors ++ candidate_errors.

Lemma since_intro w w0 w1 e : later w w0 → w_log w1 = w_log w0 ++ [e] → since w w1 e.
Proof. intros [_ [l E] _] E1. exists (l ++ [e]). rewrite E1, E, app_assoc. split; [done|set_solver]. Qed.
Lemma since_later w w0 w1 e : since w w0 e → later w0 w1 → since w w1 e.
Proof. intros (l & E & He) [_ [l' E'] _]. exists (l ++ l'). rewrite E', E, app_assoc. split; [done|set_solver]. Qed.
Lemma since_log w w' e : since w w' e → e ∈ w_log w'.
Proof. intros (l & -> & ?). set_solver. Qed.

(** The generation that [require_current] returned *)
Definition known (w : World) (q : RetrievalRequest) (m : GenerationManifest) : Prop :=
  (∃ r, cg_records (w_catalog w) !! key_of m = Some r ∧ gr_manifest r = m) ∧
  gm_tenant_ref m = rq_tenant_ref q ∧ gm_graph_ref m = rq_graph_ref q ∧ gm_index_ref m = rq_index_ref q.
Lemma known_later w w' q m : later w w' → catalog_ok (w_catalog w) → known w q m → known w' q m.
Proof.
  intros L Hok ((r & Hr & Hm) & H). split; [|done]. destruct (later_records w w' m r L Hok Hr) as (r' & Hr' & Hp).
  exists r'. split; [done|]. by rewrite (gen_path_manifest _ _ Hp).
Qed.

Lemma raise_if_raise b e e' : raise_if b e = (Raise e' : result ()) → e' = e.
Proof. destruct b; [|done]. by intros [= ->]. Qed.

(** An error of a check is one of those the check names. *)
Ltac raised := repeat match goal with
  | H : (_ ≫= _) = Raise _ |- _ => apply result_bind_raise in H as [H|(? & ? & H)]
  | H : raise_if _ _ = Raise _ |- _ => apply raise_if_raise in H as ->
  end.
Ltac listed := unfold retrieval_errors, evidence_errors, candidate_errors; by_compute.

Lemma validate_evidence_raise q cur e now x : validate_evidence q cur e now = Raise x → x ∈ evidence_errors.
Proof.
  intros H. unfold validate_evidence in H. raised; [listed..|].
  apply for_each_raise in H as (c & _ & H). raised. listed.
Qed.

Lemma verify_candidates_raise q e cs x : verify_candidates q e cs = Raise x → x ∈ candidate_errors.
Proof.
  intros H. unfold verify_candidates in H. raised; [listed| |done].
  match goal with E : raise_if _ _ = Ok _ |- _ => clear E end. revert H. generalize (@nil string). induction cs as [|c cs IH]; intros seen H; [done|]. cbn [for_fold] in H.
  apply result_bind_raise in H as [H|(s & _ & H)]; [|exact (IH _ H)]. unfold verify_candidate in H. raised; [listed..|done].
Qed.

Lemma evidence_listed x : x ∈ evidence_errors → x ∈ retrieval_errors.
Proof. intros H. apply elem_of_app. right. apply elem_of_app. by left. Qed.
Lemma candidate_listed x : x ∈ candidate_errors → x ∈ retrieval_errors.
Proof. intros H. apply elem_of_app. right. apply elem_of_app. by right. Qed.

Lemma validate_evidence_ok q cur e now w : validate_evidence q cur e now = Ok () → known w q (gr_manifest cur) →
  accepted q e now ∧ bound_generation w q e (gr_manifest cur).
Proof.
  intros H (Hr & Ht & Hg & Hi). unfold validate_evidence, check_evidence_chunks in H. guards.
  split; [split; try done; lia|]. split; [done|]. split_and!; try done.
  eapply Forall_impl; [exact H|]. cbn. intros c Hc. by guards.
Qed.

Lemma result_rg {A} (r : result A) (Q : result A → World → Prop) w : Q r w → guarded (pure r) Q w.
Proof. done. Qed.

Section programs.
Context (q : RetrievalRequest) (has_cache : bool) (Hq : validate_RetrievalRequest q = Ok ()).

Lemma require_current_rg (Q : result GenerationRecord → World → Prop) w : world_ok w →
  (∀ cur w', later w w' → world_ok w' → known w' q (gr_manifest cur) → Q (Ok cur) w') →
  (∀ e w', e ∈ retrieval_errors → Q (Raise e) w') → guarded (require_current q) Q w.
Proof.
  intros Hok HOk HRaise. unfold require_current. apply rg_bind. apply adapter_rg; [done|done|].
  intros w0 r w1 L Hok0 Hh L1 Hok1. unfold handle in Hh. cbn in Hh. unfold on_catalog, current, gets in Hh.
  injection Hh as <- <-. destruct (current_record _ _ _) as [cur|] eqn:Ec; [|apply HRaise; listed].
  unfold raise_if. destruct (bool_decide (gr_state cur ≠ Active)); [apply HRaise; listed|]. cbn.
  destruct (_ || _) eqn:Eb; [apply HRaise; listed|]. guards. apply HOk; [by trans w0|done|].
  split; [|done]. exists cur. split; [|done]. unfold current_record in Ec. destruct (cg_current _ !! _) as [i|]; [|done]. cbn.
  by rewrite <- (ok_key _ (ok_catalog _ Hok0) _ _ Ec).
Qed.

Lemma authorize_rg (Q : result AuthorizationEvidence → World → Prop) w : world_ok w →
  (∀ e w', later w w' → world_ok w' → since w w' (Granted q e) → validate_AuthorizationEvidence e = Ok () → Q (Ok e) w') →
  (∀ e w', e ∈ retrieval_errors → Q (Raise e) w') → guarded (authorize_request q) Q w.
Proof.
  intros Hok HOk HRaise. unfold authorize_request. apply rg_try. apply adapter_rg; [done|done|].
  intros w0 r w1 L Hok0 Hh L1 Hok1. destruct Hh as [(a & x & -> & Hx & ->)|(_ & exc & -> & ->)].
  - cbn in Hx. case_bool_decide; [|done]. injection Hx as <-. apply HOk; [by trans w0|done| |done]. by eapply since_intro.
  - cbn. apply HRaise. listed.
Qed.

Lemma clock_rg (Q : result Z → World → Prop) w : world_ok w →
  (∀ now w', later w w' → world_ok w' → since w w' (TimeRead now) → Q (Ok now) w') → guarded (adapter Clock) Q w.
Proof.
  intros Hok HOk. apply adapter_rg; [done|done|]. intros w0 r w1 L Hok0 Hh L1 Hok1.
  destruct Hh as [(a & x & -> & [= <-] & ->)|(? & _)]; [|done]. apply HOk; [by trans w0|done|]. by eapply since_intro.
Qed.

Lemma search_rg e (Q : result (list EngineCandidate) → World → Prop) w : world_ok w → authorized w q e → ae_allowed_chunks e ≠ [] →
  (∀ cs w', later w w' → world_ok w' → Searched q e cs ∈ w_log w' → Forall (λ c, validate_EngineCandidate c = Ok ()) cs → Q (Ok cs) w') →
  (∀ e w', e ∈ retrieval_errors → Q (Raise e) w') → guarded (search_engine q e) Q w.
Proof.
  intros Hok Ha Hne HOk HRaise. unfold search_engine. apply rg_try. apply adapter_rg; [done| |].
  { intros w0 L Hok0. split; [|done]. eapply authorized_later; [exact L|apply Hok|done]. }
  intros w0 r w1 L Hok0 Hh L1 Hok1. destruct Hh as [(a & x & -> & Hx & ->)|(_ & exc & -> & ->)].
  - cbn in Hx. destruct (forallb _ _) eqn:Ef; [|done]. injection Hx as <-. apply HOk; [by trans w0|done| |].
    + cbn. set_solver.
    + rewrite forallb_forall in Ef. apply Forall_forall. intros c Hc. apply list_elem_of_In in Hc. by apply Ef, bool_decide_eq_true in Hc.
  - cbn. apply HRaise. listed.
Qed.

Lemma cache_result_rg res (Q : result () → World → Prop) w : world_ok w → produced w res →
  (∀ w', later w w' → world_ok w' → Q (Ok ()) w') → (∀ e w', e ∈ retrieval_errors → Q (Raise e) w') →
  guarded (cache_result has_cache res) Q w.
Proof.
  intros Hok Hp HOk HRaise. unfold cache_result. destruct has_cache; [|apply rg_ret; by apply HOk].
  apply rg_try. apply adapter_rg; [done|intros w0 L _; eapply produced_later; [exact L|apply Hok|done]|].
  intros w0 r w1 L Hok0 _ L1 Hok1. destruct r as [[]|e]; [apply HOk; [by trans w0|done]|]. cbn. apply HRaise. listed.
Qed.

Lemma domain_errors x : x ∈ retrieval_errors → isinstance x "RetrievalDomainError" = true.
Proof.
  intros H. assert (Forall (λ x, isinstance x "RetrievalDomainError" = true) retrieval_errors) as HF by by_compute.
  rewrite Forall_forall in HF. by apply HF.
Qed.

Lemma validate_cached_raise res e cur now x : validate_cached res q e cur now = Raise x → isinstance x "RetrievalDomainError" = true.
Proof.
  intros H. unfold validate_cached in H. raised; [done..|]. by apply domain_errors, evidence_listed, (validate_evidence_raise _ _ _ _ _ H).
Qed.

Lemma read_cache_rg e cur now (Q : result (option RetrievalResult) → World → Prop) w : world_ok w → authorized w q e →
  known w q (gr_manifest cur) →
  (∀ w', later w w' → world_ok w' → Q (Ok None) w') →
  (∀ res w', later w w' → world_ok w' → rr_request res = q → evidence_digest (rr_authorization res) = evidence_digest e →
     accepted q (rr_authorization res) now → bound_generation w' q (rr_authorization res) (gr_manifest cur) → produced w' res →
     Q (Ok (Some res)) w') →
  guarded (read_cache has_cache q e cur now) Q w.
Proof.
  intros Hok Ha Hk HNone HSome. unfold read_cache. destruct has_cache; [|apply rg_ret; by apply HNone].
  apply rg_bind. apply adapter_rg; [done| |].
  { intros w0 L Hok0. exists q, e. split; [done|]. eapply authorized_later; [exact L|apply Hok|done]. }
  intros w0 r w1 L Hok0 Hh L1 Hok1. unfold handle in Hh. cbn in Hh. unfold on_cache, cache_get, gets in Hh.
  injection Hh as <- <-. rewrite world_eta in Hok1, L1 |- *.
  destruct (ca_items (w_cache w0) !! request_digest q) as [res|] eqn:Er; [|by apply HNone].
  pose proof (ok_produced _ Hok0 _ _ Er) as Hp.
  destruct (validate_cached res q e cur now) as [[]|x] eqn:Ev.
  - unfold validate_cached in Ev. guards.
    assert (known w0 q (gr_manifest cur)) as Hk0 by (eapply known_later; [exact L|apply Hok|exact Hk]).
    destruct (validate_evidence_ok _ _ _ _ w0 Ev Hk0) as [Hacc Hb].
    apply rg_ret. apply (HSome res w0 L Hok0); assumption.
  - rewrite (validate_cached_raise _ _ _ _ _ Ev). apply rg_bind. apply adapter_rg; [done| |].
    + intros w2 L2 _. exists q, e. split; [done|]. eapply authorized_later; [|apply Hok|exact Ha]. by trans w0.
    + intros w2 r2 w3 L2 Hok2 Hh2 L3 Hok3. unfold handle in Hh2. cbn in Hh2. unfold on_cache, cache_delete, modify in Hh2.
      injection Hh2 as <- E3. cbn. apply HNone; [|done]. trans w0; [done|]. by trans w2.
Qed.

Lemma return_result_rg e now m cs (Q : result RetrievalResult → World → Prop) w : world_ok w →
  authorized w q e → accepted q e now → bound_generation w q e m →
  (cs = [] ∧ ae_allowed_chunks e = [] ∨ ∃ l, Searched q e l ∈ w_log w ∧ verified q e l ∧ cs = ranked (rq_limit q) l) →
  (∀ w', later w w' → world_ok w' → produced w' (mkResult q e (hits_of e 1 cs)) → Q (Ok (mkResult q e (hits_of e 1 cs))) w') →
  (∀ x w', x ∈ retrieval_errors → Q (Raise x) w') → guarded (return_result has_cache q e (hits_of e 1 cs)) Q w.
Proof.
  intros Hok Ha Hacc Hb Hcs HOk HRaise. unfold return_result.
  assert (Forall (shown q e) cs ∧ NoDup (candidate_key <$> cs) ∧ Z.of_nat (length cs) ≤ rq_limit q) as (Hs & Hn & Hl).
  { pose proof (request_limit _ Hq). destruct Hcs as [[-> _]|(l & _ & Hv & ->)]; [split_and!; [done|constructor|cbn; lia]|].
    destruct (verified_facts _ _ _ Hv) as (_ & Hs & [_ Hn]). split_and!; [|by apply ranked_keys|].
    - rewrite Forall_forall in Hs |- *. intros c Hc%ranked_subset. by apply Hs.
    - pose proof (ranked_length (rq_limit q) l). lia. }
  pose proof (result_valid q e now cs Hq (proj1 (proj2 Ha)) Hacc Hs Hn Hl) as Hv.
  assert (produced w (mkResult q e (hits_of e 1 cs))) as Hp.
  { split; [done|]. split; [done|]. cbn. destruct Hcs as [[-> ?]|(l & ? & ? & ->)]; [by left|right]. by exists l. }
  assert (construct validate_RetrievalResult (mkResult q e (hits_of e 1 cs)) = Ok (mkResult q e (hits_of e 1 cs))) as ->
    by (by apply construct_ok).
  apply rg_bind. cbn. apply rg_bind. apply cache_result_rg; [done|done| |done].
  intros w' L Hok'. apply rg_ret, HOk; [done|done|]. eapply produced_later; [exact L|apply Hok|done].
Qed.

(** [retrieve] only makes calls that are allowed, returns only what [served]
    says and raises only the errors listed. *)
Lemma retrieve_rg w : world_ok w →
  guarded (retrieve has_cache q) (λ r w', match r with Ok res => served w q w' res | Raise x => x ∈ retrieval_errors end) w.
Proof.
  intros Hok. unfold retrieve. apply rg_bind, require_current_rg; [done| |done]. intros cur w1 L1 Hok1 Hk1.
  apply rg_bind, clock_rg; [done|]. intros now w2 L2 Hok2 Hnow.
  apply rg_bind, authorize_rg; [done| |done]. intros e w3 L3 Hok3 Hg He.
  assert (known w3 q (gr_manifest cur)) as Hk3.
  { eapply (known_later w2); [done|apply Hok2|]. eapply (known_later w1); [done|apply Hok1|done]. }
  apply rg_bind, result_rg. destruct (validate_evidence q cur e now) as [[]|x] eqn:Ev; cbv beta match; [|by eapply evidence_listed, validate_evidence_raise].
  destruct (validate_evidence_ok _ _ _ _ w3 Ev Hk3) as [Hacc Hb].
  assert (since w w3 (TimeRead now)) as Hnow3.
  { eapply since_later; [|exact L3]. destruct Hnow as (l & E & ?), L1 as [_ [l' E'] _]. exists (l' ++ l).
    rewrite E, E', app_assoc. split; [done|set_solver]. }
  assert (since w w3 (Granted q e)) as Hg3.
  { destruct Hg as (l & E & ?). assert (later w w2) as [_ [l' E'] _] by (by trans w1). exists (l' ++ l).
    rewrite E, E', app_assoc. split; [done|set_solver]. }
  assert (authorized w3 q e) as Ha.
  { split; [by eapply since_log|]. split; [done|]. split; [exists now; split; [by eapply since_log|done]|by eexists]. }
  apply rg_bind, (read_cache_rg e cur now); [done..| |].
  - intros w4 L4 Hok4. assert (∀ w' cs, later w4 w' → world_ok w' → produced w' (mkResult q e (hits_of e 1 cs)) →
      served w q w' (mkResult q e (hits_of e 1 cs))) as Hserved.
    { intros w' cs L Hok' Hp. assert (later w3 w') by (by trans w4). split; [done| |done]. exists e, now, (gr_manifest cur).
      split_and!; try done; [by eapply since_later..|]. eapply bound_generation_later; [|apply Hok3|done]. done. }
    assert (authorized w4 q e) as Ha4 by (eapply authorized_later; [exact L4|apply Hok3|done]).
    assert (bound_generation w4 q e (gr_manifest cur)) as Hb4 by (eapply bound_generation_later; [exact L4|apply Hok3|done]).
    case_bool_decide as Hempty.
    + apply (return_result_rg e now (gr_manifest cur) []); try done; [by left|]. intros w' L Hok' Hp. by apply Hserved.
    + cbv match. apply rg_bind, search_rg; [done..| |done]. intros cs w5 L5 Hok5 Hs Hv.
      apply rg_bind, result_rg. destruct (verify_candidates q e cs) as [cs'|x] eqn:Ec; cbv beta match;
        [|by eapply candidate_listed, verify_candidates_raise].
      assert (cs' = cs) as -> by (unfold verify_candidates in Ec; by guards).
      assert (verified q e cs) as Hver by done. pose proof (request_limit _ Hq). pose proof (ranked_length (rq_limit q) cs).
      rewrite build_hits_ok; [| |lia|lia]. 2:{ rewrite Forall_forall in Hv |- *. intros c Hc%ranked_subset. by apply Hv. }
      apply rg_bind, result_rg. cbv beta match.
      apply (return_result_rg e now (gr_manifest cur) (ranked (rq_limit q) cs)); try done.
      * eapply authorized_later; [exact L5|apply Hok4|done].
      * eapply bound_generation_later; [exact L5|apply Hok4|done].
      * right. by exists cs.
      * intros w' L Hok' Hp. apply Hserved; [by trans w5|done|done].
  - intros res w4 L4 Hok4 Hr Hd Hacc' Hb' Hp. apply rg_ret. split; [done| |done]. exists e, now, (gr_manifest cur).
    split_and!; try done; by eapply since_later.
Qed.
End programs.
