(* ===== verification/RetrievalLifecycle.v ===== *)
(** The lifecycle of generations among concurrent calls, and the theorems on
    governed retrieval as a whole.

    The programs of [GenerationLifecycle] are proved against the rely/guarantee
    conditions of [RetrievalSafety]; a pool of retrievers and lifecycle calls
    then keeps them together. *)
From S2P Require Export RetrievalSafety.
From S2P Require Import Sha256.
From Stdlib Require Import Lia.
Local Open Scope Z_scope.

Notation guarded := (rg handle later allowed).

(** * Cleanup *)

(** The generation was deleted on a complete checkpoint that the engine answered
    for this very generation since [w]. *)
Definition proven_deleted (w w' : World) (m : GenerationManifest) (r : GenerationRecord) : Prop :=
  ∃ c, r = mkGeneration m Deleted (Some c) ∧ cg_records (w_catalog w') !! key_of m = Some r ∧
       since w w' (Cleaned m (Checkpoint c)) ∧ cc_complete c = true ∧ checkpoint_of m c.

Notation inactive m w := (registered w m (λ r, gr_state r ≠ Active)).
Lemma check_rg b e (Q : result () → World → Prop) w : (b = false → Q (Ok ()) w) → Q (Raise e) w → guarded (raise_if b e) Q w.
Proof. intros HOk HRaise. destruct b; [done|]. by apply HOk. Qed.

(** A call that may always be made *)
Lemma free_rg (o : retrieval_op) (Q : result (retrieval_resp o) → World → Prop) w : world_ok w → (∀ w0, allowed o w0) →
  (∀ r w', later w w' → world_ok w' → Q r w') → guarded (adapter o) Q w.
Proof.
  intros Hok Ha HQ. apply adapter_rg; [done|auto|]. intros w0 r w1 L _ _ L1 Hok1. apply HQ; [by trans w0|done].
Qed.

Lemma prepare_cleanup_rg m (Q : result () → World → Prop) w : world_ok w →
  (∀ w', later w w' → world_ok w' → inactive m w' → Q (Ok ()) w') → (∀ e w', Q (Raise e) w') → guarded (prepare_cleanup m) Q w.
Proof.
  intros Hok HOk HRaise. unfold prepare_cleanup. apply rg_bind, adapter_rg; [done|done|].
  intros w0 r w1 L Hok0 Hh L1 Hok1. unfold handle in Hh. cbn in Hh. unfold on_catalog, get, gets in Hh.
  injection Hh as <- <-. rewrite world_eta in *.
  destruct (cg_records (w_catalog w0) !! _) as [r|] eqn:Er; [|by apply HRaise].
  apply rg_bind, check_rg; [|done]. intros Em. guards.
  case_bool_decide as Ha.
  - apply rg_bind, adapter_rg; [done|done|]. intros w2 r2 w3 L2 Hok2 Hh2 L3 Hok3. unfold handle in Hh2. cbn in Hh2.
    unfold on_catalog in Hh2. destruct (retire m (w_catalog w2)) as [x s] eqn:Ex. injection Hh2 as <- <-.
    destruct x as [x|x]; [|by apply HRaise]. apply rg_ret, HOk; [trans w0; [done|by trans w2]|done|].
    apply retire_ok in Ex as (Hx & Hm & Hst). exists x. split; [done|]. split; [done|]. by rewrite Hst.
  - apply check_rg; [|done]. intros Es. guards. apply HOk; [done|done|].
    exists r. split; [done|]. split; [done|]. by apply cleanup_state.
Qed.

Lemma record_cleanup_failure_rg m a (Q : result GenerationRecord → World → Prop) w : world_ok w →
  (∀ e w', Q (Raise e) w') → guarded (record_cleanup_failure m a) Q w.
Proof.
  intros Hok HRaise. unfold record_cleanup_failure. apply rg_bind, rg_try, free_rg; [done|done|].
  intros [r|e] w' _ _; by apply HRaise.
Qed.

Lemma cleanup_handler_rg m a e (Q : result GenerationRecord → World → Prop) w : world_ok w →
  (∀ e w', Q (Raise e) w') → guarded (cleanup_handler m a e) Q w.
Proof.
  intros Hok HRaise. unfold cleanup_handler. case_match; [by apply HRaise|]. by apply record_cleanup_failure_rg.
Qed.

Lemma validate_cleanup_checkpoint_rg m a (Q : result CleanupCheckpoint → World → Prop) w : world_ok w →
  (∀ c, a = Checkpoint c → cc_complete c = true → cc_expected_vectors c = gm_expected_chunks m → Q (Ok c) w) →
  (∀ e w', world_ok w' → Q (Raise e) w') → guarded (validate_cleanup_checkpoint m a) Q w.
Proof.
  intros Hok HOk HRaise. unfold validate_cleanup_checkpoint.
  assert (∀ a' (x : pyexn), guarded (adapter (CatalogFailCleanup m a') ≫= λ _, mthrow x) Q w) as Hfail.
  { intros a' x. apply rg_bind, free_rg; [done|done|]. intros [r|e] w' _ Hok'; by apply HRaise. }
  destruct a as [c| |]; [|apply Hfail..]. destruct (negb _) eqn:Ee; [apply Hfail|].
  destruct (negb (cc_complete c)) eqn:Ec; [apply Hfail|]. guards. by apply rg_ret, HOk.
Qed.

Definition deleted_since (m : GenerationManifest) (w : World) (r : result GenerationRecord) (w' : World) : Prop :=
  match r with Ok x => proven_deleted w w' m x ∧ world_ok w' ∧ later w w' | Raise _ => True end.

Lemma cleanup_vectors_rg m w : world_ok w → inactive m w → guarded (cleanup_vectors m) (deleted_since m w) w.
Proof.
  intros Hok Hin. unfold cleanup_vectors.
  apply rg_bind, rg_try, rg_bind, adapter_rg; [done| |].
  { intros w0 L0 _. eapply registered_inactive_later; [exact L0|apply Hok|done]. }
  intros w2 r w3 L2 Hok2 Hh L3 Hok3. destruct r as [a|e]; cycle 1.
  { apply rg_bind, cleanup_handler_rg; done. }
  destruct Hh as [(a' & x & [= <-] & Hx & ->)|(_ & exc & ? & _)]; [|done]. cbn in Hx.
  destruct (match a with Checkpoint c => _ | _ => _ end); [|done]. injection Hx as <-.
  apply rg_ret. apply rg_try, rg_bind, validate_cleanup_checkpoint_rg; [done| |].
  2:{ intros e w' Hok'. by apply cleanup_handler_rg. }
  intros c -> Hc Hn. apply adapter_rg; [done| |].
  { intros w0 L0 _. split; [|done]. eapply log_later; [exact L0|]. cbn. set_solver. }
  intros w4 r w5 L4 Hok4 Hh L5 Hok5. destruct r as [x|e]; [|by apply cleanup_handler_rg].
  unfold handle in Hh. cbn in Hh. unfold on_catalog in Hh. destruct (finish_cleanup m c (w_catalog w4)) as [y s] eqn:Ey.
  injection Hh as -> <-. apply finish_cleanup_ok in Ey as (-> & Hr & _ & Hof). split; [|split; [done|]].
  2:{ trans w2; [done|]. trans (logged (Cleaned m (Checkpoint c)) w2); [done|]. by trans w4. }
  exists c. split_and!; try done. eapply since_later; [|by trans w4]. by eapply since_intro.
Qed.

Lemma since_weaken w w0 w' e : later w w0 → since w0 w' e → since w w' e.
Proof. intros [_ [l E] _] (l' & E' & He). exists (l ++ l'). rewrite E', E, app_assoc. split; [done|set_solver]. Qed.
Lemma proven_deleted_weaken w w0 w' m r : later w w0 → proven_deleted w0 w' m r → proven_deleted w w' m r.
Proof. intros L (c & -> & Hr & Hs & Hrest). exists c. split_and!; try done; [by eapply since_weaken|by destruct Hrest..]. Qed.

Lemma cleanup_generation_rg m w : world_ok w → guarded (cleanup m) (deleted_since m w) w.
Proof.
  intros Hok. unfold cleanup. apply rg_bind, prepare_cleanup_rg; [done| |done]. intros w1 L1 Hok1 Hin.
  eapply rg_mono; [|by apply cleanup_vectors_rg]. intros [x|e] w'; [|done]. intros (Hd & Hok' & L').
  split; [by eapply proven_deleted_weaken|]. split; [done|by trans w1].
Qed.

Lemma publish_rg m e w : world_ok w →
  guarded (lifecycle_publish m e) (λ r w', match r with Ok x => registered w' m (λ _, True) ∧ gr_manifest x = m ∧ world_ok w' ∧ later w w' | Raise _ => True end) w.
Proof.
  intros Hok. unfold lifecycle_publish. apply adapter_rg; [done|done|]. intros w0 r w1 L Hok0 Hh L1 Hok1.
  destruct r as [x|]; [|done]. unfold handle in Hh. cbn in Hh. unfold on_catalog in Hh.
  destruct (publish m e (w_catalog w0)) as [y s] eqn:Ey. injection Hh as -> <-.
  apply catalog_publish_ok in Ey as (Hm & _ & Hr & _). split; [by exists x|]. split; [done|]. split; [done|by trans w0].
Qed.

Lemma registered_later w w' m : later w w' → catalog_ok (w_catalog w) → registered w m (λ _, True) → registered w' m (λ _, True).
Proof.
  intros L Hok (r & Hr & Hm & _). destruct (later_records w w' m r L Hok Hr) as (r' & Hr' & Hp). exists r'.
  by rewrite (gen_path_manifest _ _ Hp).
Qed.

(** What [reembed] claims by returning *)
Record replaced (w : World) (old new : GenerationManifest) (w' : World) (r : GenerationRecord) : Prop := {
  rep_manifest : gr_manifest r = new;
  rep_registered : registered w' new (λ _, True);
  rep_deleted : ∃ x, proven_deleted w w' old x }.

Lemma reembed_rg old new w : world_ok w →
  guarded (reembed old new) (λ r w', match r with Ok x => replaced w old new w' x | Raise _ => True end) w.
Proof.
  intros Hok. unfold reembed. apply rg_bind, check_rg; [|done]. intros _.
  apply rg_bind, free_rg; [done|done|]. intros [cur|e] w1 L1 Hok1; [|done].
  apply rg_bind, check_rg; [|done]. intros _.
  apply rg_bind. eapply rg_mono; [|by apply publish_rg]. intros [x|e] w2; [|done]. intros (Hreg & Hm & Hok2 & L2).
  apply rg_bind, free_rg; [done|done|]. intros [y|e] w3 L3 Hok3; [|done].
  apply rg_bind. eapply rg_mono; [|apply cleanup_generation_rg; exact Hok3].
  intros [z|e] w4; [|done]. intros (Hz & Hok4 & L4). apply rg_ret. split; [done| |].
  - eapply registered_later; [|apply Hok2|exact Hreg]. by trans w3.
  - exists z. eapply proven_deleted_weaken; [|done]. trans w1; [done|]. by trans w2.
Qed.

(** * Pools of calls *)
Definition admissible (p : proc ()) : Prop :=
  (∃ has_cache q, validate_RetrievalRequest q = Ok () ∧ p = (_ ← retrieve has_cache q; mret ())) ∨
  (∃ m e, p = (_ ← lifecycle_publish m e; mret ())) ∨
  (∃ m, p = (_ ← cleanup m; mret ())) ∨
  (∃ old new, p = (_ ← reembed old new; mret ())).

Definition pool_steps : relation (pool (resp := retrieval_resp) (W := World) (A := ())) := rtc (pool_step handle admissible).

(** An empty catalog and an empty cache of [n] entries *)
Definition initial (n : Z) (w : World) : Prop := ∃ cache, new_cache n = Ok cache ∧ w = mkWorld new_catalog cache [].

Lemma initial_ok n w : initial n w → world_ok w.
Proof.
  intros (cache & Hc & ->). pose proof (new_cache_ok _ _ Hc) as [H _]. split; cbn; [apply new_catalog_ok|done| |].
  - unfold new_cache in Hc. guards. subst. intros k r. cbn. by rewrite lookup_empty.
  - intros k m c. by rewrite lookup_empty.
Qed.

Lemma ignore_rg {A} (p : proc A) (Q : result A → World → Prop) w : guarded p Q w → guarded (_ ← p; mret ()) anything w.
Proof. intros H. apply rg_bind. eapply rg_mono; [|exact H]. by intros [a|e]. Qed.

Lemma admissible_rg p w : admissible p → world_ok w → guarded p anything w.
Proof.
  intros [(hc & q & Hq & ->)|[(m & e & ->)|[(m & ->)|(old & new & ->)]]] Hok; eapply ignore_rg.
  - by apply retrieve_rg.
  - by apply publish_rg.
  - by apply cleanup_generation_rg.
  - by apply reembed_rg.
Qed.

Lemma pool_safe_steps c c' : pool_steps c c' → world_ok c.2 → pool_safe handle later allowed c →
  world_ok c'.2 ∧ pool_safe handle later allowed c' ∧ later c.2 c'.2.
Proof.
  intros Hs Hok Hsafe.
  destruct (pool_steps_safe handle later allowed admissible world_ok (λ w w' L, later_ok w w' L) (λ p w, admissible_rg p w) _ _ Hs (conj Hok Hsafe))
    as [[? ?] ?]. done.
Qed.

Lemma pool_reachable n w c : initial n w → pool_steps ([], w) c → world_ok c.2 ∧ pool_safe handle later allowed c ∧ later w c.2.
Proof. intros Hi Hs. apply (pool_safe_steps _ _ Hs); [by eapply initial_ok|constructor]. Qed.

(** ** The hits of what was produced *)
Lemma hits_of_shown q e rank cs : Forall (shown q e) cs →
  Forall (λ h, rh_index_ref h = rq_index_ref q ∧ chunk_key (rh_chunk h) ∈ chunk_key <$> ae_allowed_chunks e) (hits_of e rank cs).
Proof.
  intros Hs. revert rank. induction Hs as [|c cs [Hi Ha] _ IH]; intros rank; cbn; [constructor|]. constructor; [|done].
  cbn. split; [done|]. by apply bool_decide_eq_true in Ha.
Qed.

Lemma produced_hits w res q : rr_request res = q → produced w res →
  Forall (λ h, rh_index_ref h = rq_index_ref q ∧ chunk_key (rh_chunk h) ∈ chunk_key <$> ae_allowed_chunks (rr_authorization res)) (rr_hits res).
Proof.
  intros <- (_ & _ & [[_ ->]|(cs & _ & Hv & ->)]); [constructor|]. apply hits_of_shown.
  apply verified_facts in Hv as (_ & Hs & _). rewrite Forall_forall in Hs |- *. intros c Hc%ranked_subset. by apply Hs.
Qed.

(** * Theorems *)

(** C5: whatever other calls do meanwhile and whatever the authority, the clock
    and the engine answer, a result that [retrieve] returns is for this very
    request; during the call the authority granted evidence for it, within whose
    window the clock was read; the result carries that evidence (or evidence with
    the same digest, up to a SHA-256 collision), which the same reading accepts and
    which is bound to a generation of the catalog; and its hits, all on chunk keys
    that this evidence allows and in this index, are the ranking of what one engine
    search under this evidence returned. *)
Theorem retrieve_authorized q has_cache w w' res :
  validate_RetrievalRequest q = Ok () → world_ok w →
  interleaved handle later (retrieve has_cache q) w (Ok res) w' →
  let shown_evidence := rr_authorization res in
  rr_request res = q ∧
  (∃ granted now, since w w' (Granted q granted) ∧ since w w' (TimeRead now) ∧ accepted q granted now ∧
     accepted q shown_evidence now ∧
     (shown_evidence = granted ∨
      sha256_collision (payload (AuthorizationEvidence_json shown_evidence)) (payload (AuthorizationEvidence_json granted)))) ∧
  (∃ m, bound_generation w' q shown_evidence m) ∧
  Forall (λ h, rh_index_ref h = rq_index_ref q ∧ chunk_key (rh_chunk h) ∈ chunk_key <$> ae_allowed_chunks shown_evidence) (rr_hits res) ∧
  ((ae_allowed_chunks shown_evidence = [] ∧ rr_hits res = []) ∨
   ∃ candidates, Searched q shown_evidence candidates ∈ w_log w' ∧ rankable candidates ∧
     rr_hits res = hits_of shown_evidence 1 (ranked (rq_limit q) candidates)).
Proof.
  intros Hq Hok Hi. apply (rg_interleaved _ _ _ _ _ _ _ _ (retrieve_rg q has_cache Hq w Hok)) in Hi as [Hr Hn Hp].
  destruct Hn as (e & now & m & Hg & Ht & Ha & Hd & Ha' & Hb). cbn zeta. split; [done|]. split_and!.
  - exists e, now. split_and!; try assumption. by apply (digest_binds AuthorizationEvidence_json).
  - by exists m.
  - by apply (produced_hits w').
  - destruct Hp as (_ & _ & Hp). rewrite Hr in Hp. destruct Hp as [?|(cs & Hs & Hv & E)]; [by left|right].
    exists cs. split; [done|]. split; [|done]. by apply (verified_facts q (rr_authorization res)).
Qed.

(** C26: [retrieve] on a valid request raises only the coded domain errors listed
    in [retrieval_errors], whatever happens meanwhile: every failure of the
    authority, the engine or the cache is turned into one of them, and building
    hits and result never fails. *)
Theorem retrieve_fails_closed q has_cache w w' x :
  validate_RetrievalRequest q = Ok () → world_ok w →
  interleaved handle later (retrieve has_cache q) w (Raise x) w' →
  x ∈ retrieval_errors ∧ isinstance x "RetrievalDomainError" = true.
Proof.
  intros Hq Hok Hi. apply (rg_interleaved _ _ _ _ _ _ _ _ (retrieve_rg q has_cache Hq w Hok)) in Hi.
  split; [exact Hi|exact (domain_errors x Hi)].
Qed.

(** C11: in any interleaving of retrievals, publications, cleanups and
    re-embeddings, with failures and crashes anywhere, a cached entry is always
    stored under the digest of its request, was produced under evidence that the
    authority granted for that request within its window, and the cache stays
    within its capacity; and every call that is about to be made is allowed: the
    cache is read and written and the engine is asked only under such evidence,
    the vectors of a generation are deleted only when it is not active, and
    a deletion is recorded only on the engine's complete checkpoint. *)
Theorem retrieval_calls_safe n w c : initial n w → pool_steps ([], w) c →
  (∀ d res, ca_items (w_cache c.2) !! d = Some res → d = request_digest (rr_request res) ∧ produced c.2 res) ∧
  Z.of_nat (size (ca_items (w_cache c.2))) ≤ ca_max_entries (w_cache c.2) ∧
  ∀ o k, Call o k ∈ c.1 → allowed o c.2.
Proof.
  intros Hi Hs. destruct (pool_reachable _ _ _ Hi Hs) as ([_ [He Hn] Hp _] & Hsafe & _).
  split; [intros d res Hd; split; [by apply He|by eapply Hp]|]. split; [done|].
  intros o k. by apply (pool_call_allowed handle later allowed).
Qed.

(** C12: in any such interleaving a generation moves only from active to retiring,
    over failed cleanups, to deleted, and its manifest never changes; the current
    generation of a graph is active; and a deleted generation has a complete
    checkpoint, of its own index and expected count, that the engine answered. *)
Theorem generation_lifecycle n w c c' : initial n w → pool_steps ([], w) c → pool_steps c c' →
  (∀ k r, cg_records (w_catalog c.2) !! k = Some r →
     ∃ r', cg_records (w_catalog c'.2) !! k = Some r' ∧ gr_manifest r' = gr_manifest r ∧ gen_path r r') ∧
  (∀ t g i, cg_current (w_catalog c'.2) !! (t, g) = Some i →
     ∃ r, cg_records (w_catalog c'.2) !! (t, g, i) = Some r ∧ gr_state r = Active) ∧
  (∀ k r, cg_records (w_catalog c'.2) !! k = Some r → k = key_of (gr_manifest r) ∧ (gr_state r = Deleted →
     ∃ x, gr_cleanup_checkpoint r = Some x ∧ cc_complete x = true ∧ checkpoint_of (gr_manifest r) x ∧
          Cleaned (gr_manifest r) (Checkpoint x) ∈ w_log c'.2)).
Proof.
  intros Hi Hs Hs'. destruct (pool_reachable _ _ _ Hi Hs) as (Hok & Hsafe & _).
  destruct (pool_safe_steps _ _ Hs' Hok Hsafe) as (Hok' & _ & L). split_and!.
  - intros k r Hr. destruct (later_catalog _ _ L (ok_catalog _ Hok)) as [_ R]. destruct (R k r Hr) as (r' & Hr' & Hp).
    exists r'. split; [done|]. split; [by apply gen_path_manifest|done].
  - apply (ok_current _ (ok_catalog _ Hok')).
  - intros k r Hr. split; [by eapply ok_key; [apply Hok'|]|]. intros Hd. pose proof (ok_evidence _ (ok_catalog _ Hok') _ _ Hr) as He.
    destruct r as [m st [x|]]; cbn in Hd; subst st; [|done]. destruct He as [Hx Hof]. exists x. split_and!; try done.
    by apply (ok_deleted _ Hok' k).
Qed.

(** C21: [reembed] returns only when it replaced the old generation: whatever
    other calls do meanwhile, the record it returns is the new generation's, which
    the catalog holds, and the old generation is deleted, on a complete checkpoint
    of its own index and expected count that the engine answered during the call. *)
Theorem reembed_claims_proven old new w w' r : world_ok w →
  interleaved handle later (reembed old new) w (Ok r) w' →
  gr_manifest r = new ∧ (∃ x, cg_records (w_catalog w') !! key_of new = Some x ∧ gr_manifest x = new) ∧
  ∃ c, cg_records (w_catalog w') !! key_of old = Some (mkGeneration old Deleted (Some c)) ∧
       since w w' (Cleaned old (Checkpoint c)) ∧ cc_complete c = true ∧ checkpoint_of old c.
Proof.
  intros Hok Hi. apply (rg_interleaved _ _ _ _ _ _ _ _ (reembed_rg old new w Hok)) in Hi as [Hm (x & Hx & Hx' & _) (y & c & -> & H)].
  split; [done|]. split; [by exists x|]. by exists c.
Qed.
