(* ===== verification/RetrievalRuns.v ===== *)
(** What governed retrieval returns when its adapters work.

    [outside_exec] answers every call: the repository's own catalog and cache, and
    given answers of the clock, the authority and the engine. [attempts] runs
    cleanups of one generation one after the other, whatever the engine answers to
    each. *)
From S2P Require Export RetrievalLifecycle.
From Stdlib Require Import Lia.
Local Open Scope Z_scope.

(** * Sequential runs *)

(** Calls one after another, with the given answers of the outside *)
Record answers := mkAnswers {
  an_now : Z; an_evidence : result AuthorizationEvidence; an_candidates : result (list EngineCandidate); an_cleanup : result cleanup_answer }.

Definition answered {A} (f : A → event) (r : result A) : M World A :=
  λ w, match r with Ok a => (Ok a, logged (f a) w) | Raise e => (Raise e, w) end.
Definition outside_exec (an : answers) (o : retrieval_op) : M World (retrieval_resp o) :=
  match local_call o with
  | Some m => m
  | None =>
      match o return M World (retrieval_resp o) with
      | Clock => answered TimeRead (Ok (an_now an))
      | Authorize q => answered (Granted q) (an_evidence an)
      | Search q e => answered (Searched q e) (an_candidates an)
      | CleanupGeneration m => answered (Cleaned m) (an_cleanup an)
      | _ => mthrow (ValueError "")
      end
  end.

(** An engine that only cleans up *)
Definition unavailable : pyexn := PyExn ["ConnectionError"; "OSError"] "unavailable" "".
Definition engine_exec (answer : result cleanup_answer) : ∀ o, M World (retrieval_resp o) :=
  outside_exec (mkAnswers 0 (Raise unavailable) (Raise unavailable) answer).

Definition cleanup_attempt (m : GenerationManifest) (w : World) (answer : result cleanup_answer) : World :=
  (run (engine_exec answer) (cleanup m) w).2.
Definition attempts (m : GenerationManifest) (answers : list (result cleanup_answer)) (w : World) : World :=
  fold_left (cleanup_attempt m) answers w.

(** Answers of the declared classes, or exceptions *)
Definition proper_answer (answer : result cleanup_answer) : Prop :=
  match answer with Ok (Checkpoint c) => validate_CleanupCheckpoint c = Ok () | _ => True end.
Definition proper_answers (an : answers) : Prop :=
  (∀ e, an_evidence an = Ok e → validate_AuthorizationEvidence e = Ok ()) ∧
  (∀ cs, an_candidates an = Ok cs → Forall (λ c, validate_EngineCandidate c = Ok ()) cs) ∧ proper_answer (an_cleanup an).

Lemma outside_exec_handled an o w r w' : proper_answers an → outside_exec an o w = (r, w') → handle o w r w'.
Proof.
  intros (He & Hc & Ha). unfold outside_exec, handle. destruct (local_call o) eqn:E; [done|].
  destruct o; try discriminate E; [by destruct checkpoint|..]; unfold answered.
  - intros [= <- <-]. left. by exists (an_now an), (TimeRead (an_now an)).
  - destruct (an_evidence an) as [e|x] eqn:Ea; intros [= <- <-]; [|right; split; [done|]; by eexists].
    left. exists e, (Granted request e). cbn. rewrite bool_decide_true; [done|]. by apply He.
  - destruct (an_candidates an) as [cs|x]; intros [= <- <-]; [|right; split; [done|]; by eexists].
    left. exists cs, (Searched request authorization cs). split; [done|]. split; [|done]. unfold answer_event.
    rewrite (proj2 (forallb_forall _ _)); [done|]. intros c Hin%list_elem_of_In. apply bool_decide_true.
    pose proof (Hc cs eq_refl) as Hv. rewrite Forall_forall in Hv. by apply Hv.
  - destruct (an_cleanup an) as [a|x]; intros [= <- <-]; [|right; split; [done|]; by eexists].
    left. exists a, (Cleaned generation a). split; [done|]. split; [|done]. cbn. destruct a; cbn in Ha; try done.
    by rewrite bool_decide_true.
Qed.
Lemma engine_exec_handled answer o w r w' : proper_answer answer → engine_exec answer o w = (r, w') → handle o w r w'.
Proof. intros Ha. apply outside_exec_handled. by split. Qed.

Lemma guarded_run answer {A} (p : proc A) Q w r w' : proper_answer answer → guarded p Q w →
  run (engine_exec answer) p w = (r, w') → later w w' ∧ Q r w'.
Proof. intros Ha. apply rg_run_rely; [apply _|]. intros *. by apply engine_exec_handled. Qed.

(** The generation can still be cleaned up: it is not the current one. *)
Definition cleanable (m : GenerationManifest) (w : World) : Prop :=
  registered w m (λ r, gr_state r = Active → cg_current (w_catalog w) !! pointer_of m ≠ Some (gm_generation_id m)).

Lemma inactive_cleanable m w : inactive m w → cleanable m w.
Proof. intros (r & Hr & Hm & Hn). by exists r. Qed.

(** A cleanup of what can be cleaned up reaches the engine. *)
Lemma prepare_cleanup_run answer m w r : world_ok w → cg_records (w_catalog w) !! key_of m = Some r → gr_manifest r = m →
  (gr_state r = Active → cg_current (w_catalog w) !! pointer_of m ≠ Some (gm_generation_id m)) → gr_state r ≠ Deleted →
  ∃ w1 r1, run (engine_exec answer) (prepare_cleanup m) w = (Ok (), w1) ∧ w_log w1 = w_log w ∧
    cg_records (w_catalog w1) !! key_of m = Some r1 ∧ gr_manifest r1 = m ∧ gr_state r1 ∈ [Retiring; CleanupFailed].
Proof.
  intros Hok Hr Hm Hc Hd. unfold prepare_cleanup.
  rewrite (run_bind_ok _ _ _ w (Some r) w).
  2:{ refine (eq_trans (run_call (engine_exec answer) (CatalogGet _ _ _) w) _). unfold engine_exec, outside_exec. cbn [local_call]. unfold on_catalog, get, gets.
      change (gm_tenant_ref m, gm_graph_ref m, gm_generation_id m) with (key_of m). by rewrite Hr, world_eta. }
  rewrite (run_bind_ok _ _ _ w () w) by (by rewrite Hm, bool_decide_false by (intros []; done)).
  destruct (decide (gr_state r = Active)) as [Ha|Ha].
  - rewrite bool_decide_true by done. eexists _, (mkGeneration m Retiring None). split.
    + rewrite (run_bind_ok _ _ _ w (mkGeneration m Retiring None)
        (mkWorld (with_record (key_of m) (mkGeneration m Retiring None) (w_catalog w)) (w_cache w) (w_log w))); [done|].
      refine (eq_trans (run_call (engine_exec answer) (CatalogRetire _) w) _). unfold engine_exec, outside_exec. cbn [local_call]. unfold on_catalog. by rewrite (retire_run m _ r) by auto.
    + cbn. rewrite lookup_insert_eq. split_and!; try done. by left.
  - rewrite bool_decide_false by done. assert (gr_state r ∈ [Retiring; CleanupFailed]) as Hst.
    { rewrite !elem_of_cons. destruct (gr_state r); auto; done. }
    exists w, r. rewrite bool_decide_false by (by intros Hn). done.
Qed.

Lemma cleanup_attempt_later m w answer : world_ok w → proper_answer answer → later w (cleanup_attempt m w answer).
Proof.
  intros Hok Ha. unfold cleanup_attempt. destruct (run (engine_exec answer) (cleanup m) w) as [r w'] eqn:E. cbn.
  by apply (guarded_run answer _ _ _ _ _ Ha (cleanup_generation_rg m w Hok) E).
Qed.

(** An attempt, from the point where the engine is asked *)
Lemma cleanup_attempt_run m w answer r : world_ok w → proper_answer answer →
  cg_records (w_catalog w) !! key_of m = Some r → gr_manifest r = m → gr_state r ≠ Deleted →
  (gr_state r = Active → cg_current (w_catalog w) !! pointer_of m ≠ Some (gm_generation_id m)) →
  ∃ w1 r1, run (engine_exec answer) (cleanup m) w = run (engine_exec answer) (cleanup_vectors m) w1 ∧ world_ok w1 ∧
    cg_records (w_catalog w1) !! key_of m = Some r1 ∧ gr_manifest r1 = m ∧ gr_state r1 ∈ [Retiring; CleanupFailed].
Proof.
  intros Hok Ha Hr Hm Hd Hc. destruct (prepare_cleanup_run answer m w r) as (w1 & r1 & E & _ & Hr1 & Hm1 & Hst); [done..|].
  exists w1, r1. split; [unfold cleanup; by apply (run_bind_ok _ (λ _, cleanup_vectors m) _ _ ())|]. split; [|done].
  assert (guarded (prepare_cleanup m) (λ x w', match x with Ok _ => world_ok w' | _ => True end) w) as Hrg
    by (by apply prepare_cleanup_rg).
  by apply (guarded_run answer _ _ _ _ _ Ha Hrg E).
Qed.

Lemma cleanup_attempt_cleanable m w answer : world_ok w → proper_answer answer → cleanable m w → cleanable m (cleanup_attempt m w answer).
Proof.
  intros Hok Ha (r & Hr & Hm & Hc). destruct (decide (gr_state r = Deleted)) as [Hd|Hd].
  - pose proof (cleanup_attempt_later m w answer Hok Ha) as L.
    destruct (later_records _ _ m r L (ok_catalog _ Hok) Hr) as (r' & Hr' & Hp). exists r'.
    rewrite (gen_path_deleted _ _ Hp Hd) in *. split; [done|]. split; [done|]. by rewrite Hd.
  - destruct (cleanup_attempt_run m w answer r) as (w1 & r1 & E & Hok1 & Hr1 & Hm1 & Hst); [done..|].
    assert (inactive m w1) as Hin by (exists r1; split_and!; [done|done|by apply cleanup_state]).
    unfold cleanup_attempt. rewrite E. destruct (run _ (cleanup_vectors m) w1) as [x w'] eqn:E1. cbn.
    apply inactive_cleanable. eapply registered_inactive_later; [|apply Hok1|exact Hin].
    by apply (guarded_run answer _ _ _ _ _ Ha (cleanup_vectors_rg m w1 Hok1 Hin) E1).
Qed.

Lemma attempts_cleanable m answers w : world_ok w → Forall proper_answer answers → cleanable m w →
  world_ok (attempts m answers w) ∧ cleanable m (attempts m answers w).
Proof.
  intros Hok Ha. revert w Hok. unfold attempts. induction Ha as [|a answers Ha _ IH]; intros w Hok Hc; [done|]. cbn. apply IH.
  - by apply (later_ok _ _ (cleanup_attempt_later m w a Hok Ha)).
  - by apply cleanup_attempt_cleanable.
Qed.

(** With a complete checkpoint the [try] returns. *)
Lemma cleanup_vectors_run m w c r : cg_records (w_catalog w) !! key_of m = Some r → gr_manifest r = m → gr_state r ∈ [Retiring; CleanupFailed] →
  cc_complete c = true → checkpoint_of m c →
  ∃ w', run (engine_exec (Ok (Checkpoint c))) (cleanup_vectors m) w = (Ok (mkGeneration m Deleted (Some c)), w') ∧
    cg_records (w_catalog w') !! key_of m = Some (mkGeneration m Deleted (Some c)).
Proof.
  intros Hr Hm Hst Hc Hof. unfold cleanup_vectors.
  rewrite (run_bind_ok _ _ _ w (inr (Checkpoint c)) (logged (Cleaned m (Checkpoint c)) w)); [|by rewrite run_try].
  cbv match. rewrite run_try. unfold validate_cleanup_checkpoint. destruct Hof as (H1 & H2 & H3). rewrite H3, Z.eqb_refl, Hc. cbn [negb].
  change (mret c ≫= ?f) with (f c). cbv beta.
  assert (finish_cleanup m c (w_catalog (logged (Cleaned m (Checkpoint c)) w)) = _) as E by (by eapply finish_cleanup_run).
  set (w1 := logged (Cleaned m (Checkpoint c)) w) in *.
  set (w2 := mkWorld (with_record (key_of m) (mkGeneration m Deleted (Some c)) (w_catalog w1)) (w_cache w1) (w_log w1)).
  assert (run (engine_exec (Ok (Checkpoint c))) (adapter (CatalogFinishCleanup m c)) w1 = (Ok (mkGeneration m Deleted (Some c)), w2)) as ER.
  { refine (eq_trans (run_call (engine_exec _) (CatalogFinishCleanup m c) w1) _). unfold engine_exec, outside_exec. cbn [local_call].
    unfold on_catalog. by rewrite E. }
  exists w2. split; [exact (f_equal (λ p, match p with (Ok a, w') => (Ok a, w') | (Raise e, w') => run _ _ w' end) ER)|].
  cbn. by rewrite lookup_insert_eq.
Qed.

(** * A retrieval over working adapters *)

(** The request names the current generation, and the evidence fits both. *)
Record answerable (w : World) (q : RetrievalRequest) (now : Z) (e : AuthorizationEvidence) : Prop := {
  asw_current : ∃ cur, current_record (w_catalog w) (rq_tenant_ref q) (rq_graph_ref q) = Some cur ∧
    gr_state cur = Active ∧ gm_index_ref (gr_manifest cur) = rq_index_ref q ∧
    gm_generation_id (gr_manifest cur) = ix_generation_id (rq_index_ref q) ∧
    Forall (λ c, do_source_version (ch_document c) = gm_source_version (gr_manifest cur)) (ae_allowed_chunks e);
  asw_evidence : validate_AuthorizationEvidence e = Ok ();
  asw_accepted : accepted q e now }.

(** The candidates are the evidence's: valid rows of the requested index, each for
    a chunk the evidence names, of the very revision and content it names, no chunk
    twice, and within the bound. None is denied and none has drifted. *)
Record authentic (q : RetrievalRequest) (e : AuthorizationEvidence) (cs : list EngineCandidate) : Prop := {
  au_valid : Forall (λ c, validate_EngineCandidate c = Ok ()) cs;
  au_index : Forall (λ c, ec_index_ref c = rq_index_ref q) cs;
  au_chunk : Forall (λ c, ec_chunk c ∈ ae_allowed_chunks e) cs;
  au_once : NoDup (candidate_key <$> cs);
  au_bound : (length cs ≤ MAX_HITS)%nat }.

Lemma verify_fold_run q e cs seen : Forall (λ c, ec_index_ref c = rq_index_ref q) cs → Forall (λ c, ec_chunk c ∈ ae_allowed_chunks e) cs →
  NoDup (candidate_key <$> cs) → (∀ c, c ∈ cs → candidate_key c ∉ seen) → ∃ seen', for_fold (verify_candidate q e) cs seen = Ok seen'.
Proof.
  revert seen. induction cs as [|c cs IH]; intros seen Hi Hc Hn Hs; [by eexists|].
  apply Forall_cons in Hi as [Hi1 Hi], Hc as [Hc1 Hc]. apply NoDup_cons in Hn as [Hn1 Hn]. cbn [for_fold].
  assert (verify_candidate q e seen c = Ok (candidate_key c :: seen)) as ->.
  { unfold verify_candidate, allows. rewrite (bool_decide_eq_false_2 (ec_index_ref c ≠ _)) by (by intros []).
    rewrite (bool_decide_eq_true_2 (chunk_key (ec_chunk c) ∈ chunk_key <$> ae_allowed_chunks e))
      by (by apply list_elem_of_fmap_2).
    rewrite (bool_decide_eq_false_2 (chunk_key (ec_chunk c) ∈ seen)); [done|]. apply (Hs c). by left. }
  apply IH; [done..|]. intros d Hd [E|Hd']%elem_of_cons; [|by apply (Hs d); [right|]].
  apply Hn1. rewrite <- E. by apply list_elem_of_fmap_2.
Qed.

Lemma authentic_verified q e cs : authentic q e cs → verified q e cs.
Proof.
  intros [Hv Hi Hc Hn Hb]. split; [done|]. unfold verify_candidates. rewrite bool_decide_eq_false_2 by lia. cbn.
  destruct (verify_fold_run q e cs [] Hi Hc Hn) as (seen & ->); [|done]. intros c _. apply not_elem_of_nil.
Qed.

(** The result of a search *)
Definition result_of (q : RetrievalRequest) (e : AuthorizationEvidence) (cs : list EngineCandidate) : RetrievalResult :=
  mkResult q e (hits_of e 1 (if bool_decide (ae_allowed_chunks e = []) then [] else ranked (rq_limit q) cs)).

Definition with_cache (c : Cache) (w : World) : World := mkWorld (w_catalog w) c (w_log w).
(** The log with the entries [es] at its end *)
Definition with_log (es : list event) (w : World) : World := mkWorld (w_catalog w) (w_cache w) (w_log w ++ es).

Section answers.
Context (q : RetrievalRequest) (now : Z) (e : AuthorizationEvidence) (an : answers).
Context (Hq : validate_RetrievalRequest q = Ok ()) (Hnow : an_now an = now) (He : an_evidence an = Ok e).
Notation exec := (outside_exec an).

Lemma require_current_run w : catalog_ok (w_catalog w) → answerable w q now e →
  ∃ cur, run exec (require_current q) w = (Ok cur, w) ∧ validate_evidence q cur e now = Ok ().
Proof.
  intros Hok [(cur & Ec & Hst & Hi & Hg & Hv) Hev Ha]. exists cur.
  assert (gm_tenant_ref (gr_manifest cur) = rq_tenant_ref q ∧ gm_graph_ref (gr_manifest cur) = rq_graph_ref q) as [Ht Hgr].
  { unfold current_record in Ec. destruct (cg_current _ !! _) as [i|]; [|done].
    apply (ok_key _ Hok) in Ec. by injection Ec. }
  split.
  - unfold require_current. rewrite (run_bind_ok _ _ _ w (Some cur) w).
    + by rewrite Hst, Ht, Hgr, Hg, Hi, !bool_decide_false by (intros []; done).
    + refine (eq_trans (run_call exec (CatalogCurrent _ _) w) _). unfold outside_exec. cbn [local_call].
      unfold on_catalog, current, gets. by rewrite Ec, world_eta.
  - unfold validate_evidence. destruct Ha as [Hw Hr Ht' Hg' Hi'] eqn:EHa. clear EHa.
    rewrite Hr, Ht', Hg', Hi', (accepted_generation _ _ _ ltac:(by split) Hev), Hg, !bool_decide_false by (intros []; done).
    assert ((now <? ae_evaluated_at e) || (ae_expires_at e <=? now) = false) as -> by (apply orb_false_iff; lia).
    cbn. unfold check_evidence_chunks. apply for_each_ok. eapply Forall_impl; [exact Hv|]. cbn. intros c ->.
    by rewrite bool_decide_false by (intros []; done).
Qed.

Lemma authorize_run w : run exec (authorize_request q) w = (Ok e, logged (Granted q e) w).
Proof. unfold authorize_request. rewrite run_try. unfold adapter. cbn. unfold answered. by rewrite He. Qed.
(** The cache holds no entry for the request, or one that still stands. *)
Lemma read_cache_run cur w hc : hc = true →
  match ca_items (w_cache w) !! request_digest q with
  | None => True
  | Some res => rr_request res = q ∧ rr_authorization res = e ∧ validate_evidence q cur e now = Ok ()
  end →
  run exec (read_cache hc q e cur now) w = (Ok (ca_items (w_cache w) !! request_digest q), w).
Proof.
  intros -> Hc. unfold read_cache. rewrite (run_bind_ok _ _ _ w (ca_items (w_cache w) !! request_digest q) w).
  - destruct (ca_items (w_cache w) !! request_digest q) as [res|]; [|done]. destruct Hc as (H1 & H2 & H3).
    assert (validate_cached res q e cur now = Ok ()) as ->; [|done].
    unfold validate_cached. by rewrite H1, H2, H3, !bool_decide_false by (intros []; reflexivity).
  - refine (eq_trans (run_call exec (CacheGet _) w) _). unfold outside_exec. cbn [local_call].
    unfold on_cache, cache_get, gets. by rewrite world_eta.
Qed.

Lemma search_run w cs : an_candidates an = Ok cs → run exec (search_engine q e) w = (Ok cs, logged (Searched q e cs) w).
Proof. intros Hc. unfold search_engine. rewrite run_try. unfold adapter. cbn. unfold answered. by rewrite Hc. Qed.

(** Whether the entry fits, or no cache is used *)
Definition stores (hc : bool) (w : World) (res : RetrievalResult) : Prop :=
  hc = true → ca_items (w_cache w) !! request_digest (rr_request res) = None ∧
    Z.of_nat (size (ca_items (w_cache w))) < ca_max_entries (w_cache w).
Definition stored_in (hc : bool) (c : Cache) (res : RetrievalResult) : Cache :=
  if hc then mkCache (ca_max_entries c) (<[request_digest (rr_request res) := res]> (ca_items c)) else c.

Lemma cache_result_run hc w res : stores hc w res →
  run exec (cache_result hc res) w = (Ok (), with_cache (stored_in hc (w_cache w) res) w).
Proof.
  unfold cache_result, stores, stored_in. destruct hc; [intros Hs|intros _; by destruct w]. destruct (Hs eq_refl) as [Hn Hs'].
  rewrite run_try. assert (cache_put res (w_cache w) = (Ok (), stored_in true (w_cache w) res)) as Ep.
  { unfold cache_put. run_unfold. rewrite Hn. cbn. by rewrite (proj2 (Z.leb_gt _ _) Hs'). }
  assert (run exec (adapter (CachePut res)) w = (Ok (), with_cache (stored_in true (w_cache w) res) w)) as ->; [|done].
  refine (eq_trans (run_call exec (CachePut res) w) _). unfold outside_exec. cbn [local_call]. unfold on_cache. by rewrite Ep.
Qed.

Lemma return_result_run hc w cs : accepted q e now → validate_AuthorizationEvidence e = Ok () →
  Forall (shown q e) cs → NoDup (candidate_key <$> cs) → Z.of_nat (length cs) ≤ rq_limit q →
  let res := mkResult q e (hits_of e 1 cs) in stores hc w res →
  run exec (return_result hc q e (hits_of e 1 cs)) w = (Ok res, with_cache (stored_in hc (w_cache w) res) w).
Proof.
  intros Ha Hev Hs Hn Hl res Hst. unfold return_result.
  rewrite (run_bind_ok _ _ _ w res w).
  - rewrite (run_bind_ok _ _ _ w () (with_cache (stored_in hc (w_cache w) res) w)); [done|]. by apply cache_result_run.
  - assert (construct validate_RetrievalResult (mkResult q e (hits_of e 1 cs)) = Ok res) as Er
      by (apply construct_ok; split; [done|by eapply result_valid]).
    unfold pure. cbn [run]. by rewrite Er.
Qed.
End answers.

(** Up to the cache: current generation, clock, evidence *)
Lemma retrieve_prefix q now e an w hc : validate_RetrievalRequest q = Ok () → an_now an = now → an_evidence an = Ok e →
  catalog_ok (w_catalog w) → answerable w q now e →
  ∃ cur, validate_evidence q cur e now = Ok () ∧
  run (outside_exec an) (retrieve hc q) w =
  run (outside_exec an) (
    cached ← read_cache hc q e cur now;
    match cached with
    | Some cached => mret cached
    | None =>
        if bool_decide (ae_allowed_chunks e = []) then return_result hc q e []
        else
          candidates ← search_engine q e;
          verified ← pure (verify_candidates q e candidates);
          hits ← pure (build_hits e 1 (ranked (rq_limit q) verified));
          return_result hc q e hits
    end) (with_log [TimeRead now; Granted q e] w).
Proof.
  intros Hq Hnow He Hok Hans. destruct (require_current_run q now e an w Hok Hans) as (cur & Ec & Ev).
  exists cur. split; [done|]. unfold retrieve. rewrite (run_bind_ok _ _ _ w cur w) by done.
  rewrite (run_bind_ok _ _ _ w now (logged (TimeRead now) w)).
  2:{ refine (eq_trans (run_call (outside_exec an) Clock w) _). cbn. unfold answered. by rewrite Hnow. }
  rewrite (run_bind_ok _ _ _ _ e (logged (Granted q e) (logged (TimeRead now) w))) by (by apply authorize_run).
  rewrite (run_bind_ok _ _ _ _ () (logged (Granted q e) (logged (TimeRead now) w))) by (unfold pure; cbn [run]; by rewrite Ev).
  f_equal. unfold logged, with_log. cbn. by rewrite <- app_assoc.
Qed.

(** What is ranked can be returned. *)
Lemma ranked_returnable q e cs : validate_RetrievalRequest q = Ok () → verified q e cs →
  let top := ranked (rq_limit q) cs in
  Forall (shown q e) top ∧ NoDup (candidate_key <$> top) ∧ Z.of_nat (length top) ≤ rq_limit q ∧ build_hits e 1 top = Ok (hits_of e 1 top).
Proof.
  intros Hq Hv. pose proof (request_limit _ Hq). pose proof (ranked_length (rq_limit q) cs).
  destruct (verified_facts _ _ _ Hv) as (_ & Hs & [_ Hn]). cbn zeta. split_and!; [|by apply ranked_keys|lia|].
  - rewrite Forall_forall in Hs |- *. intros c Hc%ranked_subset. by apply Hs.
  - destruct Hv as [Hv _]. apply build_hits_ok; [|lia|lia]. rewrite Forall_forall in Hv |- *. intros c Hc%ranked_subset. by apply Hv.
Qed.

Lemma retrieve_run q now e an cs w hc : validate_RetrievalRequest q = Ok () → catalog_ok (w_catalog w) → answerable w q now e → verified q e cs →
  an_now an = now → an_evidence an = Ok e → an_candidates an = Ok cs →
  let res := result_of q e cs in
  stores hc w res →
  let asked := [TimeRead now; Granted q e] ++ (if bool_decide (ae_allowed_chunks e = []) then [] else [Searched q e cs]) in
  run (outside_exec an) (retrieve hc q) w = (Ok res, with_cache (stored_in hc (w_cache w) res) (with_log asked w)).
Proof.
  intros Hq Hok Hans Hver Hnow He Hcs res Hst asked.
  destruct (retrieve_prefix q now e an w hc Hq Hnow He Hok Hans) as (cur & Ev & ->).
  set (w0 := with_log [TimeRead now; Granted q e] w).
  rewrite (run_bind_ok _ _ _ w0 None w0).
  2:{ destruct hc; [|done]. destruct (Hst eq_refl) as [Hn _]. cbn in Hn.
      rewrite (read_cache_run q now e an cur w0 true); [by cbn; rewrite Hn|done|cbn; by rewrite Hn]. }
  destruct Hans as [_ Hev Ha]. destruct (ranked_returnable q e cs Hq Hver) as (Hs & Hn & Hl & Hb).
  pose proof (request_limit _ Hq).
  unfold res, result_of, asked in *. destruct (bool_decide (ae_allowed_chunks e = [])).
  - apply (return_result_run q now e an Hq hc w0 []); try done; [constructor|cbn; lia].
  - rewrite (run_bind_ok _ _ _ _ cs (logged (Searched q e cs) w0)) by (by apply search_run).
    set (w1 := logged (Searched q e cs) w0).
    rewrite (run_bind_ok _ _ _ _ cs w1) by (unfold pure; cbn [run]; by rewrite (proj2 Hver)).
    rewrite (run_bind_ok _ _ _ _ (hits_of e 1 (ranked (rq_limit q) cs)) w1) by (unfold pure; cbn [run]; by rewrite Hb).
    rewrite (return_result_run q now e an Hq hc w1 (ranked (rq_limit q) cs)); try done.
    f_equal. unfold w1, w0, logged, with_log, with_cache. cbn. by rewrite <- app_assoc.
Qed.

Lemma retrieve_again q now e an res w : validate_RetrievalRequest q = Ok () → catalog_ok (w_catalog w) → answerable w q now e →
  an_now an = now → an_evidence an = Ok e → rr_request res = q → rr_authorization res = e →
  ca_items (w_cache w) !! request_digest q = Some res →
  run (outside_exec an) (retrieve true q) w = (Ok res, with_log [TimeRead now; Granted q e] w).
Proof.
  intros Hq Hok Hans Hnow He Hr Hev Hc. destruct (retrieve_prefix q now e an w true Hq Hnow He Hok Hans) as (cur & Ev & ->).
  set (w0 := with_log [TimeRead now; Granted q e] w). rewrite (run_bind_ok _ _ _ w0 (Some res) w0); [done|].
  rewrite (read_cache_run q now e an cur w0 true); [by cbn; rewrite Hc|done|cbn; by rewrite Hc].
Qed.

(** * Theorems *)

(** C17: when the request names the current generation, the evidence is valid, fits
    the request and stands at the reading of the clock, the engine answers rows of
    chunks that this evidence names, none denied and none drifted, and the request is
    not cached yet while the cache has room for it, [retrieve] returns exactly the
    ranking of these rows under the evidence, and stores it; delivered again while
    the evidence stands, the request gets the same result from the cache, without
    another search. *)
Theorem retrieve_returns q now later_now e an again cs w :
  validate_RetrievalRequest q = Ok () → catalog_ok (w_catalog w) → answerable w q now e → authentic q e cs → accepted q e later_now →
  an_now an = now → an_evidence an = Ok e → an_candidates an = Ok cs →
  an_now again = later_now → an_evidence again = Ok e →
  let res := result_of q e cs in
  stores true w res →
  let asked := [TimeRead now; Granted q e] ++ (if bool_decide (ae_allowed_chunks e = []) then [] else [Searched q e cs]) in
  let w1 := with_cache (stored_in true (w_cache w) res) (with_log asked w) in
  run (outside_exec an) (retrieve true q) w = (Ok res, w1) ∧
  run (outside_exec again) (retrieve true q) w1 = (Ok res, with_log [TimeRead later_now; Granted q e] w1).
Proof.
  intros Hq Hok Hans Hau Hlater Hnow He Hcs Hnow' He' res Hst asked w1. split.
  - unfold w1, asked, res. apply retrieve_run; try done. by apply authentic_verified.
  - apply (retrieve_again q later_now e again res w1 Hq); try done.
    + by destruct Hans as [Hc ? _].
    + unfold w1. cbn. by rewrite lookup_insert_eq.
Qed.

(** C22: a generation that is not current can always be cleaned up: after any
    number of attempts, whatever the engine answered to them (nothing, errors,
    objects of another class, partial or foreign checkpoints), it is either
    deleted already or the next attempt to which the engine answers a complete
    checkpoint of the generation deletes it. *)
Theorem cleanup_retry_succeeds m w answers c : world_ok w → cleanable m w → Forall proper_answer answers →
  checkpoint_of m c → cc_complete c = true →
  let w1 := attempts m answers w in
  (∃ r, cg_records (w_catalog w1) !! key_of m = Some r ∧ gr_state r = Deleted) ∨
  (∃ w2, let r := mkGeneration m Deleted (Some c) in
     run (engine_exec (Ok (Checkpoint c))) (cleanup m) w1 = (Ok r, w2) ∧ cg_records (w_catalog w2) !! key_of m = Some r).
Proof.
  intros Hok Hcl Ha Hof Hc. cbn zeta. destruct (attempts_cleanable m answers w Hok Ha Hcl) as [Hok1 (r & Hr & Hm & Hcur)].
  destruct (decide (gr_state r = Deleted)) as [Hd|Hd]; [left; by exists r|right].
  destruct (prepare_cleanup_run (Ok (Checkpoint c)) m (attempts m answers w) r) as (w1 & r1 & E & _ & Hr1 & Hm1 & Hst); [done..|].
  destruct (cleanup_vectors_run m w1 c r1) as (w2 & E2 & Hr2); [done..|]. exists w2. split; [|done].
  unfold cleanup. rewrite (run_bind_ok _ (λ _, cleanup_vectors m) _ _ () w1); done.
Qed.
