(* ===== verification/RetrievalExample.v ===== *)
(** The fixtures of [tests/control_plane/test_retrieval.py] and the instances of
    the retrieval theorems on them, with what the model shows about chunk keys,
    citations and foreign checkpoints. *)
From S2P Require Export RetrievalRuns.
From S2P Require Import Sha256.
From Stdlib Require Import Floats.SpecFloat Lia.
Local Open Scope Z_scope.

Module RetrievalExample.

Definition digest_of (c : ascii) : string := "sha256:" +:+ String.string_of_list_ascii (repeat c 64).
Definition artifact (c : ascii) (name : string) : ArtifactRef := mkArtifact name (digest_of c) "text/markdown".
Definition model : EmbeddingModelRef := mkModel "model:retrieval" "1.0.0" (digest_of "d") 3.
Definition index (generation : string) : IndexRef :=
  mkIndex "tenant:one" "graph:knowledge" ("index:" +:+ generation) "1.0.0" (digest_of "9") generation model 3.
Definition document (id generation : string) (c : ascii) : DocumentRef :=
  mkDocument "tenant:one" "graph:knowledge" id "source:git" "revision:42" (digest_of c) generation (artifact c "artifact:document").
Definition chunk (doc id generation : string) (c : ascii) : ChunkRef :=
  mkChunk (document doc generation c) id 0 (digest_of c) (artifact c "artifact:chunk").
Definition vector (c : ChunkRef) : VectorAuthorityRef :=
  mkVector (do_tenant_ref (ch_document c)) (do_graph_ref (ch_document c)) (do_generation_id (ch_document c)) model 3
    ("engine-vector:" +:+ ch_chunk_id c) (digest_of "6") (ch_content_digest c).
Definition manifest (generation : string) : GenerationManifest :=
  mkManifest "tenant:one" "graph:knowledge" generation "revision:42" (digest_of "3") (index generation) model 2.
Definition request : RetrievalRequest :=
  mkRequest "request:one" "tenant:one" "graph:knowledge" (index "generation:one") (artifact "1" "artifact:query")
    (mkVector "tenant:one" "graph:knowledge" "generation:one" model 3 "engine-vector:query" (digest_of "8") (digest_of "1")) 2.
Definition evidence (chunks : list ChunkRef) : AuthorizationEvidence :=
  mkEvidence "acl:request-one" "request:one" "tenant:one" "graph:knowledge" (index "generation:one") "generation:one" "policy:retrieval"
    chunks 0 90 120.
Definition candidate (c : ChunkRef) (score : float64) : EngineCandidate :=
  mkCandidate c (index (do_generation_id (ch_document c))) (vector c) score ("engine-result:" +:+ ch_chunk_id c).
Definition checkpoint (generation : string) (deleted remaining : Z) (complete : bool) : CleanupCheckpoint :=
  let c d := mkCheckpoint "tenant:one" "graph:knowledge" generation (index generation) ("checkpoint:" +:+ generation) d 2 deleted remaining complete 100 in
  c (canonical_digest (checkpoint_json (c ""))).

Definition three_quarters : float64 := mkFloat (S754_finite false 6755399441055744 (-53)) eq_refl.
Definition half : float64 := mkFloat (S754_finite false 4503599627370496 (-53)) eq_refl.

Definition one : GenerationManifest := manifest "generation:one".
Definition two : GenerationManifest := manifest "generation:two".
Definition chunk_a : ChunkRef := chunk "document:one" "chunk:one" "generation:one" "1".
Definition chunk_b : ChunkRef := chunk "document:two" "chunk:two" "generation:one" "2".
Definition chunk_c : ChunkRef := chunk "document:three" "chunk:three" "generation:one" "4".
Definition granted : AuthorizationEvidence := evidence [chunk_a; chunk_b; chunk_c].
(** The engine lists the best candidate last. *)
Definition found : list EngineCandidate := [candidate chunk_b half; candidate chunk_c half; candidate chunk_a three_quarters].

Definition working (now : Z) (e : AuthorizationEvidence) (cs : list EngineCandidate) : answers :=
  mkAnswers now (Ok e) (Ok cs) (Ok NoCheckpoint).

(** * Worlds *)
Definition empty_world : World := mkWorld new_catalog (mkCache 2 ∅) [].
Lemma empty_initial : initial 2 empty_world.
Proof. by exists (mkCache 2 ∅). Qed.
Definition published : World := (run (engine_exec (Ok NoCheckpoint)) (lifecycle_publish one None) empty_world).2.

Lemma working_proper now e cs : validate_AuthorizationEvidence e = Ok () → Forall (λ c, validate_EngineCandidate c = Ok ()) cs →
  proper_answers (working now e cs).
Proof. intros He Hc. split; [by intros x [= <-]|]. split; [by intros x [= <-]|done]. Qed.

(** A program of the pool runs to its end. *)
Lemma run_pool_steps an (p : proc ()) ps w r w' : proper_answers an → run (outside_exec an) p w = (r, w') →
  pool_steps (p :: ps, w) (Done r :: ps, w').
Proof.
  intros Ha. revert w. induction p as [r0|o k IH]; cbn; intros w E; [by injection E as <- <-|].
  destruct (outside_exec an o w) as [x w1] eqn:Ex. eapply rtc_l; [|by apply (IH x w1)].
  apply (pool_call handle admissible [] o k ps). by eapply outside_exec_handled.
Qed.
Lemma call_pool_steps an (p : proc ()) ps w r w' : proper_answers an → admissible p → run (outside_exec an) p w = (r, w') →
  pool_steps (ps, w) (Done r :: ps, w').
Proof. intros Ha Hp E. eapply rtc_l; [by apply pool_start|]. by eapply run_pool_steps. Qed.

Lemma published_steps : pool_steps ([], empty_world) ([Done (Ok ())], published).
Proof.
  eapply (call_pool_steps (mkAnswers 0 (Raise unavailable) (Raise unavailable) (Ok NoCheckpoint)) (_ ← lifecycle_publish one None; mret ())).
  - by split.
  - right. left. by exists one, None.
  - reflexivity.
Qed.
Lemma published_ok : world_ok published.
Proof. by apply (pool_reachable 2 empty_world _ empty_initial published_steps). Qed.

(** A run without interference *)
Lemma run_interleaved an {A} (p : proc A) w r w' : proper_answers an → run (outside_exec an) p w = (r, w') →
  interleaved handle later p w r w'.
Proof.
  intros Ha. revert w. induction p as [r0|o k IH]; cbn; intros w E; [injection E as <- <-; constructor|].
  destruct (outside_exec an o w) as [x w1] eqn:Ex. eapply interleaved_call; [done|by eapply outside_exec_handled|by apply IH].
Qed.

(** * The fixtures are valid *)
Lemma query_valid : validate_RetrievalRequest request = Ok ().
Proof. by_compute. Qed.
Lemma granted_valid : validate_AuthorizationEvidence granted = Ok ().
Proof. by_compute. Qed.
Lemma found_verified : verified request granted found.
Proof. split; [by_compute|]. unfold found. vm_compute. reflexivity. Qed.
Lemma found_rankable : rankable found.
Proof. exact (proj2 (proj2 (verified_facts request granted found found_verified))). Qed.
Lemma accepted_at now : 90 ≤ now < 120 → accepted request granted now.
Proof. intros H. split; [exact H|reflexivity..]. Qed.
Lemma accepted_119 : accepted request granted 119.
Proof. by apply accepted_at. Qed.
Lemma found_authentic : authentic request granted found.
Proof.
  split; [exact (proj1 found_verified)|by_compute|by_compute|by_compute|by_compute].
Qed.
Lemma fixture_answerable : answerable published request 100 granted.
Proof.
  split; [|apply granted_valid|by apply accepted_at].
  exists (mkGeneration one Active None). split_and!; try done. by_compute.
Qed.
Lemma working_found : proper_answers (working 100 granted found).
Proof. apply working_proper; [apply granted_valid|apply found_verified]. Qed.

(** * Retrieval *)
Definition shown_result : RetrievalResult := result_of request granted found.
Definition retrieved : World :=
  with_cache (stored_in true (w_cache published) shown_result)
    (with_log [TimeRead 100; Granted request granted; Searched request granted found] published).

Lemma nothing_stored : stores true published shown_result.
Proof. intros _. split; [apply lookup_empty|done]. Qed.

Lemma retrieve_run_fixture : run (outside_exec (working 100 granted found)) (retrieve true request) published = (Ok shown_result, retrieved).
Proof.
  exact (retrieve_run request 100 granted (working 100 granted found) found published true query_valid (ok_catalog _ published_ok)
    fixture_answerable found_verified eq_refl eq_refl eq_refl nothing_stored).
Qed.

Lemma retrieve_interleaved : interleaved handle later (retrieve true request) published (Ok shown_result) retrieved.
Proof. exact (run_interleaved _ _ _ _ _ working_found retrieve_run_fixture). Qed.

(** The best candidate first; equal scores by chunk key *)
Lemma ranking_exact_witness :
  ranked 2 found = [candidate chunk_a three_quarters; candidate chunk_c half] ∧ ranked 2 (rev found) = ranked 2 found.
Proof.
  split; [vm_compute; reflexivity|].
  exact (proj1 (ranking_exact 2 found (rev found) found_rankable (Permutation_rev found))).
Defined.

Lemma retrieve_returns_witness :
  (∃ w', run (outside_exec (working 100 granted found)) (retrieve true request) published = (Ok shown_result, w') ∧
    run (outside_exec (working 119 granted [])) (retrieve true request) w' =
      (Ok shown_result, with_log [TimeRead 119; Granted request granted] w')) ∧
  length (rr_hits shown_result) = 2%nat.
Proof.
  split; [|reflexivity]. eexists.
  exact (retrieve_returns request 100 119 granted (working 100 granted found) (working 119 granted []) found published query_valid
    (ok_catalog _ published_ok) fixture_answerable found_authentic accepted_119 eq_refl eq_refl eq_refl eq_refl eq_refl
    nothing_stored).
Defined.

Lemma retrieve_authorized_witness :
  interleaved handle later (retrieve true request) published (Ok shown_result) retrieved ∧
  Forall (λ h, rh_index_ref h = rq_index_ref request ∧
    chunk_key (rh_chunk h) ∈ chunk_key <$> ae_allowed_chunks (rr_authorization shown_result)) (rr_hits shown_result).
Proof.
  split; [exact retrieve_interleaved|].
  exact (proj1 (proj2 (proj2 (proj2 (retrieve_authorized request true published retrieved shown_result query_valid published_ok
    retrieve_interleaved))))).
Defined.

Lemma expired_run : run (outside_exec (working 120 granted found)) (retrieve true request) published =
  (Raise (RetrievalAuthorizationError "acl_evidence_expired_or_future"), with_log [TimeRead 120; Granted request granted] published).
Proof. vm_compute. reflexivity. Qed.

Lemma retrieve_fails_closed_witness :
  (∃ w', interleaved handle later (retrieve true request) published (Raise (RetrievalAuthorizationError "acl_evidence_expired_or_future")) w') ∧
  isinstance (RetrievalAuthorizationError "acl_evidence_expired_or_future") "RetrievalDomainError" = true.
Proof.
  pose proof (run_interleaved (working 120 granted found) _ _ _ _
    (working_proper 120 granted found granted_valid (proj1 found_verified)) expired_run) as Hi.
  split; [eexists; exact Hi|]. exact (proj2 (retrieve_fails_closed request true published _ _ query_valid published_ok Hi)).
Defined.

Lemma retrieve_steps : pool_steps ([], empty_world) ([Done (Ok ()); Done (Ok ())], retrieved).
Proof.
  trans ([Done (Ok ()) : proc ()], published); [exact published_steps|].
  eapply (call_pool_steps (working 100 granted found) (_ ← retrieve true request; mret ())); [exact working_found| |].
  - left. exists true, request. split; [exact query_valid|reflexivity].
  - rewrite (run_bind_ok _ _ _ _ _ _ retrieve_run_fixture). reflexivity.
Qed.

Lemma retrieval_calls_safe_witness :
  ca_items (w_cache retrieved) !! request_digest request = Some shown_result ∧ produced retrieved shown_result.
Proof.
  assert (ca_items (w_cache retrieved) !! request_digest request = Some shown_result) as H by apply lookup_insert_eq.
  split; [exact H|].
  exact (proj2 (proj1 (retrieval_calls_safe 2 empty_world _ empty_initial retrieve_steps) _ _ H)).
Defined.

(** * Generations *)
Definition complete_one : CleanupCheckpoint := checkpoint "generation:one" 2 0 true.
Definition partial_one : CleanupCheckpoint := checkpoint "generation:one" 1 1 false.
(** A checkpoint of another generation *)
Definition complete_two : CleanupCheckpoint := checkpoint "generation:two" 2 0 true.

Lemma complete_one_proper : proper_answer (Ok (Checkpoint complete_one)).
Proof. by_compute. Qed.
Lemma partial_one_proper : proper_answer (Ok (Checkpoint partial_one)).
Proof. by_compute. Qed.
Lemma complete_two_proper : proper_answer (Ok (Checkpoint complete_two)).
Proof. by_compute. Qed.
Lemma complete_one_of : checkpoint_of one complete_one.
Proof. split_and!; reflexivity. Qed.

Definition engine_answers (a : result cleanup_answer) : answers := mkAnswers 0 (Raise unavailable) (Raise unavailable) a.
Lemma engine_proper a : proper_answer a → proper_answers (engine_answers a).
Proof. by split. Qed.

(** Generation two replaces generation one. *)
Definition replaced_world : World := (run (engine_exec (Ok (Checkpoint complete_one))) (reembed one two) published).2.
Lemma reembed_run : run (engine_exec (Ok (Checkpoint complete_one))) (reembed one two) published = (Ok (mkGeneration two Active None), replaced_world).
Proof. vm_compute. reflexivity. Qed.
Lemma reembed_interleaved : interleaved handle later (reembed one two) published (Ok (mkGeneration two Active None)) replaced_world.
Proof. exact (run_interleaved (engine_answers _) _ _ _ _ (engine_proper _ complete_one_proper) reembed_run). Qed.

Lemma reembed_claims_proven_witness :
  ∃ c, cg_records (w_catalog replaced_world) !! key_of one = Some (mkGeneration one Deleted (Some c)) ∧ cc_complete c = true.
Proof.
  destruct (reembed_claims_proven one two published replaced_world _ published_ok reembed_interleaved) as (_ & _ & c & Hr & _ & Hc & _).
  exists c. split; [exact Hr|exact Hc].
Defined.

Lemma replaced_steps : pool_steps ([Done (Ok ())], published) ([Done (Ok ()); Done (Ok ())], replaced_world).
Proof.
  eapply (call_pool_steps (engine_answers (Ok (Checkpoint complete_one))) (_ ← reembed one two; mret ())).
  - exact (engine_proper _ complete_one_proper).
  - right. right. right. by exists one, two.
  - rewrite (run_bind_ok _ _ _ _ _ _ reembed_run). reflexivity.
Qed.

Lemma one_published : cg_records (w_catalog published) !! key_of one = Some (mkGeneration one Active None).
Proof. vm_compute. reflexivity. Qed.
Lemma two_current : cg_current (w_catalog replaced_world) !! ("tenant:one", "graph:knowledge") = Some "generation:two".
Proof. vm_compute. reflexivity. Qed.
#[local] Opaque published replaced_world.

Lemma generation_lifecycle_witness :
  (∃ r, cg_records (w_catalog replaced_world) !! key_of one = Some r ∧ gr_manifest r = one ∧
     gen_path (mkGeneration one Active None) r) ∧
  ∃ r, cg_records (w_catalog replaced_world) !! key_of two = Some r ∧ gr_state r = Active.
Proof.
  destruct (generation_lifecycle 2 empty_world _ _ empty_initial published_steps replaced_steps) as (Hrec & Hcur & _).
  split; [exact (Hrec _ _ one_published)|exact (Hcur _ _ _ two_current)].
Defined.
#[local] Transparent published replaced_world.

(** Generation two is current; generation one was not cleaned up. *)
Definition superseded : World := (run (engine_exec (Ok NoCheckpoint)) (lifecycle_publish two (Some "generation:one")) published).2.
Lemma superseded_ok : world_ok superseded.
Proof.
  refine (later_ok _ _ (proj1 (guarded_run (Ok NoCheckpoint) (lifecycle_publish two (Some "generation:one")) _ published _ _ I
    (publish_rg _ _ _ published_ok) (surjective_pairing _))) published_ok).
Qed.
Lemma superseded_cleanable : cleanable one superseded.
Proof. exists (mkGeneration one Active None). split_and!; [reflexivity|reflexivity|]. intros _. vm_compute. discriminate. Qed.

Definition failures : list (result cleanup_answer) :=
  [Raise unavailable; Ok ForeignObject; Ok (Checkpoint partial_one); Ok (Checkpoint complete_two); Ok NoCheckpoint].
Lemma failures_proper : Forall proper_answer failures.
Proof.
  do 2 (apply Forall_cons; split; [exact I|]). apply Forall_cons. split; [exact partial_one_proper|].
  apply Forall_cons. split; [exact complete_two_proper|]. by apply Forall_cons.
Qed.

Lemma cleanup_retry_succeeds_witness :
  ∃ w2, run (engine_exec (Ok (Checkpoint complete_one))) (cleanup one) (attempts one failures superseded) =
    (Ok (mkGeneration one Deleted (Some complete_one)), w2).
Proof.
  destruct (cleanup_retry_succeeds one superseded failures complete_one superseded_ok superseded_cleanable failures_proper complete_one_of
    eq_refl) as [(r & Hr & Hd)|(w2 & E & _)]; [exfalso|exists w2; exact E].
  assert (gr_state <$> cg_records (w_catalog (attempts one failures superseded)) !! key_of one = Some CleanupFailed) as E
    by (vm_compute; reflexivity).
  rewrite Hr in E. cbn in E. rewrite Hd in E. discriminate E.
Defined.

(** * What the model shows *)

(** A complete checkpoint of another generation: the failure is not recorded,
    and the generation stays retiring instead of failed. *)
Example foreign_checkpoint_unrecorded :
  let '(r, w) := run (engine_exec (Ok (Checkpoint complete_two))) (cleanup one) superseded in
  r = Raise (CleanupIncompleteError "cleanup_failure_state_unrecorded") ∧
  cg_records (w_catalog w) !! key_of one = Some (mkGeneration one Retiring None).
Proof. vm_compute. done. Qed.

(** Identities may contain the separator of chunk keys: chunks of two documents
    share a key, so evidence for one lets the other pass. *)
Definition granted_chunk : ChunkRef := chunk "document:one" "part:intro" "generation:one" "1".
Definition other_chunk : ChunkRef := chunk "document:one:part" "intro" "generation:one" "2".
(** The same chunk of another source revision *)
Definition other_revision : ChunkRef :=
  let d := document "document:one" "generation:one" "5" in
  mkChunk (mkDocument (do_tenant_ref d) (do_graph_ref d) (do_document_id d) (do_source_ref d) "revision:41" (do_content_digest d)
    (do_generation_id d) (do_artifact_ref d)) "part:intro" 0 (digest_of "5") (artifact "5" "artifact:chunk").

Lemma returned_ungranted c : validate_ChunkRef c = Ok () → verified request (evidence [granted_chunk]) [candidate c half] →
  c ≠ granted_chunk →
  ∃ res w, run (outside_exec (working 100 (evidence [granted_chunk]) [candidate c half])) (retrieve true request) published = (Ok res, w) ∧
    rh_chunk <$> rr_hits res = [c] ∧ c ∉ ae_allowed_chunks (rr_authorization res).
Proof.
  intros _ Hv Hne. assert (answerable published request 100 (evidence [granted_chunk])) as Hans.
  { split; [|by_compute|split; [split; [done|reflexivity]|reflexivity..]].
    exists (mkGeneration one Active None). split_and!; try done. by_compute. }
  eexists _, _. split; [eapply (retrieve_run request 100); [exact query_valid|exact (ok_catalog _ published_ok)|exact Hans|exact Hv|reflexivity..|]|].
  - intros _. split; [apply lookup_empty|done].
  - split; [reflexivity|]. cbn. set_solver.
Qed.

(** A hit of a document that the evidence does not name *)
Example foreign_document_returned :
  validate_ChunkRef other_chunk = Ok () ∧ do_document_id (ch_document other_chunk) ≠ do_document_id (ch_document granted_chunk) ∧
  ∃ res w, run (outside_exec (working 100 (evidence [granted_chunk]) [candidate other_chunk half])) (retrieve true request) published = (Ok res, w) ∧
    rh_chunk <$> rr_hits res = [other_chunk] ∧ other_chunk ∉ ae_allowed_chunks (rr_authorization res).
Proof.
  split; [by_compute|]. split; [done|]. apply returned_ungranted; [by_compute| |discriminate].
  split; [by_compute|vm_compute; reflexivity].
Qed.

(** A hit of a revision that is not the generation's *)
Example superseded_revision_returned :
  validate_ChunkRef other_revision = Ok () ∧ do_source_version (ch_document other_revision) ≠ gm_source_version one ∧
  ∃ res w, run (outside_exec (working 100 (evidence [granted_chunk]) [candidate other_revision half])) (retrieve true request) published = (Ok res, w) ∧
    rh_chunk <$> rr_hits res = [other_revision] ∧ other_revision ∉ ae_allowed_chunks (rr_authorization res).
Proof.
  split; [by_compute|]. split; [done|]. apply returned_ungranted; [by_compute| |discriminate].
  split; [by_compute|vm_compute; reflexivity].
Qed.

(** A citation of a revision that no hit has *)
Example citation_of_other_revision :
  let res := result_of request (evidence [granted_chunk]) [candidate granted_chunk half] in
  let c := mkCitation "citation:one" "request:one" other_revision "revision:41" (artifact "5" "artifact:chunk") "generation:one" in
  validate_RetrievalResult res = Ok () ∧ validate_CitationRef c = Ok () ∧ validate_CitationRecord (mkCitations res [c]) = Ok () ∧
  ci_chunk c ∉ rh_chunk <$> rr_hits res.
Proof. cbv zeta. split_and!; by_compute. Qed.

(** Entries leave the cache only when the same request comes again: once it is
    full, every other retrieval fails. *)
Lemma full_cache_fails an res w : ca_items (w_cache w) !! request_digest (rr_request res) = None →
  ca_max_entries (w_cache w) ≤ Z.of_nat (size (ca_items (w_cache w))) →
  run (outside_exec an) (cache_result true res) w = (Raise (RetrievalDomainError "cache_write_failed"), w).
Proof.
  intros Hn Hs. unfold cache_result. rewrite run_try.
  assert (cache_put res (w_cache w) = (Raise (RetrievalReplayError "cache_capacity_exceeded"), w_cache w)) as E.
  { unfold cache_put. run_unfold. rewrite Hn. cbn. by rewrite (proj2 (Z.leb_le _ _) Hs). }
  assert (run (outside_exec an) (adapter (CachePut res)) w = (Raise (RetrievalReplayError "cache_capacity_exceeded"), w)) as ->; [|done].
  refine (eq_trans (run_call (outside_exec an) (CachePut res) w) _). unfold outside_exec. cbn [local_call]. unfold on_cache.
  by rewrite E, world_eta.
Qed.

End RetrievalExample.
